(** * A positional inverted index with TF-IDF ranking: shallow embedding

    The development follows the Python sources module by module
    ([utils], [score_weight], [models], [loader], [optimizer], [search]).

    Conventions of the embedding:
    - Python [int] is [Z]; Python [float] is idealised as a real number [R]
      (no rounding, no NaN, no infinities);
    - Python [str] is [string], compared lexicographically character by
      character, as Python does;
    - a Python [dict] is an association list in insertion order with unique
      keys, since [dict.items()] iterates in insertion order;
    - a call that can raise returns a [result]; [try/except] is a match on
      the exception raised;
    - objects mutated in place become values that are passed on;
    - the attributes of the objects are typed: a [str], an [int], a [float],
      a list of [int]. The code checks no type when it reads JSON, so it can
      return objects that hold values of other types; the embedding follows
      the code up to that point, exceptions included, and ends there with
      [Untyped], after which nothing is stated. *)

From Stdlib Require Import Reals Lra ZArith Lia String Ascii OrdersEx.
From Stdlib Require Import Sorting.Sorted Sorting.Permutation.
From stdpp Require Import base list strings sorting.
From Equations Require Import Equations.

Open Scope string_scope.
Open Scope Z_scope.

(** ** The Python runtime the sources rely on *)

(** The exceptions of Python that the sources can raise, and [Untyped],
    which is none of them: it ends a run in which the code has returned an
    object with a value that the typed attributes here do not hold. *)
Inductive exn : Set :=
| KeyError
| IndexError
| ValueError
| TypeError
| AttributeError
| ZeroDivisionError
| FileNotFoundError
| JSONDecodeError
| Untyped.

Inductive result (A : Type) : Type :=
| Ok (a : A)
| Raise (e : exn).
Arguments Ok {A} a.
Arguments Raise {A} e.

#[global] Instance result_ret : MRet result := fun A a => Ok a.
#[global] Instance result_bind : MBind result :=
  fun A B f m => match m with Ok a => f a | Raise e => Raise e end.
#[global] Instance result_fmap : FMap result :=
  fun A B f m => match m with Ok a => Ok (f a) | Raise e => Raise e end.

(** [x.attr] or [x[...]] on a value that may be [None]. *)
Definition not_none {A} (e : exn) (o : option A) : result A :=
  match o with Some a => Ok a | None => Raise e end.

(** Runs [f] on the elements from left to right, as a [for] loop whose body
    mutates each element; the first exception ends the loop. *)
Fixpoint for_each {A B} (f : A -> result B) (l : list A) : result (list B) :=
  match l with
  | [] => Ok []
  | x :: l' => y ← f x; ys ← for_each f l'; Ok (y :: ys)
  end.

(** A [for] loop that threads an accumulator. *)
Fixpoint for_fold {A S} (f : S -> A -> result S) (s : S) (l : list A) : result S :=
  match l with
  | [] => Ok s
  | x :: l' => s' ← f s x; for_fold f s' l'
  end.

(** [a < b] on [str]. *)
Definition str_ltb (a b : string) : bool :=
  match String_as_OT.compare a b with Lt => true | _ => false end.

(** [a < b] on [float]. *)
Definition Rltb (a b : R) : bool := if Rlt_dec a b then true else false.

(** [a[i]], with Python's negative indices. *)
Definition py_index {A} (a : list A) (i : Z) : result A :=
  let n := Z.of_nat (length a) in
  let j := if i <? 0 then i + n else i in
  if (j <? 0) || (n <=? j) then Raise IndexError
  else not_none IndexError (a !! Z.to_nat j).

(** [a[:n]]: a negative [n] counts from the end. *)
Definition py_slice_to {A} (a : list A) (n : Z) : list A :=
  if n <? 0 then take (Z.to_nat (Z.of_nat (length a) + n)) a
  else take (Z.to_nat n) a.

(** [a[n:]] for [n >= 0]. *)
Definition py_slice_from {A} (a : list A) (n : nat) : list A := drop n a.

(** [x in a] on a list of integers. *)
Definition py_in (x : Z) (a : list Z) : bool := bool_decide (x ∈ a).

(** *** dict *)

Definition dict (V : Type) : Type := list (string * V).

Fixpoint dict_get {V} (d : dict V) (k : string) : option V :=
  match d with
  | [] => None
  | (k', v) :: d' => if String.eqb k' k then Some v else dict_get d' k
  end.

(** [d[k] = v]: an existing key keeps its place, a new key goes last. *)
Fixpoint dict_set {V} (d : dict V) (k : string) (v : V) : dict V :=
  match d with
  | [] => [(k, v)]
  | (k', v') :: d' =>
      if String.eqb k' k then (k', v) :: d' else (k', v') :: dict_set d' k v
  end.

Definition dict_keys {V} (d : dict V) : list string := d.*1.

(** [d[k]] *)
Definition dict_item {V} (d : dict V) (k : string) : result V :=
  not_none KeyError (dict_get d k).

(** *** sorted *)

(** [sorted(l, key=key, reverse=reverse)] is stable and compares keys with
    [<] only. Insertion from the right gives the stable order: an element
    goes before the elements of the sorted rest that do not have to precede
    it. *)
Section Sorted.
Context {A K : Type} (ltb : K -> K -> bool) (key : A -> K).

Definition precedes (reverse : bool) (y x : A) : bool :=
  if reverse then ltb (key x) (key y) else ltb (key y) (key x).

Fixpoint sorted_insert (reverse : bool) (x : A) (s : list A) : list A :=
  match s with
  | [] => [x]
  | y :: s' =>
      if precedes reverse y x then y :: sorted_insert reverse x s'
      else x :: y :: s'
  end.

Definition sorted (reverse : bool) (l : list A) : list A :=
  foldr (sorted_insert reverse) [] l.
End Sorted.

(** ** utils.py *)

Equations? bs_loop {V} (a : list (string * V)) (x : string) (low high : Z) : result Z
  by wf (Z.to_nat (high - low)) lt :=
bs_loop a x low high with Z_lt_dec low high := {
  | left _ =>
      match py_index a ((low + high) `div` 2) with
      | Raise e => Raise e
      | Ok kv =>
          if str_ltb kv.1 x
          then bs_loop a x ((low + high) `div` 2 + 1) high
          else bs_loop a x low ((low + high) `div` 2)
      end
  | right _ => Ok low }.
Proof.
  all: pose proof (Z.mod_pos_bound (low + high) 2 ltac:(lia));
    pose proof (Z.div_mod (low + high) 2 ltac:(lia)); lia.
Qed.

Definition binary_search_tuple {V} (a : list (string * V)) (x : string) : result V :=
  low ← bs_loop a x 0 (Z.of_nat (length a) - 1);
  kv ← py_index a low;
  if String.eqb kv.1 x then Ok kv.2 else Raise KeyError.

(** ** score_weight.py *)

Open Scope R_scope.

Definition PHRASE_QUERY_WEIGHT : R := 2.
Definition TITLE_TOKEN_WEIGHT : R := 2.
Definition TAG_TOKEN_WEIGHT : R := 15 / 10.
Definition DATE_WEIGHT : R := 4 / 10.
Definition INDEX_ELIMINATION : option R := None.

(** [math.log2]: a math domain error outside the positive numbers. *)
Definition log2 (x : R) : result R :=
  if Rlt_dec 0 x then Ok (ln x / ln 2) else Raise ValueError.

Definition calculate_tf (linear_tf : Z) : result R :=
  if (linear_tf =? 0)%Z then Ok 0
  else l ← log2 (IZR linear_tf); Ok (1 + l).

Definition calculate_idf (number_of_docs_contain_token number_of_docs : Z) : result R :=
  if (number_of_docs_contain_token =? 0)%Z then Ok 0
  else log2 (IZR number_of_docs / IZR number_of_docs_contain_token).

(** [a / b] on floats. *)
Definition py_div (a b : R) : result R :=
  if Req_dec_T b 0 then Raise ZeroDivisionError else Ok (a / b).

(** [d[k] += v] when [k in d], [d[k] = v] otherwise. *)
Definition dict_add (d : dict R) (k : string) (v : R) : dict R :=
  match dict_get d k with
  | Some old => dict_set d k (old + v)
  | None => dict_set d k v
  end.

Close Scope R_scope.

(** ** models.py: DocumentTokenData *)

Record DocumentTokenData : Type := {
  tf : R;
  linear_tf : Z;
  positions : list Z;
  _weight : R
}.

(** [DocumentTokenData()] *)
Definition DocumentTokenData_new : DocumentTokenData :=
  {| tf := (-1)%R; linear_tf := 0; positions := []; _weight := 1%R |}.

(** [DocumentTokenData(tf, linear_tf, positions)] *)
Definition DocumentTokenData_init (tf : R) (linear_tf : Z) (positions : list Z)
  : DocumentTokenData :=
  {| tf := tf; linear_tf := linear_tf; positions := positions; _weight := 1%R |}.

(** [DocumentTokenData.__add_position__] *)
Definition DocumentTokenData_add_position
    (d : DocumentTokenData) (position : Z) (weight : R) : DocumentTokenData :=
  {| tf := tf d;
     linear_tf := linear_tf d + 1;
     positions := positions d ++ [position];
     _weight := (_weight d * weight)%R |}.

(** [DocumentTokenData.__update_tf__] *)
Definition DocumentTokenData_update_tf (d : DocumentTokenData) : result DocumentTokenData :=
  t ← calculate_tf (linear_tf d);
  Ok {| tf := (t * _weight d)%R;
        linear_tf := linear_tf d;
        positions := positions d;
        _weight := _weight d |}.

(** ** models.py: Token *)

(** [__list__] is the working dict of the building phase, [list_] (the
    attribute [list]) the frozen postings, [champions_list] the optional
    pruned postings. *)
Record Token : Type := {
  idf : R;
  linear_df : Z;
  __list__ : option (dict DocumentTokenData);
  list_ : option (list (string * DocumentTokenData));
  champions_list : option (list (string * DocumentTokenData))
}.

(** [Token()] *)
Definition Token_new : Token :=
  {| idf := (-1)%R; linear_df := 0; __list__ := Some [];
     list_ := None; champions_list := None |}.

(** [Token(idf, linear_df, positional_list)] *)
Definition Token_init (idf : R) (linear_df : Z)
    (positional_list : list (string * DocumentTokenData)) : Token :=
  {| idf := idf; linear_df := linear_df; __list__ := None;
     list_ := Some positional_list; champions_list := None |}.

(** [Token.__add_position__] *)
Definition Token_add_position (t : Token) (doc_id : string) (position : Z) (weight : R)
  : result Token :=
  l ← not_none AttributeError (__list__ t);
  match dict_get l doc_id with
  | None =>
      let source := DocumentTokenData_add_position DocumentTokenData_new position weight in
      Ok {| idf := idf t; linear_df := linear_df t + 1;
            __list__ := Some (dict_set l doc_id source);
            list_ := list_ t; champions_list := champions_list t |}
  | Some source =>
      let source := DocumentTokenData_add_position source position weight in
      Ok {| idf := idf t; linear_df := linear_df t;
            __list__ := Some (dict_set l doc_id source);
            list_ := list_ t; champions_list := champions_list t |}
  end.

(** [Token.__finalize__] *)
Definition Token_finalize (t : Token) (number_of_documents : Z) : result Token :=
  i ← calculate_idf (linear_df t) number_of_documents;
  l ← not_none AttributeError (__list__ t);
  l' ← for_each (fun kd => d ← DocumentTokenData_update_tf kd.2; Ok (kd.1, d)) l;
  Ok {| idf := i; linear_df := linear_df t;
        __list__ := Some l';
        list_ := Some (sorted str_ltb fst false l');
        champions_list := champions_list t |}.

(** [Token.__get_search_scope_list__] *)
Definition Token_get_search_scope_list (t : Token)
  : option (list (string * DocumentTokenData)) :=
  match champions_list t with
  | Some c => Some c
  | None => list_ t
  end.

(** [Token.__getitem__] *)
Definition Token_getitem (t : Token) (doc_id : string) : result DocumentTokenData :=
  a ← not_none TypeError (Token_get_search_scope_list t);
  binary_search_tuple a doc_id.

(** [Token.get_term_frequency] *)
Definition Token_get_term_frequency (t : Token) (doc_id : string) : result Z :=
  match Token_getitem t doc_id with
  | Ok d => Ok (linear_tf d)
  | Raise KeyError => Ok 0
  | Raise e => Raise e
  end.

(** [Token.__iter__] *)
Definition Token_iter (t : Token) : result (list (string * DocumentTokenData)) :=
  not_none AttributeError (Token_get_search_scope_list t).

(** ** models.py: PositionalInvertedIndexOnMemory *)

Record PositionalInvertedIndexOnMemory : Type := {
  __tokens__ : option (dict Token);
  tokens : option (list (string * Token))
}.

(** [PositionalInvertedIndexOnMemory()] *)
Definition PII_new : PositionalInvertedIndexOnMemory :=
  {| __tokens__ := Some []; tokens := None |}.

(** [PositionalInvertedIndexOnMemory(tokens)] *)
Definition PII_init (tokens : list (string * Token)) : PositionalInvertedIndexOnMemory :=
  {| __tokens__ := None; tokens := Some tokens |}.

(** [PositionalInvertedIndexOnMemory.__add_token__] *)
Definition PII_add_token (p : PositionalInvertedIndexOnMemory)
    (token_str doc_id : string) (position : Z) (weight : R)
  : result PositionalInvertedIndexOnMemory :=
  d ← not_none AttributeError (__tokens__ p);
  let source := default Token_new (dict_get d token_str) in
  source' ← Token_add_position source doc_id position weight;
  Ok {| __tokens__ := Some (dict_set d token_str source'); tokens := tokens p |}.

(** [PositionalInvertedIndexOnMemory.__finalize__] *)
Definition PII_finalize (p : PositionalInvertedIndexOnMemory) (number_of_documents : Z)
  : result PositionalInvertedIndexOnMemory :=
  d ← not_none AttributeError (__tokens__ p);
  d' ← for_each (fun kt => t ← Token_finalize kt.2 number_of_documents; Ok (kt.1, t)) d;
  Ok {| __tokens__ := Some d'; tokens := Some (sorted str_ltb fst false d') |}.

(** [PositionalInvertedIndexOnMemory.__iter__] *)
Definition PII_iter (p : PositionalInvertedIndexOnMemory) : result (list (string * Token)) :=
  not_none AttributeError (tokens p).

(** [PositionalInvertedIndexOnMemory.__getitem__] *)
Definition PII_getitem (p : PositionalInvertedIndexOnMemory) (token : string) : result Token :=
  a ← not_none TypeError (tokens p);
  binary_search_tuple a token.

(** ** search.py: cosine_score and phrase_query *)

(** The loop over the postings visible for one query term; the elimination
    threshold, when set, ends it after the first posting below it. *)
Fixpoint cosine_postings (elimination : option R) (token_idf wtq : R)
    (postings : list (string * DocumentTokenData)) (doc_scores : dict R) : dict R :=
  match postings with
  | [] => doc_scores
  | (doc_id, doc_data) :: rest =>
      let wtd := (tf doc_data * token_idf)%R in
      let doc_scores := dict_add doc_scores doc_id (wtd * wtq)%R in
      match elimination with
      | Some threshold =>
          if Rltb wtd threshold then doc_scores
          else cosine_postings elimination token_idf wtq rest doc_scores
      | None => cosine_postings elimination token_idf wtq rest doc_scores
      end
  end.

Definition cosine_score (pii query_pii : PositionalInvertedIndexOnMemory)
  : result (dict R) :=
  query_tokens ← PII_iter query_pii;
  for_fold
    (fun doc_scores qt =>
       query_list ← not_none TypeError (list_ qt.2);
       first ← py_index query_list 0;
       let wtq := tf first.2 in
       match PII_getitem pii qt.1 with
       | Raise KeyError => Ok doc_scores
       | Raise e => Raise e
       | Ok token_data =>
           postings ← Token_iter token_data;
           Ok (cosine_postings INDEX_ELIMINATION (idf token_data) wtq postings doc_scores)
       end)
    [] query_tokens.

(** [pii[token][doc_id].positions] *)
Definition positions_of (pii : PositionalInvertedIndexOnMemory) (token doc_id : string)
  : result (list Z) :=
  t ← PII_getitem pii token;
  d ← Token_getitem t doc_id;
  Ok (positions d).

(** The [while] loop of [phrase_query] that looks for the starting term:
    returns [positions] and the final [token_pos]. *)
Equations? phrase_start (pii : PositionalInvertedIndexOnMemory)
    (query_tokens : list (string * Token)) (doc_id : string) (token_pos : nat)
  : result (option (list Z) * nat)
  by wf (length query_tokens - token_pos)%nat lt :=
phrase_start pii query_tokens doc_id token_pos
  with decide (token_pos + 1 < length query_tokens)%nat := {
  | left _ =>
      match (qt ← py_index query_tokens (Z.of_nat token_pos);
             positions_of pii qt.1 doc_id) with
      | Ok ps => Ok (Some ps, token_pos)
      | Raise KeyError => phrase_start pii query_tokens doc_id (token_pos + 1)
      | Raise e => Raise e
      end
  | right _ => Ok (None, token_pos) }.
Proof. lia. Qed.

(** The inner [for] loop over the query terms after the starting one:
    returns the final [match_length]. *)
Fixpoint phrase_walk (pii : PositionalInvertedIndexOnMemory) (doc_id : string)
    (rest : list (string * Token)) (pos match_length : Z) : result Z :=
  match rest with
  | [] => Ok match_length
  | (token, _) :: rest' =>
      match positions_of pii token doc_id with
      | Raise KeyError => Ok match_length
      | Raise e => Raise e
      | Ok sp =>
          if py_in (pos + 1) sp
          then phrase_walk pii doc_id rest' (pos + 1) (match_length + 1)
          else Ok match_length
      end
  end.

(** The loop over the start positions: returns [max_consecutive]. *)
Definition phrase_runs (pii : PositionalInvertedIndexOnMemory) (doc_id : string)
    (rest : list (string * Token)) (positions : list Z) : result Z :=
  for_fold
    (fun max_consecutive start_pos =>
       if start_pos =? -1 then Ok max_consecutive
       else
         match_length ← phrase_walk pii doc_id rest start_pos 1;
         Ok (Z.max max_consecutive match_length))
    0 positions.

(** The body of the loop of [phrase_query] over the candidate documents:
    the score to store for [doc_id], if any. *)
Definition phrase_query_doc (pii : PositionalInvertedIndexOnMemory)
    (query_tokens : list (string * Token)) (doc_id : string) : result (option R) :=
  let len_of_query := length query_tokens in
  start ← phrase_start pii query_tokens doc_id 0;
  match start with
  | (None, _) => Ok None
  | (Some positions, token_pos) =>
      if bool_decide (len_of_query ≤ token_pos + 1)%nat then Ok None
      else
        max_consecutive ←
          phrase_runs pii doc_id (py_slice_from query_tokens (token_pos + 1)) positions;
        if 1 <? max_consecutive
        then Ok (Some (1 + PHRASE_QUERY_WEIGHT
                           * (IZR max_consecutive / INR len_of_query))%R)
        else Ok None
  end.

Definition phrase_query (pii query_pii : PositionalInvertedIndexOnMemory)
    (doc_ids : list string) : result (dict R) :=
  query_tokens ← not_none TypeError (tokens query_pii);
  for_fold
    (fun doc_scores doc_id =>
       s ← phrase_query_doc pii query_tokens doc_id;
       Ok (match s with
           | Some v => dict_set doc_scores doc_id v
           | None => doc_scores
           end))
    [] doc_ids.

(** ** heapq, as used by search.py *)

Record SearchedDocument (D : Type) : Type := {
  doc : D;
  score : R
}.
Arguments doc {D} _.
Arguments score {D} _.

(** [__SearchedDocument.__lt__] *)
Definition SearchedDocument_lt {D} (a b : SearchedDocument D) : bool :=
  Rltb (score a) (score b).

(** [heapq._siftdown]: moves [newitem], taken from position [pos], up the
    heap until its parent is not larger. *)
Equations? siftdown {A} (ltb : A -> A -> bool) (heap : list A) (newitem : A)
    (startpos pos : nat) : list A by wf pos lt :=
siftdown ltb heap newitem startpos pos with decide (startpos < pos)%nat := {
  | left _ =>
      match heap !! Nat.div2 (pos - 1) with
      | Some parent =>
          if ltb newitem parent
          then siftdown ltb (<[pos := parent]> heap) newitem startpos (Nat.div2 (pos - 1))
          else <[pos := newitem]> heap
      | None => <[pos := newitem]> heap
      end
  | right _ => <[pos := newitem]> heap }.
Proof.
  destruct pos as [|n]; [lia|].
  replace (S n - 1)%nat with n by lia.
  destruct n as [|m]; [simpl; lia|].
  pose proof (Nat.lt_div2 (S m)). lia.
Qed.

(** [heapq.heappush] *)
Definition heappush {A} (ltb : A -> A -> bool) (heap : list A) (item : A) : list A :=
  siftdown ltb (heap ++ [item]) item 0 (length heap).

(** [heapq.nlargest(n, iterable, key)]: the first [n] elements of
    [sorted(iterable, key=key, reverse=True)], and nothing for [n <= 0]. *)
Definition nlargest {A} (n : Z) (iterable : list A) (key : A -> R) : list A :=
  if n <=? 0 then [] else take (Z.to_nat n) (sorted Rltb key true iterable).

(** ** json and the files of the cache and of the collection *)

Unset Elimination Schemes.
Inductive json : Type :=
| JNull
| JBool (b : bool)
| JInt (z : Z)
| JFloat (r : R)
| JString (s : string)
| JList (l : list json)
| JDict (d : list (string * json)).
Set Elimination Schemes.

(** What [json.load] finds in a file: text that is not JSON, or the text of
    a JSON value, which [json.dump] writes. The keys of an object that
    [json.load] returns are distinct. *)
Inductive file_content : Type :=
| NotJson (text : string)
| JsonText (j : json).

Definition file_system : Type := dict file_content.

(** [with open(name, 'r') as f: json.load(f)] *)
Definition json_load (fs : file_system) (name : string) : result json :=
  match dict_get fs name with
  | None => Raise FileNotFoundError
  | Some (NotJson _) => Raise JSONDecodeError
  | Some (JsonText j) => Ok j
  end.

(** [with open(name, 'w') as f: json.dump(j, f)] *)
Definition json_dump (fs : file_system) (name : string) (j : json) : file_system :=
  dict_set fs name (JsonText j).

(** [j[key]] on a value read from JSON. *)
Definition json_item (j : json) (key : string) : result json :=
  match j with
  | JDict d => not_none KeyError (dict_get d key)
  | _ => Raise TypeError
  end.

(** The characters of a [str], each a [str] of length 1. *)
Fixpoint characters (s : string) : list string :=
  match s with
  | EmptyString => []
  | String c s' => String c EmptyString :: characters s'
  end.

(** [for x in j] on a value read from JSON: the elements of a list, the keys
    of an object, the characters of a string; the other values are not
    iterable. *)
Definition json_iter (j : json) : result (list json) :=
  match j with
  | JList l => Ok l
  | JDict d => Ok (JString <$> d.*1)
  | JString s => Ok (JString <$> characters s)
  | _ => Raise TypeError
  end.

(** The typed reading of a value that the code has stored in an attribute
    without a check: the value when it has the type of the attribute, and
    [Untyped] otherwise. An [int] is read as a number where the attribute is
    a [float]. *)
Definition json_number (j : json) : result R :=
  match j with
  | JFloat r => Ok r
  | JInt z => Ok (IZR z)
  | _ => Raise Untyped
  end.

Definition json_int (j : json) : result Z :=
  match j with JInt z => Ok z | _ => Raise Untyped end.

Definition json_str (j : json) : result string :=
  match j with JString s => Ok s | _ => Raise Untyped end.

Definition json_ints (j : json) : result (list Z) :=
  match j with JList l => for_each json_int l | _ => Raise Untyped end.

(** A value or [None]. *)
Definition json_optional {A} (read : json -> result A) (j : json) : result (option A) :=
  match j with JNull => Ok None | _ => Some <$> read j end.

Definition json_strs (j : json) : result (list string) :=
  match j with JList l => for_each json_str l | _ => Raise Untyped end.

(** ** models.py: Document *)

Record Document : Type := {
  doc_id : string;
  title : string;
  url : string;
  content : string;
  date : option string;
  tags : option (list string)
}.

(** What the sources take from outside the repository: the tokenizer
    ([tokenizer.tokenize] rests on the hazm and emoji packages) and the
    [datetime] class: [strptime] with the format of [parse_date] ([None] for
    a [ValueError]), [timestamp], which raises for a datetime out of the
    range of the platform, as [datetime.min.timestamp()] does, [<],
    [datetime.min] and [datetime.max]. *)
Class Externals : Type := {
  tokenize : string -> list string;
  datetime : Type;
  strptime : string -> option datetime;
  timestamp : datetime -> result R;
  datetime_ltb : datetime -> datetime -> bool;
  datetime_min : datetime;
  datetime_max : datetime
}.

Section Engine.

Context `{Externals}.

(** [utils.parse_date] *)
Definition parse_date (date : option string) (default_ : datetime) : result datetime :=
  match date with
  | None => Raise TypeError
  | Some s => Ok (default default_ (strptime s))
  end.

(** [score_weight.date_score] *)
Definition date_score (date : option string) (max_date min_date : datetime) : result R :=
  date_obj ← parse_date date min_date;
  min_timestamp ← timestamp min_date;
  max_timestamp ← timestamp max_date;
  let total_delta := Rmax 1 (max_timestamp - min_timestamp) in
  date_timestamp ← timestamp date_obj;
  let time_delta := (date_timestamp - min_timestamp)%R in
  Ok (Rabs (time_delta / total_delta) * DATE_WEIGHT)%R.

(** [Document.get_tokens] *)
Definition get_tokens (d : Document) : list string := tokenize (content d).

(** [Document.get_weighted_tokens] *)
Definition get_weighted_tokens (d : Document) : list (string * R) :=
  ((fun x => (x, TITLE_TOKEN_WEIGHT)) <$> tokenize (title d))
  ++ match tags d with
     | None => []
     | Some ts =>
         mjoin ((fun tag => (fun x => (x, TAG_TOKEN_WEIGHT)) <$> tokenize tag) <$> ts)
     end.

(** ** models.py: IRData *)

Record IRData : Type := {
  pii : PositionalInvertedIndexOnMemory;
  docs : dict Document;
  max_doc_date : datetime;
  min_doc_date : datetime;
  doc_lengths : dict R
}.

(** [max(a, b)] and [min(a, b)] on datetimes. *)
Definition datetime_max2 (a b : datetime) : datetime :=
  if datetime_ltb a b then b else a.
Definition datetime_min2 (a b : datetime) : datetime :=
  if datetime_ltb b a then b else a.

(** The first loop of [IRData.__init__]: metadata and date range. *)
Definition IRData_documents (ds : list Document)
  : result (dict Document * datetime * datetime) :=
  for_fold
    (fun '(acc, max_date, min_date) d =>
       d1 ← parse_date (date d) max_date;
       let max_date := datetime_max2 d1 max_date in
       d2 ← parse_date (date d) min_date;
       let min_date := datetime_min2 d2 min_date in
       Ok (dict_set acc (doc_id d)
             {| doc_id := doc_id d; title := title d; url := url d;
                content := EmptyString; date := date d; tags := None |},
           max_date, min_date))
    ([], datetime_min, datetime_max) ds.

(** The second loop of [IRData.__init__]: the sums of squared weights. *)
Definition IRData_square_sums (toks : list (string * Token)) : result (dict R) :=
  for_fold
    (fun doc_lengths st =>
       l ← not_none TypeError (list_ st.2);
       Ok (foldl
             (fun doc_lengths dd =>
                let tf_idf := (tf dd.2 * idf st.2)%R in
                dict_add doc_lengths dd.1 (tf_idf ^ 2)%R)
             doc_lengths l))
    [] toks.

(** [IRData.__init__]; the last loop replaces each sum by its floored
    square root. *)
Definition IRData_init (pii : PositionalInvertedIndexOnMemory) (ds : list Document)
  : result IRData :=
  '(dm, max_date, min_date) ← IRData_documents ds;
  toks ← not_none TypeError (tokens pii);
  sums ← IRData_square_sums toks;
  Ok {| pii := pii; docs := dm;
        max_doc_date := max_date; min_doc_date := min_date;
        doc_lengths := (fun kv => (kv.1, Rmax 1 (sqrt kv.2))) <$> sums |}.

(** [IRData.get_document_frequency] *)
Definition IRData_get_document_frequency (ir : IRData) (token_str : string) : result Z :=
  match PII_getitem (pii ir) token_str with
  | Ok t => Ok (linear_df t)
  | Raise KeyError => Ok 0
  | Raise e => Raise e
  end.

(** [IRData.get_term_frequency] *)
Definition IRData_get_term_frequency (ir : IRData) (token_str doc_id : string)
  : result Z :=
  match (t ← PII_getitem (pii ir) token_str; Token_get_term_frequency t doc_id) with
  | Ok n => Ok n
  | Raise KeyError => Ok 0
  | Raise e => Raise e
  end.

(** ** loader.py *)

(** The arguments of one call of [Document(...)] in [load_documents]: the
    key and the five values that the lookups found. *)
Definition document_fields (item : string * json)
  : result (string * json * json * json * json * json) :=
  t ← json_item item.2 "title";
  u ← json_item item.2 "url";
  c ← json_item item.2 "content";
  dt ← json_item item.2 "date";
  tg ← json_item item.2 "tags";
  Ok (item.1, t, u, c, dt, tg).

(** The typed reading of the document that the call made. *)
Definition typed_document (f : string * json * json * json * json * json)
  : result Document :=
  let '(id, t, u, c, dt, tg) := f in
  t ← json_str t;
  u ← json_str u;
  c ← json_str c;
  dt ← json_optional json_str dt;
  tg ← json_optional json_strs tg;
  Ok {| doc_id := id; title := t; url := u; content := c; date := dt; tags := tg |}.

(** [load_documents]: the loop of the code, which looks the five fields up
    and checks nothing else, and then the typed reading of the documents that
    it returns. *)
Definition load_documents (fs : file_system) (file : string) : result (list Document) :=
  json_data ← json_load fs file;
  items ← match json_data with JDict d => Ok d | _ => Raise AttributeError end;
  docs ← for_each document_fields items;
  for_each typed_document docs.

(** [create_pii] *)
Definition create_pii (ds : list Document) : result PositionalInvertedIndexOnMemory :=
  p ← for_fold
        (fun p d =>
           p ← for_fold
                 (fun p tw => PII_add_token p tw.1 (doc_id d) (-1) tw.2)
                 p (get_weighted_tokens d);
           for_fold
             (fun p it => PII_add_token p it.2 (doc_id d) (Z.of_nat it.1) 1%R)
             p (imap pair (get_tokens d)))
        PII_new ds;
  PII_finalize p (Z.of_nat (length ds)).

(** [create_query_pii] *)
Definition create_query_pii (query : string) : result PositionalInvertedIndexOnMemory :=
  create_pii [ {| doc_id := "0"; title := EmptyString; url := EmptyString;
                  content := query; date := None; tags := None |} ].

(** ** optimizer.py *)

Definition cache_name (file : string) : string := file ++ ".cache".

(** The JSON value that [write_cache] dumps. *)
Definition cache_json (p : PositionalInvertedIndexOnMemory) : result json :=
  toks ← not_none TypeError (tokens p);
  postings_list ←
    for_each
      (fun st =>
         l ← not_none TypeError (list_ st.2);
         let positional_list :=
           (fun dd =>
              JDict [("doc_id", JString dd.1);
                     ("tf", JFloat (tf dd.2));
                     ("lf", JInt (linear_tf dd.2));
                     ("list", JList (JInt <$> positions dd.2))]) <$> l in
         Ok (JDict [("term", JString st.1);
                    ("idf", JFloat (idf st.2));
                    ("df", JInt (linear_df st.2));
                    ("list", JList positional_list)]))
      toks;
  Ok (JList postings_list).

(** [write_cache] *)
Definition write_cache (fs : file_system) (p : PositionalInvertedIndexOnMemory)
    (file : string) : result file_system :=
  j ← cache_json p;
  Ok (json_dump fs (cache_name file) j).

(** The loops of [read_from_cache] over the loaded JSON: for each record the
    values that the lookups found, in the order of the lookups; no value is
    checked. A posting is (doc_id, (tf, lf, list)), a term is
    (term, (idf, df, postings)). *)
Definition cache_posting (json_list : json) : result (json * (json * json * json)) :=
  t ← json_item json_list "tf";
  lf ← json_item json_list "lf";
  ps ← json_item json_list "list";
  d ← json_item json_list "doc_id";
  Ok (d, (t, lf, ps)).

Definition cache_token (json_token : json)
  : result (json * (json * json * list (json * (json * json * json)))) :=
  jl ← json_item json_token "list";
  entries ← json_iter jl;
  positional_list ← for_each cache_posting entries;
  i ← json_item json_token "idf";
  df ← json_item json_token "df";
  term ← json_item json_token "term";
  Ok (term, (i, df, positional_list)).

(** The typed reading of the objects that the loops made. *)
Definition typed_posting (e : json * (json * json * json))
  : result (string * DocumentTokenData) :=
  d ← json_str e.1;
  t ← json_number e.2.1.1;
  lf ← json_int e.2.1.2;
  ps ← json_ints e.2.2;
  Ok (d, DocumentTokenData_init t lf ps).

Definition typed_token (e : json * (json * json * list (json * (json * json * json))))
  : result (string * Token) :=
  term ← json_str e.1;
  i ← json_number e.2.1.1;
  df ← json_int e.2.1.2;
  positional_list ← for_each typed_posting e.2.2;
  Ok (term, Token_init i df positional_list).

(** The index that [read_from_cache] rebuilds from the loaded JSON. *)
Definition cache_index (json_data : json) : result PositionalInvertedIndexOnMemory :=
  records ← json_iter json_data;
  json_tokens ← for_each cache_token records;
  toks ← for_each typed_token json_tokens;
  Ok (PII_init toks).

(** [read_from_cache]: [None] when the cache file does not exist. *)
Definition read_from_cache (fs : file_system) (file : string)
  : result (option PositionalInvertedIndexOnMemory) :=
  match json_load fs (cache_name file) with
  | Raise FileNotFoundError => Ok None
  | Raise e => Raise e
  | Ok json_data => Some <$> cache_index json_data
  end.

(** The champions list of one token, for [r] that is not [None]. *)
Definition champions (doc_lengths : dict R) (token : Token) (r : Z)
  : result (list (string * DocumentTokenData)) :=
  l ← not_none TypeError (list_ token);
  keyed ← for_each
            (fun td =>
               len ← dict_item doc_lengths td.1;
               k ← py_div (idf token * tf td.2) len;
               Ok (k, td))
            l;
  let tf_sorted := (sorted Rltb fst true keyed).*2 in
  let tf_sorted := py_slice_to tf_sorted r in
  Ok (sorted str_ltb fst false tf_sorted).

(** [generate_champions_list]; the tokens of [ir.pii] get their
    [champions_list]. *)
Definition generate_champions_list (ir : IRData) (r : option Z) : result IRData :=
  match r with
  | None => Ok ir
  | Some r =>
      toks ← PII_iter (pii ir);
      toks' ← for_each
                (fun st =>
                   c ← champions (doc_lengths ir) st.2 r;
                   Ok (st.1,
                       {| idf := idf st.2; linear_df := linear_df st.2;
                          __list__ := __list__ st.2; list_ := list_ st.2;
                          champions_list := Some c |}))
                toks;
      Ok {| pii := {| __tokens__ := __tokens__ (pii ir); tokens := Some toks' |};
            docs := docs ir;
            max_doc_date := max_doc_date ir; min_doc_date := min_doc_date ir;
            doc_lengths := doc_lengths ir |}
  end.

(** [loader.create]: returns the collection and the files as it leaves
    them. *)
Definition create (fs : file_system) (file : string) (cache : bool)
    (champions_list_r : option Z) : result (IRData * file_system) :=
  ds ← load_documents fs file;
  cache_pii ← (if cache then read_from_cache fs file else Ok None);
  match cache_pii with
  | Some cache_pii =>
      ir ← IRData_init cache_pii ds;
      ir ← generate_champions_list ir champions_list_r;
      Ok (ir, fs)
  | None =>
      p ← create_pii ds;
      fs ← (if cache then write_cache fs p file else Ok fs);
      ir ← IRData_init p ds;
      ir ← generate_champions_list ir champions_list_r;
      Ok (ir, fs)
  end.

(** ** search.py: search *)

(** The body of the loop of [search] over the scored documents: the
    document and its final score. *)
Definition scored_document (ir : IRData) (phrase_scores : option (dict R))
    (date_score_ : bool) (ds : string * R) : result (SearchedDocument Document) :=
  d ← dict_item (docs ir) ds.1;
  len ← dict_item (doc_lengths ir) ds.1;
  normalized_score ← py_div ds.2 len;
  let normalized_score :=
    match phrase_scores with
    | Some ps => (normalized_score * default 1%R (dict_get ps ds.1))%R
    | None => normalized_score
    end in
  normalized_score ←
    (if date_score_
     then b ← date_score (date d) (max_doc_date ir) (min_doc_date ir);
          Ok (normalized_score + b)%R
     else Ok normalized_score);
  Ok {| doc := d; score := normalized_score |}.

Definition search (ir : IRData) (query : string) (k : Z)
    (date_score_ phrase_query_score : bool)
    (score_function : PositionalInvertedIndexOnMemory ->
                      PositionalInvertedIndexOnMemory -> result (dict R))
  : result (list (Document * R)) :=
  query_pii ← create_query_pii query;
  doc_scores ← score_function (pii ir) query_pii;
  phrase_scores ←
    (if phrase_query_score
     then Some <$> phrase_query (pii ir) query_pii (dict_keys doc_scores)
     else Ok None);
  doc_heap ←
    for_fold
      (fun doc_heap ds =>
         sd ← scored_document ir phrase_scores date_score_ ds;
         Ok (heappush SearchedDocument_lt doc_heap sd))
      [] doc_scores;
  Ok ((fun sd => (doc sd, score sd)) <$> nlargest k doc_heap score).

End Engine.

(** ** A small instance of the externals, to run the definitions *)

(** Terms are the maximal runs of characters other than the space. *)
Fixpoint words (s : string) (current : string) : list string :=
  match s with
  | EmptyString => if String.eqb current EmptyString then [] else [current]
  | String c s' =>
      if Ascii.eqb c " "
      then (if String.eqb current EmptyString then words s' EmptyString
            else current :: words s' EmptyString)
      else words s' (current ++ String c EmptyString)
  end.

(** A date is a decimal number of seconds; [datetime.min] has no timestamp,
    as in CPython, where [datetime.min.timestamp()] raises ValueError. *)
Fixpoint seconds (s : string) (acc : Z) : option Z :=
  match s with
  | EmptyString => Some acc
  | String c s' =>
      let n := Z.of_nat (nat_of_ascii c) in
      if (48 <=? n) && (n <=? 57) then seconds s' (10 * acc + (n - 48)) else None
  end.

Definition simple_externals : Externals :=
  {| tokenize := fun s => words s EmptyString;
     datetime := Z;
     strptime := fun s => if String.eqb s EmptyString then None else seconds s 0;
     timestamp := fun z => if z =? -62135596800 then Raise ValueError else Ok (IZR z);
     datetime_ltb := Z.ltb;
     datetime_min := -62135596800;
     datetime_max := 253402300799 |}.

(** The collection of no documents, as [create] builds it. *)
Definition no_documents : IRData (H := simple_externals) :=
  {| pii := {| __tokens__ := Some []; tokens := Some [] |};
     docs := [];
     max_doc_date := datetime_min;
     min_doc_date := datetime_max;
     doc_lengths := [] |}.

(** Two documents with the same content. *)
Definition sample_docs : list Document :=
  [ {| doc_id := "1"; title := EmptyString; url := "u1"; content := "a";
       date := Some "100"; tags := None |};
    {| doc_id := "2"; title := EmptyString; url := "u2"; content := "a";
       date := Some "200"; tags := None |} ].

(** Two documents with the same content, whose dates do not parse. *)
Definition undated_docs : list Document :=
  [ {| doc_id := "1"; title := EmptyString; url := "u1"; content := "a";
       date := Some "x"; tags := None |};
    {| doc_id := "2"; title := EmptyString; url := "u2"; content := "a";
       date := Some "y"; tags := None |} ].

(** The file of [sample_docs]. *)
Definition sample_source : json :=
  JDict [("1", JDict [("title", JString EmptyString); ("content", JString "a");
                      ("url", JString "u1"); ("date", JString "100");
                      ("tags", JNull)]);
         ("2", JDict [("title", JString EmptyString); ("content", JString "a");
                      ("url", JString "u2"); ("date", JString "200");
                      ("tags", JNull)])].

(** The index built by a sequence of [__add_token__] calls, each given as
    (term, document, position, weight). *)
Definition build (occurrences : list (string * string * Z * R))
  : result PositionalInvertedIndexOnMemory :=
  for_fold (fun p o => PII_add_token p o.1.1.1 o.1.1.2 o.1.2 o.2) PII_new occurrences.

Definition sample_occurrences : list (string * string * Z * R) :=
  [ ("b", "2", -1, TITLE_TOKEN_WEIGHT);
    ("a", "2", 0, 1%R); ("b", "2", 1, 1%R);
    ("a", "1", 0, 1%R); ("a", "1", 1, 1%R) ].

(** * Vocabulary of the properties *)

(** The order of [<] on [str]. *)
Definition str_lt (a b : string) : Prop := String_as_OT.lt a b.

(** A sequence of pairs is in strictly ascending order of its keys. *)
Definition keys_sorted {V} (a : list (string * V)) : Prop :=
  StronglySorted str_lt a.*1.

(** The closed forms of the weights, in the words of the specification. *)
Definition log2_value (x : R) : R := (ln x / ln 2)%R.

Definition tf_value (linear_tf : Z) (weight_factor : R) : R :=
  if linear_tf =? 0 then 0%R
  else ((1 + log2_value (IZR linear_tf)) * weight_factor)%R.

Definition idf_value (linear_df document_count : Z) : R :=
  if linear_df =? 0 then 0%R
  else log2_value (IZR document_count / IZR linear_df).

(** In the result of [sorted], [a] may stand before [b]: [b] does not have
    to precede it. *)
Definition in_order {A K} (ltb : K -> K -> bool) (key : A -> K) (reverse : bool)
    (a b : A) : Prop :=
  precedes ltb key reverse b a = false.

(** An index is frozen when it has its sequence of terms and every term has
    its sequence of postings, as after [__finalize__] or a load from the
    cache. *)
Definition frozen (p : PositionalInvertedIndexOnMemory) : Prop :=
  exists toks, tokens p = Some toks /\ Forall (fun st => is_Some (list_ st.2)) toks.

(** Two postings, two terms, two indexes that carry the same data, in the
    same order. *)
Definition same_posting (a b : string * DocumentTokenData) : Prop :=
  a.1 = b.1 /\ tf a.2 = tf b.2 /\ linear_tf a.2 = linear_tf b.2
  /\ positions a.2 = positions b.2.

Definition same_token (a b : string * Token) : Prop :=
  a.1 = b.1 /\ idf a.2 = idf b.2 /\ linear_df a.2 = linear_df b.2
  /\ exists la lb,
       list_ a.2 = Some la /\ list_ b.2 = Some lb /\ Forall2 same_posting la lb.

Definition same_index (p p' : PositionalInvertedIndexOnMemory) : Prop :=
  exists ta tb, tokens p = Some ta /\ tokens p' = Some tb /\ Forall2 same_token ta tb.

(** The state of a term and of an index during the building phase: unique
    keys, and the counts that go with the entries. *)
Definition building_token (t : Token) : Prop :=
  exists l,
    __list__ t = Some l /\ NoDup l.*1
    /\ linear_df t = Z.of_nat (length l)
    /\ Forall (fun kd => linear_tf kd.2 = Z.of_nat (length (positions kd.2))
                         /\ 0 < linear_tf kd.2) l
    /\ champions_list t = None.

Definition building (p : PositionalInvertedIndexOnMemory) : Prop :=
  exists d,
    __tokens__ p = Some d /\ NoDup d.*1
    /\ Forall (fun kt => building_token kt.2 /\ 0 < linear_df kt.2) d.

(** What [finalize(document_count)] promises of the index it leaves. *)
Definition finalized_posting (dd : string * DocumentTokenData) : Prop :=
  tf dd.2 = tf_value (linear_tf dd.2) (_weight dd.2).

Definition finalized_token (document_count : Z) (st : string * Token) : Prop :=
  idf st.2 = idf_value (linear_df st.2) document_count
  /\ exists l, list_ st.2 = Some l /\ keys_sorted l /\ Forall finalized_posting l.

Definition finalized (document_count : Z) (p : PositionalInvertedIndexOnMemory) : Prop :=
  exists toks,
    tokens p = Some toks /\ keys_sorted toks
    /\ Forall (finalized_token document_count) toks.

(** A sequence of pairs is in ascending order of its keys. *)
Definition keys_ascending {V} (a : list (string * V)) : Prop :=
  StronglySorted (fun x y => str_ltb y x = false) a.*1.

(** An index with sorted terms and, for each term, sorted and non-empty
    postings and no champions list yet: what [__finalize__] leaves and what
    the cache then holds. *)
Definition well_formed (p : PositionalInvertedIndexOnMemory) : Prop :=
  exists toks,
    tokens p = Some toks /\ keys_sorted toks
    /\ Forall (fun st => exists l,
                 list_ st.2 = Some l /\ keys_sorted l /\ l <> []
                 /\ champions_list st.2 = None) toks.

(** No term of the index has a champions list. *)
Definition no_champions (p : PositionalInvertedIndexOnMemory) : Prop :=
  forall toks, tokens p = Some toks -> Forall (fun st => champions_list st.2 = None) toks.

(** The squared weight of document [d] for one term: (tf * idf)^2 when the
    postings of the term contain the document, and nothing otherwise. *)
Definition squared_weight (d : string) (st : string * Token) : R :=
  match list_ st.2 ≫= (fun l => dict_get l d) with
  | Some dd => ((tf dd * idf st.2) ^ 2)%R
  | None => 0%R
  end.

Definition sum_list (l : list R) : R := foldr Rplus 0%R l.

(** max(1.0, sqrt(sum over the terms of the squared weights)) *)
Definition document_vector_length (toks : list (string * Token)) (d : string) : R :=
  Rmax 1 (sqrt (sum_list (squared_weight d <$> toks))).

(** The value under a key of a dict of numbers, 0 for a missing key. *)
Definition dict_total (d : dict R) (k : string) : R := default 0%R (dict_get d k).

(** The weight by which [generate_champions_list] ranks a posting of a
    term: idf * tf / document_vector_length. *)
Definition champion_weight (doc_lengths : dict R) (t : Token)
    (td : string * DocumentTokenData) : R :=
  (idf t * tf td.2 / dict_total doc_lengths td.1)%R.

(** [c] is a champions list of size [r] for the postings [l]: at most [r]
    postings, all of them (and as many as there are, up to [r]) taken from
    [l], none lighter than a posting left out, in ascending order of document
    id. *)
Definition champions_of (weight : string * DocumentTokenData -> R) (r : Z)
    (l c : list (string * DocumentTokenData)) : Prop :=
  Z.of_nat (length c) <= r
  /\ (forall td, td ∈ c -> td ∈ l)
  /\ keys_ascending c
  /\ exists dropped,
       l ≡ₚ (c ++ dropped)%list
       /\ length c = Nat.min (Z.to_nat r) (length l)
       /\ forall x y, x ∈ c -> y ∈ dropped -> (weight y <= weight x)%R.

(** The multiplier of a document: its phrase score, and 1 when it has no
    entry or when there are no phrase scores. *)
Definition phrase_multiplier (phrase_scores : option (dict R)) (id : string) : R :=
  match phrase_scores with
  | Some ps => default 1%R (dict_get ps id)
  | None => 1%R
  end.

(** A collection is ready when it was made from a well-formed index, whose
    terms and full postings are [toks], and the champions lists were
    generated, for some [r] or [None]. *)
Definition ready `{Externals} (ir : IRData) (toks : list (string * Token)) : Prop :=
  exists p ds ir0 r,
    well_formed p /\ tokens p = Some toks
    /\ IRData_init p ds = Ok ir0 /\ generate_champions_list ir0 r = Ok ir.

(** The final score of the specification for document [id] with raw score
    [s] and date boost [boost]. *)
Definition final_score (toks : list (string * Token)) (phrase_scores : option (dict R))
    (id : string) (s boost : R) : R :=
  (s / document_vector_length toks id * phrase_multiplier phrase_scores id + boost)%R.

(** ** Phrase scores, in the words of the specification *)

(** The positions recorded for a document among the visible postings of a
    term: the champions list when the term has one, the full postings
    otherwise. *)
Definition visible_positions (p : PositionalInvertedIndexOnMemory)
    (term doc : string) : option (list Z) :=
  toks ← tokens p;
  t ← dict_get toks term;
  l ← Token_get_search_scope_list t;
  dd ← dict_get l doc;
  Some (positions dd).

(** A position is real when it is not the sentinel -1. *)
Definition real_position (pos : Z) : bool := negb (pos =? -1).

(** The first query term, from left to right, with a position entry for the
    document that qualifies: the positions of the entry and the query terms
    that follow. *)
Fixpoint starting_term (qualifies : list Z -> bool)
    (p : PositionalInvertedIndexOnMemory) (doc : string) (terms : list string)
  : option (list Z * list string) :=
  match terms with
  | [] => None
  | term :: rest =>
      match visible_positions p term doc with
      | Some ps =>
          if qualifies ps then Some (ps, rest)
          else starting_term qualifies p doc rest
      | None => starting_term qualifies p doc rest
      end
  end.

(** How many of the following terms continue a run after position [pos]:
    the next term at [pos + 1], the one after it at [pos + 2], and so on. *)
Fixpoint following_run (p : PositionalInvertedIndexOnMemory) (doc : string)
    (rest : list string) (pos : Z) : Z :=
  match rest with
  | [] => 0
  | term :: rest' =>
      match visible_positions p term doc with
      | Some sp =>
          if bool_decide (pos + 1 ∈ sp)
          then 1 + following_run p doc rest' (pos + 1)
          else 0
      | None => 0
      end
  end.

Definition max_list (l : list Z) : Z := foldr Z.max 0 l.

(** The length of the best run over the real start positions. *)
Definition best_run (p : PositionalInvertedIndexOnMemory) (doc : string)
    (rest : list string) (positions : list Z) : Z :=
  max_list ((fun pos => 1 + following_run p doc rest pos)
              <$> filter (fun pos => real_position pos = true) positions).

(** The phrase score of a document, if it gets one. *)
Definition phrase_score (qualifies : list Z -> bool)
    (p : PositionalInvertedIndexOnMemory) (terms : list string) (doc : string)
  : option R :=
  match starting_term qualifies p doc terms with
  | None => None
  | Some (ps, rest) =>
      let best := best_run p doc rest ps in
      if 1 <? best
      then Some (1 + PHRASE_QUERY_WEIGHT * (IZR best / INR (length terms)))%R
      else None
  end.

(** The starting term as C5 states it: the entry has a real position. *)
Definition has_real_position (ps : list Z) : bool := existsb real_position ps.

(** The starting term as the code takes it: any entry. *)
Definition any_entry (ps : list Z) : bool := true.

(** An index that the lookups can search: the sequence of terms and the
    visible postings of every term are sorted and not empty. *)
Definition searchable (p : PositionalInvertedIndexOnMemory) : Prop :=
  exists toks,
    tokens p = Some toks /\ keys_sorted toks /\ toks <> []
    /\ Forall (fun st => exists l,
                 Token_get_search_scope_list st.2 = Some l
                 /\ keys_sorted l /\ l <> []) toks.

(** A title "a" and the content "b c": the index of one document, as the
    cache holds it, and the index of the query "a b c". *)
Definition title_index : PositionalInvertedIndexOnMemory :=
  PII_init
    [("a", Token_init 0 1 [("1", DocumentTokenData_init 2 1 [-1])]);
     ("b", Token_init 0 1 [("1", DocumentTokenData_init 1 1 [0])]);
     ("c", Token_init 0 1 [("1", DocumentTokenData_init 1 1 [1])])].

Definition title_query : PositionalInvertedIndexOnMemory :=
  PII_init
    [("a", Token_init 0 1 [("0", DocumentTokenData_init 1 1 [0])]);
     ("b", Token_init 0 1 [("0", DocumentTokenData_init 1 1 [1])]);
     ("c", Token_init 0 1 [("0", DocumentTokenData_init 1 1 [2])])].

(** The starting term that the [while] loop of [phrase_query] finds from
    term number [n] on: the last term is not tried. *)
Fixpoint start_before_last (p : PositionalInvertedIndexOnMemory) (doc : string)
    (terms : list string) (n : nat) : option (list Z) * nat :=
  match terms with
  | [] => (None, n)
  | term :: rest =>
      match rest with
      | [] => (None, n)
      | _ :: _ =>
          match visible_positions p term doc with
          | Some ps => (Some ps, n)
          | None => start_before_last p doc rest (S n)
          end
      end
  end.

(** Every document of a posting is one of the documents [ds]. *)
Definition documents_cover (toks : list (string * Token)) (ds : list Document) : Prop :=
  forall st l td,
    st ∈ toks -> list_ st.2 = Some l -> td ∈ l -> td.1 ∈ doc_id <$> ds.

(** A collection that [search] can serve: made from a well-formed index
    with at least one term, whose postings are of the documents of the
    collection, with champions lists of a size [r >= 1] or without. *)
Definition servable `{Externals} (ir : IRData) : Prop :=
  exists p ds ir0 r toks,
    well_formed p /\ tokens p = Some toks /\ toks <> []
    /\ documents_cover toks ds
    /\ IRData_init p ds = Ok ir0
    /\ (r = None \/ exists n, r = Some n /\ 1 <= n)
    /\ generate_champions_list ir0 r = Ok ir.

(** The datetimes that [date_score] reads in a collection have timestamps:
    the two ends of the range of the dates, and the date of every document
    when it parses. *)
Definition dated `{Externals} (ir : IRData) : Prop :=
  (exists t, timestamp (min_doc_date ir) = Ok t)
  /\ (exists t, timestamp (max_doc_date ir) = Ok t)
  /\ forall id d s dt,
       dict_get (docs ir) id = Some d -> date d = Some s -> strptime s = Some dt ->
       exists t, timestamp dt = Ok t.

(** During the building phase, the postings of an index mention only the
    documents [ids]. *)
Definition covered (ids : list string) (p : PositionalInvertedIndexOnMemory) : Prop :=
  forall d kt l td,
    __tokens__ p = Some d -> kt ∈ d -> __list__ kt.2 = Some l -> td ∈ l -> td.1 ∈ ids.

(** The posting of a document among the visible postings of a term. *)
Definition visible_posting (p : PositionalInvertedIndexOnMemory)
    (term doc : string) : option DocumentTokenData :=
  toks ← tokens p;
  t ← dict_get toks term;
  l ← Token_get_search_scope_list t;
  dict_get l doc.

(** [title_index] as the index of a collection. *)
Definition title_collection : IRData (H := simple_externals) :=
  {| pii := title_index; docs := [];
     max_doc_date := datetime_min; min_doc_date := datetime_max;
     doc_lengths := [] |}.


(** ** The occurrences that an index was built from *)

(** The calls of [__add_token__] for term [t] and document [d], in the order
    of the calls; their positions; the product of their weights. *)
Definition occurrences_of (occ : list (string * string * Z * R)) (t d : string)
  : list (string * string * Z * R) :=
  filter (fun o => o.1.1.1 = t /\ o.1.1.2 = d) occ.

Definition occurrence_positions (occ : list (string * string * Z * R)) (t d : string)
  : list Z :=
  (fun o => o.1.2) <$> occurrences_of occ t d.

Definition occurrence_weight (occ : list (string * string * Z * R)) (t d : string)
  : R :=
  foldl Rmult 1%R ((fun o => o.2) <$> occurrences_of occ t d).

(** The building index [p] holds what the calls [occ] said: a term and a
    document have an entry exactly when a call named them, and the entry has
    the positions of the calls and the product of their weights. *)
Definition recorded (occ : list (string * string * Z * R))
    (p : PositionalInvertedIndexOnMemory) : Prop :=
  exists d,
    __tokens__ p = Some d
    /\ forall t,
         match dict_get d t with
         | None => forall doc, occurrences_of occ t doc = []
         | Some tok =>
             exists l,
               __list__ tok = Some l
               /\ forall doc,
                    match dict_get l doc with
                    | None => occurrences_of occ t doc = []
                    | Some dd =>
                        occurrences_of occ t doc <> []
                        /\ positions dd = occurrence_positions occ t doc
                        /\ _weight dd = occurrence_weight occ t doc
                    end
         end.

(** [pii[term][doc_id]] *)
Definition posting_of (p : PositionalInvertedIndexOnMemory) (term doc_id : string)
  : result DocumentTokenData :=
  t ← PII_getitem p term;
  Token_getitem t doc_id.

(** The documents that the calls name for term [t], each once. *)
Definition occurrence_documents (occ : list (string * string * Z * R)) (t : string)
  : list string :=
  remove_dups ((fun o => o.1.1.2) <$> filter (fun o => o.1.1.1 = t) occ).

(** The posting that [__finalize__] leaves for the calls [os] of a term and
    a document. *)
Definition finalized_posting_of (os : list (string * string * Z * R))
  : DocumentTokenData :=
  let weight := foldl Rmult 1%R ((fun o => o.2) <$> os) in
  {| tf := tf_value (Z.of_nat (length os)) weight;
     linear_tf := Z.of_nat (length os);
     positions := (fun o => o.1.2) <$> os;
     _weight := weight |}.


(** The [__add_token__] calls that [create_pii] makes for a document: the
    title and tag terms at the position -1 with their weights, then the
    content terms at their indexes with the weight 1; and the calls for a
    list of documents. *)
Definition document_occurrences `{Externals} (d : Document)
  : list (string * string * Z * R) :=
  ((fun tw => (tw.1, doc_id d, -1, tw.2)) <$> get_weighted_tokens d)
  ++ imap (fun i t => (t, doc_id d, Z.of_nat i, 1%R)) (get_tokens d).

Definition collection_occurrences `{Externals} (ds : list Document)
  : list (string * string * Z * R) :=
  mjoin (document_occurrences <$> ds).


(** The order of the datetimes agrees with their timestamps: a clock gives
    every datetime a time, the datetimes are ordered by their times, and the
    timestamp of a datetime, when it has one, is its time. *)
Definition chronological `{Externals} : Prop :=
  exists clock : datetime -> R,
    (forall a b, datetime_ltb a b = true <-> (clock a < clock b)%R)
    /\ forall a t, timestamp a = Ok t -> t = clock a.


(** ** The raw score, in closed form *)

(** The weight of a query term: the tf of its first posting in the query
    index. *)
Definition query_weight (qt : string * Token) : R :=
  match list_ qt.2 with
  | Some ((_, first) :: _) => tf first
  | _ => 0%R
  end.

(** What a query term adds to the raw score of a document: tf * idf of the
    visible posting of the document times the weight of the query term, if
    the index has the term and the term shows the document. *)
Definition contribution (p : PositionalInvertedIndexOnMemory) (doc : string)
    (qt : string * Token) : option R :=
  toks ← tokens p;
  t ← dict_get toks qt.1;
  l ← Token_get_search_scope_list t;
  dd ← dict_get l doc;
  Some (tf dd * idf t * query_weight qt)%R.

(** The sum of the contributions, if there is one. *)
Definition raw_score (p : PositionalInvertedIndexOnMemory)
    (query_tokens : list (string * Token)) (doc : string) : option R :=
  let cs := contribution p doc <$> query_tokens in
  if existsb (fun c => bool_decide (is_Some c)) cs
  then Some (sum_list (default 0%R <$> cs))
  else None.

Definition add_opt (o c : option R) : option R :=
  match o, c with
  | Some a, Some b => Some (a + b)%R
  | Some a, None => Some a
  | None, c => c
  end.


(** The metadata that [IRData] keeps of a document: no content, no tags. *)
Definition stored (d : Document) : Document :=
  {| doc_id := doc_id d; title := title d; url := url d;
     content := EmptyString; date := date d; tags := None |}.


(** ** Indexes that show the same to a search *)

(** Two postings, two terms and two indexes are alike when they agree on
    what [search] reads: the terms and their idf, and for the visible
    postings of each term the document ids, tf and positions, in the same
    order. *)
Definition posting_alike (a b : DocumentTokenData) : Prop :=
  tf a = tf b /\ positions a = positions b.

Definition token_alike (a b : Token) : Prop :=
  idf a = idf b
  /\ exists la lb,
       Token_get_search_scope_list a = Some la
       /\ Token_get_search_scope_list b = Some lb
       /\ Forall2 (fun x y => y.1 = x.1 /\ posting_alike x.2 y.2) la lb.

Definition index_alike (p p' : PositionalInvertedIndexOnMemory) : Prop :=
  exists ta tb,
    tokens p = Some ta /\ tokens p' = Some tb
    /\ Forall2 (fun x y => y.1 = x.1 /\ token_alike x.2 y.2) ta tb.


(** ** The file of the documents *)

(** The JSON object [j] has the fields of document [d], in any order and
    possibly among others: strings for title, url and content, a string or
    null for the date, a list of strings or null for the tags. *)
Definition encodes (j : json) (d : Document) : Prop :=
  json_item j "title" = Ok (JString (title d))
  /\ json_item j "url" = Ok (JString (url d))
  /\ json_item j "content" = Ok (JString (content d))
  /\ json_item j "date" = Ok (match date d with Some s => JString s | None => JNull end)
  /\ json_item j "tags"
     = Ok (match tags d with Some ts => JList (JString <$> ts) | None => JNull end).

(** The fields that [load_documents] looks up in an entry, in the order of
    the lookups, and an entry that has them all, whatever their values. *)
Definition document_keys : list string := ["title"; "url"; "content"; "date"; "tags"].

Definition has_document_keys (j : json) : Prop :=
  exists fields,
    j = JDict fields /\ Forall (fun k => is_Some (dict_get fields k)) document_keys.


(** ** Indexes in the building phase *)

(** Two postings, two terms, two indexes with the same counts, positions and
    weights in their working dicts; the values that [__finalize__] computes
    may differ. *)
Definition counted_alike (a b : DocumentTokenData) : Prop :=
  linear_tf a = linear_tf b /\ positions a = positions b /\ _weight a = _weight b.

Definition gathered_alike (a b : Token) : Prop :=
  linear_df a = linear_df b /\ champions_list a = champions_list b
  /\ exists la lb,
       __list__ a = Some la /\ __list__ b = Some lb
       /\ Forall2 (fun x y => y.1 = x.1 /\ counted_alike x.2 y.2) la lb.

Definition gathering_alike (p q : PositionalInvertedIndexOnMemory) : Prop :=
  exists da db,
    __tokens__ p = Some da /\ __tokens__ q = Some db
    /\ Forall2 (fun x y => y.1 = x.1 /\ gathered_alike x.2 y.2) da db.


(** The terms of a document: of its title and tags, then of its content. *)
Definition document_terms `{Externals} (d : Document) : list string :=
  ((get_weighted_tokens d).*1 ++ get_tokens d)%list.

(** ** Caches that [read_from_cache] does not read as they were written *)




(** * Properties *)

(** ** The result monad and the loops *)

Lemma bind_Ok {A B} (m : result A) (f : A -> result B) (b : B) :
  m ≫= f = Ok b <-> exists a, m = Ok a /\ f a = Ok b.
Proof.
  destruct m as [a|e]; simpl; split.
  - intros Hf. exists a. auto.
  - intros (a' & Ha & Hf). congruence.
  - discriminate.
  - intros (a' & Ha & _). discriminate.
Qed.

Lemma fmap_Ok {A B} (m : result A) (f : A -> B) (b : B) :
  f <$> m = Ok b <-> exists a, m = Ok a /\ b = f a.
Proof.
  destruct m as [a|e]; simpl; split.
  - intros [= <-]. eauto.
  - intros (a' & [= <-] & ->). reflexivity.
  - discriminate.
  - intros (a' & Ha & _). discriminate.
Qed.

Lemma not_none_Ok {A} (e : exn) (o : option A) (a : A) :
  not_none e o = Ok a <-> o = Some a.
Proof. destruct o; simpl; split; congruence. Qed.

(** ** Strings as keys *)

Lemma str_ltb_lt a b : str_ltb a b = true <-> str_lt a b.
Proof.
  unfold str_ltb, str_lt, String_as_OT.lt.
  destruct (String_as_OT.compare a b); split; congruence.
Qed.

Lemma str_lt_irrefl a : ~ str_lt a a.
Proof. apply (StrictOrder_Irreflexive (R := String_as_OT.lt)). Qed.

Lemma str_lt_trans a b c : str_lt a b -> str_lt b c -> str_lt a c.
Proof. apply (StrictOrder_Transitive (R := String_as_OT.lt)). Qed.

Lemma str_lt_total a b : str_lt a b \/ a = b \/ str_lt b a.
Proof.
  destruct (String_as_OT.compare_spec a b) as [Heq|Hlt|Hgt]; auto.
Qed.

Lemma str_ltb_false a b : str_ltb a b = false <-> a = b \/ str_lt b a.
Proof.
  split.
  - intros Hf. destruct (str_lt_total a b) as [Hl|Hr]; [|exact Hr].
    apply str_ltb_lt in Hl. congruence.
  - intros Hr. destruct (str_ltb a b) eqn:Hl; [|reflexivity].
    apply str_ltb_lt in Hl. destruct Hr as [->|Hr].
    + destruct (str_lt_irrefl _ Hl).
    + destruct (str_lt_irrefl _ (str_lt_trans _ _ _ Hl Hr)).
Qed.

Lemma string_eqb_true a b : String.eqb a b = true <-> a = b.
Proof. apply String.eqb_eq. Qed.

Lemma string_eqb_false a b : String.eqb a b = false <-> a <> b.
Proof. apply String.eqb_neq. Qed.

(** ** utils.binary_search_tuple *)

Lemma py_index_Ok {A} (a : list A) (i : Z) :
  0 <= i < Z.of_nat (length a) ->
  exists x, a !! Z.to_nat i = Some x /\ py_index a i = Ok x.
Proof.
  intros Hi. unfold py_index.
  destruct (Z.ltb_spec i 0) as [?|_]; [lia|].
  destruct (Z.ltb_spec i 0) as [?|_]; [lia|].
  destruct (Z.leb_spec (Z.of_nat (length a)) i) as [?|_]; [lia|]. simpl.
  destruct (lookup_lt_is_Some_2 a (Z.to_nat i)) as [x Hx]; [lia|].
  exists x. rewrite Hx. auto.
Qed.

(** Inside a non-empty range the loop ends on an index of the range. *)
Lemma bs_loop_range {V} (a : list (string * V)) (x : string) (low high : Z) :
  0 <= low -> low <= high -> high < Z.of_nat (length a) ->
  exists r, bs_loop a x low high = Ok r /\ low <= r <= high.
Proof.
  funelim (bs_loop a x low high); intros Hlow Hle Hhigh.
  - assert (Hmid : low <= (low + high) `div` 2 < high).
    { pose proof (Z.mod_pos_bound (low + high) 2 ltac:(lia)).
      pose proof (Z.div_mod (low + high) 2 ltac:(lia)). lia. }
    destruct (py_index_Ok a ((low + high) `div` 2)) as (kv & _ & Hkv); [lia|].
    rewrite Hkv. destruct (str_ltb kv.1 x).
    + destruct (H kv) as (r & Hr & Hrange); [lia..|].
      exists r. split; [exact Hr|lia].
    + destruct (H0 kv) as (r & Hr & Hrange); [lia..|].
      exists r. split; [exact Hr|lia].
  - exists low. split; [reflexivity|lia].
Qed.

(** On a non-empty sequence the lookup returns a value stored under the key
    or signals [KeyError]. *)
Lemma binary_search_tuple_nonempty {V} (a : list (string * V)) (x : string) :
  a <> [] ->
  (exists v, binary_search_tuple a x = Ok v /\ (x, v) ∈ a)
  \/ binary_search_tuple a x = Raise KeyError.
Proof.
  intros Hne. unfold binary_search_tuple.
  assert (Hlen : 0 < Z.of_nat (length a)) by (destruct a; [congruence|simpl; lia]).
  destruct (bs_loop_range a x 0 (Z.of_nat (length a) - 1)) as (r & -> & Hr); [lia..|].
  simpl. destruct (py_index_Ok a r) as ([k v] & Hl & ->); [lia|]. simpl.
  destruct (String.eqb k x) eqn:Hk; [|auto].
  apply String.eqb_eq in Hk. subst k. left. exists v. split; [reflexivity|].
  eapply list_elem_of_lookup_2, Hl.
Qed.

(** On the empty sequence [a[low]] is out of range. *)
Lemma binary_search_tuple_nil {V} (x : string) :
  binary_search_tuple (V := V) [] x = Raise IndexError.
Proof. reflexivity. Qed.

Lemma keys_sorted_lookup {V} (a : list (string * V)) (i j : nat) kvi kvj :
  keys_sorted a -> (i < j)%nat ->
  a !! i = Some kvi -> a !! j = Some kvj -> str_lt kvi.1 kvj.1.
Proof.
  unfold keys_sorted. revert i j.
  induction a as [|kv a IH]; intros i j Hs Hij Hi Hj; [discriminate|].
  simpl in Hs. apply StronglySorted_inv in Hs as [Hs Hall].
  destruct j as [|j]; [lia|]. simpl in Hj.
  destruct i as [|i]; simpl in Hi.
  - injection Hi as ->. rewrite Forall_forall in Hall. apply Hall.
    apply list_elem_of_fmap. exists kvj. split; [reflexivity|].
    eapply list_elem_of_lookup_2, Hj.
  - eapply (IH i j); eauto. lia.
Qed.

Lemma keys_sorted_NoDup {V} (a : list (string * V)) :
  keys_sorted a -> NoDup a.*1.
Proof.
  unfold keys_sorted. induction 1 as [|k ks Hs IH Hall]; constructor; [|exact IH].
  intros Hin. rewrite Forall_forall in Hall.
  apply (str_lt_irrefl k), Hall, Hin.
Qed.

Lemma dict_get_Some_elem {V} (d : dict V) k v : dict_get d k = Some v -> (k, v) ∈ d.
Proof.
  induction d as [|[k' v'] d IH]; simpl; [discriminate|].
  destruct (String.eqb k' k) eqn:Hk.
  - apply String.eqb_eq in Hk. intros [= ->]. subst. left.
  - intros Hg. right. auto.
Qed.

Lemma dict_get_None {V} (d : dict V) k : dict_get d k = None <-> k ∉ d.*1.
Proof.
  induction d as [|[k' v'] d IH]; simpl.
  - split; [intros _; apply not_elem_of_nil|reflexivity].
  - rewrite not_elem_of_cons. simpl. destruct (String.eqb k' k) eqn:Hk.
    + apply String.eqb_eq in Hk. split; [discriminate|]. intros [Hne _]. congruence.
    + apply String.eqb_neq in Hk. rewrite IH. split; [|tauto].
      intros Hn. split; [congruence|exact Hn].
Qed.

Lemma dict_get_elem_NoDup {V} (d : dict V) k v :
  NoDup d.*1 -> (k, v) ∈ d -> dict_get d k = Some v.
Proof.
  induction d as [|[k' v'] d IH]; simpl; intros Hnd Hin.
  - apply elem_of_nil in Hin as [].
  - apply NoDup_cons in Hnd as [Hk' Hnd]. apply elem_of_cons in Hin as [Heq|Hin].
    + injection Heq as <- <-. rewrite String.eqb_refl. reflexivity.
    + destruct (String.eqb k' k) eqn:Hk.
      * apply String.eqb_eq in Hk. subst k'. destruct Hk'.
        apply list_elem_of_fmap. exists (k, v). auto.
      * auto.
Qed.

(** The loop is a lower-bound search: every key before the returned index
    is below [x], and the key at the returned index, unless it is the last
    one of the range, is not. *)
Lemma bs_loop_lower_bound {V} (a : list (string * V)) (x : string) (low high : Z) :
  keys_sorted a ->
  0 <= low -> low <= high -> high < Z.of_nat (length a) ->
  forall r, bs_loop a x low high = Ok r ->
    (forall j kv, low <= j < r -> a !! Z.to_nat j = Some kv -> str_lt kv.1 x)
    /\ (r < high -> forall kv, a !! Z.to_nat r = Some kv -> ~ str_lt kv.1 x).
Proof.
  intros Hs. funelim (bs_loop a x low high); intros Hlow Hle Hhigh r Hr.
  - assert (Hmid : low <= (low + high) `div` 2 < high).
    { pose proof (Z.mod_pos_bound (low + high) 2 ltac:(lia)).
      pose proof (Z.div_mod (low + high) 2 ltac:(lia)). lia. }
    destruct (py_index_Ok a ((low + high) `div` 2)) as (kv & Hl & Hkv); [lia|].
    rewrite Hkv in Hr. destruct (str_ltb kv.1 x) eqn:Hcmp.
    + destruct (H kv Hs ltac:(lia) ltac:(lia) Hhigh r Hr) as [Hbelow Hat].
      split; [|exact Hat]. intros j kvj Hj Hlj.
      destruct (Z_lt_dec ((low + high) `div` 2) j) as [Hgt|Hngt].
      * apply (Hbelow j); [lia|exact Hlj].
      * apply str_ltb_lt in Hcmp.
        destruct (Z.eq_dec j ((low + high) `div` 2)) as [->|Hne].
        -- rewrite Hl in Hlj. injection Hlj as <-. exact Hcmp.
        -- eapply str_lt_trans; [|exact Hcmp].
           eapply (keys_sorted_lookup a (Z.to_nat j) (Z.to_nat ((low + high) `div` 2)));
             eauto. lia.
    + destruct (bs_loop_range a x low ((low + high) `div` 2)) as (r' & Hr' & Hrange);
        [lia..|].
      assert (r' = r) as -> by congruence.
      destruct (H0 kv Hs Hlow ltac:(lia) ltac:(lia) r Hr) as [Hbelow Hat].
      split; [exact Hbelow|]. intros Hrh kvr Hlr.
      destruct (Z.eq_dec r ((low + high) `div` 2)) as [->|Hne].
      * rewrite Hl in Hlr. injection Hlr as <-. intros Hlt.
        apply str_ltb_lt in Hlt. congruence.
      * apply Hat; [lia|exact Hlr].
  - injection Hr as <-. split; [|lia]. intros j kv Hj. lia.
Qed.

(** On a sorted, non-empty sequence the binary search is the lookup by
    key. *)
Lemma binary_search_tuple_sorted {V} (a : list (string * V)) (x : string) :
  keys_sorted a -> a <> [] -> binary_search_tuple a x = dict_item a x.
Proof.
  intros Hs Hne. unfold dict_item.
  destruct (dict_get a x) as [v|] eqn:Hg; simpl.
  - apply dict_get_Some_elem in Hg. apply list_elem_of_lookup_1 in Hg as [i Hi].
    pose proof (lookup_lt_Some _ _ _ Hi) as Hlen.
    unfold binary_search_tuple.
    destruct (bs_loop_range a x 0 (Z.of_nat (length a) - 1)) as (r & Hr & Hrange);
      [lia..|].
    destruct (bs_loop_lower_bound a x 0 (Z.of_nat (length a) - 1) Hs
                ltac:(lia) ltac:(lia) ltac:(lia) r Hr) as [Hbelow Hat].
    assert (r = Z.of_nat i) as ->.
    { destruct (Z_lt_dec (Z.of_nat i) r) as [Hlt|Hge].
      - specialize (Hbelow (Z.of_nat i) (x, v) ltac:(lia)).
        rewrite Nat2Z.id in Hbelow. destruct (str_lt_irrefl x (Hbelow Hi)).
      - destruct (Z.eq_dec r (Z.of_nat i)) as [->|Hne']; [reflexivity|].
        destruct (py_index_Ok a r) as (kv & Hl & _); [lia|].
        destruct (Hat ltac:(lia) kv Hl).
        apply (keys_sorted_lookup a (Z.to_nat r) i kv (x, v)); auto. lia. }
    rewrite Hr. simpl. destruct (py_index_Ok a (Z.of_nat i)) as (kv & Hl & ->); [lia|].
    rewrite Nat2Z.id, Hi in Hl. injection Hl as <-. simpl.
    rewrite String.eqb_refl. reflexivity.
  - destruct (binary_search_tuple_nonempty a x Hne) as [(v & _ & Hin)|Hk]; [|exact Hk].
    apply dict_get_None in Hg. destruct Hg.
    apply list_elem_of_fmap. exists (x, v). auto.
Qed.

(** ** score_weight: calculate_tf and calculate_idf *)

Lemma ln2_pos : (0 < ln 2)%R.
Proof. rewrite <- ln_1. apply ln_increasing; lra. Qed.

Lemma log2_Ok (x : R) : (0 < x)%R -> log2 x = Ok (log2_value x).
Proof. intros Hx. unfold log2. destruct (Rlt_dec 0 x); [reflexivity|contradiction]. Qed.

Lemma log2_Raise (x : R) : (x <= 0)%R -> log2 x = Raise ValueError.
Proof. intros Hx. unfold log2. destruct (Rlt_dec 0 x); [lra|reflexivity]. Qed.

Lemma log2_value_le (x y : R) : (0 < x)%R -> (x <= y)%R -> (log2_value x <= log2_value y)%R.
Proof.
  intros Hx Hxy. unfold log2_value.
  apply Rmult_le_compat_r; [left; apply Rinv_0_lt_compat, ln2_pos|].
  destruct Hxy as [Hlt| ->]; [left; apply ln_increasing; assumption|right; reflexivity].
Qed.

Lemma log2_value_1 : log2_value 1 = 0%R.
Proof. unfold log2_value. rewrite ln_1. lra. Qed.

Lemma log2_value_2 : log2_value 2 = 1%R.
Proof. unfold log2_value. pose proof ln2_pos. field. lra. Qed.

Lemma calculate_tf_Ok (n : Z) : 0 <= n -> calculate_tf n = Ok (tf_value n 1).
Proof.
  intros Hn. unfold calculate_tf, tf_value.
  destruct (Z.eqb_spec n 0) as [->|Hne]; [reflexivity|].
  rewrite log2_Ok by (apply IZR_lt; lia). simpl. f_equal. lra.
Qed.

Lemma tf_value_weight (n : Z) (w : R) : tf_value n w = (tf_value n 1 * w)%R.
Proof. unfold tf_value. destruct (n =? 0); lra. Qed.

Lemma tf_value_mono (a b : Z) (w : R) :
  (0 <= w)%R -> 0 <= a <= b -> (tf_value a w <= tf_value b w)%R.
Proof.
  intros Hw Hab. rewrite (tf_value_weight a), (tf_value_weight b).
  apply Rmult_le_compat_r; [exact Hw|]. unfold tf_value.
  destruct (Z.eqb_spec a 0) as [->|Ha], (Z.eqb_spec b 0) as [->|Hb]; try lra; try lia.
  - assert (0 <= log2_value (IZR b))%R; [|lra].
    rewrite <- log2_value_1. apply log2_value_le; [lra|]. apply IZR_le. lia.
  - assert (log2_value (IZR a) <= log2_value (IZR b))%R; [|lra].
    apply log2_value_le; [apply IZR_lt; lia|apply IZR_le; lia].
Qed.

Lemma calculate_idf_Ok (df n : Z) :
  0 < n -> 0 <= df -> calculate_idf df n = Ok (idf_value df n).
Proof.
  intros Hn Hdf. unfold calculate_idf, idf_value.
  destruct (Z.eqb_spec df 0) as [->|Hne]; [reflexivity|].
  apply log2_Ok. apply Rdiv_lt_0_compat; apply IZR_lt; lia.
Qed.

Lemma idf_value_antitone (df1 df2 n : Z) :
  0 < n -> 1 <= df1 <= df2 -> (idf_value df2 n <= idf_value df1 n)%R.
Proof.
  intros Hn Hdf. unfold idf_value.
  destruct (Z.eqb_spec df1 0) as [?|_]; [lia|].
  destruct (Z.eqb_spec df2 0) as [?|_]; [lia|].
  assert (0 < IZR n)%R by (apply IZR_lt; lia).
  assert (0 < IZR df1)%R by (apply IZR_lt; lia).
  assert (IZR df1 <= IZR df2)%R by (apply IZR_le; lia).
  apply log2_value_le.
  - apply Rdiv_lt_0_compat; lra.
  - unfold Rdiv. apply Rmult_le_compat_l; [lra|]. apply Rinv_le_contravar; lra.
Qed.

Lemma DocumentTokenData_update_tf_Ok (d : DocumentTokenData) :
  0 <= linear_tf d ->
  DocumentTokenData_update_tf d =
    Ok {| tf := tf_value (linear_tf d) (_weight d); linear_tf := linear_tf d;
          positions := positions d; _weight := _weight d |}.
Proof.
  intros Hn. unfold DocumentTokenData_update_tf.
  rewrite calculate_tf_Ok by exact Hn. simpl. rewrite <- tf_value_weight. reflexivity.
Qed.

(** C9, as amended. The term frequency stored by [__update_tf__] does not
    decrease when the count grows and the weight factor, not negative, stays
    the same; for a collection size above zero the inverse document frequency
    does not increase when the document count grows from one on; and both
    weights are exactly 0 at count 0. *)
Theorem tf_idf_monotone (d1 d2 : DocumentTokenData) (df1 df2 n : Z) :
  _weight d1 = _weight d2 -> (0 <= _weight d1)%R ->
  0 <= linear_tf d1 <= linear_tf d2 ->
  0 < n -> 1 <= df1 <= df2 ->
  (exists d1' d2',
      DocumentTokenData_update_tf d1 = Ok d1'
      /\ DocumentTokenData_update_tf d2 = Ok d2'
      /\ (tf d1' <= tf d2')%R
      /\ (linear_tf d1 = 0 -> tf d1' = 0%R))
  /\ (exists i1 i2,
        calculate_idf df1 n = Ok i1 /\ calculate_idf df2 n = Ok i2 /\ (i2 <= i1)%R)
  /\ calculate_tf 0 = Ok 0%R
  /\ calculate_idf 0 n = Ok 0%R.
Proof.
  intros Hw Hw0 Htf Hn Hdf. split; [|split; [|split; reflexivity]].
  - do 2 eexists. rewrite !DocumentTokenData_update_tf_Ok by lia.
    split; [reflexivity|]. split; [reflexivity|]. simpl. split.
    + rewrite <- Hw. apply tf_value_mono; [exact Hw0|lia].
    + intros ->. reflexivity.
  - exists (idf_value df1 n), (idf_value df2 n).
    rewrite !calculate_idf_Ok by lia.
    split; [reflexivity|]. split; [reflexivity|]. apply idf_value_antitone; lia.
Qed.

Lemma tf_idf_monotone_witness :
  exists d1' d2',
    DocumentTokenData_update_tf (DocumentTokenData_init 0 1 [0]) = Ok d1'
    /\ DocumentTokenData_update_tf (DocumentTokenData_init 0 2 [0; 5]) = Ok d2'
    /\ (tf d1' <= tf d2')%R.
Proof.
  destruct (tf_idf_monotone (DocumentTokenData_init 0 1 [0])
              (DocumentTokenData_init 0 2 [0; 5]) 1 3 3)
    as ((d1' & d2' & H1 & H2 & Hle & _) & _); simpl; try lia; try lra; try reflexivity.
  exists d1', d2'. auto.
Defined.

(** C9, as stated, fails between counts 0 and 1: in a collection of two
    documents the inverse document frequency goes up from 0 to 1. *)
Lemma calculate_idf_increases_from_zero :
  calculate_idf 0 2 = Ok 0%R /\ calculate_idf 1 2 = Ok 1%R /\ ~ (1 <= 0)%R.
Proof.
  split; [reflexivity|]. split; [|lra].
  rewrite calculate_idf_Ok by lia. f_equal. unfold idf_value. simpl.
  replace (2 / 1)%R with 2%R by lra. apply log2_value_2.
Qed.

Section Lookup.
Context `{Externals}.

(** C7. A lookup that misses signals [KeyError] on a non-empty sequence,
    and the callers then give the frequency 0; but on the empty sequence the
    lookup fails with [IndexError], which the callers do not catch. *)
Theorem lookup_miss :
  (forall V (a : list (string * V)) (x : string),
     x ∉ a.*1 ->
     binary_search_tuple a x
     = match a with [] => Raise IndexError | _ :: _ => Raise KeyError end)
  /\ (forall (t : Token) (l : list (string * DocumentTokenData)) (doc_id : string),
        Token_get_search_scope_list t = Some l -> doc_id ∉ l.*1 ->
        Token_get_term_frequency t doc_id
        = match l with [] => Raise IndexError | _ :: _ => Ok 0 end)
  /\ (forall (ir : IRData) (toks : list (string * Token)) (token_str doc_id : string),
        tokens (pii ir) = Some toks -> token_str ∉ toks.*1 ->
        IRData_get_document_frequency ir token_str
        = match toks with [] => Raise IndexError | _ :: _ => Ok 0 end
        /\ IRData_get_term_frequency ir token_str doc_id
           = match toks with [] => Raise IndexError | _ :: _ => Ok 0 end).
Proof.
  assert (Hmiss : forall V (a : list (string * V)) (x : string),
    x ∉ a.*1 ->
    binary_search_tuple a x
    = match a with [] => Raise IndexError | _ :: _ => Raise KeyError end).
  { intros V a x Hx. destruct a as [|kv a]; [reflexivity|].
    destruct (binary_search_tuple_nonempty (kv :: a) x) as [(v & _ & Hin)|Hk];
      [discriminate| |exact Hk].
    destruct Hx. apply list_elem_of_fmap. exists (x, v). auto. }
  split; [exact Hmiss|]. split.
  - intros t l doc_id Hl Hdoc. unfold Token_get_term_frequency, Token_getitem.
    rewrite Hl. cbn [not_none mbind result_bind]. rewrite (Hmiss _ _ _ Hdoc).
    destruct l; reflexivity.
  - intros ir toks token_str doc_id Htoks Hterm.
    unfold IRData_get_document_frequency, IRData_get_term_frequency, PII_getitem.
    rewrite Htoks. cbn [not_none mbind result_bind]. rewrite (Hmiss _ _ _ Hterm).
    destruct toks; split; reflexivity.
Qed.

End Lookup.

Lemma lookup_miss_witness :
  binary_search_tuple (V := DocumentTokenData) [] "1" = Raise IndexError
  /\ Token_get_term_frequency (Token_init 0 1 []) "1" = Raise IndexError
  /\ IRData_get_document_frequency no_documents "a" = Raise IndexError.
Proof.
  destruct (lookup_miss (H := simple_externals)) as (Hsearch & Htoken & Hindex).
  split; [apply (Hsearch DocumentTokenData [] "1"), not_elem_of_nil|].
  split; [apply (Htoken (Token_init 0 1 []) [] "1" eq_refl), not_elem_of_nil|].
  apply (Hindex no_documents [] "a" "1" eq_refl), not_elem_of_nil.
Defined.

Lemma for_each_Ok {A B} (f : A -> result B) (l : list A) (l' : list B) :
  for_each f l = Ok l' <-> Forall2 (fun x y => f x = Ok y) l l'.
Proof.
  revert l'. induction l as [|x l IH]; intros l'; simpl.
  - split; [intros [= <-]; constructor|]. intros Hf. inversion Hf. reflexivity.
  - rewrite bind_Ok. split.
    + intros (y & Hy & Hrest). apply bind_Ok in Hrest as (ys & Hys & [= <-]).
      constructor; [exact Hy|]. apply IH, Hys.
    + intros Hf. inversion Hf as [|x' y l1 ys Hy Hys]; subst.
      exists y. split; [exact Hy|]. apply IH in Hys. rewrite Hys. reflexivity.
Qed.

Lemma for_each_total {A B} (f : A -> result B) (l : list A) :
  Forall (fun x => exists y, f x = Ok y) l -> exists l', for_each f l = Ok l'.
Proof.
  induction 1 as [|x l (y & Hy) _ (l' & Hl')]; simpl.
  - eexists. reflexivity.
  - rewrite Hy, Hl'. eexists. reflexivity.
Qed.

Lemma for_each_fmap_Ok {A B} (f : A -> B) (l : list A) :
  for_each (fun x => Ok (f x)) l = Ok (f <$> l).
Proof. induction l as [|x l IH]; simpl; [reflexivity|]. rewrite IH. reflexivity. Qed.

Lemma for_fold_app {A S} (f : S -> A -> result S) (s : S) (l1 l2 : list A) :
  for_fold f s (l1 ++ l2)%list = s' ← for_fold f s l1; for_fold f s' l2.
Proof.
  revert s. induction l1 as [|x l1 IH]; intros s; simpl; [reflexivity|].
  destruct (f s x); simpl; [apply IH|reflexivity].
Qed.

(** An invariant of a loop holds when it ends normally. *)
Lemma for_fold_invariant {A S} (P : S -> Prop) (f : S -> A -> result S)
    (s : S) (l : list A) (s' : S) :
  P s -> (forall s x s', x ∈ l -> P s -> f s x = Ok s' -> P s') ->
  for_fold f s l = Ok s' -> P s'.
Proof.
  revert s. induction l as [|x l IH]; intros s Hs Hstep; simpl.
  - intros [= <-]. exact Hs.
  - intros Hf. apply bind_Ok in Hf as (s1 & H1 & Hf).
    apply (IH s1); [|intros; eapply Hstep; eauto; right; assumption|exact Hf].
    eapply Hstep; eauto. left.
Qed.

(** ** dict *)

Lemma dict_get_set_eq {V} (d : dict V) k v : dict_get (dict_set d k v) k = Some v.
Proof.
  induction d as [|[k' v'] d IH]; simpl.
  - rewrite String.eqb_refl. reflexivity.
  - destruct (String.eqb k' k) eqn:Hk; simpl; rewrite Hk; [reflexivity|exact IH].
Qed.

Lemma dict_get_set_ne {V} (d : dict V) k k' v :
  k <> k' -> dict_get (dict_set d k v) k' = dict_get d k'.
Proof.
  intros Hne. induction d as [|[k0 v0] d IH]; simpl.
  - apply String.eqb_neq in Hne. rewrite Hne. reflexivity.
  - destruct (String.eqb k0 k) eqn:Hk; simpl.
    + apply String.eqb_eq in Hk. subst k0.
      apply String.eqb_neq in Hne. rewrite Hne. reflexivity.
    + destruct (String.eqb k0 k'); [reflexivity|exact IH].
Qed.

Lemma dict_set_keys {V} (d : dict V) k v :
  (dict_set d k v).*1 = if bool_decide (k ∈ d.*1) then d.*1 else (d.*1 ++ [k])%list.
Proof.
  induction d as [|[k' v'] d IH]; [reflexivity|].
  cbn [dict_set]. destruct (String.eqb k' k) eqn:Hk; rewrite !fmap_cons; cbn [fst].
  - apply String.eqb_eq in Hk. subst k'.
    rewrite bool_decide_eq_true_2 by left. reflexivity.
  - apply String.eqb_neq in Hk. rewrite IH.
    destruct (bool_decide (k ∈ d.*1)) eqn:Hin.
    + apply bool_decide_eq_true in Hin.
      rewrite bool_decide_eq_true_2 by (right; exact Hin). reflexivity.
    + apply bool_decide_eq_false in Hin.
      rewrite bool_decide_eq_false_2; [reflexivity|].
      rewrite not_elem_of_cons. split; [congruence|exact Hin].
Qed.

Lemma dict_set_NoDup {V} (d : dict V) k v : NoDup d.*1 -> NoDup (dict_set d k v).*1.
Proof.
  intros Hnd. rewrite dict_set_keys. case_bool_decide as Hin; [exact Hnd|].
  apply NoDup_app. split; [exact Hnd|]. split; [|apply NoDup_singleton].
  intros x Hx Hx'. apply list_elem_of_singleton in Hx'. subst x. contradiction.
Qed.

Lemma dict_set_length {V} (d : dict V) k v :
  length (dict_set d k v) = if bool_decide (k ∈ d.*1) then length d else S (length d).
Proof.
  transitivity (length (dict_set d k v).*1); [symmetry; apply length_fmap|].
  rewrite dict_set_keys.
  case_bool_decide; rewrite ?length_app, ?length_fmap; simpl; lia.
Qed.

Lemma dict_add_keys (d : dict R) k v :
  (dict_add d k v).*1 = if bool_decide (k ∈ d.*1) then d.*1 else (d.*1 ++ [k])%list.
Proof. unfold dict_add. destruct (dict_get d k); apply dict_set_keys. Qed.

Lemma dict_add_NoDup (d : dict R) k v : NoDup d.*1 -> NoDup (dict_add d k v).*1.
Proof. unfold dict_add. destruct (dict_get d k); apply dict_set_NoDup. Qed.

(** ** sorted *)

Section SortedFacts.
Context {A K : Type} (ltb : K -> K -> bool) (key : A -> K).

Lemma sorted_insert_Permutation reverse x s :
  sorted_insert ltb key reverse x s ≡ₚ x :: s.
Proof.
  induction s as [|y s IH]; simpl; [reflexivity|].
  destruct (precedes ltb key reverse y x); [|reflexivity].
  rewrite IH. apply Permutation_swap.
Qed.

Lemma sorted_Permutation reverse l : sorted ltb key reverse l ≡ₚ l.
Proof.
  induction l as [|x l IH]; simpl; [reflexivity|].
  rewrite sorted_insert_Permutation, IH. reflexivity.
Qed.

Lemma sorted_length reverse l : length (sorted ltb key reverse l) = length l.
Proof. apply Permutation_length, sorted_Permutation. Qed.

Lemma sorted_elem_of reverse l x : x ∈ sorted ltb key reverse l <-> x ∈ l.
Proof. rewrite sorted_Permutation. reflexivity. Qed.

(** [ltb] is a strict weak order. *)
Hypothesis ltb_asym : forall a b, ltb a b = true -> ltb b a = false.
Hypothesis ltb_negtrans : forall a b c, ltb a b = false -> ltb b c = false -> ltb a c = false.

Lemma sorted_insert_StronglySorted reverse x s :
  StronglySorted (in_order ltb key reverse) s ->
  StronglySorted (in_order ltb key reverse) (sorted_insert ltb key reverse x s).
Proof.
  induction 1 as [|y s Hs IH Hall]; simpl.
  - repeat constructor.
  - destruct (precedes ltb key reverse y x) eqn:Hyx.
    + constructor; [exact IH|].
      rewrite sorted_insert_Permutation. constructor; [|exact Hall].
      unfold in_order, precedes in *. destruct reverse; apply ltb_asym, Hyx.
    + constructor; [constructor; assumption|].
      constructor; [exact Hyx|].
      eapply Forall_impl; [exact Hall|]. intros z Hz.
      unfold in_order, precedes in *. destruct reverse; eapply ltb_negtrans; eauto.
Qed.

Lemma sorted_StronglySorted reverse l :
  StronglySorted (in_order ltb key reverse) (sorted ltb key reverse l).
Proof.
  induction l as [|x l IH]; simpl; [constructor|].
  apply sorted_insert_StronglySorted, IH.
Qed.

End SortedFacts.

(** ** Queries without terms *)

Section EmptyQuery.
Context `{Externals}.

Lemma create_query_pii_no_terms (query : string) :
  tokenize EmptyString = [] -> tokenize query = [] ->
  create_query_pii query = Ok {| __tokens__ := Some []; tokens := Some [] |}.
Proof.
  intros Htitle Hquery. unfold create_query_pii, create_pii. simpl.
  unfold get_weighted_tokens, get_tokens. simpl. rewrite Htitle, Hquery. reflexivity.
Qed.

Lemma cosine_score_no_terms (p : PositionalInvertedIndexOnMemory) :
  cosine_score p {| __tokens__ := Some []; tokens := Some [] |} = Ok [].
Proof. reflexivity. Qed.

Lemma nlargest_nil {A} (n : Z) (key : A -> R) : nlargest n [] key = [].
Proof. unfold nlargest. destruct (n <=? 0); [reflexivity|]. apply take_nil. Qed.

(** C10. When the tokenizer finds no term in the query text (and none in
    the empty title of the query document), the query index has an empty
    vocabulary, [cosine_score] returns the empty map and [search] returns the
    empty list, for every collection and every [k]. *)
Theorem search_no_terms (ir : IRData) (query : string) (k : Z)
    (date_score_ phrase_query_score : bool) :
  tokenize EmptyString = [] -> tokenize query = [] ->
  exists query_pii,
    create_query_pii query = Ok query_pii
    /\ tokens query_pii = Some []
    /\ cosine_score (pii ir) query_pii = Ok []
    /\ search ir query k date_score_ phrase_query_score cosine_score = Ok [].
Proof.
  intros Htitle Hquery. eexists. split; [apply create_query_pii_no_terms; assumption|].
  split; [reflexivity|]. split; [reflexivity|].
  unfold search. rewrite create_query_pii_no_terms by assumption. simpl.
  destruct phrase_query_score; simpl; rewrite nlargest_nil; reflexivity.
Qed.

End EmptyQuery.

Lemma search_no_terms_witness :
  search (H := simple_externals) no_documents "   " 10 true true cosine_score = Ok [].
Proof.
  destruct (search_no_terms (H := simple_externals) no_documents "   " 10 true true)
    as (qp & _ & _ & _ & Hs); [reflexivity..|exact Hs].
Defined.

Lemma Forall2_elem_of_r {A B} (P : A -> B -> Prop) (l : list A) (k : list B) (y : B) :
  Forall2 P l k -> y ∈ k -> exists x, x ∈ l /\ P x y.
Proof.
  intros Hf Hy. apply list_elem_of_lookup_1 in Hy as [i Hi].
  destruct (Forall2_lookup_r _ _ _ _ _ Hf Hi) as (x & Hx & HP).
  exists x. split; [eapply list_elem_of_lookup_2, Hx|exact HP].
Qed.

Lemma Forall2_elem_of_l {A B} (P : A -> B -> Prop) (l : list A) (k : list B) (x : A) :
  Forall2 P l k -> x ∈ l -> exists y, y ∈ k /\ P x y.
Proof.
  intros Hf Hx. apply list_elem_of_lookup_1 in Hx as [i Hi].
  destruct (Forall2_lookup_l _ _ _ _ _ Hf Hi) as (y & Hy & HP).
  exists y. split; [eapply list_elem_of_lookup_2, Hy|exact HP].
Qed.

(** ** Finalization freezes the index *)

Lemma Token_finalize_Ok (t t' : Token) (n : Z) :
  Token_finalize t n = Ok t' ->
  exists l l',
    __list__ t = Some l
    /\ Forall2 (fun kd kd' => kd'.1 = kd.1
                              /\ DocumentTokenData_update_tf kd.2 = Ok kd'.2) l l'
    /\ calculate_idf (linear_df t) n = Ok (idf t')
    /\ linear_df t' = linear_df t
    /\ __list__ t' = Some l'
    /\ list_ t' = Some (sorted str_ltb fst false l')
    /\ champions_list t' = champions_list t.
Proof.
  unfold Token_finalize. intros Hf.
  apply bind_Ok in Hf as (i & Hi & Hf). apply bind_Ok in Hf as (l & Hl & Hf).
  apply bind_Ok in Hf as (l' & Hl' & [= <-]). apply not_none_Ok in Hl.
  exists l, l'. simpl. repeat split; try assumption.
  apply for_each_Ok in Hl'. eapply Forall2_impl; [exact Hl'|].
  intros [k d] [k' d'] Hkd. simpl in *.
  apply bind_Ok in Hkd as (d0 & Hd0 & [= <- <-]). auto.
Qed.

Lemma PII_finalize_Ok (p p' : PositionalInvertedIndexOnMemory) (n : Z) :
  PII_finalize p n = Ok p' ->
  exists d d',
    __tokens__ p = Some d
    /\ Forall2 (fun kt kt' => kt'.1 = kt.1 /\ Token_finalize kt.2 n = Ok kt'.2) d d'
    /\ __tokens__ p' = Some d'
    /\ tokens p' = Some (sorted str_ltb fst false d').
Proof.
  unfold PII_finalize. intros Hf.
  apply bind_Ok in Hf as (d & Hd & Hf). apply bind_Ok in Hf as (d' & Hd' & [= <-]).
  apply not_none_Ok in Hd. exists d, d'. simpl. repeat split; try assumption.
  apply for_each_Ok in Hd'. eapply Forall2_impl; [exact Hd'|].
  intros [k t] [k' t'] Hkt. simpl in *.
  apply bind_Ok in Hkt as (t0 & Ht0 & [= <- <-]). auto.
Qed.

Lemma PII_finalize_frozen (p p' : PositionalInvertedIndexOnMemory) (n : Z) :
  PII_finalize p n = Ok p' -> frozen p'.
Proof.
  intros Hf. apply PII_finalize_Ok in Hf as (d & d' & _ & Hd' & _ & Htoks).
  eexists. split; [exact Htoks|]. rewrite Forall_forall. intros st Hst.
  apply sorted_elem_of in Hst.
  destruct (Forall2_elem_of_r _ _ _ _ Hd' Hst) as (kt & _ & _ & Hfin).
  apply Token_finalize_Ok in Hfin as (l & l' & _ & _ & _ & _ & _ & Hlist & _).
  rewrite Hlist. eauto.
Qed.

(** ** optimizer: the cache *)

Lemma for_each_json_int (ps : list Z) : for_each json_int (JInt <$> ps) = Ok ps.
Proof.
  induction ps as [|z ps IH]; [reflexivity|].
  rewrite fmap_cons. cbn [for_each json_int mbind result_bind]. rewrite IH. reflexivity.
Qed.

Lemma for_each_through {A B C} (f : B -> result C) (h : A -> B) (g : A -> C)
    (l : list A) :
  (forall x, f (h x) = Ok (g x)) -> for_each f (h <$> l) = Ok (g <$> l).
Proof.
  intros Hf. induction l as [|x l IH]; [reflexivity|].
  rewrite !fmap_cons. cbn [for_each]. rewrite Hf, IH. reflexivity.
Qed.

Section Cache.
Context `{Externals}.

Lemma json_load_dump (fs : file_system) (name : string) (j : json) :
  json_load (json_dump fs name j) name = Ok j.
Proof. unfold json_load, json_dump. rewrite dict_get_set_eq. reflexivity. Qed.

(** What [read_from_cache] makes of the records that [write_cache] made of
    a frozen index. *)
Lemma cache_index_cache_json (p : PositionalInvertedIndexOnMemory) :
  frozen p ->
  exists j p', cache_json p = Ok j /\ cache_index j = Ok p' /\ same_index p p'.
Proof.
  intros (toks & Htoks & Hlists). unfold cache_json, cache_index. rewrite Htoks.
  cbn [not_none mbind result_bind].
  match goal with |- context [for_each ?f toks] => set (W := f) end.
  assert (Hrt : exists js found toks',
             for_each W toks = Ok js /\ for_each cache_token js = Ok found
             /\ for_each typed_token found = Ok toks'
             /\ Forall2 same_token toks toks').
  { clear Htoks. induction Hlists as [|[term t] toks [l Hl] _ IH].
    - exists [], [], []. repeat split. constructor.
    - destruct IH as (js & found & toks' & HW & HC & HT & Hsame). cbn [snd] in Hl.
      assert (Hfound : for_each cache_posting
                ((fun dd =>
                    JDict [("doc_id", JString dd.1);
                           ("tf", JFloat (tf dd.2));
                           ("lf", JInt (linear_tf dd.2));
                           ("list", JList (JInt <$> positions dd.2))]) <$> l)
              = Ok ((fun dd : string * DocumentTokenData =>
                       (JString dd.1,
                        (JFloat (tf dd.2), JInt (linear_tf dd.2),
                         JList (JInt <$> positions dd.2)))) <$> l)).
      { apply for_each_through. intros dd. reflexivity. }
      assert (Htyped : for_each typed_posting
                ((fun dd : string * DocumentTokenData =>
                    (JString dd.1,
                     (JFloat (tf dd.2), JInt (linear_tf dd.2),
                      JList (JInt <$> positions dd.2)))) <$> l)
              = Ok ((fun dd => (dd.1, DocumentTokenData_init
                                        (tf dd.2) (linear_tf dd.2) (positions dd.2)))
                      <$> l)).
      { apply for_each_through. intros dd. unfold typed_posting.
        cbn [fst snd json_str json_number json_int json_ints mbind result_bind].
        rewrite for_each_json_int. reflexivity. }
      eexists (_ :: js), (_ :: found), (_ :: toks'). split; [|split; [|split]].
      + cbn [for_each]. rewrite HW. unfold W at 1. cbn [snd fst]. rewrite Hl.
        cbn [not_none mbind result_bind]. reflexivity.
      + cbn [for_each]. rewrite HC. unfold cache_token.
        change (json_item (JDict ?d) "list") with (not_none KeyError (dict_get d "list")).
        cbn [json_item dict_get String.eqb Ascii.eqb Bool.eqb not_none mbind result_bind
             json_iter].
        rewrite Hfound. cbn [mbind result_bind]. reflexivity.
      + cbn [for_each]. rewrite HT. unfold typed_token.
        cbn [fst snd json_str json_number json_int mbind result_bind].
        rewrite Htyped. cbn [mbind result_bind]. reflexivity.
      + constructor; [|exact Hsame]. unfold same_token. cbn.
        repeat split; try reflexivity. exists l. eexists. split; [exact Hl|].
        split; [reflexivity|]. clear. induction l as [|[d dd] l IH]; constructor.
        * repeat split.
        * exact IH. }
  destruct Hrt as (js & found & toks' & -> & HC & HT & Hsame).
  exists (JList js), (PII_init toks'). split; [reflexivity|]. split.
  - cbn [json_iter mbind result_bind]. rewrite HC. cbn [mbind result_bind].
    rewrite HT. reflexivity.
  - exists toks, toks'. auto.
Qed.

(** C3. The cache written for an index that [__finalize__] produced reads
    back as an index with the same terms in the same order, the same idf and
    linear_df for each term, and the same tf, linear_tf and positions for
    each posting, in the same order; the values are the stored ones. *)
Theorem cache_round_trip (p0 p : PositionalInvertedIndexOnMemory) (n : Z)
    (fs : file_system) (file : string) :
  PII_finalize p0 n = Ok p ->
  exists fs' p',
    write_cache fs p file = Ok fs'
    /\ read_from_cache fs' file = Ok (Some p')
    /\ same_index p p'.
Proof.
  intros Hfin. apply PII_finalize_frozen in Hfin.
  destruct (cache_index_cache_json p Hfin) as (j & p' & Hw & Hr & Hsame).
  exists (json_dump fs (cache_name file) j), p'. unfold write_cache, read_from_cache.
  rewrite Hw. simpl. rewrite json_load_dump, Hr. auto.
Qed.

End Cache.

(** Evaluation of the definitions on closed inputs; the operations on real
    numbers stay as they are. *)
Ltac run :=
  cbv -[log2 py_div Rltb IZR ln sqrt Rmax Rabs Rdiv Rminus pow INR
        Rplus Rmult Ropp Rinv].

Lemma sample_occurrences_finalize :
  exists p0 p, build sample_occurrences = Ok p0 /\ PII_finalize p0 2 = Ok p.
Proof.
  eexists. eexists. split.
  - run. reflexivity.
  - run. rewrite !log2_Ok by lra. run. reflexivity.
Qed.

Lemma cache_round_trip_witness :
  exists p0 p fs' p',
    build sample_occurrences = Ok p0
    /\ PII_finalize p0 2 = Ok p
    /\ write_cache [] p "news.json" = Ok fs'
    /\ read_from_cache fs' "news.json" = Ok (Some p')
    /\ same_index p p'.
Proof.
  destruct sample_occurrences_finalize as (p0 & p & Hb & Hf).
  destruct (cache_round_trip p0 p 2 [] "news.json" Hf)
    as (fs' & p' & Hw & Hr & Hs).
  exists p0, p, fs', p'. auto.
Defined.

Section CacheMiss.
Context `{Externals}.

Lemma create_pii_frozen (ds : list Document) (p : PositionalInvertedIndexOnMemory) :
  create_pii ds = Ok p -> frozen p.
Proof.
  unfold create_pii. intros Hc. apply bind_Ok in Hc as (p0 & _ & Hf).
  eapply PII_finalize_frozen, Hf.
Qed.





End CacheMiss.


(** ** Building and finalizing *)

Lemma dict_set_elem_of {V} (d : dict V) k v x :
  x ∈ dict_set d k v -> x ∈ d \/ x = (k, v).
Proof.
  induction d as [|[k' v'] d IH]; cbn [dict_set].
  - intros Hx. apply list_elem_of_singleton in Hx. auto.
  - destruct (String.eqb k' k) eqn:Hk.
    + apply String.eqb_eq in Hk. subst k'. intros Hx.
      apply elem_of_cons in Hx as [->|Hx]; [auto|]. left. right. exact Hx.
    + intros Hx. apply elem_of_cons in Hx as [->|Hx]; [left; left|].
      destruct (IH Hx) as [Hd| ->]; [left; right; exact Hd|auto].
Qed.

Lemma dict_set_Forall {V} (P : string * V -> Prop) (d : dict V) k v :
  Forall P d -> P (k, v) -> Forall P (dict_set d k v).
Proof.
  rewrite !Forall_forall. intros Hd Hv x Hx.
  destruct (dict_set_elem_of _ _ _ _ Hx) as [Hin| ->]; auto.
Qed.

Lemma str_ltb_asym a b : str_ltb a b = true -> str_ltb b a = false.
Proof.
  intros Hab. apply str_ltb_lt in Hab. apply str_ltb_false. auto.
Qed.

Lemma str_ltb_negtrans a b c :
  str_ltb a b = false -> str_ltb b c = false -> str_ltb a c = false.
Proof.
  rewrite !str_ltb_false. intros [->|Hba] [->|Hcb]; auto.
  right. eapply str_lt_trans; eassumption.
Qed.

(** Sorting entries with unique keys by key gives strictly ascending keys. *)
Lemma sorted_keys_sorted {V} (l : list (string * V)) :
  NoDup l.*1 -> keys_sorted (sorted str_ltb fst false l).
Proof.
  intros Hnd.
  assert (Hnd' : NoDup (sorted str_ltb fst false l).*1).
  { rewrite sorted_Permutation. exact Hnd. }
  pose proof (sorted_StronglySorted str_ltb fst str_ltb_asym str_ltb_negtrans false l)
    as Hs.
  unfold keys_sorted. induction Hs as [|x s Hs IH Hall]; [constructor|].
  rewrite fmap_cons in *. apply NoDup_cons in Hnd' as [Hx Hnd'].
  constructor; [apply IH, Hnd'|].
  rewrite Forall_forall. intros k Hk.
  apply list_elem_of_fmap in Hk as (y & -> & Hy).
  rewrite Forall_forall in Hall. specialize (Hall y Hy). unfold in_order, precedes in Hall.
  apply str_ltb_false in Hall as [Heq|Hlt]; [|exact Hlt].
  destruct Hx. rewrite <- Heq. apply list_elem_of_fmap. eauto.
Qed.

Lemma Token_add_position_building (t : Token) (doc_id : string) (position : Z) (w : R) :
  building_token t ->
  exists t',
    Token_add_position t doc_id position w = Ok t'
    /\ building_token t' /\ 0 < linear_df t'.
Proof.
  intros (l & Hl & Hnd & Hdf & Hall & Hch). unfold Token_add_position. rewrite Hl. cbn.
  destruct (dict_get l doc_id) as [source|] eqn:Hget.
  - assert (Hin : doc_id ∈ l.*1).
    { apply dict_get_Some_elem in Hget. apply list_elem_of_fmap.
      exists (doc_id, source). auto. }
    eexists. split; [reflexivity|]. split.
    2:{ cbn. rewrite Hdf. destruct l; [|cbn; lia]. apply elem_of_nil in Hin as []. }
    eexists. cbn. split; [reflexivity|].
    split; [apply dict_set_NoDup, Hnd|]. split.
    + rewrite dict_set_length, bool_decide_eq_true_2; [exact Hdf|exact Hin].
    + split; [|exact Hch]. apply dict_set_Forall; [exact Hall|]. cbn.
      apply dict_get_Some_elem in Hget. rewrite Forall_forall in Hall.
      destruct (Hall _ Hget) as [Hlen Hpos]. cbn in Hlen, Hpos.
      rewrite length_app. cbn. lia.
  - eexists. split; [reflexivity|]. split; [|cbn; lia].
    eexists. cbn. split; [reflexivity|].
    split; [apply dict_set_NoDup, Hnd|]. split.
    + rewrite dict_set_length, bool_decide_eq_false_2; [lia|].
      apply dict_get_None, Hget.
    + split; [|exact Hch]. apply dict_set_Forall; [exact Hall|]. cbn. lia.
Qed.

Lemma Token_new_building : building_token Token_new.
Proof. exists []. cbn. repeat split; constructor. Qed.

Lemma PII_add_token_building (p : PositionalInvertedIndexOnMemory)
    (token_str doc_id : string) (position : Z) (w : R) :
  building p ->
  exists p', PII_add_token p token_str doc_id position w = Ok p' /\ building p'.
Proof.
  intros (d & Hd & Hnd & Hall). unfold PII_add_token. rewrite Hd. cbn.
  assert (Hsrc : building_token (default Token_new (dict_get d token_str))).
  { destruct (dict_get d token_str) as [t|] eqn:Hget; cbn; [|apply Token_new_building].
    apply dict_get_Some_elem in Hget. rewrite Forall_forall in Hall.
    apply (Hall _ Hget). }
  destruct (Token_add_position_building _ doc_id position w Hsrc)
    as (t' & -> & Ht' & Hdf').
  cbn. eexists. split; [reflexivity|]. eexists. cbn. split; [reflexivity|].
  split; [apply dict_set_NoDup, Hnd|]. apply dict_set_Forall; [assumption|].
  cbn. auto.
Qed.

Lemma for_fold_add_token_building {A} (f : A -> string * string * Z * R)
    (p : PositionalInvertedIndexOnMemory) (l : list A) :
  building p ->
  exists p',
    for_fold (fun p x => PII_add_token p (f x).1.1.1 (f x).1.1.2 (f x).1.2 (f x).2) p l
    = Ok p' /\ building p'.
Proof.
  revert p. induction l as [|x l IH]; intros p Hp; cbn [for_fold].
  - eauto.
  - destruct (PII_add_token_building p (f x).1.1.1 (f x).1.1.2 (f x).1.2 (f x).2 Hp)
      as (p1 & -> & Hp1). cbn. apply IH, Hp1.
Qed.

Lemma PII_new_building : building PII_new.
Proof. exists []. cbn. repeat split; constructor. Qed.

Lemma build_building (occurrences : list (string * string * Z * R)) :
  exists p, build occurrences = Ok p /\ building p.
Proof. apply (for_fold_add_token_building (fun o => o)), PII_new_building. Qed.

Lemma Forall2_same_keys {A B} (P : string * A -> string * B -> Prop)
    (l : list (string * A)) (l' : list (string * B)) :
  Forall2 (fun x y => y.1 = x.1 /\ P x y) l l' -> l'.*1 = l.*1.
Proof.
  induction 1 as [|x y l l' [Hk _] _ IH]; [reflexivity|].
  rewrite !fmap_cons, Hk, IH. reflexivity.
Qed.

Lemma calculate_idf_value (df n : Z) (i : R) :
  calculate_idf df n = Ok i -> i = idf_value df n.
Proof.
  unfold calculate_idf, idf_value, log2. destruct (df =? 0); [congruence|].
  destruct (Rlt_dec _ _); [|discriminate]. intros [= <-]. reflexivity.
Qed.

Lemma DocumentTokenData_update_tf_value (d d' : DocumentTokenData) :
  DocumentTokenData_update_tf d = Ok d' ->
  tf d' = tf_value (linear_tf d) (_weight d)
  /\ linear_tf d' = linear_tf d /\ positions d' = positions d
  /\ _weight d' = _weight d.
Proof.
  unfold DocumentTokenData_update_tf, calculate_tf, tf_value, log2. intros Hu.
  destruct (linear_tf d =? 0).
  - cbn in Hu. injection Hu as <-. cbn. repeat split. lra.
  - destruct (Rlt_dec _ _); [|discriminate]. cbn in Hu. injection Hu as <-.
    cbn. repeat split.
Qed.

Lemma Token_finalize_total (t : Token) (n : Z) :
  building_token t -> 0 < n -> exists t', Token_finalize t n = Ok t'.
Proof.
  intros (l & Hl & _ & Hdf & Hall & _) Hn. unfold Token_finalize.
  rewrite calculate_idf_Ok by lia. cbn. rewrite Hl. cbn.
  destruct (for_each_total
              (fun kd => d ← DocumentTokenData_update_tf kd.2; Ok (kd.1, d)) l)
    as (l' & ->); [|cbn; eauto].
  eapply Forall_impl; [exact Hall|]. intros [k d] [_ Hpos]. cbn in *.
  rewrite DocumentTokenData_update_tf_Ok by lia. cbn. eauto.
Qed.

Lemma PII_finalize_total (p : PositionalInvertedIndexOnMemory) (n : Z) :
  building p -> 0 < n -> exists p', PII_finalize p n = Ok p'.
Proof.
  intros (d & Hd & _ & Hall) Hn. unfold PII_finalize. rewrite Hd. cbn.
  destruct (for_each_total
              (fun kt => t ← Token_finalize kt.2 n; Ok (kt.1, t)) d)
    as (d' & ->); [|cbn; eauto].
  eapply Forall_impl; [exact Hall|]. intros [k t] [Ht _]. cbn in *.
  destruct (Token_finalize_total t n Ht Hn) as (t' & ->). cbn. eauto.
Qed.

Lemma Token_finalize_finalized (k : string) (t t' : Token) (n : Z) :
  building_token t -> Token_finalize t n = Ok t' -> finalized_token n (k, t').
Proof.
  intros (l0 & Hl0 & Hnd & _) Hfin.
  apply Token_finalize_Ok in Hfin as (l & l' & Hl & Hupd & Hidf & Hdf & _ & Hlist & _).
  assert (l0 = l) as -> by congruence.
  split; cbn.
  - rewrite Hdf. apply calculate_idf_value, Hidf.
  - eexists. split; [exact Hlist|]. split.
    + apply sorted_keys_sorted. rewrite (Forall2_same_keys _ _ _ Hupd). exact Hnd.
    + rewrite Forall_forall. intros dd Hdd. apply sorted_elem_of in Hdd.
      destruct (Forall2_elem_of_r _ _ _ _ Hupd Hdd) as (kd & _ & _ & Hu).
      apply DocumentTokenData_update_tf_value in Hu as (Htf & Hltf & _ & Hw).
      unfold finalized_posting. rewrite Htf, Hltf, Hw. reflexivity.
Qed.

Lemma PII_finalize_finalized (p p' : PositionalInvertedIndexOnMemory) (n : Z) :
  building p -> PII_finalize p n = Ok p' -> finalized n p'.
Proof.
  intros (d0 & Hd0 & Hnd & Hall) Hfin.
  apply PII_finalize_Ok in Hfin as (d & d' & Hd & Hfin & _ & Htoks).
  assert (d0 = d) as -> by congruence.
  eexists. split; [exact Htoks|]. split.
  - apply sorted_keys_sorted. rewrite (Forall2_same_keys _ _ _ Hfin). exact Hnd.
  - rewrite Forall_forall. intros [k t'] Hst. apply sorted_elem_of in Hst.
    destruct (Forall2_elem_of_r _ _ _ _ Hfin Hst) as ([k0 t] & Hin & _ & Ht).
    rewrite Forall_forall in Hall. cbn in Ht.
    eapply Token_finalize_finalized; [apply (Hall _ Hin)|exact Ht].
Qed.

(** ** Document vector lengths *)

Lemma dict_add_total (d : dict R) (k k' : string) (v : R) :
  dict_total (dict_add d k v) k'
  = if String.eqb k k' then (dict_total d k' + v)%R else dict_total d k'.
Proof.
  unfold dict_total, dict_add. destruct (String.eqb k k') eqn:Hk.
  - apply String.eqb_eq in Hk. subst k'.
    destruct (dict_get d k); rewrite dict_get_set_eq; cbn; lra.
  - apply String.eqb_neq in Hk.
    destruct (dict_get d k); rewrite dict_get_set_ne by exact Hk; reflexivity.
Qed.

Lemma dict_add_elem_of (d : dict R) (k k' : string) (v : R) :
  k' ∈ (dict_add d k v).*1 <-> k' = k \/ k' ∈ d.*1.
Proof.
  rewrite dict_add_keys. case_bool_decide as Hin.
  - split; [auto|]. intros [->|Hk]; assumption.
  - rewrite elem_of_app, list_elem_of_singleton. tauto.
Qed.

Lemma sum_list_nil : sum_list [] = 0%R.
Proof. reflexivity. Qed.

Lemma sum_list_cons (x : R) (l : list R) : sum_list (x :: l) = (x + sum_list l)%R.
Proof. reflexivity. Qed.

(** The squared weights that the postings [l] of a term with this [idf]
    add for document [d]. *)
Lemma foldl_dict_add_total (i : R) (l : list (string * DocumentTokenData))
    (acc : dict R) (d : string) :
  dict_total
    (foldl (fun acc dd => dict_add acc dd.1 ((tf dd.2 * i) ^ 2)%R) acc l) d
  = (dict_total acc d
     + sum_list ((fun dd => if String.eqb dd.1 d then ((tf dd.2 * i) ^ 2)%R else 0%R)
                   <$> l))%R.
Proof.
  revert acc. induction l as [|dd l IH]; intros acc.
  - cbn [foldl]. rewrite fmap_nil, sum_list_nil. lra.
  - cbn [foldl]. rewrite IH, dict_add_total, fmap_cons, sum_list_cons.
    destruct (String.eqb dd.1 d); lra.
Qed.

Lemma foldl_dict_add_keys (i : R) (l : list (string * DocumentTokenData))
    (acc : dict R) (d : string) :
  d ∈ (foldl (fun acc dd => dict_add acc dd.1 ((tf dd.2 * i) ^ 2)%R) acc l).*1
  <-> d ∈ l.*1 \/ d ∈ acc.*1.
Proof.
  revert acc. induction l as [|dd l IH]; intros acc.
  - cbn. rewrite elem_of_nil. tauto.
  - cbn [foldl]. rewrite IH, dict_add_elem_of, fmap_cons, elem_of_cons. tauto.
Qed.

Lemma foldl_dict_add_NoDup (i : R) (l : list (string * DocumentTokenData))
    (acc : dict R) :
  NoDup acc.*1 ->
  NoDup (foldl (fun acc dd => dict_add acc dd.1 ((tf dd.2 * i) ^ 2)%R) acc l).*1.
Proof.
  revert acc. induction l as [|dd l IH]; intros acc Hnd; [exact Hnd|].
  cbn [foldl]. apply IH, dict_add_NoDup, Hnd.
Qed.

(** With unique keys, the postings add the squared weight of the entry of
    [d], if there is one. *)
Lemma sum_list_single (i : R) (l : list (string * DocumentTokenData)) (d : string) :
  NoDup l.*1 ->
  sum_list ((fun dd => if String.eqb dd.1 d then ((tf dd.2 * i) ^ 2)%R else 0%R) <$> l)
  = match dict_get l d with
    | Some dd => ((tf dd * i) ^ 2)%R
    | None => 0%R
    end.
Proof.
  induction l as [|[k dd] l IH]; intros Hnd; [reflexivity|].
  rewrite fmap_cons in *. apply NoDup_cons in Hnd as [Hk Hnd]. cbn [fst] in Hk.
  rewrite sum_list_cons. cbn [dict_get fst snd].
  rewrite IH by exact Hnd. destruct (String.eqb k d) eqn:Hkd.
  - apply String.eqb_eq in Hkd. subst k. apply dict_get_None in Hk. rewrite Hk. lra.
  - lra.
Qed.

Lemma IRData_square_sums_Ok (toks : list (string * Token)) (sums : dict R) :
  IRData_square_sums toks = Ok sums ->
  Forall (fun st => is_Some (list_ st.2)) toks
  /\ NoDup sums.*1
  /\ (forall d, d ∈ sums.*1 <->
        exists st l, st ∈ toks /\ list_ st.2 = Some l /\ d ∈ l.*1)
  /\ (Forall (fun st => forall l, list_ st.2 = Some l -> NoDup l.*1) toks ->
      forall d, dict_total sums d = sum_list (squared_weight d <$> toks)).
Proof.
  unfold IRData_square_sums.
  assert (Hgen : forall acc,
    for_fold
      (fun doc_lengths st =>
         l ← not_none TypeError (list_ st.2);
         Ok (foldl
               (fun doc_lengths dd =>
                  let tf_idf := (tf dd.2 * idf st.2)%R in
                  dict_add doc_lengths dd.1 (tf_idf ^ 2)%R)
               doc_lengths l))
      acc toks = Ok sums ->
    Forall (fun st => is_Some (list_ st.2)) toks
    /\ (NoDup acc.*1 -> NoDup sums.*1)
    /\ (forall d, d ∈ sums.*1 <->
          (exists st l, st ∈ toks /\ list_ st.2 = Some l /\ d ∈ l.*1) \/ d ∈ acc.*1)
    /\ (Forall (fun st => forall l, list_ st.2 = Some l -> NoDup l.*1) toks ->
        forall d, dict_total sums d
                  = (dict_total acc d + sum_list (squared_weight d <$> toks))%R)).
  { revert sums. induction toks as [|[term t] toks IH]; intros sums acc Hf.
    - cbn in Hf. injection Hf as <-. split; [constructor|]. split; [auto|]. split.
      + intros d. split; [auto|]. intros [(st & l & Hst & _)|Hd]; [|exact Hd].
        apply elem_of_nil in Hst as [].
      + intros _ d. rewrite fmap_nil, sum_list_nil. lra.
    - cbn [for_fold] in Hf. apply bind_Ok in Hf as (acc1 & Hstep & Hf).
      apply bind_Ok in Hstep as (l & Hl & [= <-]). apply not_none_Ok in Hl. cbn in Hl.
      destruct (IH _ _ Hf) as (Hsome & Hnd & Hkeys & Hsum).
      split; [constructor; [cbn; rewrite Hl; eauto|exact Hsome]|].
      split; [intros Hacc; apply Hnd, foldl_dict_add_NoDup, Hacc|]. split.
      + intros d. rewrite Hkeys.
        rewrite (foldl_dict_add_keys (idf t) l acc d). split.
        * intros [(st & l' & Hst & Hl' & Hd)|[Hd|Hd]]; [| |auto].
          -- left. exists st, l'. split; [right; exact Hst|auto].
          -- left. exists (term, t), l. split; [left|auto].
        * intros [(st & l' & Hst & Hl' & Hd)|Hd]; [|auto].
          apply elem_of_cons in Hst as [->|Hst].
          -- cbn in Hl'. assert (l' = l) as -> by congruence. auto.
          -- left. exists st, l'. auto.
      + intros Huniq d. apply Forall_cons in Huniq as [Hu Huniq].
        rewrite (Hsum Huniq d).
        match goal with |- context [foldl ?f acc l] =>
          change (foldl f acc l)
            with (foldl (fun acc dd => dict_add acc dd.1 ((tf dd.2 * idf t) ^ 2)%R) acc l)
        end.
        rewrite (foldl_dict_add_total (idf t) l acc d), fmap_cons, sum_list_cons.
        rewrite (sum_list_single (idf t) l d (Hu l Hl)).
        unfold squared_weight at 2. cbn [snd]. rewrite Hl.
        cbn [mbind option_bind]. destruct (dict_get l d); lra. }
  intros Hf. destruct (Hgen [] Hf) as (Hsome & Hnd & Hkeys & Hsum).
  split; [exact Hsome|]. split; [apply Hnd; constructor|]. split.
  - intros d. rewrite Hkeys. cbn. rewrite elem_of_nil. tauto.
  - intros Huniq d. rewrite (Hsum Huniq d). unfold dict_total. cbn. lra.
Qed.

(** ** The order on real numbers *)

Lemma Rltb_lt a b : Rltb a b = true <-> (a < b)%R.
Proof. unfold Rltb. destruct (Rlt_dec a b); split; auto; discriminate. Qed.

Lemma Rltb_false a b : Rltb a b = false <-> (b <= a)%R.
Proof. unfold Rltb. destruct (Rlt_dec a b); split; auto; try discriminate; lra. Qed.

Lemma Rltb_asym a b : Rltb a b = true -> Rltb b a = false.
Proof. rewrite Rltb_lt, Rltb_false. lra. Qed.

Lemma Rltb_negtrans a b c : Rltb a b = false -> Rltb b c = false -> Rltb a c = false.
Proof. rewrite !Rltb_false. lra. Qed.

Lemma py_div_Ok (a b : R) : b <> 0%R -> py_div a b = Ok (a / b)%R.
Proof. intros Hb. unfold py_div. destruct (Req_dec_T b 0); [contradiction|reflexivity]. Qed.

Lemma Rmax_1_neq_0 (x : R) : Rmax 1 x <> 0%R.
Proof. pose proof (Rmax_l 1 x). lra. Qed.

Lemma for_each_ext_Ok {A B} (f : A -> result B) (g : A -> B) (l : list A) :
  (forall x, x ∈ l -> f x = Ok (g x)) -> for_each f l = Ok (g <$> l).
Proof.
  induction l as [|x l IH]; intros Hf; [reflexivity|].
  cbn [for_each]. rewrite Hf by left. cbn [mbind result_bind].
  rewrite IH by (intros; apply Hf; right; assumption). reflexivity.
Qed.

Lemma StronglySorted_fmap_elem_of {A B} (f : A -> B) (R1 : relation A) (R2 : relation B)
    (l : list A) :
  (forall x y, x ∈ l -> y ∈ l -> R1 x y -> R2 (f x) (f y)) ->
  StronglySorted R1 l -> StronglySorted R2 (f <$> l).
Proof.
  intros Himpl Hs. induction Hs as [|x l Hs IH Hall]; [constructor|].
  rewrite fmap_cons. constructor.
  - apply IH. intros a b Ha Hb. apply Himpl; right; assumption.
  - rewrite Forall_fmap, Forall_forall. rewrite Forall_forall in Hall.
    intros y Hy. apply Himpl; [left|right; exact Hy|auto].
Qed.

Lemma sorted_keys_ascending {V} (l : list (string * V)) :
  keys_ascending (sorted str_ltb fst false l).
Proof.
  unfold keys_ascending.
  eapply StronglySorted_fmap;
    [|apply (sorted_StronglySorted str_ltb fst str_ltb_asym str_ltb_negtrans)].
  intros x y Hxy. exact Hxy.
Qed.

(** ** optimizer: champions lists *)

Lemma fmap_snd_decorate {A K} (key : A -> K) (l : list A) :
  ((fun x => (key x, x)) <$> l).*2 = l.
Proof.
  induction l as [|x l IH]; [reflexivity|]. rewrite !fmap_cons, IH. reflexivity.
Qed.

Lemma py_slice_to_nonneg {A} (a : list A) (n : Z) :
  0 <= n -> py_slice_to a n = take (Z.to_nat n) a.
Proof. intros Hn. unfold py_slice_to. destruct (Z.ltb_spec n 0); [lia|reflexivity]. Qed.

(** The champions of a term whose postings all have a document length:
    the postings sorted by descending weight, cut, and sorted by id. *)
Lemma champions_Ok (dl : dict R) (t : Token) (r : Z)
    (l : list (string * DocumentTokenData)) :
  list_ t = Some l ->
  (forall td, td ∈ l -> exists len, dict_get dl td.1 = Some len /\ len <> 0%R) ->
  exists ranked,
    champions dl t r = Ok (sorted str_ltb fst false (py_slice_to ranked r))
    /\ ranked ≡ₚ l
    /\ StronglySorted
         (fun a b => (champion_weight dl t b <= champion_weight dl t a)%R) ranked.
Proof.
  intros Hl Hlen. unfold champions. rewrite Hl. cbn [not_none mbind result_bind].
  rewrite (for_each_ext_Ok _ (fun td => (champion_weight dl t td, td))).
  2:{ intros td Htd. destruct (Hlen td Htd) as (len & Hget & Hne).
      unfold dict_item, champion_weight, dict_total. rewrite Hget.
      cbn [not_none mbind result_bind default]. rewrite py_div_Ok by exact Hne.
      reflexivity. }
  cbn [mbind result_bind].
  set (keyed := (fun td => (champion_weight dl t td, td)) <$> l).
  exists (sorted Rltb fst true keyed).*2. split; [reflexivity|]. split.
  - rewrite sorted_Permutation. unfold keyed. rewrite fmap_snd_decorate. reflexivity.
  - eapply StronglySorted_fmap_elem_of;
      [|apply (sorted_StronglySorted Rltb fst Rltb_asym Rltb_negtrans)].
    intros x y Hx Hy Hxy. apply sorted_elem_of in Hx, Hy.
    apply list_elem_of_fmap in Hx as (x0 & -> & _).
    apply list_elem_of_fmap in Hy as (y0 & -> & _).
    unfold in_order, precedes in Hxy. cbn in Hxy. apply Rltb_false in Hxy. exact Hxy.
Qed.

Lemma champions_of_nonneg (dl : dict R) (t : Token) (r : Z)
    (l ranked : list (string * DocumentTokenData)) :
  0 <= r -> ranked ≡ₚ l ->
  StronglySorted
    (fun a b => (champion_weight dl t b <= champion_weight dl t a)%R) ranked ->
  champions_of (champion_weight dl t) r l
    (sorted str_ltb fst false (py_slice_to ranked r)).
Proof.
  intros Hr Hperm Hsorted. rewrite py_slice_to_nonneg by exact Hr.
  unfold champions_of. rewrite sorted_length, length_take.
  rewrite (Permutation_length Hperm). split; [lia|]. split.
  - intros td Htd. apply sorted_elem_of in Htd. rewrite <- Hperm.
    rewrite <- (take_drop (Z.to_nat r) ranked). apply elem_of_app. left. exact Htd.
  - split; [apply sorted_keys_ascending|].
    exists (drop (Z.to_nat r) ranked). split; [|split; [reflexivity|]].
    + rewrite sorted_Permutation, take_drop. symmetry. exact Hperm.
    + intros x y Hx Hy. apply sorted_elem_of in Hx.
      rewrite <- (take_drop (Z.to_nat r) ranked) in Hsorted.
      apply (StronglySorted_app_1_elem_of _ _ _ _ _ Hsorted Hx Hy).
Qed.

Lemma dict_get_fmap_values {V W} (f : V -> W) (d : dict V) (k : string) :
  dict_get ((fun kv => (kv.1, f kv.2)) <$> d) k = f <$> dict_get d k.
Proof.
  induction d as [|[k' v] d IH]; [reflexivity|].
  rewrite fmap_cons. cbn [dict_get fst snd].
  destruct (String.eqb k' k); [reflexivity|exact IH].
Qed.

Section Collection.
Context `{Externals}.

Lemma IRData_init_Ok (p : PositionalInvertedIndexOnMemory) (ds : list Document)
    (ir : IRData) :
  IRData_init p ds = Ok ir ->
  exists dm mx mn toks sums,
    IRData_documents ds = Ok (dm, mx, mn)
    /\ tokens p = Some toks
    /\ IRData_square_sums toks = Ok sums
    /\ ir = {| pii := p; docs := dm; max_doc_date := mx; min_doc_date := mn;
               doc_lengths := (fun kv => (kv.1, Rmax 1 (sqrt kv.2))) <$> sums |}.
Proof.
  unfold IRData_init. intros Hi.
  apply bind_Ok in Hi as ([[dm mx] mn] & Hdocs & Hi).
  apply bind_Ok in Hi as (toks & Htoks & Hi). apply not_none_Ok in Htoks.
  apply bind_Ok in Hi as (sums & Hsums & [= <-]).
  exists dm, mx, mn, toks, sums. auto.
Qed.

(** Every document of a posting has a length, which is at least 1. *)
Lemma IRData_init_doc_lengths (p : PositionalInvertedIndexOnMemory)
    (ds : list Document) (ir : IRData) (toks : list (string * Token)) :
  IRData_init p ds = Ok ir -> tokens p = Some toks ->
  Forall
    (fun st => exists l,
       list_ st.2 = Some l
       /\ forall td, td ∈ l ->
            exists len, dict_get (doc_lengths ir) td.1 = Some len /\ len <> 0%R)
    toks.
Proof.
  intros Hi Htoks.
  apply IRData_init_Ok in Hi as (dm & mx & mn & toks' & sums & _ & Htoks' & Hsums & ->).
  assert (toks' = toks) as -> by congruence.
  apply IRData_square_sums_Ok in Hsums as (Hsome & _ & Hkeys & _).
  rewrite Forall_forall in *. intros st Hst. destruct (Hsome st Hst) as [l Hl].
  exists l. split; [exact Hl|]. intros td Htd. cbn [doc_lengths].
  pose proof (dict_get_fmap_values (fun v => Rmax 1 (sqrt v)) sums td.1) as Hmap.
  cbv beta in Hmap. rewrite Hmap.
  destruct (dict_get sums td.1) as [v|] eqn:Hget.
  - eexists. split; [reflexivity|]. apply Rmax_1_neq_0.
  - apply dict_get_None in Hget. destruct Hget. apply Hkeys.
    exists st, l. split; [exact Hst|]. split; [exact Hl|].
    apply list_elem_of_fmap. eauto.
Qed.

(** What [generate_champions_list] does for an integer [r], whatever its
    sign. *)
Lemma generate_champions_list_Ok (p : PositionalInvertedIndexOnMemory)
    (ds : list Document) (ir0 : IRData) (r : Z) :
  IRData_init p ds = Ok ir0 ->
  exists toks toks',
    tokens p = Some toks
    /\ generate_champions_list ir0 (Some r)
       = Ok {| pii := {| __tokens__ := __tokens__ p; tokens := Some toks' |};
               docs := docs ir0;
               max_doc_date := max_doc_date ir0; min_doc_date := min_doc_date ir0;
               doc_lengths := doc_lengths ir0 |}
    /\ Forall2
         (fun st st' =>
            st'.1 = st.1 /\ idf st'.2 = idf st.2 /\ linear_df st'.2 = linear_df st.2
            /\ list_ st'.2 = list_ st.2
            /\ exists l ranked,
                 list_ st.2 = Some l /\ ranked ≡ₚ l
                 /\ StronglySorted
                      (fun a b => (champion_weight (doc_lengths ir0) st.2 b
                                   <= champion_weight (doc_lengths ir0) st.2 a)%R)
                      ranked
                 /\ champions_list st'.2
                    = Some (sorted str_ltb fst false (py_slice_to ranked r)))
         toks toks'.
Proof.
  intros Hi. pose proof Hi as Hi'.
  apply IRData_init_Ok in Hi' as (dm & mx & mn & toks & sums & _ & Htoks & _ & Hir).
  pose proof (IRData_init_doc_lengths p ds ir0 toks Hi Htoks) as Hlens.
  assert (Hpii : pii ir0 = p) by (rewrite Hir; reflexivity).
  exists toks. unfold generate_champions_list, PII_iter. rewrite Hpii, Htoks.
  cbn [not_none mbind result_bind].
  match goal with |- context [for_each ?f toks] => set (step := f) end.
  assert (Hstep : exists toks',
             for_each step toks = Ok toks'
             /\ Forall2
                  (fun st st' =>
                     st'.1 = st.1 /\ idf st'.2 = idf st.2
                     /\ linear_df st'.2 = linear_df st.2
                     /\ list_ st'.2 = list_ st.2
                     /\ exists l ranked,
                          list_ st.2 = Some l /\ ranked ≡ₚ l
                          /\ StronglySorted
                               (fun a b =>
                                  (champion_weight (doc_lengths ir0) st.2 b
                                   <= champion_weight (doc_lengths ir0) st.2 a)%R)
                               ranked
                          /\ champions_list st'.2
                             = Some (sorted str_ltb fst false (py_slice_to ranked r)))
                  toks toks').
  { clear Htoks Hi Hir Hpii. induction Hlens as [|st toks (l & Hl & Hlen) _ IH].
    - exists []. split; [reflexivity|constructor].
    - destruct IH as (toks' & Hfe & Hall).
      destruct (champions_Ok (doc_lengths ir0) st.2 r l Hl Hlen)
        as (ranked & Hc & Hperm & Hsorted).
      eexists (_ :: toks'). split.
      + cbn [for_each]. rewrite Hfe. unfold step at 1. rewrite Hc. reflexivity.
      + constructor; [|exact Hall]. cbn. repeat split. exists l, ranked. auto. }
  destruct Hstep as (toks' & -> & Hall). exists toks'.
  split; [reflexivity|]. split; [reflexivity|exact Hall].
Qed.

(** C6, as amended. After the generation for an integer [r] that is not
    negative, the champions list of every term has at most [r] postings, all
    of them postings of the term, chosen so that none is lighter by
    idf * tf / document_vector_length than a posting left out, in ascending
    order of document id; for [r = None] the generation changes nothing. *)
Theorem champions_list_invariant (p : PositionalInvertedIndexOnMemory)
    (ds : list Document) (ir0 : IRData) (r : Z) :
  IRData_init p ds = Ok ir0 -> 0 <= r ->
  generate_champions_list ir0 None = Ok ir0
  /\ exists ir toks toks',
       generate_champions_list ir0 (Some r) = Ok ir
       /\ tokens p = Some toks
       /\ tokens (pii ir) = Some toks'
       /\ Forall2
            (fun st st' =>
               st'.1 = st.1 /\ list_ st'.2 = list_ st.2
               /\ exists l c,
                    list_ st.2 = Some l /\ champions_list st'.2 = Some c
                    /\ champions_of (champion_weight (doc_lengths ir0) st.2) r l c)
            toks toks'.
Proof.
  intros Hi Hr. split; [reflexivity|].
  destruct (generate_champions_list_Ok p ds ir0 r Hi) as (toks & toks' & Htoks & Hg & Hall).
  eexists. exists toks, toks'. split; [exact Hg|]. split; [exact Htoks|].
  split; [reflexivity|]. eapply Forall2_impl; [exact Hall|].
  intros st st' (Hk & _ & _ & Hlist & l & ranked & Hl & Hperm & Hsorted & Hc).
  split; [exact Hk|]. split; [exact Hlist|]. exists l. eexists.
  split; [exact Hl|]. split; [exact Hc|]. apply champions_of_nonneg; assumption.
Qed.

End Collection.

Lemma Rltb_irrefl (x : R) : Rltb x x = false.
Proof. apply Rltb_false. lra. Qed.

(** The collection of [sample_docs]. *)
Lemma sample_collection :
  exists p ir0,
    create_pii (H := simple_externals) sample_docs = Ok p
    /\ IRData_init (H := simple_externals) p sample_docs = Ok ir0.
Proof.
  eexists. eexists. split.
  - run. rewrite !log2_Ok by lra. run. reflexivity.
  - run. reflexivity.
Qed.

Lemma champions_list_invariant_witness :
  exists p ir0 ir,
    create_pii (H := simple_externals) sample_docs = Ok p
    /\ IRData_init (H := simple_externals) p sample_docs = Ok ir0
    /\ generate_champions_list ir0 (Some 1) = Ok ir.
Proof.
  destruct sample_collection as (p & ir0 & Hp & Hi).
  destruct (champions_list_invariant (H := simple_externals) p sample_docs ir0 1 Hi)
    as (_ & ir & _ & _ & Hg & _); [lia|].
  exists p, ir0, ir. auto.
Defined.

(** C6, as stated, fails for a negative integer: with [r = -1] the slice
    drops the last posting only, and the champions list, of size 1, is
    larger than [r]. *)
Lemma champions_negative_r :
  exists p ir0 ir ta ca,
    create_pii (H := simple_externals) sample_docs = Ok p
    /\ IRData_init (H := simple_externals) p sample_docs = Ok ir0
    /\ generate_champions_list ir0 (Some (-1)) = Ok ir
    /\ tokens (pii ir) = Some [("a", ta)]
    /\ champions_list ta = Some [ca]
    /\ ~ (Z.of_nat (length [ca]) <= -1).
Proof.
  do 5 eexists. split.
  { run. rewrite !log2_Ok by lra. run. reflexivity. }
  split.
  { run. reflexivity. }
  split.
  { run. rewrite !py_div_Ok by apply Rmax_1_neq_0. run.
    rewrite !Rltb_irrefl. run. reflexivity. }
  split; [reflexivity|]. split; [reflexivity|].
  cbn. lia.
Qed.

(** ** heapq *)

Lemma insert_cons_Permutation {A} (l : list A) (j : nat) (x y : A) :
  l !! j = Some y -> y :: <[j := x]> l ≡ₚ x :: l.
Proof.
  revert j. induction l as [|z l IH]; intros j Hj; [discriminate|].
  destruct j as [|j]; cbn in *.
  - injection Hj as ->. apply Permutation_swap.
  - rewrite Permutation_swap, (IH j Hj). apply Permutation_swap.
Qed.

(** Writing [a], read at [i], to [j] and then [b] to [i] permutes the list
    that has [b] at [j]. *)
Lemma insert_swap_Permutation {A} (l : list A) (i j : nat) (a b : A) :
  i <> j -> l !! i = Some a -> (j < length l)%nat ->
  <[i := b]> (<[j := a]> l) ≡ₚ <[j := b]> l.
Proof.
  intros Hij Hi Hj. destruct (lookup_lt_is_Some_2 l j Hj) as [c Hc].
  assert (H1 : a :: <[i := b]> (<[j := a]> l) ≡ₚ b :: <[j := a]> l).
  { apply insert_cons_Permutation. rewrite list_lookup_insert_ne by auto. exact Hi. }
  pose proof (insert_cons_Permutation l j a c Hc) as H2.
  pose proof (insert_cons_Permutation l j b c Hc) as H3.
  apply (Permutation_cons_inv (a := a)), (Permutation_cons_inv (a := c)).
  rewrite H1, (Permutation_swap b c), H2, (Permutation_swap a b), <- H3.
  apply Permutation_swap.
Qed.

Lemma siftdown_Permutation {A} (ltb : A -> A -> bool) (heap : list A) (newitem : A)
    (startpos pos : nat) :
  (pos < length heap)%nat ->
  siftdown ltb heap newitem startpos pos ≡ₚ <[pos := newitem]> heap.
Proof.
  funelim (siftdown ltb heap newitem startpos pos); intros Hpos; [|reflexivity].
  destruct (heap !! Nat.div2 (pos - 1)) as [parent|] eqn:Hparent; [|reflexivity].
  destruct (ltb newitem parent) eqn:Hlt; [|reflexivity].
  assert (Hlt' : (Nat.div2 (pos - 1) < pos)%nat).
  { destruct pos as [|n]; [lia|]. replace (S n - 1)%nat with n by lia.
    destruct n as [|m]; [cbn; lia|]. pose proof (Nat.lt_div2 (S m)). lia. }
  rewrite H by (rewrite length_insert; lia).
  apply insert_swap_Permutation; [lia|exact Hparent|exact Hpos].
Qed.

Lemma heappush_Permutation {A} (ltb : A -> A -> bool) (heap : list A) (item : A) :
  heappush ltb heap item ≡ₚ item :: heap.
Proof.
  unfold heappush. rewrite siftdown_Permutation by (rewrite length_app; cbn; lia).
  rewrite list_insert_id.
  - rewrite Permutation_app_comm. reflexivity.
  - rewrite lookup_app_r by lia. replace (length heap - length heap)%nat with 0%nat by lia.
    reflexivity.
Qed.

(** The heap that a loop of pushes builds holds what was pushed. *)
Lemma for_fold_heappush {A B} (ltb : B -> B -> bool) (f : A -> result B)
    (l : list A) (heap0 heap : list B) :
  for_fold (fun heap x => y ← f x; Ok (heappush ltb heap y)) heap0 l = Ok heap ->
  exists ys, for_each f l = Ok ys /\ heap ≡ₚ (heap0 ++ ys)%list.
Proof.
  revert heap0. induction l as [|x l IH]; intros heap0 Hf.
  - cbn in Hf. injection Hf as <-. exists []. rewrite app_nil_r. auto.
  - cbn [for_fold] in Hf. apply bind_Ok in Hf as (h1 & Hstep & Hf).
    apply bind_Ok in Hstep as (y & Hy & [= <-]).
    destruct (IH _ Hf) as (ys & Hys & Hperm).
    exists (y :: ys). cbn [for_each]. rewrite Hy, Hys. split; [reflexivity|].
    rewrite Hperm, heappush_Permutation, <- app_comm_cons.
    apply Permutation_middle.
Qed.

Lemma nlargest_take {A} (n : Z) (l : list A) (key : A -> R) :
  nlargest n l key = take (Z.to_nat n) (sorted Rltb key true l).
Proof.
  unfold nlargest. destruct (Z.leb_spec n 0) as [Hn|Hn]; [|reflexivity].
  replace (Z.to_nat n) with 0%nat by lia. reflexivity.
Qed.

Lemma StronglySorted_take {A} (R : relation A) (n : nat) (l : list A) :
  StronglySorted R l -> StronglySorted R (take n l).
Proof.
  intros Hs. rewrite <- (take_drop n l) in Hs. eapply StronglySorted_app_1_l, Hs.
Qed.

Lemma StronglySorted_weaken {A} (R1 R2 : relation A) (l : list A) :
  (forall x y, R1 x y -> R2 x y) -> StronglySorted R1 l -> StronglySorted R2 l.
Proof.
  intros Himpl. induction 1 as [|x l Hs IH Hall]; constructor; [exact IH|].
  eapply Forall_impl; [exact Hall|]. intros y. apply Himpl.
Qed.

(** ** search *)

Section Search.
Context `{Externals}.

(** The steps of a search that ends normally: the query index, the raw
    scores, the phrase scores, the scored documents in the order of the raw
    scores, and their ranking. *)
Lemma search_Ok (ir : IRData) (query : string) (k : Z)
    (date_score_ phrase_query_score : bool)
    (score_function : PositionalInvertedIndexOnMemory ->
                      PositionalInvertedIndexOnMemory -> result (dict R))
    (res : list (Document * R)) :
  search ir query k date_score_ phrase_query_score score_function = Ok res ->
  exists query_pii doc_scores phrase_scores finals ranked,
    create_query_pii query = Ok query_pii
    /\ score_function (pii ir) query_pii = Ok doc_scores
    /\ (if phrase_query_score
        then Some <$> phrase_query (pii ir) query_pii (dict_keys doc_scores)
        else Ok None) = Ok phrase_scores
    /\ for_each (scored_document ir phrase_scores date_score_) doc_scores = Ok finals
    /\ ranked ≡ₚ finals
    /\ StronglySorted (fun a b => (score b <= score a)%R) ranked
    /\ res = (fun sd => (doc sd, score sd)) <$> take (Z.to_nat k) ranked.
Proof.
  unfold search. intros Hs.
  apply bind_Ok in Hs as (qp & Hqp & Hs). apply bind_Ok in Hs as (dsc & Hdsc & Hs).
  apply bind_Ok in Hs as (ps & Hps & Hs). apply bind_Ok in Hs as (heap & Hheap & Hs).
  injection Hs as <-.
  apply for_fold_heappush in Hheap as (finals & Hfinals & Hperm).
  exists qp, dsc, ps, finals, (sorted Rltb score true heap).
  repeat split; try assumption.
  - rewrite sorted_Permutation. exact Hperm.
  - eapply StronglySorted_weaken;
      [|apply (sorted_StronglySorted Rltb score Rltb_asym Rltb_negtrans)].
    intros a b Hab. apply Rltb_false in Hab. exact Hab.
  - rewrite nlargest_take. reflexivity.
Qed.

End Search.

(** ** The final score *)

Lemma cosine_postings_NoDup (elimination : option R) (i wtq : R)
    (postings : list (string * DocumentTokenData)) (doc_scores : dict R) :
  NoDup doc_scores.*1 ->
  NoDup (cosine_postings elimination i wtq postings doc_scores).*1.
Proof.
  revert doc_scores. induction postings as [|[d dd] postings IH]; intros acc Hnd;
    [exact Hnd|].
  cbn [cosine_postings]. destruct elimination as [threshold|].
  - destruct (Rltb _ threshold); [apply dict_add_NoDup, Hnd|].
    apply IH, dict_add_NoDup, Hnd.
  - apply IH, dict_add_NoDup, Hnd.
Qed.

Lemma cosine_score_NoDup (p query_pii : PositionalInvertedIndexOnMemory)
    (doc_scores : dict R) :
  cosine_score p query_pii = Ok doc_scores -> NoDup doc_scores.*1.
Proof.
  unfold cosine_score. intros Hc. apply bind_Ok in Hc as (qtoks & _ & Hf).
  eapply (for_fold_invariant (fun s : dict R => NoDup s.*1)); [| |exact Hf];
    [constructor|].
  intros acc qt acc' _ Hacc Hstep. cbv beta in Hstep.
  apply bind_Ok in Hstep as (ql & _ & Hstep). apply bind_Ok in Hstep as (first & _ & Hstep).
  destruct (PII_getitem p qt.1) as [token_data|e].
  - apply bind_Ok in Hstep as (postings & _ & [= <-]).
    apply cosine_postings_NoDup, Hacc.
  - destruct e; try discriminate. injection Hstep as <-. exact Hacc.
Qed.

Section FinalScore.
Context `{Externals}.

Lemma generate_champions_list_fields (ir0 ir : IRData) (r : option Z) :
  generate_champions_list ir0 r = Ok ir ->
  docs ir = docs ir0 /\ doc_lengths ir = doc_lengths ir0
  /\ max_doc_date ir = max_doc_date ir0 /\ min_doc_date ir = min_doc_date ir0.
Proof.
  unfold generate_champions_list. destruct r as [r|].
  - intros Hg. apply bind_Ok in Hg as (toks & _ & Hg).
    apply bind_Ok in Hg as (toks' & _ & [= <-]). auto.
  - intros [= <-]. auto.
Qed.

(** The length stored for a document is the closed form of the
    specification, when each term has one posting per document. *)
Lemma IRData_init_vector_length (p : PositionalInvertedIndexOnMemory)
    (ds : list Document) (ir0 : IRData) (toks : list (string * Token))
    (id : string) (len : R) :
  IRData_init p ds = Ok ir0 -> tokens p = Some toks ->
  Forall (fun st => forall l, list_ st.2 = Some l -> NoDup l.*1) toks ->
  dict_get (doc_lengths ir0) id = Some len ->
  len = document_vector_length toks id.
Proof.
  intros Hi Htoks Huniq Hget.
  apply IRData_init_Ok in Hi as (dm & mx & mn & toks' & sums & _ & Htoks' & Hsums & ->).
  assert (toks' = toks) as -> by congruence.
  apply IRData_square_sums_Ok in Hsums as (_ & _ & _ & Hsum).
  cbn [doc_lengths] in Hget.
  pose proof (dict_get_fmap_values (fun v => Rmax 1 (sqrt v)) sums id) as Hmap.
  cbv beta in Hmap. rewrite Hmap in Hget.
  destruct (dict_get sums id) as [v|] eqn:Hv; [|discriminate].
  injection Hget as <-. unfold document_vector_length.
  rewrite <- (Hsum Huniq id). unfold dict_total. rewrite Hv. reflexivity.
Qed.

Lemma scored_document_Ok (ir : IRData) (phrase_scores : option (dict R))
    (date_score_ : bool) (ds : string * R) (sd : SearchedDocument Document) :
  scored_document ir phrase_scores date_score_ ds = Ok sd ->
  exists len boost,
    dict_get (docs ir) ds.1 = Some (doc sd)
    /\ dict_get (doc_lengths ir) ds.1 = Some len
    /\ (if date_score_
        then date_score (date (doc sd)) (max_doc_date ir) (min_doc_date ir) = Ok boost
        else boost = 0%R)
    /\ score sd = (ds.2 / len * phrase_multiplier phrase_scores ds.1 + boost)%R.
Proof.
  unfold scored_document, dict_item. intros Hs.
  apply bind_Ok in Hs as (d & Hd & Hs). apply not_none_Ok in Hd.
  apply bind_Ok in Hs as (len & Hlen & Hs). apply not_none_Ok in Hlen.
  apply bind_Ok in Hs as (n & Hn & Hs).
  unfold py_div in Hn. destruct (Req_dec_T len 0); [discriminate|]. injection Hn as <-.
  apply bind_Ok in Hs as (n' & Hn' & [= <-]). cbn [doc score].
  exists len. destruct date_score_.
  - apply bind_Ok in Hn' as (b & Hb & [= <-]). exists b.
    repeat split; try assumption.
    destruct phrase_scores as [ps|]; cbn; [reflexivity|lra].
  - injection Hn' as <-. exists 0%R. repeat split; try assumption.
    destruct phrase_scores as [ps|]; cbn; lra.
Qed.

End FinalScore.

Section FinalScoreTheorem.
Context `{Externals}.

Lemma ready_vector_length (ir : IRData) (toks : list (string * Token))
    (id : string) (len : R) :
  ready ir toks -> dict_get (doc_lengths ir) id = Some len ->
  len = document_vector_length toks id.
Proof.
  intros (p & ds & ir0 & r & (toks' & Htoks' & _ & Hwf) & Htoks & Hi & Hg) Hget.
  assert (toks' = toks) as -> by congruence.
  apply generate_champions_list_fields in Hg as (_ & Hdl & _). rewrite Hdl in Hget.
  eapply IRData_init_vector_length; eauto.
  eapply Forall_impl; [exact Hwf|]. intros st (l & Hl & Hsorted & _) l' Hl'.
  assert (l' = l) as -> by congruence. apply keys_sorted_NoDup, Hsorted.
Qed.

End FinalScoreTheorem.

(** ** The indexes that [create] hands to [IRData] are well-formed *)

Lemma Token_finalize_nonempty (t t' : Token) (n : Z) :
  building_token t -> 0 < linear_df t -> Token_finalize t n = Ok t' ->
  exists l, list_ t' = Some l /\ l <> [] /\ champions_list t' = None.
Proof.
  intros (l0 & Hl0 & _ & Hdf & _ & Hch) Hpos Hfin.
  apply Token_finalize_Ok in Hfin as (l & l' & Hl & Hupd & _ & _ & _ & Hlist & Hch').
  assert (l0 = l) as -> by congruence.
  eexists. split; [exact Hlist|]. split; [|congruence]. intros Hnil.
  apply (f_equal length) in Hnil. rewrite sorted_length in Hnil.
  apply Forall2_length in Hupd. cbn in Hnil. lia.
Qed.

Lemma PII_finalize_well_formed (p p' : PositionalInvertedIndexOnMemory) (n : Z) :
  building p -> PII_finalize p n = Ok p' -> well_formed p'.
Proof.
  intros Hb Hfin.
  destruct (PII_finalize_finalized p p' n Hb Hfin) as (toks & Htoks & Hsorted & Hall).
  exists toks. split; [exact Htoks|]. split; [exact Hsorted|].
  destruct Hb as (d0 & Hd0 & _ & Hbuild).
  apply PII_finalize_Ok in Hfin as (d & d' & Hd & Hfin & _ & Htoks').
  assert (d0 = d) as -> by congruence.
  assert (toks = sorted str_ltb fst false d') as -> by congruence.
  rewrite Forall_forall in *. intros [k t'] Hst.
  destruct (Hall _ Hst) as (_ & l & Hl & Hls & _).
  exists l. split; [exact Hl|]. split; [exact Hls|].
  apply sorted_elem_of in Hst.
  destruct (Forall2_elem_of_r _ _ _ _ Hfin Hst) as ([k0 t] & Hin & _ & Ht).
  destruct (Hbuild _ Hin) as [Hbt Hpos]. cbn in *.
  destruct (Token_finalize_nonempty t t' n Hbt Hpos Ht) as (l' & Hl' & Hne & Hch).
  split; [congruence|exact Hch].
Qed.

Lemma same_index_well_formed (p p' : PositionalInvertedIndexOnMemory) :
  same_index p p' -> no_champions p' -> well_formed p -> well_formed p'.
Proof.
  intros (ta & tb & Hta & Htb & Hsame) Hnc (toks & Htoks & Hsorted & Hall).
  specialize (Hnc tb Htb). rewrite Forall_forall in Hnc.
  assert (toks = ta) as -> by congruence.
  exists tb. split; [exact Htb|].
  assert (Hkeys : tb.*1 = ta.*1).
  { clear -Hsame. induction Hsame as [|a b ta tb (Hk & _) _ IH]; [reflexivity|].
    rewrite !fmap_cons, Hk, IH. reflexivity. }
  split; [unfold keys_sorted; rewrite Hkeys; exact Hsorted|].
  rewrite Forall_forall in *. intros b Hb.
  destruct (Forall2_elem_of_r _ _ _ _ Hsame Hb)
    as (a & Ha & _ & _ & _ & la & lb & Hla & Hlb & Hpost).
  destruct (Hall a Ha) as (l & Hl & Hls & Hne & _).
  assert (l = la) as -> by congruence.
  exists lb. split; [exact Hlb|].
  assert (Hk : lb.*1 = la.*1).
  { clear -Hpost. induction Hpost as [|x y la lb (Hk & _) _ IH]; [reflexivity|].
    rewrite !fmap_cons, Hk, IH. reflexivity. }
  split; [unfold keys_sorted; rewrite Hk; exact Hls|]. split; [|apply Hnc, Hb].
  intros ->. inversion Hpost. subst. congruence.
Qed.

Section CreateIndex.
Context `{Externals}.

Lemma create_pii_well_formed (ds : list Document) (p : PositionalInvertedIndexOnMemory) :
  create_pii ds = Ok p -> well_formed p.
Proof.
  unfold create_pii. intros Hc. apply bind_Ok in Hc as (p0 & Hp0 & Hfin).
  eapply PII_finalize_well_formed; [|exact Hfin].
  eapply (for_fold_invariant building); [apply PII_new_building| |exact Hp0].
  intros q d q' _ Hq Hstep. cbv beta in Hstep.
  apply bind_Ok in Hstep as (q1 & Hq1 & Hq').
  destruct (for_fold_add_token_building
              (fun tw : string * R => (tw.1, doc_id d, -1, tw.2))
              q (get_weighted_tokens d) Hq) as (q1' & Hq1' & Hb1).
  cbn [fst snd] in Hq1'. assert (q1' = q1) as -> by congruence.
  destruct (for_fold_add_token_building
              (fun it : nat * string => (it.2, doc_id d, Z.of_nat it.1, 1%R))
              q1 (imap pair (get_tokens d)) Hb1) as (q2 & Hq2 & Hb2).
  cbn [fst snd] in Hq2. assert (q2 = q') as -> by congruence. exact Hb2.
Qed.

End CreateIndex.

#[local] Transparent bs_loop phrase_start siftdown.

(** A search in the collection of [sample_docs]: both documents get the
    raw score 0, since the term is in every document, and the same final
    score. *)
Lemma sample_search :
  exists p ir0 qp d1 d2 s c1 c2,
    create_pii (H := simple_externals) sample_docs = Ok p
    /\ IRData_init (H := simple_externals) p sample_docs = Ok ir0
    /\ create_query_pii (H := simple_externals) "a" = Ok qp
    /\ cosine_score (pii ir0) qp = Ok [("1", c1); ("2", c2)]
    /\ c1 = 0%R /\ c2 = 0%R
    /\ search ir0 "a" 2 false true cosine_score = Ok [(d1, s); (d2, s)].
Proof.
  do 8 eexists.
  assert (Hln : ln (2 / 2) = 0%R).
  { replace (2 / 2)%R with 1%R by lra. apply ln_1. }
  split.
  { run. rewrite !log2_Ok by lra. run. reflexivity. }
  split.
  { run. reflexivity. }
  match goal with |- ?Q /\ ?C /\ _ => assert (Hq : Q); [|assert (Hc : C)] end.
  { run. rewrite !log2_Ok by lra. run. reflexivity. }
  { run. reflexivity. }
  split; [exact Hq|]. split; [exact Hc|].
  split; [rewrite Hln; lra|]. split; [rewrite Hln; lra|].
  unfold search. rewrite Hq. cbn [mbind result_bind]. rewrite Hc.
  cbn [mbind result_bind].
  match goal with |- context [phrase_query ?a ?b ?c] =>
    assert (Hp : phrase_query a b c = Ok []) by (run; reflexivity); rewrite Hp
  end.
  run. rewrite !py_div_Ok by apply Rmax_1_neq_0. run.
  rewrite !Rltb_irrefl. run. reflexivity.
Qed.

Lemma search_any_k `{Externals} (ir : IRData) (query : string) (k k' : Z)
    (date_score_ phrase_query_score : bool)
    (score_function : PositionalInvertedIndexOnMemory ->
                      PositionalInvertedIndexOnMemory -> result (dict R))
    (res : list (Document * R)) :
  search ir query k date_score_ phrase_query_score score_function = Ok res ->
  exists res',
    search ir query k' date_score_ phrase_query_score score_function = Ok res'.
Proof.
  unfold search. intros Hs.
  apply bind_Ok in Hs as (qp & Hqp & Hs). apply bind_Ok in Hs as (dsc & Hdsc & Hs).
  apply bind_Ok in Hs as (ps & Hps & Hs). apply bind_Ok in Hs as (heap & Hheap & _).
  rewrite Hqp. cbn [mbind result_bind]. rewrite Hdsc. cbn [mbind result_bind].
  rewrite Hps. cbn [mbind result_bind]. rewrite Hheap. cbn [mbind result_bind].
  eauto.
Qed.

(** ** phrase_query *)

Lemma positions_of_searchable (p : PositionalInvertedIndexOnMemory) (term doc : string) :
  searchable p ->
  positions_of p term doc = not_none KeyError (visible_positions p term doc).
Proof.
  intros (toks & Htoks & Hsorted & Hne & Hall).
  unfold positions_of, PII_getitem, visible_positions. rewrite Htoks.
  cbn [not_none mbind result_bind option_bind].
  rewrite binary_search_tuple_sorted by assumption. unfold dict_item.
  destruct (dict_get toks term) as [t|] eqn:Hget; [|reflexivity].
  cbn [not_none mbind result_bind option_bind].
  apply dict_get_Some_elem in Hget. rewrite Forall_forall in Hall.
  destruct (Hall _ Hget) as (l & Hl & Hls & Hlne). cbn [snd] in Hl.
  unfold Token_getitem. rewrite Hl. cbn [not_none mbind result_bind option_bind].
  rewrite binary_search_tuple_sorted by assumption. unfold dict_item.
  destruct (dict_get l doc); reflexivity.
Qed.

Lemma phrase_start_spec (p : PositionalInvertedIndexOnMemory)
    (query_tokens : list (string * Token)) (doc : string) (n : nat) :
  searchable p -> (n <= length query_tokens)%nat ->
  phrase_start p query_tokens doc n
  = Ok (start_before_last p doc (drop n query_tokens.*1) n).
Proof.
  intros Hp. funelim (phrase_start p query_tokens doc n); intros Hn.
  - destruct (py_index_Ok query_tokens (Z.of_nat token_pos)) as (qt & Hqt & ->); [lia|].
    rewrite Nat2Z.id in Hqt. cbn [mbind result_bind].
    destruct (lookup_lt_is_Some_2 query_tokens (S token_pos)) as [qt' Hqt']; [lia|].
    rewrite (drop_S _ qt.1 token_pos) by (rewrite list_lookup_fmap, Hqt; reflexivity).
    rewrite (drop_S _ qt'.1 (S token_pos))
      by (rewrite list_lookup_fmap, Hqt'; reflexivity).
    cbn [start_before_last]. rewrite positions_of_searchable by exact Hp.
    match goal with |- context [visible_positions ?a ?b ?c] =>
      destruct (visible_positions a b c) as [ps|]
    end; cbn [not_none]; [reflexivity|].
    rewrite (H KeyError Hp) by lia.
    replace (token_pos + 1)%nat with (S token_pos) by lia.
    rewrite (drop_S _ qt'.1 (S token_pos))
      by (rewrite list_lookup_fmap, Hqt'; reflexivity).
    reflexivity.
  - f_equal. assert (Hlen : (length query_tokens <= token_pos + 1)%nat) by lia.
    destruct (decide (token_pos = length query_tokens)) as [->|Hne].
    + rewrite drop_ge by (rewrite length_fmap; lia). reflexivity.
    + destruct (lookup_lt_is_Some_2 query_tokens token_pos) as [qt Hqt]; [lia|].
      rewrite (drop_S _ qt.1 token_pos) by (rewrite list_lookup_fmap, Hqt; reflexivity).
      rewrite drop_ge by (rewrite length_fmap; lia). reflexivity.
Qed.

Lemma phrase_walk_spec (p : PositionalInvertedIndexOnMemory) (doc : string)
    (rest : list (string * Token)) (pos match_length : Z) :
  searchable p ->
  phrase_walk p doc rest pos match_length
  = Ok (match_length + following_run p doc rest.*1 pos).
Proof.
  intros Hp. revert pos match_length.
  induction rest as [|[term t] rest IH]; intros pos ml.
  - rewrite fmap_nil. cbn [phrase_walk following_run]. f_equal. lia.
  - rewrite fmap_cons. cbn [phrase_walk following_run fst].
    rewrite positions_of_searchable by exact Hp.
    destruct (visible_positions p term doc) as [sp|]; cbn [not_none].
    + unfold py_in. destruct (bool_decide (pos + 1 ∈ sp)).
      * rewrite IH. f_equal. lia.
      * f_equal. lia.
    + f_equal. lia.
Qed.

Lemma max_list_nonneg (l : list Z) : 0 <= max_list l.
Proof. unfold max_list. induction l as [|x l IH]; cbn [foldr]; lia. Qed.

Lemma phrase_runs_spec (p : PositionalInvertedIndexOnMemory) (doc : string)
    (rest : list (string * Token)) (ps : list Z) :
  searchable p ->
  phrase_runs p doc rest ps = Ok (best_run p doc rest.*1 ps).
Proof.
  intros Hp. unfold phrase_runs.
  assert (Hgen : forall acc, 0 <= acc ->
    for_fold
      (fun max_consecutive start_pos =>
         if start_pos =? -1 then Ok max_consecutive
         else
           match_length ← phrase_walk p doc rest start_pos 1;
           Ok (Z.max max_consecutive match_length))
      acc ps = Ok (Z.max acc (best_run p doc rest.*1 ps))).
  { induction ps as [|sp ps IH]; intros acc Hacc.
    - cbn [for_fold]. unfold best_run. rewrite filter_nil, fmap_nil.
      cbn [max_list foldr]. f_equal. lia.
    - cbn [for_fold]. unfold best_run in *. destruct (Z.eqb_spec sp (-1)) as [->|Hsp].
      + cbn [mbind result_bind]. rewrite IH by exact Hacc.
        rewrite filter_cons_False by (cbn; discriminate). reflexivity.
      + rewrite phrase_walk_spec by exact Hp. cbn [mbind result_bind].
        rewrite IH by lia.
        rewrite filter_cons_True.
        2:{ unfold real_position. destruct (Z.eqb_spec sp (-1)); [contradiction|reflexivity]. }
        rewrite fmap_cons. unfold max_list. cbn [foldr]. cbv beta. f_equal. lia. }
  rewrite Hgen by lia. f_equal. pose proof (max_list_nonneg
    ((fun pos => 1 + following_run p doc rest.*1 pos)
       <$> filter (fun pos => real_position pos = true) ps)).
  unfold best_run. lia.
Qed.

Lemma start_before_last_Some (p : PositionalInvertedIndexOnMemory) (doc : string)
    (terms : list string) (n m : nat) (ps : list Z) :
  start_before_last p doc terms n = (Some ps, m) ->
  (n <= m)%nat /\ (m - n + 1 < length terms)%nat
  /\ starting_term any_entry p doc terms = Some (ps, drop (m - n + 1) terms).
Proof.
  revert n. induction terms as [|term rest IH]; intros n Hs; [discriminate|].
  cbn [start_before_last] in Hs. cbn [starting_term].
  destruct rest as [|term' rest']; [discriminate|].
  destruct (visible_positions p term doc) as [ps'|].
  - injection Hs as -> ->. replace (m - m + 1)%nat with 1%nat by lia.
    unfold any_entry. cbn [length drop]. repeat split; lia.
  - destruct (IH (S n) Hs) as (Hle & Hlt & Hst). split; [lia|]. split; [cbn in *; lia|].
    rewrite Hst. replace (m - n + 1)%nat with (S (m - S n + 1)) by lia. reflexivity.
Qed.

Lemma start_before_last_None (p : PositionalInvertedIndexOnMemory) (doc : string)
    (terms : list string) (n m : nat) :
  start_before_last p doc terms n = (None, m) ->
  starting_term any_entry p doc terms = None
  \/ exists ps, starting_term any_entry p doc terms = Some (ps, []).
Proof.
  revert n. induction terms as [|term rest IH]; intros n Hs; [left; reflexivity|].
  cbn [start_before_last] in Hs. cbn [starting_term].
  destruct rest as [|term' rest'].
  - destruct (visible_positions p term doc) as [ps|]; cbn; eauto.
  - destruct (visible_positions p term doc) as [ps|]; [discriminate|].
    apply (IH (S n) Hs).
Qed.

Lemma best_run_no_rest (p : PositionalInvertedIndexOnMemory) (doc : string)
    (ps : list Z) :
  best_run p doc [] ps <= 1.
Proof.
  unfold best_run, max_list.
  induction (filter (fun pos => real_position pos = true) ps) as [|x l IH];
    [cbn; lia|].
  rewrite fmap_cons. cbn [foldr]. cbv beta. cbn [following_run] in *. lia.
Qed.

Lemma fmap_fst_drop {A B} (n : nat) (l : list (A * B)) : (drop n l).*1 = drop n l.*1.
Proof. apply fmap_drop. Qed.

(** For a searchable index, the score that the loop body of [phrase_query]
    finds for a document is the phrase score whose starting term is the first
    query term with any entry for the document. *)
Lemma phrase_query_doc_spec (p : PositionalInvertedIndexOnMemory)
    (query_tokens : list (string * Token)) (doc : string) :
  searchable p ->
  phrase_query_doc p query_tokens doc
  = Ok (phrase_score any_entry p query_tokens.*1 doc).
Proof.
  intros Hp. unfold phrase_query_doc, phrase_score.
  rewrite phrase_start_spec by (exact Hp || lia). rewrite drop_0.
  cbn [mbind result_bind].
  destruct (start_before_last p doc query_tokens.*1 0) as [[ps|] tp] eqn:Hstart.
  - apply start_before_last_Some in Hstart as (_ & Hlt & ->).
    rewrite length_fmap in Hlt. rewrite Nat.sub_0_r in *.
    rewrite bool_decide_eq_false_2 by lia. unfold py_slice_from.
    rewrite phrase_runs_spec by exact Hp. cbn [mbind result_bind].
    rewrite fmap_fst_drop, length_fmap.
    destruct (1 <? best_run p doc (drop (tp + 1) query_tokens.*1) ps); reflexivity.
  - apply start_before_last_None in Hstart as [->|(ps & ->)]; [reflexivity|].
    pose proof (best_run_no_rest p doc ps).
    destruct (Z.ltb_spec 1 (best_run p doc [] ps)); [lia|reflexivity].
Qed.

Lemma dict_get_nil {V} (k : string) : dict_get ([] : dict V) k = None.
Proof. reflexivity. Qed.

Section PhraseQuery.
Context `{Externals}.

(** C5, as amended. For an index that the lookups can search,
    [phrase_query] gives each candidate document the phrase score whose
    starting term is the first query term, from left to right, with a
    position entry for the document, real or not, and whose runs start at
    the real positions of that entry: no entry when there is no such term or
    the best run is at most 1 long, and 1 + PHRASE_QUERY_WEIGHT *
    (best_run_length / L) otherwise. The caller, [search], multiplies the
    normalized score of a document, raw score / document length, by the
    entry of the document and by 1 when the document has no entry, before it
    adds the date boost. *)
Theorem phrase_query_spec (p query_pii : PositionalInvertedIndexOnMemory)
    (query_tokens : list (string * Token)) (doc_ids : list string) :
  searchable p -> tokens query_pii = Some query_tokens ->
  exists phrase_scores,
    phrase_query p query_pii doc_ids = Ok phrase_scores
    /\ (forall doc,
          dict_get phrase_scores doc
          = if bool_decide (doc ∈ doc_ids)
            then phrase_score any_entry p query_tokens.*1 doc
            else None)
    /\ (forall ir date_score_ id s sd,
          scored_document ir (Some phrase_scores) date_score_ (id, s) = Ok sd ->
          exists len boost,
            dict_get (doc_lengths ir) id = Some len
            /\ (if date_score_
                then date_score (date (doc sd)) (max_doc_date ir) (min_doc_date ir)
                     = Ok boost
                else boost = 0%R)
            /\ score sd
               = (s / len * match dict_get phrase_scores id with
                            | Some multiplier => multiplier
                            | None => 1
                            end + boost)%R)
    /\ (forall ir query k date_score_ res,
          pii ir = p -> create_query_pii query = Ok query_pii ->
          search ir query k date_score_ true cosine_score = Ok res ->
          exists doc_scores multipliers,
            cosine_score p query_pii = Ok doc_scores
            /\ phrase_query p query_pii (dict_keys doc_scores) = Ok multipliers
            /\ Forall
                 (fun ds =>
                    exists id s len boost,
                      dict_get doc_scores id = Some s
                      /\ dict_get (docs ir) id = Some ds.1
                      /\ dict_get (doc_lengths ir) id = Some len
                      /\ (if date_score_
                          then date_score (date ds.1) (max_doc_date ir)
                                 (min_doc_date ir) = Ok boost
                          else boost = 0%R)
                      /\ ds.2
                         = (s / len * match dict_get multipliers id with
                                      | Some multiplier => multiplier
                                      | None => 1
                                      end + boost)%R)
                 res).
Proof.
  intros Hp Hq. unfold phrase_query. rewrite Hq. cbn [not_none mbind result_bind].
  assert (Hgen : forall acc,
    (forall doc, doc ∈ doc_ids ->
       dict_get acc doc = None
       \/ dict_get acc doc = phrase_score any_entry p query_tokens.*1 doc) ->
    exists m,
      for_fold
        (fun doc_scores doc_id =>
           s ← phrase_query_doc p query_tokens doc_id;
           Ok match s with
              | Some v => dict_set doc_scores doc_id v
              | None => doc_scores
              end)
        acc doc_ids = Ok m
      /\ forall doc,
           dict_get m doc
           = if bool_decide (doc ∈ doc_ids)
             then phrase_score any_entry p query_tokens.*1 doc
             else dict_get acc doc).
  { induction doc_ids as [|d doc_ids IH]; intros acc Hacc.
    - exists acc. split; [reflexivity|]. intros doc.
      rewrite bool_decide_eq_false_2 by apply not_elem_of_nil. reflexivity.
    - cbn [for_fold]. rewrite phrase_query_doc_spec by exact Hp.
      cbn [mbind result_bind].
      set (acc' := match phrase_score any_entry p query_tokens.*1 d with
                   | Some v => dict_set acc d v
                   | None => acc
                   end).
      assert (Hd : dict_get acc' d = phrase_score any_entry p query_tokens.*1 d).
      { unfold acc'. destruct (phrase_score any_entry p query_tokens.*1 d) as [v|] eqn:Hv.
        - apply dict_get_set_eq.
        - destruct (Hacc d ltac:(left)) as [Hn|Hn]; congruence. }
      assert (Hother : forall doc, doc <> d -> dict_get acc' doc = dict_get acc doc).
      { intros doc Hne. unfold acc'.
        destruct (phrase_score any_entry p query_tokens.*1 d);
          [apply dict_get_set_ne; auto|reflexivity]. }
      destruct (IH acc') as (m & -> & Hm).
      { intros doc Hdoc. destruct (decide (doc = d)) as [->|Hne]; [auto|].
        rewrite (Hother doc Hne). apply Hacc. right. exact Hdoc. }
      exists m. split; [reflexivity|]. intros doc. rewrite Hm.
      destruct (decide (doc ∈ doc_ids)) as [Hin|Hnin].
      + rewrite !bool_decide_eq_true_2; [reflexivity|right; exact Hin|exact Hin].
      + rewrite (bool_decide_eq_false_2 _ Hnin).
        destruct (decide (doc = d)) as [->|Hne].
        * rewrite bool_decide_eq_true_2 by left. exact Hd.
        * rewrite bool_decide_eq_false_2 by (rewrite not_elem_of_cons; auto).
          apply Hother, Hne. }
  destruct (Hgen []) as (m & Hm & Hget); [intros doc _; left; reflexivity|].
  exists m. split; [exact Hm|]. split; [|split].
  - intros doc. rewrite Hget. destruct (bool_decide (doc ∈ doc_ids)); reflexivity.
  - intros ir date_score_ id s sd Hsd.
    apply scored_document_Ok in Hsd as (len & boost & _ & Hlen & Hboost & Hsc).
    exists len, boost. split; [exact Hlen|]. split; [exact Hboost|].
    rewrite Hsc. cbn [fst snd phrase_multiplier].
    destruct (dict_get m id); reflexivity.
  - intros ir query k date_score_ res Hpii Hquery Hs.
    apply search_Ok in Hs
      as (qp & dsc & ps & finals & ranked & Hqp & Hdsc & Hps & Hfinals & Hperm & _ & ->).
    rewrite Hquery in Hqp. injection Hqp as <-. rewrite Hpii in Hdsc, Hps.
    apply fmap_Ok in Hps as (multipliers & Hmult & ->).
    exists dsc, multipliers. split; [exact Hdsc|].
    split; [unfold phrase_query in Hmult; rewrite Hq in Hmult; exact Hmult|].
    apply for_each_Ok in Hfinals. pose proof (cosine_score_NoDup _ _ _ Hdsc) as Hnd.
    rewrite Forall_fmap, Forall_forall. intros sd Hsd. cbn [fst snd].
    assert (Hin : sd ∈ finals).
    { rewrite <- Hperm, <- (take_drop (Z.to_nat k) ranked). apply elem_of_app. auto. }
    destruct (Forall2_elem_of_r _ _ _ _ Hfinals Hin) as ([id s] & Hds & Hsc).
    apply scored_document_Ok in Hsc as (len & boost & Hd & Hlen & Hboost & Hscore).
    cbn [fst snd] in *. exists id, s, len, boost.
    split; [apply dict_get_elem_NoDup; assumption|]. split; [exact Hd|].
    split; [exact Hlen|]. split; [exact Hboost|].
    rewrite Hscore. cbn [phrase_multiplier]. destruct (dict_get multipliers id); reflexivity.
Qed.


End PhraseQuery.

Lemma title_index_searchable : searchable title_index.
Proof.
  eexists. split; [reflexivity|]. split; [|split; [discriminate|]].
  - repeat constructor.
  - repeat constructor; eexists; (split; [reflexivity|]);
      (split; [repeat constructor|discriminate]).
Qed.

Lemma phrase_query_spec_witness :
  exists phrase_scores,
    phrase_query title_index title_query ["1"] = Ok phrase_scores
    /\ dict_get phrase_scores "1" = phrase_score any_entry title_index ["a"; "b"; "c"] "1".
Proof.
  destruct (phrase_query_spec (H := simple_externals) title_index title_query
              [("a", Token_init 0 1 [("0", DocumentTokenData_init 1 1 [0])]);
               ("b", Token_init 0 1 [("0", DocumentTokenData_init 1 1 [1])]);
               ("c", Token_init 0 1 [("0", DocumentTokenData_init 1 1 [2])])]
              ["1"] title_index_searchable eq_refl)
    as (m & Hm & Hget & _).
  exists m. split; [exact Hm|]. apply (Hget "1").
Defined.

(** C5, as stated, fails for a document with the title "a" and the content
    "b c" and the query "a b c": the first query term with a real position is
    "b", whose run with "c" has length 2, but the code starts from "a", whose
    only position is the sentinel, and gives the document no entry. *)
Lemma phrase_query_sentinel_start :
  phrase_query title_index title_query ["1"] = Ok []
  /\ phrase_score has_real_position title_index ["a"; "b"; "c"] "1"
     = Some (1 + PHRASE_QUERY_WEIGHT * (IZR 2 / INR 3))%R.
Proof. split; run; reflexivity. Qed.

(** The scenario of the specification: "a" at position 4 and "b" at
    position 5 give the query "a b" the multiplier 1 + PHRASE_QUERY_WEIGHT. *)
Example phrase_query_adjacent :
  phrase_query
    (PII_init [("a", Token_init 0 1 [("1", DocumentTokenData_init 1 1 [4])]);
               ("b", Token_init 0 1 [("1", DocumentTokenData_init 1 1 [5])])])
    (PII_init [("a", Token_init 0 1 [("0", DocumentTokenData_init 1 1 [0])]);
               ("b", Token_init 0 1 [("0", DocumentTokenData_init 1 1 [1])])])
    ["1"]
  = Ok [("1", (1 + PHRASE_QUERY_WEIGHT * (IZR 2 / INR 2))%R)].
Proof. run. reflexivity. Qed.

(** ** When a search of a servable collection ends normally *)

Lemma cache_index_no_champions (j : json) (p : PositionalInvertedIndexOnMemory) :
  cache_index j = Ok p -> no_champions p.
Proof.
  unfold cache_index. intros Hc. apply bind_Ok in Hc as (records & _ & Hc).
  apply bind_Ok in Hc as (found & _ & Hc).
  apply bind_Ok in Hc as (toks & Htoks & [= <-]). intros toks' [= <-].
  apply for_each_Ok in Htoks. rewrite Forall_forall. intros st Hst.
  destruct (Forall2_elem_of_r _ _ _ _ Htoks Hst) as (jt & _ & Hjt).
  unfold typed_token in Hjt.
  apply bind_Ok in Hjt as (term & _ & Hjt). apply bind_Ok in Hjt as (i & _ & Hjt).
  apply bind_Ok in Hjt as (df & _ & Hjt). apply bind_Ok in Hjt as (pl & _ & [= <-]).
  reflexivity.
Qed.

(** The index read back from the cache written for a well-formed index is
    well-formed. *)
Lemma read_from_cache_well_formed (p p' : PositionalInvertedIndexOnMemory)
    (fs fs' : file_system) (file : string) :
  well_formed p -> write_cache fs p file = Ok fs' ->
  read_from_cache fs' file = Ok (Some p') -> well_formed p'.
Proof.
  intros Hwf Hw Hr.
  assert (Hfrozen : frozen p).
  { destruct Hwf as (toks & Htoks & _ & Hall). exists toks. split; [exact Htoks|].
    eapply Forall_impl; [exact Hall|]. intros st (l & -> & _). eauto. }
  destruct (cache_index_cache_json p Hfrozen) as (j & p1 & Hj & Hp1 & Hsame).
  unfold write_cache in Hw. rewrite Hj in Hw. injection Hw as <-.
  unfold read_from_cache in Hr. rewrite json_load_dump, Hp1 in Hr.
  injection Hr as <-.
  eapply same_index_well_formed; [exact Hsame| |exact Hwf].
  eapply cache_index_no_champions, Hp1.
Qed.

Lemma for_fold_heappush_total {A B} (ltb : B -> B -> bool) (f : A -> result B)
    (l : list A) (heap0 : list B) :
  Forall (fun x => exists y, f x = Ok y) l ->
  exists heap,
    for_fold (fun heap x => y ← f x; Ok (heappush ltb heap y)) heap0 l = Ok heap.
Proof.
  intros Hall. revert heap0. induction Hall as [|x l (y & Hy) _ IH]; intros heap0.
  - eexists. reflexivity.
  - cbn [for_fold]. rewrite Hy. cbn [mbind result_bind]. apply IH.
Qed.

Lemma cosine_postings_keys (elimination : option R) (i wtq : R)
    (postings : list (string * DocumentTokenData)) (acc : dict R) (id : string) :
  id ∈ (cosine_postings elimination i wtq postings acc).*1 ->
  id ∈ postings.*1 \/ id ∈ acc.*1.
Proof.
  revert acc. induction postings as [|[d dd] postings IH]; intros acc Hid; [auto|].
  cbn [cosine_postings] in Hid. rewrite fmap_cons, elem_of_cons. cbn [fst].
  assert (Hadd : forall v, id ∈ (dict_add acc d v).*1 -> id = d \/ id ∈ acc.*1).
  { intros v. apply dict_add_elem_of. }
  destruct elimination as [threshold|].
  - destruct (Rltb _ threshold).
    + destruct (Hadd _ Hid); auto.
    + destruct (IH _ Hid) as [Hp|Ha]; [auto|]. destruct (Hadd _ Ha); auto.
  - destruct (IH _ Hid) as [Hp|Ha]; [auto|]. destruct (Hadd _ Ha); auto.
Qed.

(** On a searchable index [cosine_score] ends normally, and it scores only
    documents of postings that the terms show. *)
Lemma cosine_score_total (p query_pii : PositionalInvertedIndexOnMemory)
    (toks : list (string * Token)) :
  searchable p -> tokens p = Some toks -> well_formed query_pii ->
  exists doc_scores,
    cosine_score p query_pii = Ok doc_scores
    /\ forall id, id ∈ doc_scores.*1 ->
         exists st c td,
           st ∈ toks /\ Token_get_search_scope_list st.2 = Some c
           /\ td ∈ c /\ td.1 = id.
Proof.
  intros Hp Htoks (qtoks & Hqtoks & _ & Hq).
  pose proof Hp as (toks0 & Htoks0 & Hsorted & Hne & Hall).
  assert (toks0 = toks) as -> by congruence.
  unfold cosine_score, PII_iter. rewrite Hqtoks. cbn [not_none mbind result_bind].
  clear Hqtoks. rewrite Forall_forall in Hall.
  assert (Hgen : forall acc,
    (forall id, id ∈ acc.*1 ->
       exists st c td,
         st ∈ toks /\ Token_get_search_scope_list st.2 = Some c /\ td ∈ c /\ td.1 = id) ->
    exists doc_scores,
      for_fold
        (fun doc_scores qt =>
           query_list ← not_none TypeError (list_ qt.2);
           first ← py_index query_list 0;
           let wtq := tf first.2 in
           match PII_getitem p qt.1 with
           | Raise KeyError => Ok doc_scores
           | Raise e => Raise e
           | Ok token_data =>
               postings ← Token_iter token_data;
               Ok (cosine_postings INDEX_ELIMINATION (idf token_data) wtq postings
                     doc_scores)
           end)
        acc qtoks = Ok doc_scores
      /\ forall id, id ∈ doc_scores.*1 ->
           exists st c td,
             st ∈ toks /\ Token_get_search_scope_list st.2 = Some c
             /\ td ∈ c /\ td.1 = id).
  { induction Hq as [|qt qtoks (ql & Hql & _ & Hqlne & _) _ IH]; intros acc Hacc.
    - exists acc. split; [reflexivity|exact Hacc].
    - cbn [for_fold]. rewrite Hql. cbn [not_none mbind result_bind].
      destruct (py_index_Ok ql 0) as (first & _ & ->).
      { destruct ql; [congruence|cbn; lia]. }
      cbn [mbind result_bind].
      assert (Hitem : PII_getitem p qt.1 = dict_item toks qt.1).
      { unfold PII_getitem. rewrite Htoks. cbn [not_none mbind result_bind].
        apply binary_search_tuple_sorted; assumption. }
      rewrite Hitem. unfold dict_item.
      destruct (dict_get toks qt.1) as [token_data|] eqn:Hget; cbn [not_none].
      + apply dict_get_Some_elem in Hget.
        destruct (Hall _ Hget) as (c & Hc & _). cbn [snd] in Hc.
        assert (Hiter : Token_iter token_data = Ok c).
        { unfold Token_iter. rewrite Hc. reflexivity. }
        rewrite Hiter. cbn [mbind result_bind].
        apply (IH (cosine_postings INDEX_ELIMINATION (idf token_data) (tf first.2)
                     c acc)).
        intros id Hid.
        apply cosine_postings_keys in Hid as [Hid|Hid]; [|apply Hacc, Hid].
        apply list_elem_of_fmap in Hid as (td & -> & Htd).
        exists (qt.1, token_data), c, td. auto.
      + apply IH, Hacc. }
  apply Hgen. intros id Hid. apply elem_of_nil in Hid as [].
Qed.

Lemma for_fold_total {A S} (P : S -> Prop) (f : S -> A -> result S)
    (s : S) (l : list A) :
  P s -> (forall s x, x ∈ l -> P s -> exists s', f s x = Ok s' /\ P s') ->
  exists s', for_fold f s l = Ok s' /\ P s'.
Proof.
  revert s. induction l as [|x l IH]; intros s Hs Hstep; cbn [for_fold].
  - eauto.
  - destruct (Hstep s x ltac:(left) Hs) as (s1 & -> & Hs1). cbn [mbind result_bind].
    apply IH; [exact Hs1|]. intros s2 y Hy. apply Hstep. right. exact Hy.
Qed.

Lemma phrase_query_total (p query_pii : PositionalInvertedIndexOnMemory)
    (doc_ids : list string) :
  searchable p -> is_Some (tokens query_pii) ->
  exists phrase_scores, phrase_query p query_pii doc_ids = Ok phrase_scores.
Proof.
  intros Hp [query_tokens Hq]. unfold phrase_query. rewrite Hq.
  cbn [not_none mbind result_bind].
  destruct (for_fold_total (fun _ => True)
              (fun doc_scores doc_id =>
                 s ← phrase_query_doc p query_tokens doc_id;
                 Ok match s with
                    | Some v => dict_set doc_scores doc_id v
                    | None => doc_scores
                    end)
              [] doc_ids I) as (m & Hm & _); [|eauto].
  intros acc doc _ _. rewrite phrase_query_doc_spec by exact Hp.
  cbn [mbind result_bind]. eauto.
Qed.

Section Totality.
Context `{Externals}.

Lemma create_pii_total (ds : list Document) :
  ds <> [] -> exists p, create_pii ds = Ok p /\ well_formed p.
Proof.
  intros Hds. unfold create_pii.
  destruct (for_fold_total building
              (fun p d =>
                 p ← for_fold
                       (fun p tw => PII_add_token p tw.1 (doc_id d) (-1) tw.2)
                       p (get_weighted_tokens d);
                 for_fold
                   (fun p it => PII_add_token p it.2 (doc_id d) (Z.of_nat it.1) 1%R)
                   p (imap pair (get_tokens d)))
              PII_new ds PII_new_building) as (p0 & Hp0 & Hb).
  { intros q d _ Hq.
    destruct (for_fold_add_token_building
                (fun tw : string * R => (tw.1, doc_id d, -1, tw.2))
                q (get_weighted_tokens d) Hq) as (q1 & Hq1 & Hb1).
    cbn [fst snd] in Hq1. rewrite Hq1. cbn [mbind result_bind].
    apply (for_fold_add_token_building
             (fun it : nat * string => (it.2, doc_id d, Z.of_nat it.1, 1%R))
             q1 (imap pair (get_tokens d)) Hb1). }
  rewrite Hp0. cbn [mbind result_bind].
  destruct (PII_finalize_total p0 (Z.of_nat (length ds)) Hb) as (p & Hp).
  { destruct ds; [congruence|cbn; lia]. }
  exists p. split; [exact Hp|]. eapply PII_finalize_well_formed; eauto.
Qed.

Lemma create_query_pii_total (query : string) :
  exists query_pii, create_query_pii query = Ok query_pii /\ well_formed query_pii.
Proof. apply create_pii_total. discriminate. Qed.

(** [IRData.__init__] keeps every document under its id, and it ends
    normally only when every document has a date. *)
Lemma IRData_documents_Ok (ds : list Document) (dm : dict Document) (mx mn : datetime) :
  IRData_documents ds = Ok (dm, mx, mn) ->
  forall id, id ∈ doc_id <$> ds ->
    exists d, dict_get dm id = Some d /\ is_Some (date d).
Proof.
  unfold IRData_documents.
  set (P := fun (l : list string) (s : dict Document * datetime * datetime) =>
              forall id, id ∈ l ->
                exists d, dict_get s.1.1 id = Some d /\ is_Some (date d)).
  assert (Hgen : forall s l s',
    P l s ->
    for_fold
      (fun '(acc, max_date, min_date) d =>
         d1 ← parse_date (date d) max_date;
         let max_date := datetime_max2 d1 max_date in
         d2 ← parse_date (date d) min_date;
         let min_date := datetime_min2 d2 min_date in
         Ok (dict_set acc (doc_id d)
               {| doc_id := doc_id d; title := title d; url := url d;
                  content := EmptyString; date := date d; tags := None |},
             max_date, min_date))
      s ds = Ok s' ->
    P (l ++ (doc_id <$> ds))%list s').
  { induction ds as [|d ds IH]; intros s l s' Hs; cbn [for_fold].
    - intros [= <-]. rewrite fmap_nil, app_nil_r. exact Hs.
    - destruct s as [[acc max_date] min_date]. intros Hf.
      apply bind_Ok in Hf as (s1 & Hs1 & Hf).
      apply bind_Ok in Hs1 as (d1 & Hd1 & Hs1).
      apply bind_Ok in Hs1 as (d2 & _ & [= <-]).
      rewrite fmap_cons, (cons_middle (doc_id d)), app_assoc.
      refine (IH _ _ _ _ Hf). clear IH Hf.
      intros id Hid. cbn [fst].
      destruct (decide (doc_id d = id)) as [<-|Hne].
      + rewrite dict_get_set_eq. eexists. split; [reflexivity|]. cbn [date].
        unfold parse_date in Hd1. destruct (date d); [eauto|discriminate].
      + rewrite dict_get_set_ne by exact Hne. apply Hs.
        apply elem_of_app in Hid as [Hid|Hid]; [exact Hid|].
        apply list_elem_of_singleton in Hid. congruence. }
  intros Hf id Hid. refine (Hgen _ [] _ _ Hf id Hid).
  intros ? []%elem_of_nil.
Qed.

End Totality.

Section Servable.
Context `{Externals}.

(** The documents of the full postings are known to the collection: each
    has its metadata, with a date, and its vector length. *)
Lemma IRData_init_postings (p : PositionalInvertedIndexOnMemory) (ds : list Document)
    (ir0 : IRData) (toks : list (string * Token)) :
  IRData_init p ds = Ok ir0 -> tokens p = Some toks -> documents_cover toks ds ->
  forall st l td, st ∈ toks -> list_ st.2 = Some l -> td ∈ l ->
    exists d len,
      dict_get (docs ir0) td.1 = Some d /\ is_Some (date d)
      /\ dict_get (doc_lengths ir0) td.1 = Some len /\ len <> 0%R.
Proof.
  intros Hinit Htoks Hcover st l td Hst Hl Htd.
  pose proof (IRData_init_doc_lengths _ _ _ _ Hinit Htoks) as Hlen.
  rewrite Forall_forall in Hlen. destruct (Hlen _ Hst) as (l' & Hl' & Hlens).
  assert (l' = l) as -> by congruence.
  destruct (Hlens _ Htd) as (len & Hget & Hne).
  apply IRData_init_Ok in Hinit as (dm & mx & mn & toks0 & sums & Hdocs & _ & _ & ->).
  destruct (IRData_documents_Ok _ _ _ _ Hdocs td.1) as (d & Hd & Hdate).
  { eapply Hcover; eauto. }
  exists d, len. auto.
Qed.

(** A servable collection has a searchable index, and the documents of the
    postings that its terms show are known to it. *)
Lemma servable_searchable (ir : IRData) :
  servable ir ->
  searchable (pii ir)
  /\ forall toks' st c td,
       tokens (pii ir) = Some toks' -> st ∈ toks' ->
       Token_get_search_scope_list st.2 = Some c -> td ∈ c ->
       exists d len,
         dict_get (docs ir) td.1 = Some d /\ is_Some (date d)
         /\ dict_get (doc_lengths ir) td.1 = Some len /\ len <> 0%R.
Proof.
  intros (p & ds & ir0 & r & toks & Hwf & Htoks & Hne & Hcover & Hinit & Hr & Hgen).
  pose proof (IRData_init_postings _ _ _ _ Hinit Htoks Hcover) as Hposts.
  destruct Hwf as (toks0 & Htoks0 & Hsorted & Hall).
  assert (toks0 = toks) as -> by congruence.
  rewrite Forall_forall in Hall.
  destruct Hr as [->|(n & -> & Hn)].
  - injection Hgen as <-.
    assert (Hpii : pii ir0 = p).
    { apply IRData_init_Ok in Hinit as (? & ? & ? & ? & ? & _ & _ & _ & ->).
      reflexivity. }
    rewrite Hpii. split.
    + exists toks. split; [exact Htoks|]. split; [exact Hsorted|].
      split; [exact Hne|]. rewrite Forall_forall. intros st Hst.
      destruct (Hall _ Hst) as (l & Hl & Hls & Hlne & Hch).
      exists l. unfold Token_get_search_scope_list. rewrite Hch. auto.
    + intros toks' st c td Htoks' Hst Hc Htd.
      assert (toks' = toks) as -> by congruence.
      destruct (Hall _ Hst) as (l & Hl & _ & _ & Hch).
      unfold Token_get_search_scope_list in Hc. rewrite Hch in Hc.
      exact (Hposts st c td Hst Hc Htd).
  - destruct (generate_champions_list_Ok _ _ _ n Hinit)
      as (toks1 & toks' & Htoks1 & Hgen' & Hrel).
    assert (toks1 = toks) as -> by congruence.
    rewrite Hgen' in Hgen. injection Hgen as <-. cbn [pii tokens docs doc_lengths].
    assert (Hscope : forall st', st' ∈ toks' ->
      exists st l ranked,
        st ∈ toks /\ list_ st.2 = Some l /\ keys_sorted l /\ l <> []
        /\ ranked ≡ₚ l
        /\ Token_get_search_scope_list st'.2
           = Some (sorted str_ltb fst false (take (Z.to_nat n) ranked))).
    { intros st' Hst'.
      destruct (Forall2_elem_of_r _ _ _ _ Hrel Hst')
        as (st & Hst & _ & _ & _ & _ & l & ranked & Hl & Hperm & _ & Hch).
      destruct (Hall _ Hst) as (l' & Hl' & Hls & Hlne & _).
      assert (l' = l) as -> by congruence.
      exists st, l, ranked. unfold Token_get_search_scope_list. rewrite Hch.
      rewrite py_slice_to_nonneg by lia. auto 10. }
    split.
    + exists toks'. split; [reflexivity|]. split; [|split].
      * unfold keys_sorted. erewrite Forall2_same_keys; [exact Hsorted|].
        eapply Forall2_impl; [exact Hrel|]. cbv beta. intros st st' (Hk & _).
        split; [exact Hk|exact I].
      * intros ->. apply Forall2_nil_inv_r in Hrel. contradiction.
      * rewrite Forall_forall. intros st' Hst'.
        destruct (Hscope _ Hst') as (st & l & ranked & _ & _ & Hls & Hlne & Hperm & ->).
        eexists. split; [reflexivity|]. split.
        -- apply sorted_keys_sorted. apply keys_sorted_NoDup in Hls.
           rewrite <- Hperm in Hls. rewrite <- (take_drop (Z.to_nat n) ranked) in Hls.
           rewrite fmap_app in Hls. apply NoDup_app in Hls as (Hnd & _). exact Hnd.
        -- intros Hnil. apply (f_equal length) in Hnil.
           rewrite sorted_length, length_take in Hnil. cbn [length] in Hnil.
           apply Permutation_length in Hperm.
           destruct l; [congruence|]. cbn [length] in Hperm. lia.
    + intros toks2 st' c td [= <-] Hst' Hc Htd.
      destruct (Hscope _ Hst') as (st & l & ranked & Hst & Hl & _ & _ & Hperm & Hc').
      rewrite Hc' in Hc. injection Hc as <-.
      apply sorted_elem_of in Htd. apply elem_of_take in Htd as (i & Htd & _).
      apply list_elem_of_lookup_2 in Htd. rewrite Hperm in Htd.
      exact (Hposts st l td Hst Hl Htd).
Qed.

End Servable.

Section SearchTotal.
Context `{Externals}.

Lemma scored_document_total (ir : IRData) (phrase_scores : option (dict R))
    (date_score_ : bool) (ds : string * R) (d : Document) (len : R) :
  dict_get (docs ir) ds.1 = Some d -> is_Some (date d) ->
  dict_get (doc_lengths ir) ds.1 = Some len -> len <> 0%R ->
  (date_score_ = true -> dated ir) ->
  exists sd, scored_document ir phrase_scores date_score_ ds = Ok sd.
Proof.
  intros Hd [s Hs] Hlen Hne Hdated. unfold scored_document, dict_item.
  rewrite Hd, Hlen. cbn [not_none mbind result_bind].
  rewrite py_div_Ok by exact Hne. cbn [mbind result_bind].
  destruct date_score_; [|eauto].
  destruct (Hdated eq_refl) as ((tmn & Hmn) & (tmx & Hmx) & Hdocs).
  unfold date_score, parse_date. rewrite Hs. cbn [mbind result_bind].
  rewrite Hmn, Hmx. cbn [mbind result_bind].
  destruct (strptime s) as [dt|] eqn:Hdt; cbn [default from_option]; unfold Datatypes.id.
  - destruct (Hdocs _ _ _ _ Hd Hs Hdt) as (t & ->). cbn [mbind result_bind]. eauto.
  - rewrite Hmn. cbn [mbind result_bind]. eauto.
Qed.

(** On a servable collection [search] ends normally, whatever the query
    and [k], without date scoring, and with date scoring when the dates of
    the collection have timestamps. *)
Lemma search_total (ir : IRData) (query : string) (k : Z)
    (date_score_ phrase_query_score : bool) :
  servable ir -> (date_score_ = true -> dated ir) ->
  exists res,
    search ir query k date_score_ phrase_query_score cosine_score = Ok res.
Proof.
  intros Hir Hdated. apply servable_searchable in Hir as [Hp Hdocs].
  pose proof Hp as (toks & Htoks & _).
  destruct (create_query_pii_total query) as (query_pii & Hq & Hwf).
  destruct (cosine_score_total _ _ _ Hp Htoks Hwf) as (doc_scores & Hc & Hids).
  unfold search. rewrite Hq. cbn [mbind result_bind]. rewrite Hc.
  cbn [mbind result_bind].
  assert (Hphrase : exists phrase_scores,
    (if phrase_query_score
     then Some <$> phrase_query (pii ir) query_pii (dict_keys doc_scores)
     else Ok None) = Ok phrase_scores).
  { destruct phrase_query_score; [|eauto].
    destruct (phrase_query_total (pii ir) query_pii (dict_keys doc_scores) Hp)
      as (m & ->); [|cbn; eauto].
    destruct Hwf as (qt & -> & _). eauto. }
  destruct Hphrase as (phrase_scores & ->). cbn [mbind result_bind].
  destruct (for_fold_heappush_total SearchedDocument_lt
              (scored_document ir phrase_scores date_score_) doc_scores [])
    as (heap & ->); [|cbn [mbind result_bind]; eauto].
  rewrite Forall_forall. intros ds Hds.
  destruct (Hids ds.1) as (st & c & td & Hst & Hsc & Htd & Hid).
  { apply list_elem_of_fmap. eauto. }
  destruct (Hdocs _ _ _ _ Htoks Hst Hsc Htd) as (d & len & Hd & Hdate & Hlen & Hne).
  rewrite Hid in Hd, Hlen. eapply scored_document_total; eauto.
Qed.

End SearchTotal.

(** ** The index of [create_pii] mentions only the documents it was given *)

Lemma PII_add_token_covered (ids : list string) (p p' : PositionalInvertedIndexOnMemory)
    (token_str doc_id : string) (position : Z) (w : R) :
  covered ids p -> doc_id ∈ ids ->
  PII_add_token p token_str doc_id position w = Ok p' -> covered ids p'.
Proof.
  intros Hcov Hdoc Hadd. unfold PII_add_token in Hadd.
  apply bind_Ok in Hadd as (d & Hd & Hadd). apply not_none_Ok in Hd.
  apply bind_Ok in Hadd as (t' & Ht' & [= <-]).
  intros d' kt l td [= <-] Hkt Hl Htd.
  apply dict_set_elem_of in Hkt as [Hkt| ->]; [eapply Hcov; eauto|].
  cbn [snd] in Hl. unfold Token_add_position in Ht'.
  apply bind_Ok in Ht' as (l0 & Hl0 & Ht'). apply not_none_Ok in Hl0.
  assert (Hold : forall td0, td0 ∈ l0 -> td0.1 ∈ ids).
  { intros td0 Htd0. destruct (dict_get d token_str) as [t|] eqn:Hget; cbn in Hl0.
    - apply dict_get_Some_elem in Hget. eapply (Hcov d (token_str, t)); eauto.
    - injection Hl0 as <-. apply elem_of_nil in Htd0 as []. }
  destruct (dict_get l0 doc_id); injection Ht' as <-; cbn [__list__] in Hl;
    injection Hl as <-;
    (apply dict_set_elem_of in Htd as [Htd| ->]; [apply Hold, Htd|exact Hdoc]).
Qed.

Lemma for_fold_add_token_covered {A} (ids : list string)
    (f : A -> string * string * Z * R)
    (p p' : PositionalInvertedIndexOnMemory) (l : list A) :
  covered ids p -> Forall (fun x => (f x).1.1.2 ∈ ids) l ->
  for_fold (fun p x => PII_add_token p (f x).1.1.1 (f x).1.1.2 (f x).1.2 (f x).2) p l
  = Ok p' -> covered ids p'.
Proof.
  intros Hcov Hall. rewrite Forall_forall in Hall.
  apply (for_fold_invariant (covered ids)); [exact Hcov|].
  intros q x q' Hx Hq Hstep. eapply PII_add_token_covered; eauto.
Qed.

Lemma PII_finalize_covered (ids : list string) (p p' : PositionalInvertedIndexOnMemory)
    (n : Z) (toks : list (string * Token)) :
  covered ids p -> PII_finalize p n = Ok p' -> tokens p' = Some toks ->
  forall st l td, st ∈ toks -> list_ st.2 = Some l -> td ∈ l -> td.1 ∈ ids.
Proof.
  intros Hcov Hfin Htoks st l td Hst Hl Htd.
  apply PII_finalize_Ok in Hfin as (d & d' & Hd & Hrel & _ & Htoks').
  rewrite Htoks' in Htoks. injection Htoks as <-. apply sorted_elem_of in Hst.
  destruct (Forall2_elem_of_r _ _ _ _ Hrel Hst) as (kt & Hkt & _ & Hf).
  apply Token_finalize_Ok in Hf as (l0 & l' & Hl0 & Hrel' & _ & _ & _ & Hlist & _).
  rewrite Hlist in Hl. injection Hl as <-. apply sorted_elem_of in Htd.
  destruct (Forall2_elem_of_r _ _ _ _ Hrel' Htd) as (kd & Hkd & -> & _).
  eapply Hcov; eauto.
Qed.

Section Cover.
Context `{Externals}.

Lemma create_pii_documents_cover (ds : list Document)
    (p : PositionalInvertedIndexOnMemory) (toks : list (string * Token)) :
  create_pii ds = Ok p -> tokens p = Some toks -> documents_cover toks ds.
Proof.
  unfold create_pii. intros Hc Htoks. apply bind_Ok in Hc as (p0 & Hp0 & Hfin).
  intros st l td. eapply PII_finalize_covered; [|exact Hfin|exact Htoks].
  eapply (for_fold_invariant (covered (doc_id <$> ds)));
    [|clear Hp0|exact Hp0].
  { intros d kt l0 td0 [= <-] []%elem_of_nil. }
  intros q d q' Hd Hq Hstep. cbv beta in Hstep.
  assert (Hid : doc_id d ∈ doc_id <$> ds) by (apply list_elem_of_fmap; eauto).
  apply bind_Ok in Hstep as (q1 & Hq1 & Hq').
  eapply (for_fold_add_token_covered _
            (fun it : nat * string => (it.2, doc_id d, Z.of_nat it.1, 1%R)));
    [| |exact Hq'].
  - eapply (for_fold_add_token_covered _
              (fun tw : string * R => (tw.1, doc_id d, -1, tw.2)));
      [exact Hq| |exact Hq1].
    rewrite Forall_forall. intros x _. exact Hid.
  - rewrite Forall_forall. intros x _. exact Hid.
Qed.

End Cover.

(** On an index without terms, [cosine_score] ends normally for the query
    without terms only: the lookup of a term in the empty sequence raises
    IndexError, which the loop does not catch. *)
Lemma cosine_score_empty_index (p query_pii : PositionalInvertedIndexOnMemory)
    (doc_scores : dict R) :
  tokens p = Some [] -> cosine_score p query_pii = Ok doc_scores ->
  tokens query_pii = Some [] /\ doc_scores = [].
Proof.
  intros Hp. unfold cosine_score, PII_iter. intros Hc.
  apply bind_Ok in Hc as (qtoks & Hq & Hc). apply not_none_Ok in Hq.
  destruct qtoks as [|qt qtoks]; [injection Hc as <-; auto|].
  cbn [for_fold] in Hc. apply bind_Ok in Hc as (s1 & Hs1 & _).
  apply bind_Ok in Hs1 as (query_list & _ & Hs1).
  apply bind_Ok in Hs1 as (first & _ & Hs1).
  unfold PII_getitem in Hs1. rewrite Hp in Hs1. cbn [not_none mbind result_bind] in Hs1.
  rewrite binary_search_tuple_nil in Hs1. discriminate.
Qed.

Section CreateServable.
Context `{Externals}.

(** The collection of an index that [create_pii] built from the same
    documents is servable, when the index has a term and the champions lists
    have room for a posting. *)
Lemma create_pii_servable (ds : list Document) (p : PositionalInvertedIndexOnMemory)
    (ir0 ir : IRData) (r : option Z) :
  create_pii ds = Ok p -> IRData_init p ds = Ok ir0 ->
  generate_champions_list ir0 r = Ok ir ->
  (r = None \/ exists n, r = Some n /\ 1 <= n) ->
  tokens p <> Some [] -> servable ir.
Proof.
  intros Hp Hi Hg Hr Hne.
  pose proof (create_pii_well_formed _ _ Hp) as Hwf.
  pose proof Hwf as (toks & Htoks & _).
  exists p, ds, ir0, r, toks. split; [exact Hwf|]. split; [exact Htoks|].
  split; [congruence|]. split; [|auto].
  eapply create_pii_documents_cover; eauto.
Qed.

Lemma create_servable (fs fs' : file_system) (file : string) (r : option Z)
    (ir : IRData) :
  create fs file false r = Ok (ir, fs') ->
  (r = None \/ exists n, r = Some n /\ 1 <= n) ->
  tokens (pii ir) <> Some [] -> servable ir.
Proof.
  unfold create. intros Hc Hr Hne.
  apply bind_Ok in Hc as (ds & _ & Hc). cbn [mbind result_bind] in Hc.
  apply bind_Ok in Hc as (p & Hp & Hc). cbn [mbind result_bind] in Hc.
  apply bind_Ok in Hc as (ir0 & Hi & Hc). apply bind_Ok in Hc as (ir' & Hg & [= <- <-]).
  eapply create_pii_servable; eauto.
  intros Htoks. apply Hne.
  assert (Hpii : pii ir0 = p).
  { apply IRData_init_Ok in Hi as (? & ? & ? & ? & ? & _ & _ & _ & ->). reflexivity. }
  destruct Hr as [->|(n & -> & _)].
  - injection Hg as <-. rewrite Hpii. exact Htoks.
  - destruct (generate_champions_list_Ok _ _ _ n Hi)
      as (toks & toks' & Htoks1 & Hgen' & Hrel).
    rewrite Hgen' in Hg. injection Hg as <-. cbn [pii tokens].
    rewrite Htoks in Htoks1. injection Htoks1 as <-.
    apply Forall2_nil_inv_l in Hrel. rewrite Hrel. reflexivity.
Qed.

End CreateServable.

(** ** search: the ranking and the final score *)

Section SearchResults.
Context `{Externals}.

(** C4, as amended. A search of a servable collection ends normally
    without date scoring, and with date scoring when the dates of the
    collection have timestamps. The results of a search that ends normally
    are in descending order of score, equal scores allowed; there are [k] of
    them, or as many as [cosine_score] scored documents if these are fewer,
    and none for [k <= 0]; a scored document counts whether its score is zero
    or not. *)
Theorem search_ranking (ir : IRData) (query : string) (k : Z)
    (date_score_ phrase_query_score : bool) :
  (servable ir -> (date_score_ = true -> dated ir) ->
   exists res,
     search ir query k date_score_ phrase_query_score cosine_score = Ok res)
  /\ forall res,
       search ir query k date_score_ phrase_query_score cosine_score = Ok res ->
       StronglySorted (fun a b => (b.2 <= a.2)%R) res
       /\ (length res <= Z.to_nat k)%nat
       /\ exists query_pii doc_scores,
            create_query_pii query = Ok query_pii
            /\ cosine_score (pii ir) query_pii = Ok doc_scores
            /\ length res = Nat.min (Z.to_nat k) (length doc_scores).
Proof.
  split; [apply search_total|]. intros res Hs.
  apply search_Ok in Hs
    as (qp & dsc & ps & finals & ranked & Hqp & Hdsc & _ & Hfinals & Hperm & Hsorted & ->).
  split; [|split].
  - eapply StronglySorted_fmap; [|apply StronglySorted_take, Hsorted].
    intros a b Hab. exact Hab.
  - rewrite length_fmap, length_take. lia.
  - exists qp, dsc. split; [exact Hqp|]. split; [exact Hdsc|].
    rewrite length_fmap, length_take, (Permutation_length Hperm).
    apply for_each_Ok, Forall2_length in Hfinals. lia.
Qed.

(** C1. A search of a servable collection ends normally without date
    scoring, and with date scoring when the dates of the collection have
    timestamps. In a search of a ready collection that ends normally, with
    date scoring or without, every result is a document of the
    raw scores of [cosine_score] with the score
    (s / document_vector_length) * phrase multiplier + date boost, where the
    multiplier is 1 without a phrase score, the boost is there only with date
    scoring, and the length is max(1, sqrt(sum of (tf * idf)^2 over the terms
    whose postings contain the document)); and when [k] leaves room for all
    of them, every document with a raw score is among the results. *)
Theorem search_final_score (ir : IRData) (toks : list (string * Token))
    (query : string) (k : Z) (date_score_ phrase_query_score : bool) :
  ready ir toks ->
  (servable ir -> (date_score_ = true -> dated ir) ->
   exists res,
     search ir query k date_score_ phrase_query_score cosine_score = Ok res)
  /\ forall res,
       search ir query k date_score_ phrase_query_score cosine_score = Ok res ->
       exists query_pii doc_scores phrase_scores,
         create_query_pii query = Ok query_pii
         /\ cosine_score (pii ir) query_pii = Ok doc_scores
         /\ (if phrase_query_score
             then Some <$> phrase_query (pii ir) query_pii (dict_keys doc_scores)
             else Ok None) = Ok phrase_scores
         /\ Forall
              (fun ds =>
                 exists id s boost,
                   dict_get doc_scores id = Some s
                   /\ dict_get (docs ir) id = Some ds.1
                   /\ (if date_score_
                       then date_score (date ds.1) (max_doc_date ir) (min_doc_date ir)
                            = Ok boost
                       else boost = 0%R)
                   /\ ds.2 = final_score toks phrase_scores id s boost)
              res
         /\ (Z.of_nat (length doc_scores) <= k ->
             forall id s,
               dict_get doc_scores id = Some s ->
               exists d boost,
                 (d, final_score toks phrase_scores id s boost) ∈ res
                 /\ dict_get (docs ir) id = Some d).
Proof.
  intros Hready. split; [apply search_total|]. intros res Hs.
  apply search_Ok in Hs
    as (qp & dsc & ps & finals & ranked & Hqp & Hdsc & Hps & Hfinals & Hperm & _ & ->).
  exists qp, dsc, ps. repeat (split; [assumption|]).
  apply for_each_Ok in Hfinals. pose proof (cosine_score_NoDup _ _ _ Hdsc) as Hnd.
  assert (Hscore : forall ds sd,
             ds ∈ dsc -> scored_document ir ps date_score_ ds = Ok sd ->
             exists boost,
               dict_get dsc ds.1 = Some ds.2
               /\ dict_get (docs ir) ds.1 = Some (doc sd)
               /\ (if date_score_
                   then date_score (date (doc sd)) (max_doc_date ir) (min_doc_date ir)
                        = Ok boost
                   else boost = 0%R)
               /\ score sd = final_score toks ps ds.1 ds.2 boost).
  { intros [id s] sd Hin Hsd.
    apply scored_document_Ok in Hsd as (len & boost & Hd & Hlen & Hboost & Hsc).
    exists boost. split; [apply dict_get_elem_NoDup; assumption|].
    split; [exact Hd|]. split; [exact Hboost|].
    rewrite Hsc. unfold final_score. cbn [fst snd] in *.
    rewrite (ready_vector_length ir toks id len Hready Hlen). reflexivity. }
  split.
  - rewrite Forall_fmap, Forall_forall. intros sd Hsd.
    assert (Hin : sd ∈ finals).
    { rewrite <- Hperm, <- (take_drop (Z.to_nat k) ranked). apply elem_of_app. auto. }
    destruct (Forall2_elem_of_r _ _ _ _ Hfinals Hin) as (ds & Hds & Hsc).
    destruct (Hscore ds sd Hds Hsc) as (boost & H1 & H2 & H3 & H4).
    exists ds.1, ds.2, boost. auto.
  - intros Hk id s Hget. apply dict_get_Some_elem in Hget.
    destruct (Forall2_elem_of_l _ _ _ _ Hfinals Hget) as (sd & Hsd & Hsc).
    destruct (Hscore (id, s) sd Hget Hsc) as (boost & _ & H2 & _ & H4).
    exists (doc sd), boost. split; [|exact H2].
    apply list_elem_of_fmap. exists sd. cbn [fst snd] in H4. rewrite H4.
    split; [reflexivity|]. rewrite take_ge.
    + rewrite Hperm. exact Hsd.
    + rewrite (Permutation_length Hperm). apply Forall2_length in Hfinals. lia.
Qed.

End SearchResults.

(** The dates of the collection of [sample_docs] have timestamps. *)
Lemma sample_dated (p : PositionalInvertedIndexOnMemory)
    (ir0 : IRData (H := simple_externals)) :
  IRData_init (H := simple_externals) p sample_docs = Ok ir0 -> dated ir0.
Proof.
  intros Hi.
  apply IRData_init_Ok in Hi as (dm & mx & mn & toks & sums & Hdocs & _ & _ & ->).
  vm_compute in Hdocs. injection Hdocs as <- <- <-.
  split; [eexists; reflexivity|]. split; [eexists; reflexivity|].
  intros id d s dt Hd Hs Hdt. cbn [docs] in Hd. apply dict_get_Some_elem in Hd.
  rewrite !elem_of_cons, elem_of_nil in Hd.
  destruct Hd as [[= -> ->]|[[= -> ->]|[]]]; cbn [date] in Hs; injection Hs as <-;
    vm_compute in Hdt; injection Hdt as <-; eexists; reflexivity.
Qed.

(** The collection of [sample_docs] is servable. *)
Lemma sample_servable (p : PositionalInvertedIndexOnMemory)
    (ir0 : IRData (H := simple_externals)) (qp : PositionalInvertedIndexOnMemory)
    (doc_scores : dict R) :
  create_pii (H := simple_externals) sample_docs = Ok p ->
  IRData_init (H := simple_externals) p sample_docs = Ok ir0 ->
  cosine_score (pii ir0) qp = Ok doc_scores -> doc_scores <> [] ->
  servable ir0.
Proof.
  intros Hp Hi Hc Hne.
  apply (create_pii_servable sample_docs p ir0 ir0 None Hp Hi eq_refl); [auto|].
  intros Htoks.
  assert (Hpii : pii ir0 = p).
  { apply IRData_init_Ok in Hi as (? & ? & ? & ? & ? & _ & _ & _ & ->). reflexivity. }
  rewrite <- Hpii in Htoks.
  destruct (cosine_score_empty_index _ _ _ Htoks Hc) as [_ Hnil]. contradiction.
Qed.

Lemma search_ranking_witness :
  exists ir0 res,
    servable (H := simple_externals) ir0 /\ dated ir0
    /\ search (H := simple_externals) ir0 "a" 2 true true cosine_score = Ok res
    /\ StronglySorted (fun a b => (b.2 <= a.2)%R) res
    /\ length res = 2%nat.
Proof.
  destruct sample_search
    as (p & ir0 & qp & d1 & d2 & s & c1 & c2 & Hp & Hi & Hq & Hc & _).
  assert (Hserv : servable ir0).
  { eapply sample_servable; [exact Hp|exact Hi|exact Hc|discriminate]. }
  pose proof (sample_dated p ir0 Hi) as Hdated.
  destruct (search_ranking (H := simple_externals) ir0 "a" 2 true true)
    as [Htotal Hrank].
  destruct (Htotal Hserv (fun _ => Hdated)) as (res & Hres).
  destruct (Hrank res Hres) as (Hsorted & _ & qp' & dsc & Hq' & Hc' & Hlen).
  exists ir0, res. split; [exact Hserv|]. split; [exact Hdated|].
  split; [exact Hres|]. split; [exact Hsorted|].
  rewrite Hq in Hq'. injection Hq' as <-. rewrite Hc in Hc'. injection Hc' as <-.
  exact Hlen.
Defined.

(** C4, as stated, fails in the collection of [sample_docs]: the query "a"
    gives both documents the raw score 0 and the same final score, so the two
    results are not in strictly descending order and are more than the
    documents with a nonzero raw score, of which there is none; and for
    [k = -1] the empty result is longer than [k]. *)
Lemma search_ties_and_zero_scores :
  exists p ir0 qp d1 d2 s c1 c2,
    create_pii (H := simple_externals) sample_docs = Ok p
    /\ IRData_init (H := simple_externals) p sample_docs = Ok ir0
    /\ create_query_pii (H := simple_externals) "a" = Ok qp
    /\ cosine_score (pii ir0) qp = Ok [("1", c1); ("2", c2)]
    /\ c1 = 0%R /\ c2 = 0%R
    /\ search ir0 "a" 2 false true cosine_score = Ok [(d1, s); (d2, s)]
    /\ ~ (s < s)%R
    /\ search ir0 "a" (-1) false true cosine_score = Ok []
    /\ ~ (Z.of_nat (length ([] : list (Document * R))) <= -1).
Proof.
  destruct sample_search
    as (p & ir0 & qp & d1 & d2 & s & c1 & c2 & Hp & Hi & Hq & Hc & Hc1 & Hc2 & Hs).
  exists p, ir0, qp, d1, d2, s, c1, c2. repeat (split; [assumption|]).
  split; [lra|]. split; [|cbn; lia].
  destruct (search_any_k ir0 "a" 2 (-1) false true cosine_score _ Hs) as (res' & Hs').
  rewrite Hs'. f_equal.
  destruct (search_Ok _ _ _ _ _ _ _ Hs') as (? & ? & ? & ? & ? & _ & _ & _ & _ & _ & _ & ->).
  reflexivity.
Qed.

Lemma search_final_score_witness :
  exists ir0 toks res phrase_scores,
    ready (H := simple_externals) ir0 toks
    /\ servable ir0 /\ dated ir0
    /\ search ir0 "a" 2 true true cosine_score = Ok res
    /\ Forall (fun ds => exists id s boost,
                 date_score (date ds.1) (max_doc_date ir0) (min_doc_date ir0) = Ok boost
                 /\ ds.2 = final_score toks phrase_scores id s boost) res.
Proof.
  destruct sample_search
    as (p & ir0 & qp & d1 & d2 & s & c1 & c2 & Hp & Hi & Hq & Hc & Hc1 & Hc2 & Hs).
  pose proof (create_pii_well_formed (H := simple_externals) _ _ Hp) as Hwf.
  destruct Hwf as (toks & Htoks & Hwf).
  assert (Hready : ready (H := simple_externals) ir0 toks).
  { exists p, sample_docs, ir0, None. split; [exists toks; auto|]. auto. }
  assert (Hserv : servable ir0).
  { eapply sample_servable; [exact Hp|exact Hi|exact Hc|discriminate]. }
  pose proof (sample_dated p ir0 Hi) as Hdated.
  destruct (search_final_score (H := simple_externals) ir0 toks "a" 2 true true
              Hready) as [Htotal Hscore].
  destruct (Htotal Hserv (fun _ => Hdated)) as (res & Hres).
  destruct (Hscore res Hres) as (qp' & dsc & ps & _ & _ & _ & Hall & _).
  exists ir0, toks, res, ps. split; [exact Hready|]. split; [exact Hserv|].
  split; [exact Hdated|]. split; [exact Hres|].
  eapply Forall_impl; [exact Hall|].
  intros ds (id & s0 & boost & _ & _ & Hboost & Hsc). eauto.
Defined.

(** The failure of the lookup reaches the query boundary: a search for a
    term in the collection of no documents ends with IndexError. *)
Example search_no_documents_raises :
  search no_documents "a" 10 true true cosine_score = Raise IndexError.
Proof.
  unfold search.
  assert (Hq : exists qp, create_query_pii (H := simple_externals) "a" = Ok qp
                          /\ exists t, tokens qp = Some [("a", t)]
                             /\ exists dd, list_ t = Some [("0", dd)]).
  { eexists. split.
    - run. rewrite !log2_Ok by lra. run. reflexivity.
    - eexists. split; [reflexivity|]. eexists. reflexivity. }
  destruct Hq as (qp & -> & t & Ht & dd & Hdd). cbn [mbind result_bind].
  unfold cosine_score, PII_iter. rewrite Ht. cbn [not_none mbind result_bind for_fold].
  cbn [fst snd]. rewrite Hdd. reflexivity.
Qed.


Section CreateCache.
Context `{Externals}.

(** When the cache file is absent, [create] with the cache switched on
    builds the index from the source and writes the cache for it, and the
    cache then reads back as the same index. *)
Lemma create_writes_cache (fs fs' : file_system) (file : string) (r : option Z)
    (ir : IRData) :
  dict_get fs (cache_name file) = None ->
  create fs file true r = Ok (ir, fs') ->
  exists ds p p',
    load_documents fs file = Ok ds /\ create_pii ds = Ok p
    /\ write_cache fs p file = Ok fs'
    /\ read_from_cache fs' file = Ok (Some p') /\ same_index p p'.
Proof.
  intros Habsent Hc. unfold create in Hc.
  apply bind_Ok in Hc as (ds & Hds & Hc).
  assert (Hread : read_from_cache fs file = Ok None).
  { unfold read_from_cache, json_load. rewrite Habsent. reflexivity. }
  rewrite Hread in Hc. cbn [mbind result_bind] in Hc.
  apply bind_Ok in Hc as (p & Hp & Hc). apply bind_Ok in Hc as (fs1 & Hw & Hc).
  apply bind_Ok in Hc as (ir0 & _ & Hc). apply bind_Ok in Hc as (ir1 & _ & [= _ <-]).
  destruct (cache_index_cache_json p (create_pii_frozen _ _ Hp))
    as (j & p' & Hj & Hp' & Hsame).
  exists ds, p, p'. repeat (split; [assumption|]). split; [|exact Hsame].
  unfold write_cache in Hw. rewrite Hj in Hw. injection Hw as <-.
  unfold read_from_cache. rewrite json_load_dump, Hp'. reflexivity.
Qed.

End CreateCache.

(** ** The scenarios of the specification *)

(** A term in 1 of 3 documents has idf = log2(3/1); two occurrences, at
    positions 2 and 5, give linear_tf = 2 and tf = 1 + log2(2) = 2. *)
Example scenario_weights :
  calculate_idf 1 3 = Ok (log2_value (3 / 1))
  /\ exists d,
       DocumentTokenData_update_tf
         (DocumentTokenData_add_position
            (DocumentTokenData_add_position DocumentTokenData_new 2 1) 5 1) = Ok d
       /\ linear_tf d = 2 /\ tf d = 2%R /\ positions d = [2; 5].
Proof.
  split.
  - rewrite calculate_idf_Ok by lia. reflexivity.
  - rewrite DocumentTokenData_update_tf_Ok by (cbn; lia). eexists.
    split; [reflexivity|]. split; [reflexivity|]. split; [|reflexivity].
    cbn [DocumentTokenData_add_position DocumentTokenData_new linear_tf _weight tf].
    change (0 + 1 + 1) with 2. unfold tf_value. change (2 =? 0) with false.
    cbv iota. rewrite log2_value_2. lra.
Qed.

(** With [r = 1], of two documents with the normalized scores 0.3 and 0.9
    the champions list keeps the second only. *)
Example scenario_champions :
  champions [("D1", 1%R); ("D2", 1%R)]
    (Token_init 1 2 [("D1", DocumentTokenData_init (3 / 10) 1 [0]);
                     ("D2", DocumentTokenData_init (9 / 10) 1 [0])]) 1
  = Ok [("D2", DocumentTokenData_init (9 / 10) 1 [0])].
Proof.
  run.
  rewrite !py_div_Ok by lra.
  run.
  repeat match goal with
         | |- context [Rltb ?a ?b] =>
             first [ rewrite (proj2 (Rltb_lt a b)) by lra
                   | rewrite (Rltb_false a b) by lra ]
         end.
  reflexivity.
Qed.

(** * Further properties of the code *)

(** ** utils.binary_search_tuple: hits *)

(** X1. On a sequence in strictly ascending order of its keys,
    [binary_search_tuple] returns a value for a key exactly when the pair is
    in the sequence. *)
Theorem binary_search_tuple_finds {V} (a : list (string * V)) (k : string) (v : V) :
  keys_sorted a -> binary_search_tuple a k = Ok v <-> (k, v) ∈ a.
Proof.
  intros Hsorted. destruct a as [|kv a].
  - rewrite binary_search_tuple_nil. split; [discriminate|].
    intros []%elem_of_nil.
  - rewrite binary_search_tuple_sorted by (exact Hsorted || discriminate).
    unfold dict_item. split.
    + intros Hget. apply not_none_Ok in Hget. apply dict_get_Some_elem, Hget.
    + intros Hin. rewrite (dict_get_elem_NoDup _ _ _ (keys_sorted_NoDup _ Hsorted) Hin).
      reflexivity.
Qed.

Lemma binary_search_tuple_finds_witness :
  binary_search_tuple [("a", 1); ("b", 2); ("c", 3)] "b" = Ok 2.
Proof.
  apply (binary_search_tuple_finds [("a", 1); ("b", 2); ("c", 3)] "b" 2).
  - repeat constructor.
  - right. left.
Defined.

(** Without the order the search can miss a key that is there. *)
Example binary_search_tuple_unsorted :
  binary_search_tuple [("b", 1); ("a", 2)] "a" = Raise KeyError.
Proof. reflexivity. Qed.

(** ** models: the frequencies of a term *)

Section Frequencies.
Context `{Externals}.

(** X2. In a collection with a searchable index,
    [get_document_frequency] gives the linear_df of a term of the index and 0
    for another term, and [get_term_frequency] gives the linear_tf of the
    visible posting of the document for the term and 0 when there is none. *)
Theorem frequencies_of_lookups (ir : IRData) (toks : list (string * Token))
    (token_str doc_id : string) :
  searchable (pii ir) -> tokens (pii ir) = Some toks ->
  IRData_get_document_frequency ir token_str
  = Ok (default 0 (linear_df <$> dict_get toks token_str))
  /\ IRData_get_term_frequency ir token_str doc_id
     = Ok (default 0 (linear_tf <$> visible_posting (pii ir) token_str doc_id)).
Proof.
  intros (toks0 & Htoks0 & Hsorted & Hne & Hall) Htoks.
  assert (toks0 = toks) as -> by congruence.
  unfold IRData_get_document_frequency, IRData_get_term_frequency, PII_getitem,
    visible_posting.
  rewrite Htoks. cbn [not_none mbind result_bind option_bind].
  rewrite binary_search_tuple_sorted by assumption. unfold dict_item.
  destruct (dict_get toks token_str) as [t|] eqn:Hget; cbn [not_none]; [|auto].
  split; [reflexivity|]. cbn [mbind result_bind option_bind].
  apply dict_get_Some_elem in Hget. rewrite Forall_forall in Hall.
  destruct (Hall _ Hget) as (l & Hl & Hls & Hlne). cbn [snd] in Hl.
  unfold Token_get_term_frequency, Token_getitem. rewrite Hl.
  cbn [not_none mbind result_bind option_bind].
  rewrite binary_search_tuple_sorted by assumption. unfold dict_item.
  destruct (dict_get l doc_id); reflexivity.
Qed.

End Frequencies.

Lemma frequencies_of_lookups_witness :
  IRData_get_document_frequency title_collection "b" = Ok 1
  /\ IRData_get_term_frequency title_collection "b" "2" = Ok 0.
Proof.
  apply (frequencies_of_lookups (H := simple_externals) title_collection
           _ "b" "2" title_index_searchable eq_refl).
Defined.

(** ** Building an index and looking it up *)

Lemma occurrences_of_snoc (occ : list (string * string * Z * R))
    (o : string * string * Z * R) (t d : string) :
  occurrences_of (occ ++ [o]) t d
  = (occurrences_of occ t d
     ++ if bool_decide (o.1.1.1 = t /\ o.1.1.2 = d) then [o] else [])%list.
Proof.
  unfold occurrences_of. rewrite filter_app. f_equal.
  rewrite filter_cons, filter_nil.
  destruct (decide (o.1.1.1 = t /\ o.1.1.2 = d)) as [Hd|Hd].
  - rewrite bool_decide_eq_true_2 by exact Hd. reflexivity.
  - rewrite bool_decide_eq_false_2 by exact Hd. reflexivity.
Qed.

Lemma PII_add_token_recorded (occ : list (string * string * Z * R))
    (p p' : PositionalInvertedIndexOnMemory)
    (token_str doc_id : string) (position : Z) (w : R) :
  recorded occ p ->
  PII_add_token p token_str doc_id position w = Ok p' ->
  recorded (occ ++ [(token_str, doc_id, position, w)]) p'.
Proof.
  intros (d & Hd & Hrec) Hadd. unfold PII_add_token in Hadd. rewrite Hd in Hadd.
  cbn [not_none mbind result_bind] in Hadd.
  apply bind_Ok in Hadd as (t' & Ht' & [= <-]).
  eexists. split; [reflexivity|]. intros t.
  destruct (decide (token_str = t)) as [<-|Hne].
  2:{ rewrite dict_get_set_ne by exact Hne. specialize (Hrec t).
      assert (Hsame : forall doc,
        occurrences_of (occ ++ [(token_str, doc_id, position, w)]) t doc
        = occurrences_of occ t doc).
      { intros doc. rewrite occurrences_of_snoc. cbn [fst snd].
        rewrite bool_decide_eq_false_2 by (intros [? _]; contradiction).
        apply app_nil_r. }
      destruct (dict_get d t) as [tok|].
      - destruct Hrec as (l & Hl & Hdocs). exists l. split; [exact Hl|].
        intros doc. specialize (Hdocs doc). unfold occurrence_positions,
          occurrence_weight in *. rewrite Hsame. exact Hdocs.
      - intros doc. rewrite Hsame. apply Hrec. }
  rewrite dict_get_set_eq. specialize (Hrec token_str).
  unfold Token_add_position in Ht'.
  apply bind_Ok in Ht' as (l0 & Hl0 & Ht'). apply not_none_Ok in Hl0.
  assert (Hold : forall doc,
    match dict_get l0 doc with
    | None => occurrences_of occ token_str doc = []
    | Some dd =>
        occurrences_of occ token_str doc <> []
        /\ positions dd = occurrence_positions occ token_str doc
        /\ _weight dd = occurrence_weight occ token_str doc
    end).
  { destruct (dict_get d token_str) as [tok|]; simpl in Hl0.
    - destruct Hrec as (l & Hl & Hdocs). rewrite Hl in Hl0. injection Hl0 as <-.
      exact Hdocs.
    - injection Hl0 as <-. intros doc. cbn [dict_get]. apply Hrec. }
  clear Hrec.
  set (new := DocumentTokenData_add_position
                (default DocumentTokenData_new (dict_get l0 doc_id)) position w).
  assert (Hlist : __list__ t' = Some (dict_set l0 doc_id new)).
  { unfold new. destruct (dict_get l0 doc_id); injection Ht' as <-; reflexivity. }
  exists (dict_set l0 doc_id new). split; [exact Hlist|]. intros doc.
  rewrite occurrences_of_snoc || idtac.
  destruct (decide (doc_id = doc)) as [<-|Hdoc].
  - rewrite dict_get_set_eq. unfold occurrence_positions, occurrence_weight.
    rewrite occurrences_of_snoc. cbn [fst snd].
    rewrite bool_decide_eq_true_2 by auto.
    split; [intros Hnil; apply app_eq_nil in Hnil as [_ [=]]|].
    rewrite !fmap_app, foldl_app. cbn [fmap list_fmap foldl fst snd].
    specialize (Hold doc_id). unfold new.
    destruct (dict_get l0 doc_id) as [dd|]; cbn [default from_option
      DocumentTokenData_add_position positions _weight]; unfold Datatypes.id.
    + destruct Hold as (_ & -> & ->). unfold occurrence_positions, occurrence_weight.
      auto.
    + rewrite Hold. cbn [DocumentTokenData_new positions _weight fmap list_fmap foldl].
      auto.
  - rewrite dict_get_set_ne by exact Hdoc. specialize (Hold doc).
    unfold occurrence_positions, occurrence_weight in *.
    rewrite occurrences_of_snoc. cbn [fst snd].
    rewrite bool_decide_eq_false_2 by (intros [_ ?]; contradiction).
    rewrite app_nil_r. exact Hold.
Qed.

Lemma build_recorded (occ : list (string * string * Z * R)) :
  exists p, build occ = Ok p /\ building p /\ recorded occ p.
Proof.
  induction occ as [|o occ IH] using rev_ind.
  - exists PII_new. split; [reflexivity|]. split; [apply PII_new_building|].
    exists []. split; [reflexivity|]. intros t. cbn [dict_get]. reflexivity.
  - destruct IH as (p & Hp & Hb & Hr). unfold build in *.
    rewrite for_fold_app, Hp. cbn [mbind result_bind for_fold].
    destruct o as [[[t d] pos] w]. cbn [fst snd].
    destruct (PII_add_token_building p t d pos w Hb) as (p' & Hp' & Hb').
    rewrite Hp'. cbn [mbind result_bind]. exists p'. split; [reflexivity|].
    split; [exact Hb'|]. eapply PII_add_token_recorded; eauto.
Qed.

Lemma dict_get_Permutation {V} (l l' : dict V) (k : string) :
  NoDup l.*1 -> l ≡ₚ l' -> dict_get l k = dict_get l' k.
Proof.
  intros Hnd Hperm.
  assert (Hnd' : NoDup l'.*1) by (rewrite <- Hperm; exact Hnd).
  destruct (dict_get l k) as [v|] eqn:Hget.
  - apply dict_get_Some_elem in Hget. rewrite Hperm in Hget.
    symmetry. apply dict_get_elem_NoDup; assumption.
  - symmetry. apply dict_get_None. apply dict_get_None in Hget.
    rewrite <- Hperm. exact Hget.
Qed.

Lemma dict_get_Forall2 {A B} (P : A -> B -> Prop) (l : dict A) (l' : dict B)
    (k : string) :
  Forall2 (fun x y => y.1 = x.1 /\ P x.2 y.2) l l' ->
  match dict_get l k, dict_get l' k with
  | Some a, Some b => P a b
  | None, None => True
  | _, _ => False
  end.
Proof.
  induction 1 as [|[k1 a] [k2 b] l l' [Hk HP] _ IH]; cbn [dict_get]; [exact I|].
  cbn [fst snd] in *. subst k2. destruct (String.eqb k1 k); [exact HP|exact IH].
Qed.

Lemma building_token_nonempty (t : Token) :
  building_token t -> 0 < linear_df t ->
  exists l kd, __list__ t = Some l /\ kd ∈ l.
Proof.
  intros (l & Hl & _ & Hdf & _) Hpos. exists l. destruct l as [|kd l].
  - cbn in Hdf. lia.
  - exists kd. split; [exact Hl|left].
Qed.

Lemma recorded_nil (p : PositionalInvertedIndexOnMemory) :
  building p -> recorded [] p -> __tokens__ p = Some [].
Proof.
  intros (d & Hd & _ & Hall) (d0 & Hd0 & Hrec).
  rewrite Hd in Hd0. injection Hd0 as <-. rewrite Hd. f_equal.
  destruct d as [|[k tok] d]; [reflexivity|]. exfalso.
  rewrite Forall_forall in Hall.
  destruct (Hall (k, tok) ltac:(left)) as [Htokb Hpos]. cbn [snd] in *.
  destruct (building_token_nonempty _ Htokb Hpos) as (l & [kd dd] & Hl & Hkd).
  specialize (Hrec k). cbn [dict_get] in Hrec. rewrite String.eqb_refl in Hrec.
  destruct Hrec as (l' & Hl' & Hdocs). rewrite Hl in Hl'. injection Hl' as <-.
  destruct Htokb as (l2 & Hl2 & Hnd2 & _). rewrite Hl in Hl2. injection Hl2 as <-.
  specialize (Hdocs kd). rewrite (dict_get_elem_NoDup _ _ _ Hnd2 Hkd) in Hdocs.
  destruct Hdocs as [Hne _]. apply Hne. reflexivity.
Qed.

(** An index built by no call has no term after [__finalize__]. *)
Lemma finalize_nil (p0 p : PositionalInvertedIndexOnMemory) (n : Z) :
  building p0 -> recorded [] p0 -> PII_finalize p0 n = Ok p -> tokens p = Some [].
Proof.
  intros Hb Hr Hfin. pose proof (recorded_nil _ Hb Hr) as Hd.
  apply PII_finalize_Ok in Hfin as (d1 & d' & Hd1 & Hrel & _ & ->).
  rewrite Hd in Hd1. injection Hd1 as <-. apply Forall2_nil_inv_l in Hrel.
  subst d'. reflexivity.
Qed.

(** What a lookup finds in the index that [__finalize__] leaves. *)
Lemma finalize_posting_of (occ : list (string * string * Z * R))
    (p0 p : PositionalInvertedIndexOnMemory) (n : Z) (t doc : string) :
  building p0 -> recorded occ p0 -> PII_finalize p0 n = Ok p ->
  posting_of p t doc
  = match occurrences_of occ t doc with
    | [] => Raise (match occ with [] => IndexError | _ :: _ => KeyError end)
    | _ :: _ => Ok (finalized_posting_of (occurrences_of occ t doc))
    end.
Proof.
  intros Hb Hr Hfin. pose proof Hb as Hb0. pose proof Hr as Hr0.
  pose proof Hfin as Hfin0. destruct Hr as (d & Hd & Hrec).
  pose proof (PII_finalize_well_formed _ _ _ Hb Hfin) as (toks & Htoks & Hsorted & Hwf).
  pose proof Hb as (d0 & Hd0 & Hnd & Hall).
  assert (d0 = d) as -> by congruence.
  apply PII_finalize_Ok in Hfin as (d1 & d' & Hd1 & Hrel & _ & Htoks').
  assert (d1 = d) as -> by congruence.
  rewrite Htoks' in Htoks. injection Htoks as <-.
  assert (Hkeys : d'.*1 = d.*1).
  { eapply (Forall2_same_keys (fun _ _ => True)). eapply Forall2_impl; [exact Hrel|].
    cbv beta. intros ? ? [? _]. auto. }
  assert (Hget : dict_get (sorted str_ltb fst false d') t = dict_get d' t).
  { symmetry. apply dict_get_Permutation; [rewrite Hkeys; exact Hnd|].
    symmetry. apply sorted_Permutation. }
  pose proof (dict_get_Forall2 (fun a b => Token_finalize a n = Ok b) d d' t) as Htok.
  cbv beta in Htok. specialize (Htok Hrel).
  rewrite Forall_forall in Hall, Hwf.
  unfold posting_of, PII_getitem. rewrite Htoks'. cbn [not_none mbind result_bind].
  destruct occ as [|o occ].
  { rewrite (finalize_nil _ _ _ Hb0 Hr0 Hfin0) in Htoks'. injection Htoks' as <-.
    reflexivity. }
  assert (Hne : sorted str_ltb fst false d' <> []).
  { intros Hnil. apply (f_equal length) in Hnil. rewrite sorted_length in Hnil.
    apply Forall2_length in Hrel. specialize (Hrec o.1.1.1).
    destruct d as [|? d]; [|cbn in *; lia]. cbn [dict_get] in Hrec.
    specialize (Hrec o.1.1.2). unfold occurrences_of in Hrec.
    rewrite filter_cons_True in Hrec by auto. discriminate. }
  rewrite binary_search_tuple_sorted by assumption. unfold dict_item. rewrite Hget.
  specialize (Hrec t).
  destruct (dict_get d t) as [tok|] eqn:Hdt; destruct (dict_get d' t) as [tok'|] eqn:Hdt';
    try contradiction.
  2:{ rewrite Hrec. reflexivity. }
  cbn [not_none mbind result_bind].
  destruct Hrec as (l & Hl & Hdocs).
  assert (Hin : (t, tok') ∈ sorted str_ltb fst false d').
  { apply sorted_elem_of, dict_get_Some_elem, Hdt'. }
  destruct (Hwf _ Hin) as (lf & Hlf & Hlsorted & Hlne & Hch). cbn [snd] in *.
  apply Token_finalize_Ok in Htok
    as (l0 & l' & Hl0 & Hrel' & _ & _ & _ & Hlist & _).
  rewrite Hl in Hl0. injection Hl0 as <-.
  rewrite Hlist in Hlf. injection Hlf as <-.
  unfold Token_getitem, Token_get_search_scope_list. rewrite Hch, Hlist.
  cbn [not_none mbind result_bind].
  rewrite binary_search_tuple_sorted by assumption. unfold dict_item.
  apply dict_get_Some_elem in Hdt. destruct (Hall _ Hdt) as [Htokb _]. cbn [snd] in *.
  destruct Htokb as (l2 & Hl2 & Hnd2 & _ & Hcounts & _).
  rewrite Hl in Hl2. injection Hl2 as <-.
  assert (Hkeys' : l'.*1 = l.*1).
  { eapply (Forall2_same_keys (fun _ _ => True)). eapply Forall2_impl; [exact Hrel'|].
    cbv beta. intros ? ? [? _]. auto. }
  rewrite <- (dict_get_Permutation l' _ doc);
    [|rewrite Hkeys'; exact Hnd2|symmetry; apply sorted_Permutation].
  pose proof (dict_get_Forall2
                (fun a b => DocumentTokenData_update_tf a = Ok b) l l' doc) as Hdd.
  cbv beta in Hdd. specialize (Hdd Hrel'). specialize (Hdocs doc).
  destruct (dict_get l doc) as [dd|] eqn:Hld; destruct (dict_get l' doc) as [dd'|];
    try contradiction.
  2:{ rewrite Hdocs. reflexivity. }
  destruct Hdocs as (Hocc & Hpos & Hw).
  apply dict_get_Some_elem in Hld. rewrite Forall_forall in Hcounts.
  destruct (Hcounts _ Hld) as [Hlen Hpos']. cbn [snd] in *.
  rewrite DocumentTokenData_update_tf_Ok in Hdd by lia. injection Hdd as <-.
  destruct (occurrences_of (o :: occ) t doc) as [|o1 os] eqn:Hos; [congruence|].
  cbn [not_none]. f_equal. unfold finalized_posting_of.
  unfold occurrence_positions, occurrence_weight in *. rewrite Hos in *.
  rewrite Hlen, Hpos, Hw, length_fmap. reflexivity.
Qed.

Lemma occurrences_of_nonempty (occ : list (string * string * Z * R)) (t doc : string) :
  occurrences_of occ t doc <> [] <-> doc ∈ occurrence_documents occ t.
Proof.
  unfold occurrences_of, occurrence_documents.
  rewrite elem_of_remove_dups, list_elem_of_fmap. split.
  - intros Hne. destruct (filter _ occ) as [|o os] eqn:Hf; [congruence|].
    assert (Ho : o ∈ filter (fun o => o.1.1.1 = t /\ o.1.1.2 = doc) occ)
      by (rewrite Hf; left).
    apply list_elem_of_filter in Ho as [[Ht Hd] Ho]. exists o. split; [auto|].
    apply list_elem_of_filter. auto.
  - intros (o & -> & Ho) Hnil. apply list_elem_of_filter in Ho as [Ht Ho].
    assert (Hin : o ∈ filter (fun o' => o'.1.1.1 = t /\ o'.1.1.2 = o.1.1.2) occ)
      by (apply list_elem_of_filter; auto).
    rewrite Hnil in Hin. apply elem_of_nil in Hin as [].
Qed.

(** The document frequency that a lookup finds in the index that
    [__finalize__] leaves. *)
Lemma finalize_linear_df (occ : list (string * string * Z * R))
    (p0 p : PositionalInvertedIndexOnMemory) (n : Z) (t : string) :
  building p0 -> recorded occ p0 -> PII_finalize p0 n = Ok p ->
  linear_df <$> PII_getitem p t
  = match occ, occurrence_documents occ t with
    | [], _ => Raise IndexError
    | _ :: _, [] => Raise KeyError
    | _ :: _, docs => Ok (Z.of_nat (length docs))
    end.
Proof.
  intros Hb Hr Hfin.
  pose proof (finalize_posting_of occ p0 p n t) as Hpost.
  pose proof Hr as (d & Hd & Hrec). pose proof Hb as (d0 & Hd0 & Hnd & Hall).
  rewrite Hd in Hd0. injection Hd0 as <-.
  pose proof Hfin as Hfin'.
  apply PII_finalize_Ok in Hfin' as (d1 & d' & Hd1 & Hrel & _ & Htoks').
  rewrite Hd in Hd1. injection Hd1 as <-.
  destruct occ as [|o occ].
  { unfold PII_getitem. rewrite (finalize_nil _ _ _ Hb Hr Hfin). reflexivity. }
  specialize (Hrec t).
  destruct (occurrence_documents (o :: occ) t) as [|doc docs] eqn:Hdocs.
  - (* no document: every lookup of a posting of [t] misses at the term *)
    assert (Hnone : dict_get d t = None).
    { destruct (dict_get d t) as [tok|] eqn:Hdt; [exfalso|reflexivity].
      destruct Hrec as (l & Hl & Hposts).
      apply dict_get_Some_elem in Hdt. rewrite Forall_forall in Hall.
      destruct (Hall _ Hdt) as [Htokb Hpos]. cbn [snd] in *.
      destruct (building_token_nonempty _ Htokb Hpos) as (l' & [kd dd] & Hl' & Hkd).
      rewrite Hl in Hl'. injection Hl' as <-.
      destruct Htokb as (l2 & Hl2 & Hnd2 & _). rewrite Hl in Hl2. injection Hl2 as <-.
      specialize (Hposts kd). rewrite (dict_get_elem_NoDup _ _ _ Hnd2 Hkd) in Hposts.
      destruct Hposts as [Hne _]. apply occurrences_of_nonempty in Hne.
      rewrite Hdocs in Hne. apply elem_of_nil in Hne as []. }
    specialize (Hpost EmptyString Hb Hr Hfin). unfold posting_of in Hpost.
    rewrite Hnone in Hrec. rewrite Hrec in Hpost.
    destruct (PII_getitem p t) as [tok|e] eqn:Hget; cbn [mbind result_bind] in Hpost.
    + exfalso. unfold PII_getitem in Hget. rewrite Htoks' in Hget.
      cbn [not_none mbind result_bind] in Hget.
      assert (Hne : sorted str_ltb fst false d' <> []).
      { intros Hnil. rewrite Hnil in Hget. discriminate. }
      destruct (binary_search_tuple_nonempty _ t Hne) as [(v & Hv & Hin)|Hk];
        [|congruence].
      apply sorted_elem_of in Hin.
      destruct (Forall2_elem_of_r _ _ _ _ Hrel Hin) as ([k0 tok0] & Hin0 & Hk0 & _).
      cbn [fst] in Hk0. subst k0. apply dict_get_None in Hnone. apply Hnone.
      apply list_elem_of_fmap. exists (t, tok0). auto.
    + cbn [fmap result_fmap]. congruence.
  - assert (Hin : doc ∈ occurrence_documents (o :: occ) t) by (rewrite Hdocs; left).
    apply occurrences_of_nonempty in Hin.
    specialize (Hpost doc Hb Hr Hfin). unfold posting_of in Hpost.
    destruct (occurrences_of (o :: occ) t doc) as [|o1 os] eqn:Hos; [congruence|].
    destruct (PII_getitem p t) as [tok'|e] eqn:Hget; [|discriminate].
    cbn [fmap result_fmap]. f_equal. rewrite <- Hdocs.
    unfold PII_getitem in Hget. rewrite Htoks' in Hget.
    cbn [not_none mbind result_bind] in Hget.
    assert (Hne : sorted str_ltb fst false d' <> []).
    { intros Hnil. rewrite Hnil in Hget. discriminate. }
    destruct (binary_search_tuple_nonempty _ t Hne) as [(v & Hv & Hin')|Hk];
      [|congruence].
    rewrite Hv in Hget. injection Hget as ->. apply sorted_elem_of in Hin'.
    destruct (Forall2_elem_of_r _ _ _ _ Hrel Hin') as ([k0 tok] & Hin0 & Hk0 & Htok).
    cbn [fst snd] in *. subst k0.
    rewrite (dict_get_elem_NoDup _ _ _ Hnd Hin0) in Hrec.
    destruct Hrec as (l & Hl & Hposts).
    rewrite Forall_forall in Hall. destruct (Hall _ Hin0) as [Htokb _]. cbn [snd] in *.
    destruct Htokb as (l2 & Hl2 & Hnd2 & Hdf & _). rewrite Hl in Hl2. injection Hl2 as <-.
    apply Token_finalize_Ok in Htok as (_ & _ & _ & _ & _ & -> & _).
    rewrite Hdf. f_equal. rewrite <- (length_fmap fst l). apply Permutation_length.
    apply NoDup_Permutation; [exact Hnd2|apply NoDup_remove_dups|].
    intros x. rewrite <- occurrences_of_nonempty. specialize (Hposts x).
    split.
    + intros Hx. destruct (dict_get l x) as [dd|] eqn:Hlx; [apply Hposts|].
      apply dict_get_None in Hlx. contradiction.
    + intros Hx. destruct (dict_get l x) as [dd|] eqn:Hlx; [|contradiction].
      apply dict_get_Some_elem in Hlx. apply list_elem_of_fmap. exists (x, dd). auto.
Qed.

(** X3. Building an index by [__add_token__] calls and finalizing it for a
    positive number of documents ends normally, and a lookup of a term and a
    document then finds exactly what the calls said: the positions in the
    order of the calls, their number as linear_tf, the product of their
    weights, and tf = (1 + log2(linear_tf)) * weight. A pair that no call
    named is a KeyError, and any lookup in the index of no call at all is an
    IndexError. *)
Theorem build_finalize_posting (occ : list (string * string * Z * R)) (n : Z) :
  0 < n ->
  exists p0 p,
    build occ = Ok p0 /\ PII_finalize p0 n = Ok p
    /\ forall t doc,
         posting_of p t doc
         = match occurrences_of occ t doc with
           | [] => Raise (match occ with [] => IndexError | _ :: _ => KeyError end)
           | _ :: _ => Ok (finalized_posting_of (occurrences_of occ t doc))
           end.
Proof.
  intros Hn. destruct (build_recorded occ) as (p0 & Hp0 & Hb & Hr).
  destruct (PII_finalize_total p0 n Hb Hn) as (p & Hp).
  exists p0, p. split; [exact Hp0|]. split; [exact Hp|].
  intros t doc. eapply finalize_posting_of; eauto.
Qed.

Lemma build_finalize_posting_witness :
  exists p0 p,
    build sample_occurrences = Ok p0 /\ PII_finalize p0 2 = Ok p
    /\ positions <$> posting_of p "a" "1" = Ok [0; 1]
    /\ positions <$> posting_of p "b" "2" = Ok [-1; 1]
    /\ posting_of p "b" "1" = Raise KeyError.
Proof.
  destruct (build_finalize_posting sample_occurrences 2 ltac:(lia))
    as (p0 & p & Hp0 & Hp & Hget).
  exists p0, p. split; [exact Hp0|]. split; [exact Hp|].
  rewrite !Hget. repeat split.
Defined.

Section Counts.
Context `{Externals}.

Lemma IRData_get_term_frequency_posting_of (ir : IRData) (t doc : string) :
  IRData_get_term_frequency ir t doc
  = match posting_of (pii ir) t doc with
    | Ok dd => Ok (linear_tf dd)
    | Raise KeyError => Ok 0
    | Raise e => Raise e
    end.
Proof.
  unfold IRData_get_term_frequency, posting_of, Token_get_term_frequency.
  destruct (PII_getitem (pii ir) t) as [tok|e]; cbn [mbind result_bind]; [|reflexivity].
  destruct (Token_getitem tok doc) as [dd|[]]; reflexivity.
Qed.

(** X4. In a collection whose index was built by at least one
    [__add_token__] call and finalized, the document frequency of a term is
    the number of distinct documents that the calls named with the term, and
    the term frequency of a term in a document is the number of calls that
    named both: 0 for a term or a pair that no call named. *)
Theorem frequencies_count_occurrences (occ : list (string * string * Z * R)) (n : Z) :
  0 < n -> occ <> [] ->
  exists p0 p,
    build occ = Ok p0 /\ PII_finalize p0 n = Ok p
    /\ forall (ir : IRData) (t doc : string),
         pii ir = p ->
         IRData_get_document_frequency ir t
         = Ok (Z.of_nat (length (occurrence_documents occ t)))
         /\ IRData_get_term_frequency ir t doc
            = Ok (Z.of_nat (length (occurrences_of occ t doc))).
Proof.
  intros Hn Hne. destruct (build_recorded occ) as (p0 & Hp0 & Hb & Hr).
  destruct (PII_finalize_total p0 n Hb Hn) as (p & Hp).
  exists p0, p. split; [exact Hp0|]. split; [exact Hp|].
  intros ir t doc <-. split.
  - pose proof (finalize_linear_df occ p0 (pii ir) n t Hb Hr Hp) as Hdf.
    unfold IRData_get_document_frequency.
    destruct occ as [|o occ]; [congruence|].
    destruct (PII_getitem (pii ir) t) as [tok|e]; cbn [fmap result_fmap] in Hdf.
    + destruct (occurrence_documents (o :: occ) t); [discriminate|exact Hdf].
    + destruct (occurrence_documents (o :: occ) t); [|discriminate].
      injection Hdf as ->. reflexivity.
  - rewrite IRData_get_term_frequency_posting_of.
    rewrite (finalize_posting_of occ p0 (pii ir) n t doc Hb Hr Hp).
    destruct occ as [|o occ]; [congruence|].
    destruct (occurrences_of (o :: occ) t doc); reflexivity.
Qed.

End Counts.

Lemma frequencies_count_occurrences_witness :
  exists p0 p,
    build sample_occurrences = Ok p0 /\ PII_finalize p0 2 = Ok p
    /\ forall ir : IRData (H := simple_externals),
         pii ir = p ->
         IRData_get_document_frequency ir "a" = Ok 2
         /\ IRData_get_term_frequency ir "a" "1" = Ok 2
         /\ IRData_get_term_frequency ir "c" "1" = Ok 0.
Proof.
  destruct (frequencies_count_occurrences (H := simple_externals)
              sample_occurrences 2 ltac:(lia) ltac:(discriminate))
    as (p0 & p & Hp0 & Hp & Hget).
  exists p0, p. split; [exact Hp0|]. split; [exact Hp|]. intros ir Hir.
  split; [apply (Hget ir "a" "1" Hir)|].
  split; [apply (Hget ir "a" "1" Hir)|apply (Hget ir "c" "1" Hir)].
Defined.

(** ** create_pii as a sequence of calls *)

Lemma for_fold_fmap {A B S} (f : S -> B -> result S) (g : A -> B) (s : S) (l : list A) :
  for_fold f s (g <$> l) = for_fold (fun s x => f s (g x)) s l.
Proof.
  revert s. induction l as [|x l IH]; intros s; [reflexivity|].
  rewrite fmap_cons. cbn [for_fold]. destruct (f s (g x)); cbn [mbind result_bind];
    [apply IH|reflexivity].
Qed.

Lemma for_fold_mjoin {A B S} (f : S -> B -> result S) (g : A -> list B) (s : S)
    (l : list A) :
  for_fold f s (mjoin (g <$> l)) = for_fold (fun s x => for_fold f s (g x)) s l.
Proof.
  revert s. induction l as [|x l IH]; intros s; [reflexivity|].
  rewrite fmap_cons. cbn [mjoin list_join for_fold]. rewrite for_fold_app.
  destruct (for_fold f s (g x)); cbn [mbind result_bind]; [apply IH|reflexivity].
Qed.

Lemma for_fold_ext {A S} (f g : S -> A -> result S) (s : S) (l : list A) :
  (forall s x, f s x = g s x) -> for_fold f s l = for_fold g s l.
Proof.
  intros Hfg. revert s. induction l as [|x l IH]; intros s; [reflexivity|].
  cbn [for_fold]. rewrite Hfg. destruct (g s x); cbn [mbind result_bind];
    [apply IH|reflexivity].
Qed.

Section CreateCalls.
Context `{Externals}.

Lemma create_pii_build (ds : list Document) :
  create_pii ds
  = p0 ← build (collection_occurrences ds); PII_finalize p0 (Z.of_nat (length ds)).
Proof.
  unfold create_pii, build, collection_occurrences. f_equal.
  rewrite for_fold_mjoin. apply for_fold_ext. intros p d.
  unfold document_occurrences. rewrite for_fold_app, for_fold_fmap. cbn [fst snd].
  destruct (for_fold _ p (get_weighted_tokens d)) as [p1|e]; cbn [mbind result_bind];
    [|reflexivity].
  assert (Himap : imap (fun i t => (t, doc_id d, Z.of_nat i, 1%R)) (get_tokens d)
                  = (fun it : nat * string => (it.2, doc_id d, Z.of_nat it.1, 1%R))
                      <$> imap pair (get_tokens d)).
  { rewrite fmap_imap. reflexivity. }
  rewrite Himap, for_fold_fmap. reflexivity.
Qed.

End CreateCalls.

Section CreatePostings.
Context `{Externals}.

Lemma document_occurrences_elem_of (ds : list Document) (d : Document)
    (o : string * string * Z * R) :
  d ∈ ds -> o ∈ document_occurrences d -> o ∈ collection_occurrences ds.
Proof.
  intros Hd Ho. unfold collection_occurrences. apply list_elem_of_join.
  exists (document_occurrences d). split; [exact Ho|].
  apply list_elem_of_fmap. eauto.
Qed.

(** X5. For a non-empty list of documents [create_pii] ends normally, and
    a lookup of a term and a document id in its index finds the posting of
    the calls that [create_pii] made for them; so every content term of a
    document is found with its index among the positions, and every title or
    tag term with the position -1. *)
Theorem create_pii_postings (ds : list Document) :
  ds <> [] ->
  exists p,
    create_pii ds = Ok p
    /\ (forall t doc,
          posting_of p t doc
          = match occurrences_of (collection_occurrences ds) t doc with
            | [] => Raise (match collection_occurrences ds with
                           | [] => IndexError
                           | _ :: _ => KeyError
                           end)
            | _ :: _ =>
                Ok (finalized_posting_of
                      (occurrences_of (collection_occurrences ds) t doc))
            end)
    /\ (forall d i t,
          d ∈ ds -> get_tokens d !! i = Some t ->
          exists dd, posting_of p t (doc_id d) = Ok dd /\ Z.of_nat i ∈ positions dd)
    /\ (forall d t w,
          d ∈ ds -> (t, w) ∈ get_weighted_tokens d ->
          exists dd, posting_of p t (doc_id d) = Ok dd /\ -1 ∈ positions dd).
Proof.
  intros Hds. rewrite create_pii_build.
  destruct (build_recorded (collection_occurrences ds)) as (p0 & Hp0 & Hb & Hr).
  destruct (PII_finalize_total p0 (Z.of_nat (length ds)) Hb) as (p & Hp).
  { destruct ds; [congruence|cbn [length]; lia]. }
  rewrite Hp0. cbn [mbind result_bind]. exists p. split; [exact Hp|].
  assert (Hget : forall t doc,
    posting_of p t doc
    = match occurrences_of (collection_occurrences ds) t doc with
      | [] => Raise (match collection_occurrences ds with
                     | [] => IndexError
                     | _ :: _ => KeyError
                     end)
      | _ :: _ =>
          Ok (finalized_posting_of (occurrences_of (collection_occurrences ds) t doc))
      end).
  { intros t doc. eapply finalize_posting_of; eauto. }
  assert (Hfound : forall d o,
    d ∈ ds -> o ∈ document_occurrences d ->
    exists dd, posting_of p o.1.1.1 o.1.1.2 = Ok dd /\ o.1.2 ∈ positions dd).
  { intros d o Hd Ho. rewrite Hget.
    assert (Hin : o ∈ occurrences_of (collection_occurrences ds) o.1.1.1 o.1.1.2).
    { apply list_elem_of_filter. split; [auto|].
      eapply document_occurrences_elem_of; eauto. }
    destruct (occurrences_of (collection_occurrences ds) o.1.1.1 o.1.1.2)
      as [|o1 os] eqn:Hos; [apply elem_of_nil in Hin as []|].
    eexists. split; [reflexivity|]. cbn [finalized_posting_of positions].
    apply list_elem_of_fmap. eauto. }
  split; [exact Hget|]. split.
  - intros d i t Hd Hi.
    apply (Hfound d (t, doc_id d, Z.of_nat i, 1%R) Hd).
    unfold document_occurrences. apply elem_of_app. right.
    apply list_elem_of_lookup. exists i. rewrite list_lookup_imap, Hi. reflexivity.
  - intros d t w Hd Hw.
    apply (Hfound d (t, doc_id d, -1, w) Hd).
    unfold document_occurrences. apply elem_of_app. left.
    apply list_elem_of_fmap. exists (t, w). auto.
Qed.

End CreatePostings.

Lemma create_pii_postings_witness :
  exists p,
    create_pii (H := simple_externals) sample_docs = Ok p
    /\ positions <$> posting_of p "a" "2" = Ok [0]
    /\ posting_of p "b" "2" = Raise KeyError.
Proof.
  destruct (create_pii_postings (H := simple_externals) sample_docs ltac:(discriminate))
    as (p & Hp & Hget & _).
  exists p. split; [exact Hp|]. rewrite !Hget. split; reflexivity.
Defined.

(** ** The date boost *)

Section DateScore.
Context `{Externals}.

(** X6. [date_score] raises TypeError for a document without a date. For
    a date string it asks for the timestamps of [min_date], of [max_date] and
    of the date, in this order, and the first exception of [timestamp] is
    its own: so it raises when an end of the range has no timestamp. When
    the three timestamps exist, the boost is never negative, 0 for a date that
    does not parse, at most DATE_WEIGHT for a date between the two ends of
    the range, and no smaller for a later date of the range. *)
Theorem date_score_bounds (max_date min_date : datetime) :
  date_score None max_date min_date = Raise TypeError
  /\ forall s,
       (forall e,
          timestamp min_date = Raise e ->
          date_score (Some s) max_date min_date = Raise e)
       /\ forall tmin,
            timestamp min_date = Ok tmin ->
            (forall e,
               timestamp max_date = Raise e ->
               date_score (Some s) max_date min_date = Raise e)
            /\ forall tmax,
                 timestamp max_date = Ok tmax ->
                 (strptime s = None ->
                  date_score (Some s) max_date min_date = Ok 0%R)
                 /\ forall dt,
                      strptime s = Some dt ->
                      (forall e,
                         timestamp dt = Raise e ->
                         date_score (Some s) max_date min_date = Raise e)
                      /\ forall t,
                           timestamp dt = Ok t ->
                           exists b,
                             date_score (Some s) max_date min_date = Ok b
                             /\ (0 <= b)%R
                             /\ ((tmin <= t <= tmax)%R ->
                                 (b <= DATE_WEIGHT)%R
                                 /\ forall s' dt' t' b',
                                      strptime s' = Some dt' ->
                                      timestamp dt' = Ok t' ->
                                      (t <= t')%R ->
                                      date_score (Some s') max_date min_date = Ok b' ->
                                      (b <= b')%R).
Proof.
  split; [reflexivity|]. intros s. unfold date_score, parse_date.
  cbn [mbind result_bind]. split; [intros e ->; reflexivity|].
  intros tmin Hmin. rewrite Hmin. cbn [mbind result_bind].
  split; [intros e ->; reflexivity|].
  intros tmax Hmax. rewrite Hmax. cbn [mbind result_bind].
  set (total := Rmax 1 (tmax - tmin)).
  assert (Htotal : (1 <= total)%R) by apply Rmax_l.
  assert (Hweight : (0 < DATE_WEIGHT)%R) by (unfold DATE_WEIGHT; lra).
  split.
  - intros ->. cbn [default from_option]. unfold Datatypes.id.
    rewrite Hmin. cbn [mbind result_bind]. f_equal.
    replace (tmin - tmin)%R with 0%R by lra.
    unfold Rdiv. rewrite Rmult_0_l, Rabs_R0. lra.
  - intros dt ->. cbn [default from_option]. unfold Datatypes.id.
    split; [intros e ->; reflexivity|]. intros t Ht. rewrite Ht.
    cbn [mbind result_bind]. eexists. split; [reflexivity|]. split.
    + apply Rmult_le_pos; [apply Rabs_pos|lra].
    + intros [Hlow Hhigh].
      assert (Hdelta : (tmax - tmin <= total)%R) by apply Rmax_r.
      assert (Habs : forall x, (0 <= x)%R -> Rabs (x / total) = (x / total)%R).
      { intros x Hx. apply Rabs_pos_eq. apply Rmult_le_pos; [exact Hx|].
        apply Rlt_le, Rinv_0_lt_compat. lra. }
      split.
      * rewrite Habs by lra.
        assert (((t - tmin) / total <= 1)%R).
        { replace 1%R with (total / total)%R by (field; lra).
          apply Rmult_le_compat_r; [apply Rlt_le, Rinv_0_lt_compat; lra|lra]. }
        assert (0 <= (t - tmin) / total)%R.
        { apply Rmult_le_pos; [lra|]. apply Rlt_le, Rinv_0_lt_compat. lra. }
        nra.
      * intros s' dt' t' b' -> Ht' Hle. cbn [default from_option].
        unfold Datatypes.id. rewrite Ht'. cbn [mbind result_bind]. intros [= <-].
        rewrite !Habs by lra.
        apply Rmult_le_compat_r; [lra|].
        apply Rmult_le_compat_r; [apply Rlt_le, Rinv_0_lt_compat; lra|lra].
Qed.

End DateScore.

(** With CPython's [datetime.min], which has no timestamp, as the maximum of
    the range, [date_score] raises ValueError. *)
Example date_score_no_range :
  date_score (H := simple_externals) (Some "x") datetime_min datetime_max
  = Raise ValueError.
Proof. reflexivity. Qed.

Section DateRange.
Context `{Externals}.
Variable clock : datetime -> R.
Hypothesis clock_order :
  forall a b, datetime_ltb a b = true <-> (clock a < clock b)%R.

Lemma datetime_max2_ge (a b : datetime) :
  (clock a <= clock (datetime_max2 a b))%R
  /\ (clock b <= clock (datetime_max2 a b))%R.
Proof.
  unfold datetime_max2. destruct (datetime_ltb a b) eqn:Hlt.
  - apply clock_order in Hlt. lra.
  - assert (~ (clock a < clock b)%R).
    { intros Hab. apply clock_order in Hab. congruence. }
    lra.
Qed.

Lemma datetime_min2_le (a b : datetime) :
  (clock (datetime_min2 a b) <= clock a)%R
  /\ (clock (datetime_min2 a b) <= clock b)%R.
Proof.
  unfold datetime_min2. destruct (datetime_ltb b a) eqn:Hlt.
  - apply clock_order in Hlt. lra.
  - assert (~ (clock b < clock a)%R).
    { intros Hab. apply clock_order in Hab. congruence. }
    lra.
Qed.

(** The first loop of [IRData.__init__] keeps the two ends of the range
    around the dates that parse. *)
Lemma IRData_documents_range (ds : list Document) (dm : dict Document)
    (mx mn : datetime) :
  IRData_documents ds = Ok (dm, mx, mn) ->
  forall d s dt,
    d ∈ ds -> date d = Some s -> strptime s = Some dt ->
    (clock mn <= clock dt <= clock mx)%R.
Proof.
  unfold IRData_documents.
  assert (Hgen : forall s s',
    for_fold
      (fun '(acc, max_date, min_date) d =>
         d1 ← parse_date (date d) max_date;
         let max_date := datetime_max2 d1 max_date in
         d2 ← parse_date (date d) min_date;
         let min_date := datetime_min2 d2 min_date in
         Ok (dict_set acc (doc_id d)
               {| doc_id := doc_id d; title := title d; url := url d;
                  content := EmptyString; date := date d; tags := None |},
             max_date, min_date))
      s ds = Ok s' ->
    (clock s.1.2 <= clock s'.1.2)%R
    /\ (clock s'.2 <= clock s.2)%R
    /\ forall d str dt,
         d ∈ ds -> date d = Some str -> strptime str = Some dt ->
         (clock s'.2 <= clock dt <= clock s'.1.2)%R).
  { induction ds as [|d ds IH]; intros s s'; cbn [for_fold].
    - intros [= <-]. split; [lra|]. split; [lra|].
      intros d str dt []%elem_of_nil.
    - destruct s as [[acc max_date] min_date]. intros Hf.
      apply bind_Ok in Hf as (s1 & Hs1 & Hf).
      apply bind_Ok in Hs1 as (d1 & Hd1 & Hs1).
      apply bind_Ok in Hs1 as (d2 & Hd2 & [= <-]).
      destruct (IH _ _ Hf) as (Hmx & Hmn & Hrest). cbn [fst snd] in *.
      destruct (datetime_max2_ge d1 max_date) as [Hmx1 Hmx2].
      destruct (datetime_min2_le d2 min_date) as [Hmn1 Hmn2].
      split; [lra|]. split; [lra|].
      intros d0 str dt Hd0 Hdate Hparse.
      apply elem_of_cons in Hd0 as [->|Hd0]; [|eapply Hrest; eauto].
      unfold parse_date in Hd1, Hd2. rewrite Hdate in Hd1, Hd2.
      rewrite Hparse in Hd1, Hd2. cbn in Hd1, Hd2.
      injection Hd1 as <-. injection Hd2 as <-. lra. }
  intros Hf d s dt Hd Hdate Hparse.
  destruct (Hgen _ _ Hf) as (_ & _ & Hall). apply (Hall d s dt Hd Hdate Hparse).
Qed.

End DateRange.

Section DateBoost.
Context `{Externals}.

(** When no date parses, the range stays as [IRData.__init__] starts it:
    from [datetime.max] down to [datetime.min]. *)
Lemma IRData_documents_undated (ds : list Document) (dm : dict Document)
    (mx mn : datetime) :
  Forall (fun d => forall s, date d = Some s -> strptime s = None) ds ->
  IRData_documents ds = Ok (dm, mx, mn) ->
  mx = datetime_min /\ mn = datetime_max.
Proof.
  intros Hall. unfold IRData_documents.
  generalize ([] : dict Document). generalize datetime_min, datetime_max.
  induction Hall as [|d ds Hd _ IH]; intros mx0 mn0 acc; cbn [for_fold].
  - intros [= _ <- <-]. auto.
  - intros Hf. apply bind_Ok in Hf as (s1 & Hs1 & Hf).
    apply bind_Ok in Hs1 as (d1 & Hd1 & Hs1).
    apply bind_Ok in Hs1 as (d2 & Hd2 & [= <-]).
    unfold parse_date in Hd1, Hd2. destruct (date d) as [s|]; [|discriminate].
    rewrite (Hd s eq_refl) in Hd1, Hd2. cbn [default from_option] in Hd1, Hd2.
    unfold Datatypes.id in Hd1, Hd2. injection Hd1 as <-. injection Hd2 as <-.
    assert (Hmx : datetime_max2 mx0 mx0 = mx0)
      by (unfold datetime_max2; destruct (datetime_ltb mx0 mx0); reflexivity).
    assert (Hmn : datetime_min2 mn0 mn0 = mn0)
      by (unfold datetime_min2; destruct (datetime_ltb mn0 mn0); reflexivity).
    rewrite Hmx, Hmn in Hf. exact (IH _ _ _ Hf).
Qed.

(** X7. When the order of the datetimes agrees with their timestamps and
    the two ends of the range of a collection have timestamps, every date of
    a document that parses and has a timestamp lies between min_doc_date and
    max_doc_date and gets a boost between 0 and DATE_WEIGHT from
    [date_score], and a date that does not parse gets the boost 0. When no
    date of the collection parses, the maximum of the range is still
    [datetime.min], the minimum [datetime.max], and [date_score] raises for
    every document what [timestamp] raises for [datetime.min]. *)
Theorem collection_date_boost (p : PositionalInvertedIndexOnMemory)
    (ds : list Document) (ir : IRData) :
  chronological -> IRData_init p ds = Ok ir ->
  (forall tmin tmax,
     timestamp (min_doc_date ir) = Ok tmin ->
     timestamp (max_doc_date ir) = Ok tmax ->
     forall d s,
       d ∈ ds -> date d = Some s ->
       (strptime s = None ->
        date_score (date d) (max_doc_date ir) (min_doc_date ir) = Ok 0%R)
       /\ forall dt t,
            strptime s = Some dt -> timestamp dt = Ok t ->
            (tmin <= t <= tmax)%R
            /\ exists b,
                 date_score (date d) (max_doc_date ir) (min_doc_date ir) = Ok b
                 /\ (0 <= b <= DATE_WEIGHT)%R)
  /\ (Forall (fun d => forall s, date d = Some s -> strptime s = None) ds ->
      max_doc_date ir = datetime_min /\ min_doc_date ir = datetime_max
      /\ forall t e d,
           timestamp datetime_max = Ok t -> timestamp datetime_min = Raise e ->
           d ∈ ds ->
           date_score (date d) (max_doc_date ir) (min_doc_date ir) = Raise e).
Proof.
  intros (clock & Horder & Hclock) Hinit.
  apply IRData_init_Ok in Hinit as (dm & mx & mn & toks & sums & Hdocs & _ & _ & ->).
  cbn [max_doc_date min_doc_date].
  pose proof (IRData_documents_range clock Horder ds dm mx mn Hdocs) as Hrange.
  assert (Hdated : forall d, d ∈ ds -> is_Some (date d)).
  { intros d Hd. clear -Hdocs Hd. unfold IRData_documents in Hdocs.
    destruct (date d) eqn:Hdate; [eauto|]. exfalso.
    apply list_elem_of_split in Hd as (l1 & l2 & ->).
    rewrite for_fold_app in Hdocs. apply bind_Ok in Hdocs as ([[acc a] b] & _ & Hdocs).
    cbn [for_fold] in Hdocs. rewrite Hdate in Hdocs. discriminate. }
  split.
  - intros tmin tmax Hmin Hmax d s Hd Hs. rewrite Hs.
    destruct (date_score_bounds mx mn) as [_ Hscore].
    destruct (Hscore s) as [_ Hscore1].
    destruct (Hscore1 tmin Hmin) as [_ Hscore2].
    destruct (Hscore2 tmax Hmax) as [Hnone Hsome]. split; [exact Hnone|].
    intros dt t Hparse Ht. destruct (Hsome dt Hparse) as [_ Hb].
    destruct (Hb t Ht) as (b & Hscore_b & Hb0 & Hb1).
    pose proof (Hrange d s dt Hd Hs Hparse) as Hclocks.
    rewrite <- (Hclock _ _ Hmin), <- (Hclock _ _ Hmax), <- (Hclock _ _ Ht) in Hclocks.
    split; [exact Hclocks|]. exists b. split; [exact Hscore_b|].
    destruct (Hb1 Hclocks) as [Hle _]. lra.
  - intros Hall. destruct (IRData_documents_undated ds dm mx mn Hall Hdocs) as [-> ->].
    split; [reflexivity|]. split; [reflexivity|]. intros t e d Ht He Hd.
    destruct (Hdated d Hd) as [s Hs]. rewrite Hs.
    destruct (date_score_bounds datetime_min datetime_max) as [_ Hscore].
    destruct (Hscore s) as [_ Hscore1]. destruct (Hscore1 t Ht) as [Hraise _].
    exact (Hraise e He).
Qed.

End DateBoost.

Lemma simple_externals_chronological : chronological (H := simple_externals).
Proof.
  exists IZR. split.
  - intros a b. cbn. rewrite Z.ltb_lt. split; [apply IZR_lt|apply lt_IZR].
  - intros a t. cbn. destruct (a =? -62135596800); [discriminate|]. intros [= <-].
    reflexivity.
Qed.

Lemma collection_date_boost_witness :
  exists p ir0 b,
    IRData_init (H := simple_externals) p sample_docs = Ok ir0
    /\ date_score (Some "200") (max_doc_date ir0) (min_doc_date ir0) = Ok b
    /\ (0 <= b <= DATE_WEIGHT)%R.
Proof.
  destruct sample_collection as (p & ir0 & Hp & Hi).
  destruct (collection_date_boost (H := simple_externals) p sample_docs ir0
              simple_externals_chronological Hi) as [Hboost _].
  assert (Hrange : max_doc_date ir0 = 200 /\ min_doc_date ir0 = 100).
  { apply IRData_init_Ok in Hi as (dm & mx & mn & toks & sums & Hdocs & _ & _ & ->).
    cbn [max_doc_date min_doc_date]. vm_compute in Hdocs. injection Hdocs as _ <- <-.
    split; reflexivity. }
  destruct Hrange as [Hmx Hmn].
  destruct (Hboost (IZR 100) (IZR 200)) with
    (d := {| doc_id := "2"; title := EmptyString; url := "u2"; content := "a";
             date := Some "200"; tags := None |}) (s := "200")
    as [_ Hb].
  - rewrite Hmn. reflexivity.
  - rewrite Hmx. reflexivity.
  - right. left.
  - reflexivity.
  - destruct (Hb 200 (IZR 200)) as (_ & b & Hscore & Hbounds); [reflexivity..|].
    exists p, ir0, b. auto.
Defined.

(** ** cosine_score: the raw scores *)

Lemma dict_get_dict_add (d : dict R) (k k' : string) (v : R) :
  dict_get (dict_add d k v) k'
  = if decide (k = k') then add_opt (dict_get d k) (Some v) else dict_get d k'.
Proof.
  unfold dict_add. destruct (decide (k = k')) as [<-|Hne].
  - destruct (dict_get d k); rewrite dict_get_set_eq; reflexivity.
  - destruct (dict_get d k); apply dict_get_set_ne, Hne.
Qed.

Lemma cosine_postings_get (i wtq : R) (postings : list (string * DocumentTokenData))
    (acc : dict R) (doc : string) :
  NoDup postings.*1 ->
  dict_get (cosine_postings None i wtq postings acc) doc
  = add_opt (dict_get acc doc)
      ((fun dd => (tf dd * i * wtq)%R) <$> dict_get postings doc).
Proof.
  revert acc. induction postings as [|[d dd] postings IH]; intros acc Hnd.
  - cbn. destruct (dict_get acc doc); reflexivity.
  - rewrite fmap_cons in Hnd. apply NoDup_cons in Hnd as [Hd Hnd]. cbn [fst] in Hd.
    cbn [cosine_postings dict_get]. rewrite IH by exact Hnd.
    rewrite dict_get_dict_add.
    destruct (String.eqb_spec d doc) as [->|Hne].
    + rewrite decide_True by reflexivity.
      assert (Hnone : dict_get postings doc = None) by (apply dict_get_None; exact Hd).
      rewrite Hnone. cbn [fmap option_fmap option_map].
      destruct (dict_get acc doc); reflexivity.
    + rewrite decide_False by exact Hne. reflexivity.
Qed.

Lemma bool_decide_is_Some_Some {A} (a : A) : bool_decide (is_Some (Some a)) = true.
Proof. apply bool_decide_eq_true_2. eauto. Qed.

Lemma bool_decide_is_Some_None {A} : bool_decide (is_Some (@None A)) = false.
Proof. apply bool_decide_eq_false_2. intros [? [=]]. Qed.

Lemma fold_add_opt (o : option R) (cs : list (option R)) :
  foldl add_opt o cs
  = if bool_decide (is_Some o) || existsb (fun c => bool_decide (is_Some c)) cs
    then Some (default 0 o + sum_list (default 0 <$> cs))%R
    else None.
Proof.
  revert o. induction cs as [|c cs IH]; intros o.
  - cbn [foldl existsb]. rewrite fmap_nil, sum_list_nil, orb_false_r.
    destruct o as [a|];
      rewrite ?bool_decide_is_Some_Some, ?bool_decide_is_Some_None;
      [cbn [default from_option]; unfold Datatypes.id; f_equal; lra|reflexivity].
  - cbn [foldl existsb]. rewrite IH, fmap_cons, sum_list_cons.
    destruct o as [a|], c as [b|]; cbn [add_opt];
      rewrite ?bool_decide_is_Some_Some, ?bool_decide_is_Some_None;
      cbn [orb default from_option]; unfold Datatypes.id;
      try (f_equal; lra).
    destruct (existsb _ cs); [f_equal; lra|reflexivity].
Qed.

(** The entry of a document in the map of [cosine_score]: the contributions
    of the query terms, added in the order of the query index. *)
Lemma cosine_score_contributions (p query_pii : PositionalInvertedIndexOnMemory)
    (query_tokens : list (string * Token)) :
  searchable p -> well_formed query_pii -> tokens query_pii = Some query_tokens ->
  exists doc_scores,
    cosine_score p query_pii = Ok doc_scores
    /\ forall doc,
         dict_get doc_scores doc
         = foldl add_opt None (contribution p doc <$> query_tokens).
Proof.
  intros Hp Hwf Hq.
  pose proof Hp as (toks & Htoks & Hsorted & Hne & Hall).
  destruct Hwf as (qtoks & Hqtoks & _ & Hqall).
  rewrite Hq in Hqtoks. injection Hqtoks as <-.
  assert (Hgen : forall acc,
    exists doc_scores,
      for_fold
        (fun doc_scores qt =>
           query_list ← not_none TypeError (list_ qt.2);
           first ← py_index query_list 0;
           let wtq := tf first.2 in
           match PII_getitem p qt.1 with
           | Raise KeyError => Ok doc_scores
           | Raise e => Raise e
           | Ok token_data =>
               postings ← Token_iter token_data;
               Ok (cosine_postings INDEX_ELIMINATION (idf token_data) wtq postings
                     doc_scores)
           end)
        acc query_tokens = Ok doc_scores
      /\ forall doc,
           dict_get doc_scores doc
           = foldl add_opt (dict_get acc doc) (contribution p doc <$> query_tokens)).
  { clear Hq. induction Hqall as [|qt query_tokens (ql & Hql & _ & Hqlne & _) _ IH];
      intros acc.
    - exists acc. split; reflexivity.
    - cbn [for_fold]. rewrite Hql. cbn [not_none mbind result_bind].
      destruct ql as [|[qd first] ql]; [congruence|].
      change (py_index ((qd, first) :: ql) 0)
        with (Ok (qd, first) : result (string * DocumentTokenData)).
      cbn [mbind result_bind snd].
      assert (Hitem : PII_getitem p qt.1 = dict_item toks qt.1).
      { unfold PII_getitem. rewrite Htoks. cbn [not_none mbind result_bind].
        apply binary_search_tuple_sorted; assumption. }
      assert (Hcontrib : forall doc acc0,
        add_opt acc0 (contribution p doc qt)
        = match dict_get toks qt.1 with
          | Some t =>
              match Token_get_search_scope_list t with
              | Some l =>
                  add_opt acc0
                    ((fun dd => (tf dd * idf t * tf first)%R) <$> dict_get l doc)
              | None => acc0
              end
          | None => acc0
          end).
      { intros doc acc0. unfold contribution, query_weight. rewrite Htoks, Hql.
        cbn [mbind option_bind].
        destruct (dict_get toks qt.1) as [t|]; cbn [mbind option_bind];
          [|destruct acc0; reflexivity].
        destruct (Token_get_search_scope_list t) as [l|]; cbn [mbind option_bind];
          [|destruct acc0; reflexivity].
        destruct (dict_get l doc); reflexivity. }
      rewrite Hitem. unfold dict_item.
      destruct (dict_get toks qt.1) as [token_data|] eqn:Hget; cbn [not_none].
      + apply dict_get_Some_elem in Hget. rewrite Forall_forall in Hall.
        destruct (Hall _ Hget) as (c & Hc & Hcs & _). cbn [snd] in Hc.
        unfold Token_iter. rewrite Hc. cbn [not_none mbind result_bind].
        destruct (IH (cosine_postings INDEX_ELIMINATION (idf token_data) (tf first) c acc))
          as (r & Hr & Hget').
        exists r. split; [exact Hr|]. intros doc. rewrite Hget', fmap_cons.
        cbn [foldl]. f_equal. rewrite Hcontrib, Hc. unfold INDEX_ELIMINATION.
        apply cosine_postings_get, keys_sorted_NoDup, Hcs.
      + destruct (IH acc) as (r & Hr & Hget'). exists r. split; [exact Hr|].
        intros doc. rewrite Hget', fmap_cons. cbn [foldl]. rewrite Hcontrib.
        reflexivity. }
  destruct (Hgen []) as (doc_scores & Hfold & Hget).
  exists doc_scores. split; [|exact Hget].
  unfold cosine_score, PII_iter. rewrite Hq. exact Hfold.
Qed.

(** X8. On a searchable index and for a well-formed query index,
    [cosine_score] ends normally; each document has at most one entry; a
    document has an entry exactly when a query term of the index shows it
    among its visible postings, and the entry is the sum over these terms of
    tf * idf of the posting times the weight of the query term. *)
Theorem cosine_score_raw_score (p query_pii : PositionalInvertedIndexOnMemory)
    (query_tokens : list (string * Token)) :
  searchable p -> well_formed query_pii -> tokens query_pii = Some query_tokens ->
  exists doc_scores,
    cosine_score p query_pii = Ok doc_scores
    /\ NoDup doc_scores.*1
    /\ forall doc, dict_get doc_scores doc = raw_score p query_tokens doc.
Proof.
  intros Hp Hwf Hq.
  destruct (cosine_score_contributions p query_pii query_tokens Hp Hwf Hq)
    as (doc_scores & Hc & Hget).
  exists doc_scores. split; [exact Hc|]. split; [eapply cosine_score_NoDup, Hc|].
  intros doc. rewrite Hget, fold_add_opt. unfold raw_score.
  rewrite bool_decide_is_Some_None. cbn [orb default from_option].
  destruct (existsb _ _); [f_equal; lra|reflexivity].
Qed.

Lemma cosine_score_raw_score_witness :
  exists doc_scores,
    cosine_score title_index title_query = Ok doc_scores
    /\ dict_get doc_scores "1"
       = raw_score title_index
           [("a", Token_init 0 1 [("0", DocumentTokenData_init 1 1 [0])]);
            ("b", Token_init 0 1 [("0", DocumentTokenData_init 1 1 [1])]);
            ("c", Token_init 0 1 [("0", DocumentTokenData_init 1 1 [2])])] "1".
Proof.
  destruct (cosine_score_raw_score title_index title_query
              [("a", Token_init 0 1 [("0", DocumentTokenData_init 1 1 [0])]);
               ("b", Token_init 0 1 [("0", DocumentTokenData_init 1 1 [1])]);
               ("c", Token_init 0 1 [("0", DocumentTokenData_init 1 1 [2])])]
              title_index_searchable) as (doc_scores & Hc & _ & Hget).
  - eexists. split; [reflexivity|]. split; [repeat constructor|].
    repeat constructor; eexists; (split; [reflexivity|]);
      (split; [repeat constructor|]); (split; [discriminate|reflexivity]).
  - reflexivity.
  - exists doc_scores. split; [exact Hc|apply Hget].
Defined.

(** ** IRData: the document lengths and the stored documents *)

Section Lengths.
Context `{Externals}.

(** X9. The collection that [IRData.__init__] makes has one document
    length for each document id of a posting of the index, whether the list
    of documents has that id or not, and none for another id; and every
    length is at least 1, so that [search] never divides by zero. *)
Theorem doc_lengths_entries (p : PositionalInvertedIndexOnMemory)
    (ds : list Document) (ir : IRData) (toks : list (string * Token)) :
  IRData_init p ds = Ok ir -> tokens p = Some toks ->
  NoDup (doc_lengths ir).*1
  /\ (forall id,
        id ∈ (doc_lengths ir).*1
        <-> exists st l, st ∈ toks /\ list_ st.2 = Some l /\ id ∈ l.*1)
  /\ forall id len, dict_get (doc_lengths ir) id = Some len -> (1 <= len)%R.
Proof.
  intros Hinit Htoks.
  apply IRData_init_Ok in Hinit as (dm & mx & mn & toks0 & sums & _ & Htoks0 & Hsums & ->).
  rewrite Htoks in Htoks0. injection Htoks0 as <-. cbn [doc_lengths].
  apply IRData_square_sums_Ok in Hsums as (_ & Hnd & Hkeys & _).
  assert (Hfst : ((fun kv : string * R => (kv.1, Rmax 1 (sqrt kv.2))) <$> sums).*1
                 = sums.*1).
  { rewrite <- list_fmap_compose. apply list_fmap_ext. intros i [k v] _. reflexivity. }
  rewrite Hfst. split; [exact Hnd|]. split; [exact Hkeys|].
  intros id len Hget. apply dict_get_Some_elem in Hget.
  apply list_elem_of_fmap in Hget as ([k v] & [= _ ->] & _). apply Rmax_l.
Qed.

End Lengths.

Lemma doc_lengths_entries_witness :
  exists p ir0 toks,
    IRData_init (H := simple_externals) p sample_docs = Ok ir0
    /\ tokens p = Some toks
    /\ NoDup (doc_lengths ir0).*1.
Proof.
  destruct sample_collection as (p & ir0 & Hp & Hi).
  destruct (create_pii_well_formed (H := simple_externals) _ _ Hp) as (toks & Htoks & _).
  destruct (doc_lengths_entries (H := simple_externals) p sample_docs ir0 toks Hi Htoks)
    as (Hnd & _).
  exists p, ir0, toks. auto.
Defined.

Lemma dict_set_fresh {V} (d : dict V) (k : string) (v : V) :
  k ∉ d.*1 -> dict_set d k v = (d ++ [(k, v)])%list.
Proof.
  induction d as [|[k' v'] d IH]; intros Hk; [reflexivity|].
  rewrite fmap_cons, not_elem_of_cons in Hk. destruct Hk as [Hne Hk]. cbn [fst] in Hne.
  cbn [dict_set]. destruct (String.eqb_spec k' k) as [->|_]; [congruence|].
  rewrite IH by exact Hk. reflexivity.
Qed.

Section Stored.
Context `{Externals}.

Lemma IRData_documents_stored (ds : list Document) (dm : dict Document)
    (mx mn : datetime) :
  IRData_documents ds = Ok (dm, mx, mn) ->
  Forall (fun kd => exists d, d ∈ ds /\ kd = (doc_id d, stored d)) dm
  /\ (NoDup (doc_id <$> ds) -> dm = (fun d => (doc_id d, stored d)) <$> ds).
Proof.
  unfold IRData_documents.
  assert (Hgen : forall s s',
    for_fold
      (fun '(acc, max_date, min_date) d =>
         d1 ← parse_date (date d) max_date;
         let max_date := datetime_max2 d1 max_date in
         d2 ← parse_date (date d) min_date;
         let min_date := datetime_min2 d2 min_date in
         Ok (dict_set acc (doc_id d)
               {| doc_id := doc_id d; title := title d; url := url d;
                  content := EmptyString; date := date d; tags := None |},
             max_date, min_date))
      s ds = Ok s' ->
    (forall P : string * Document -> Prop,
       Forall P s.1.1 -> (forall d, d ∈ ds -> P (doc_id d, stored d)) ->
       Forall P s'.1.1)
    /\ (NoDup (doc_id <$> ds) -> (forall d, d ∈ ds -> doc_id d ∉ s.1.1.*1) ->
        s'.1.1 = (s.1.1 ++ ((fun d => (doc_id d, stored d)) <$> ds))%list)).
  { induction ds as [|d ds IH]; intros s s'; cbn [for_fold].
    - intros [= <-]. split; [auto|]. intros _ _. rewrite fmap_nil, app_nil_r.
      reflexivity.
    - destruct s as [[acc max_date] min_date]. intros Hf.
      apply bind_Ok in Hf as (s1 & Hs1 & Hf).
      apply bind_Ok in Hs1 as (d1 & _ & Hs1).
      apply bind_Ok in Hs1 as (d2 & _ & [= <-]).
      destruct (IH _ _ Hf) as [Hall Heq]. cbn [fst snd] in *. split.
      + intros P Hacc HP. apply Hall.
        * apply dict_set_Forall; [exact Hacc|]. apply (HP d). left.
        * intros d0 Hd0. apply HP. right. exact Hd0.
      + intros Hnd Hfresh. rewrite fmap_cons in Hnd.
        apply NoDup_cons in Hnd as [Hd Hnd].
        rewrite dict_set_fresh in Heq by (apply Hfresh; left).
        rewrite Heq; [rewrite fmap_cons, <- app_assoc; reflexivity|exact Hnd|].
        intros d0 Hd0. rewrite fmap_app, elem_of_app. intros [Hin|Hin].
        * apply (Hfresh d0); [right; exact Hd0|exact Hin].
        * apply list_elem_of_singleton in Hin. cbn [fst] in Hin. apply Hd.
          rewrite <- Hin. apply list_elem_of_fmap. eauto. }
  intros Hf. destruct (Hgen _ _ Hf) as [Hall Heq]. cbn [fst snd] in *. split.
  - apply Hall; [constructor|]. intros d Hd. eauto.
  - intros Hnd. apply Heq; [exact Hnd|]. intros d _ []%elem_of_nil.
Qed.

(** X10. The collection keeps of each document its id, title, url and
    date, without the content and the tags: one entry per document, in the
    order of the list, when the ids are distinct; the champions lists leave
    the entries as they are, and every document that [search] returns is such
    an entry. *)
Theorem stored_documents (p : PositionalInvertedIndexOnMemory) (ds : list Document)
    (ir0 ir : IRData) (r : option Z) :
  IRData_init p ds = Ok ir0 -> generate_champions_list ir0 r = Ok ir ->
  (NoDup (doc_id <$> ds) -> docs ir = (fun d => (doc_id d, stored d)) <$> ds)
  /\ forall query k date_score_ phrase_query_score score_function res,
       search ir query k date_score_ phrase_query_score score_function = Ok res ->
       Forall (fun ds' => exists d, d ∈ ds /\ ds'.1 = stored d) res.
Proof.
  intros Hinit Hgen.
  apply generate_champions_list_fields in Hgen as (Hdocs & _).
  apply IRData_init_Ok in Hinit as (dm & mx & mn & toks & sums & Hdm & _ & _ & ->).
  cbn [docs] in Hdocs. apply IRData_documents_stored in Hdm as [Hall Heq].
  split; [intros Hnd; rewrite Hdocs; apply Heq, Hnd|].
  intros query k date_score_ phrase_query_score score_function res Hs.
  apply search_Ok in Hs
    as (qp & dsc & ps & finals & ranked & _ & _ & _ & Hfinals & Hperm & _ & ->).
  rewrite Forall_fmap, Forall_forall. intros sd Hsd. cbn [fst].
  assert (Hin : sd ∈ finals).
  { rewrite <- Hperm, <- (take_drop (Z.to_nat k) ranked). apply elem_of_app. auto. }
  apply for_each_Ok in Hfinals.
  destruct (Forall2_elem_of_r _ _ _ _ Hfinals Hin) as (x & _ & Hx).
  apply scored_document_Ok in Hx as (len & boost & Hd & _).
  rewrite Hdocs in Hd. apply dict_get_Some_elem in Hd.
  rewrite Forall_forall in Hall. destruct (Hall _ Hd) as (d & Hd' & [= _ Heq']).
  exists d. split; [exact Hd'|exact Heq'].
Qed.

End Stored.

Lemma stored_documents_witness :
  exists p ir0,
    IRData_init (H := simple_externals) p sample_docs = Ok ir0
    /\ docs ir0 = (fun d => (doc_id d, stored d)) <$> sample_docs.
Proof.
  destruct sample_collection as (p & ir0 & _ & Hi).
  destruct (stored_documents (H := simple_externals) p sample_docs ir0 ir0 None
              Hi eq_refl) as [Hdocs _].
  exists p, ir0. split; [exact Hi|]. apply Hdocs. apply (bool_decide_unpack _). reflexivity.
Defined.

(** ** phrase_query: the range of the multiplier *)

Lemma following_run_bound (p : PositionalInvertedIndexOnMemory) (doc : string)
    (rest : list string) (pos : Z) :
  0 <= following_run p doc rest pos <= Z.of_nat (length rest).
Proof.
  revert pos. induction rest as [|term rest IH]; intros pos; cbn [following_run length].
  - lia.
  - destruct (visible_positions p term doc) as [sp|]; [|lia].
    destruct (bool_decide (pos + 1 ∈ sp)); [|lia].
    specialize (IH (pos + 1)). lia.
Qed.

Lemma best_run_bound (p : PositionalInvertedIndexOnMemory) (doc : string)
    (rest : list string) (ps : list Z) :
  best_run p doc rest ps <= 1 + Z.of_nat (length rest).
Proof.
  unfold best_run, max_list.
  induction (filter (fun pos => real_position pos = true) ps) as [|x l IH].
  - cbn. lia.
  - rewrite fmap_cons. cbn [foldr]. pose proof (following_run_bound p doc rest x).
    lia.
Qed.

Lemma starting_term_rest (qualifies : list Z -> bool)
    (p : PositionalInvertedIndexOnMemory) (doc : string) (terms : list string)
    (ps : list Z) (rest : list string) :
  starting_term qualifies p doc terms = Some (ps, rest) ->
  (length rest < length terms)%nat.
Proof.
  induction terms as [|term terms IH]; cbn [starting_term length]; [discriminate|].
  destruct (visible_positions p term doc) as [ps'|].
  - destruct (qualifies ps'); [intros [= _ <-]; lia|]. intros Hs. apply IH in Hs. lia.
  - intros Hs. apply IH in Hs. lia.
Qed.

Lemma phrase_score_range (qualifies : list Z -> bool)
    (p : PositionalInvertedIndexOnMemory) (terms : list string) (doc : string) (v : R) :
  phrase_score qualifies p terms doc = Some v ->
  (1 < v <= 1 + PHRASE_QUERY_WEIGHT)%R /\ (2 <= length terms)%nat.
Proof.
  unfold phrase_score.
  destruct (starting_term qualifies p doc terms) as [[ps rest]|] eqn:Hstart;
    [|discriminate].
  apply starting_term_rest in Hstart.
  pose proof (best_run_bound p doc rest ps) as Hbest.
  destruct (Z.ltb_spec 1 (best_run p doc rest ps)) as [Hlt|]; [|discriminate].
  intros [= <-]. unfold PHRASE_QUERY_WEIGHT.
  assert (Hlen : (0 < INR (length terms))%R) by (apply lt_0_INR; lia).
  assert (Hb : (1 < IZR (best_run p doc rest ps) <= INR (length terms))%R).
  { split; [apply IZR_lt; exact Hlt|]. rewrite INR_IZR_INZ. apply IZR_le. lia. }
  assert (Hq : (0 < IZR (best_run p doc rest ps) / INR (length terms) <= 1)%R).
  { split.
    - apply Rdiv_lt_0_compat; lra.
    - replace 1%R with (INR (length terms) / INR (length terms))%R by (field; lra).
      apply Rmult_le_compat_r; [apply Rlt_le, Rinv_0_lt_compat; lra|lra]. }
  split; [lra|lia].
Qed.

(** X11. On a searchable index [phrase_query] ends normally; it gives
    entries to candidate documents only, every entry is a multiplier above 1
    and at most 1 + PHRASE_QUERY_WEIGHT, and a query index of fewer than two
    terms gets no entry at all. *)
Theorem phrase_query_range (p query_pii : PositionalInvertedIndexOnMemory)
    (query_tokens : list (string * Token)) (doc_ids : list string) :
  searchable p -> tokens query_pii = Some query_tokens ->
  exists phrase_scores,
    phrase_query p query_pii doc_ids = Ok phrase_scores
    /\ (forall doc v,
          dict_get phrase_scores doc = Some v ->
          doc ∈ doc_ids /\ (1 < v <= 1 + PHRASE_QUERY_WEIGHT)%R)
    /\ ((length query_tokens < 2)%nat -> phrase_scores = []).
Proof.
  intros Hp Hq. unfold phrase_query. rewrite Hq. cbn [not_none mbind result_bind].
  destruct (for_fold_total
              (fun acc : dict R =>
                 Forall (fun kv => kv.1 ∈ doc_ids
                                   /\ (1 < kv.2 <= 1 + PHRASE_QUERY_WEIGHT)%R
                                   /\ (2 <= length query_tokens)%nat) acc)
              (fun doc_scores doc_id =>
                 s ← phrase_query_doc p query_tokens doc_id;
                 Ok match s with
                    | Some v => dict_set doc_scores doc_id v
                    | None => doc_scores
                    end)
              [] doc_ids) as (m & Hm & Hall).
  - constructor.
  - intros acc doc Hdoc Hacc. rewrite phrase_query_doc_spec by exact Hp.
    cbn [mbind result_bind]. eexists. split; [reflexivity|].
    destruct (phrase_score any_entry p query_tokens.*1 doc) as [v|] eqn:Hv;
      [|exact Hacc].
    apply phrase_score_range in Hv as [Hv Hlen]. rewrite length_fmap in Hlen.
    apply dict_set_Forall; [exact Hacc|]. auto.
  - exists m. split; [exact Hm|]. rewrite Forall_forall in Hall. split.
    + intros doc v Hget. apply dict_get_Some_elem in Hget.
      destruct (Hall _ Hget) as (? & ? & _). auto.
    + intros Hlen. destruct m as [|kv m]; [reflexivity|].
      destruct (Hall kv ltac:(left)) as (_ & _ & ?). lia.
Qed.

Lemma phrase_query_range_witness :
  exists phrase_scores,
    phrase_query title_index title_query ["1"] = Ok phrase_scores
    /\ forall doc v,
         dict_get phrase_scores doc = Some v ->
         doc ∈ ["1"] /\ (1 < v <= 1 + PHRASE_QUERY_WEIGHT)%R.
Proof.
  destruct (phrase_query_range title_index title_query
              [("a", Token_init 0 1 [("0", DocumentTokenData_init 1 1 [0])]);
               ("b", Token_init 0 1 [("0", DocumentTokenData_init 1 1 [1])]);
               ("c", Token_init 0 1 [("0", DocumentTokenData_init 1 1 [2])])]
              ["1"] title_index_searchable eq_refl) as (m & Hm & Hrange & _).
  exists m. auto.
Defined.

(** ** The terms of an index *)

Lemma StronglySorted_str_lt_unique (a b : list string) :
  StronglySorted str_lt a -> StronglySorted str_lt b ->
  (forall x, x ∈ a <-> x ∈ b) -> a = b.
Proof.
  intros Ha. revert b. induction Ha as [|x a Ha IH Hx]; intros b Hb Hab.
  - destruct b as [|y b]; [reflexivity|]. exfalso.
    apply (elem_of_nil y), Hab. left.
  - destruct b as [|y b].
    { exfalso. apply (elem_of_nil x), Hab. left. }
    apply StronglySorted_inv in Hb as [Hb Hy]. rewrite Forall_forall in Hx, Hy.
    assert (x = y) as <-.
    { assert (Hx' : x ∈ y :: b) by (apply Hab; left).
      assert (Hy' : y ∈ x :: a) by (apply Hab; left).
      apply elem_of_cons in Hx' as [?|Hx']; [assumption|].
      apply elem_of_cons in Hy' as [?|Hy']; [congruence|].
      exfalso. apply (str_lt_irrefl x).
      eapply str_lt_trans; [apply Hx, Hy'|apply Hy, Hx']. }
    f_equal. apply IH; [exact Hb|]. intros z. split; intros Hz.
    + assert (Hz' : z ∈ x :: b) by (apply Hab; right; exact Hz).
      apply elem_of_cons in Hz' as [->|?]; [|assumption].
      exfalso. apply (str_lt_irrefl x), Hx, Hz.
    + assert (Hz' : z ∈ x :: a) by (apply Hab; right; exact Hz).
      apply elem_of_cons in Hz' as [->|?]; [|assumption].
      exfalso. apply (str_lt_irrefl x), Hy, Hz.
Qed.

(** The terms of the index that [__finalize__] leaves are the terms that
    the calls named, in ascending order. *)
Lemma finalize_terms (occ : list (string * string * Z * R))
    (p0 p : PositionalInvertedIndexOnMemory) (n : Z) (toks : list (string * Token)) :
  building p0 -> recorded occ p0 -> PII_finalize p0 n = Ok p ->
  tokens p = Some toks ->
  keys_sorted toks /\ forall t, t ∈ toks.*1 <-> exists o, o ∈ occ /\ o.1.1.1 = t.
Proof.
  intros Hb Hr Hfin Htoks.
  pose proof (PII_finalize_well_formed _ _ _ Hb Hfin) as (toks0 & Htoks0 & Hsorted & _).
  rewrite Htoks in Htoks0. injection Htoks0 as <-. split; [exact Hsorted|].
  destruct Hr as (d & Hd & Hrec). destruct Hb as (d0 & Hd0 & Hnd & Hall).
  rewrite Hd in Hd0. injection Hd0 as <-.
  apply PII_finalize_Ok in Hfin as (d1 & d' & Hd1 & Hrel & _ & Htoks').
  rewrite Hd in Hd1. injection Hd1 as <-.
  rewrite Htoks in Htoks'. injection Htoks' as ->.
  assert (Hkeys : d'.*1 = d.*1).
  { eapply (Forall2_same_keys (fun _ _ => True)). eapply Forall2_impl; [exact Hrel|].
    cbv beta. intros ? ? [? _]. auto. }
  intros t.
  assert (Hperm : (sorted str_ltb fst false d').*1 ≡ₚ d.*1).
  { rewrite <- Hkeys. apply fmap_Permutation, sorted_Permutation. }
  rewrite Hperm. specialize (Hrec t). rewrite Forall_forall in Hall. split.
  - intros Ht. destruct (dict_get d t) as [tok|] eqn:Hget.
    + apply dict_get_Some_elem in Hget. destruct (Hall _ Hget) as [Htokb Hpos].
      cbn [snd] in *.
      destruct (building_token_nonempty _ Htokb Hpos) as (l & [kd dd] & Hl & Hkd).
      destruct Hrec as (l' & Hl' & Hdocs). rewrite Hl in Hl'. injection Hl' as <-.
      destruct Htokb as (l2 & Hl2 & Hnd2 & _). rewrite Hl in Hl2. injection Hl2 as <-.
      specialize (Hdocs kd). rewrite (dict_get_elem_NoDup _ _ _ Hnd2 Hkd) in Hdocs.
      destruct Hdocs as [Hne _].
      destruct (occurrences_of occ t kd) as [|o os] eqn:Hos; [congruence|].
      assert (Ho : o ∈ occurrences_of occ t kd) by (rewrite Hos; left).
      apply list_elem_of_filter in Ho as [[Hot _] Ho]. eauto.
    + apply dict_get_None in Hget. contradiction.
  - intros (o & Ho & Hot). destruct (dict_get d t) as [tok|] eqn:Hget.
    + apply dict_get_Some_elem in Hget. apply list_elem_of_fmap. exists (t, tok). auto.
    + exfalso. specialize (Hrec o.1.1.2).
      assert (Hin : o ∈ occurrences_of occ t o.1.1.2)
        by (apply list_elem_of_filter; auto).
      rewrite Hrec in Hin. apply elem_of_nil in Hin as [].
Qed.

Section QueryTerms.
Context `{Externals}.

(** The terms of the index of a query are its words and the words of the
    empty title, each once, in ascending order. *)
Lemma create_query_pii_terms (query : string) :
  exists query_pii query_tokens,
    create_query_pii query = Ok query_pii
    /\ tokens query_pii = Some query_tokens
    /\ keys_sorted query_tokens
    /\ forall t,
         t ∈ query_tokens.*1 <-> t ∈ tokenize EmptyString \/ t ∈ tokenize query.
Proof.
  unfold create_query_pii. rewrite create_pii_build.
  set (ds := [ {| doc_id := "0"; title := EmptyString; url := EmptyString;
                  content := query; date := None; tags := None |} ]).
  destruct (build_recorded (collection_occurrences ds)) as (p0 & Hp0 & Hb & Hr).
  destruct (PII_finalize_total p0 (Z.of_nat (length ds)) Hb) as (p & Hp); [cbn; lia|].
  rewrite Hp0. cbn [mbind result_bind].
  pose proof (PII_finalize_well_formed _ _ _ Hb Hp) as (toks & Htoks & _).
  destruct (finalize_terms _ _ _ _ toks Hb Hr Hp Htoks) as [Hsorted Hterms].
  exists p, toks. repeat (split; [assumption|]). intros t. rewrite Hterms.
  unfold collection_occurrences, ds. cbn [fmap list_fmap mjoin list_join].
  rewrite app_nil_r. unfold document_occurrences, get_weighted_tokens, get_tokens.
  cbn [title tags content doc_id]. rewrite app_nil_r. split.
  - intros (o & Ho & <-). apply elem_of_app in Ho as [Ho|Ho].
    + left. apply list_elem_of_fmap in Ho as ([t w] & -> & Hw).
      apply list_elem_of_fmap in Hw as (x & [= -> _] & Hx). exact Hx.
    + right. apply list_elem_of_lookup in Ho as (i & Hi).
      rewrite list_lookup_imap in Hi.
      destruct (tokenize query !! i) as [x|] eqn:Hx; [|discriminate].
      injection Hi as <-. apply list_elem_of_lookup. eauto.
  - intros [Ht|Ht].
    + exists (t, "0", -1, TITLE_TOKEN_WEIGHT). split; [|reflexivity].
      apply elem_of_app. left. apply list_elem_of_fmap.
      exists (t, TITLE_TOKEN_WEIGHT). split; [reflexivity|].
      apply list_elem_of_fmap. eauto.
    + apply list_elem_of_lookup in Ht as (i & Hi).
      exists (t, "0", Z.of_nat i, 1%R). split; [|reflexivity].
      apply elem_of_app. right. apply list_elem_of_lookup. exists i.
      rewrite list_lookup_imap, Hi. reflexivity.
Qed.

(** X12. The phrase scores depend on the terms of the query and not on
    their order or number in the query text: on a searchable index, two
    queries with the same words get the same phrase scores, since
    [phrase_query] walks the terms of the query index, which are in ascending
    order. *)
Theorem phrase_query_word_order (p : PositionalInvertedIndexOnMemory)
    (query1 query2 : string) (doc_ids : list string) :
  searchable p ->
  (forall t, t ∈ tokenize query1 <-> t ∈ tokenize query2) ->
  exists q1 q2,
    create_query_pii query1 = Ok q1 /\ create_query_pii query2 = Ok q2
    /\ phrase_query p q1 doc_ids = phrase_query p q2 doc_ids.
Proof.
  intros Hp Hsame.
  destruct (create_query_pii_terms query1) as (q1 & t1 & Hq1 & Ht1 & Hs1 & Hk1).
  destruct (create_query_pii_terms query2) as (q2 & t2 & Hq2 & Ht2 & Hs2 & Hk2).
  exists q1, q2. split; [exact Hq1|]. split; [exact Hq2|].
  assert (Hkeys : t1.*1 = t2.*1).
  { apply StronglySorted_str_lt_unique; [exact Hs1|exact Hs2|].
    intros t. rewrite Hk1, Hk2, Hsame. reflexivity. }
  unfold phrase_query. rewrite Ht1, Ht2. cbn [not_none mbind result_bind].
  apply for_fold_ext. intros acc doc.
  rewrite !phrase_query_doc_spec by exact Hp. rewrite Hkeys. reflexivity.
Qed.

End QueryTerms.

Lemma phrase_query_word_order_witness :
  exists q1 q2,
    create_query_pii (H := simple_externals) "a b" = Ok q1
    /\ create_query_pii (H := simple_externals) "b a" = Ok q2
    /\ phrase_query title_index q1 ["1"] = phrase_query title_index q2 ["1"].
Proof.
  apply (phrase_query_word_order (H := simple_externals) title_index "a b" "b a" ["1"]
           title_index_searchable).
  intros t. change (t ∈ ["a"; "b"] <-> t ∈ ["b"; "a"]).
  rewrite !elem_of_cons, !elem_of_nil. tauto.
Defined.

(** ** search: the number of results asked for *)

Section SearchPrefix.
Context `{Externals}.

(** X13. The results of [search] for [k] are the first [k] results of
    the same search for a larger number: asking for more results never
    changes the ones already returned or their order. For [k <= 0] there is
    no result. *)
Theorem search_prefix (ir : IRData) (query : string) (k k' : Z)
    (date_score_ phrase_query_score : bool)
    (score_function : PositionalInvertedIndexOnMemory ->
                      PositionalInvertedIndexOnMemory -> result (dict R))
    (res' : list (Document * R)) :
  k <= k' ->
  search ir query k' date_score_ phrase_query_score score_function = Ok res' ->
  search ir query k date_score_ phrase_query_score score_function
  = Ok (take (Z.to_nat k) res').
Proof.
  intros Hk. unfold search. intros Hs.
  apply bind_Ok in Hs as (qp & Hqp & Hs). apply bind_Ok in Hs as (dsc & Hdsc & Hs).
  apply bind_Ok in Hs as (ps & Hps & Hs). apply bind_Ok in Hs as (heap & Hheap & Hs).
  injection Hs as <-.
  rewrite Hqp. cbn [mbind result_bind]. rewrite Hdsc. cbn [mbind result_bind].
  rewrite Hps. cbn [mbind result_bind]. rewrite Hheap. cbn [mbind result_bind].
  f_equal. rewrite !nlargest_take, <- fmap_take, take_take. f_equal. f_equal. lia.
Qed.

End SearchPrefix.

Lemma search_prefix_witness :
  exists ir0 d1 d2 s,
    search (H := simple_externals) ir0 "a" 2 false true cosine_score
    = Ok [(d1, s); (d2, s)]
    /\ search (H := simple_externals) ir0 "a" 1 false true cosine_score
       = Ok [(d1, s)].
Proof.
  destruct sample_search as (p & ir0 & qp & d1 & d2 & s & c1 & c2 & _ & _ & _ & _ & _ & _ & Hs).
  exists ir0, d1, d2, s. split; [exact Hs|].
  apply (search_prefix (H := simple_externals) ir0 "a" 1 2 false true cosine_score
           [(d1, s); (d2, s)] ltac:(lia) Hs).
Defined.

(** ** Champions lists without room *)

Section NoRoom.
Context `{Externals}.

(** X14. With champions lists of size 0 no term shows any document: the
    generation ends normally for a collection of a well-formed index with a
    term, and every search of the collection then returns no result,
    whatever the query. *)
Theorem search_champions_zero (p : PositionalInvertedIndexOnMemory)
    (ds : list Document) (ir0 : IRData) (toks : list (string * Token)) :
  well_formed p -> tokens p = Some toks -> toks <> [] ->
  IRData_init p ds = Ok ir0 ->
  exists ir,
    generate_champions_list ir0 (Some 0) = Ok ir
    /\ forall query k date_score_ phrase_query_score,
         search ir query k date_score_ phrase_query_score cosine_score = Ok [].
Proof.
  intros (toks0 & Htoks0 & Hsorted & _) Htoks Hne Hinit.
  rewrite Htoks in Htoks0. injection Htoks0 as <-.
  destruct (generate_champions_list_Ok _ _ _ 0 Hinit)
    as (toks1 & toks' & Htoks1 & Hgen & Hrel).
  rewrite Htoks in Htoks1. injection Htoks1 as <-.
  eexists. split; [exact Hgen|].
  intros query k date_score_ phrase_query_score.
  assert (Hkeys : keys_sorted toks').
  { unfold keys_sorted. erewrite Forall2_same_keys; [exact Hsorted|].
    eapply Forall2_impl; [exact Hrel|]. cbv beta. intros st st' (Hk & _).
    split; [exact Hk|exact I]. }
  assert (Hne' : toks' <> []).
  { intros ->. apply Forall2_nil_inv_r in Hrel. contradiction. }
  assert (Hscope : forall st', st' ∈ toks' -> Token_iter st'.2 = Ok []).
  { intros st' Hst'.
    destruct (Forall2_elem_of_r _ _ _ _ Hrel Hst')
      as (st & _ & _ & _ & _ & _ & l & ranked & _ & _ & _ & Hch).
    unfold Token_iter, Token_get_search_scope_list. rewrite Hch. reflexivity. }
  destruct (create_query_pii_total query) as (qp & Hqp & (qtoks & Hqtoks & _ & Hqall)).
  unfold search. rewrite Hqp. cbn [mbind result_bind pii].
  assert (Hc : cosine_score {| __tokens__ := __tokens__ p; tokens := Some toks' |} qp
               = Ok []).
  { unfold cosine_score, PII_iter. rewrite Hqtoks. cbn [not_none mbind result_bind].
    destruct (for_fold_total (fun acc : dict R => acc = [])
                (fun doc_scores qt =>
                   query_list ← not_none TypeError (list_ qt.2);
                   first ← py_index query_list 0;
                   let wtq := tf first.2 in
                   match PII_getitem
                           {| __tokens__ := __tokens__ p; tokens := Some toks' |} qt.1
                   with
                   | Raise KeyError => Ok doc_scores
                   | Raise e => Raise e
                   | Ok token_data =>
                       postings ← Token_iter token_data;
                       Ok (cosine_postings INDEX_ELIMINATION (idf token_data) wtq
                             postings doc_scores)
                   end)
                [] qtoks eq_refl) as (r & Hr & ->); [|exact Hr].
    intros acc qt Hqt ->. rewrite Forall_forall in Hqall.
    destruct (Hqall _ Hqt) as (ql & Hql & _ & Hqlne & _). rewrite Hql.
    cbn [not_none mbind result_bind].
    destruct ql as [|[qd first] ql]; [congruence|].
    change (py_index ((qd, first) :: ql) 0)
      with (Ok (qd, first) : result (string * DocumentTokenData)).
    cbn [mbind result_bind snd]. unfold PII_getitem. cbn [tokens not_none mbind result_bind].
    rewrite binary_search_tuple_sorted by assumption. unfold dict_item.
    destruct (dict_get toks' qt.1) as [tok|] eqn:Hget; cbn [not_none]; [|eauto].
    apply dict_get_Some_elem in Hget. apply Hscope in Hget. cbn [snd] in Hget.
    rewrite Hget. cbn [mbind result_bind cosine_postings]. eauto. }
  rewrite Hc. cbn [mbind result_bind].
  assert (Hphrase :
    (if phrase_query_score
     then Some <$> phrase_query {| __tokens__ := __tokens__ p; tokens := Some toks' |}
                     qp (dict_keys ([] : dict R))
     else Ok None)
    = Ok (if phrase_query_score then Some [] else None)).
  { destruct phrase_query_score; [|reflexivity].
    unfold phrase_query. rewrite Hqtoks. reflexivity. }
  rewrite Hphrase. cbn [mbind result_bind for_fold]. rewrite nlargest_nil. reflexivity.
Qed.

End NoRoom.

Lemma search_champions_zero_witness :
  exists p ir0 ir,
    IRData_init (H := simple_externals) p sample_docs = Ok ir0
    /\ generate_champions_list ir0 (Some 0) = Ok ir
    /\ search ir "a" 10 true true cosine_score = Ok [].
Proof.
  destruct sample_search
    as (p & ir0 & qp & d1 & d2 & s & c1 & c2 & Hp & Hi & _ & Hc & _).
  pose proof (create_pii_well_formed (H := simple_externals) _ _ Hp) as Hwf.
  pose proof Hwf as (toks & Htoks & _).
  destruct (search_champions_zero (H := simple_externals) p sample_docs ir0 toks
              Hwf Htoks) as (ir & Hg & Hs).
  - intros ->.
    assert (Hpii : pii ir0 = p).
    { apply IRData_init_Ok in Hi as (? & ? & ? & ? & ? & _ & _ & _ & ->). reflexivity. }
    rewrite <- Hpii in Htoks.
    destruct (cosine_score_empty_index _ _ _ Htoks Hc) as [_ [=]].
  - exact Hi.
  - exists p, ir0, ir. auto.
Defined.

(** ** search reads an index through its visible postings only *)

Lemma Forall2_alike_keys {A B} (P : A -> B -> Prop) (l : dict A) (l' : dict B) :
  Forall2 (fun x y => y.1 = x.1 /\ P x.2 y.2) l l' -> l'.*1 = l.*1.
Proof.
  induction 1 as [|x y l l' [Hk _] _ IH]; [reflexivity|].
  rewrite !fmap_cons, Hk, IH. reflexivity.
Qed.

Lemma index_alike_searchable (p p' : PositionalInvertedIndexOnMemory) :
  searchable p -> index_alike p p' -> searchable p'.
Proof.
  intros (toks & Htoks & Hsorted & Hne & Hall) (ta & tb & Hta & Htb & Hrel).
  rewrite Htoks in Hta. injection Hta as <-.
  exists tb. split; [exact Htb|]. split; [|split].
  - unfold keys_sorted. rewrite (Forall2_alike_keys _ _ _ Hrel). exact Hsorted.
  - intros ->. apply Forall2_nil_inv_r in Hrel. contradiction.
  - rewrite Forall_forall in *. intros st' Hst'.
    destruct (Forall2_elem_of_r _ _ _ _ Hrel Hst')
      as (st & Hst & _ & _ & la & lb & Hla & Hlb & Hposts).
    destruct (Hall _ Hst) as (l & Hl & Hls & Hlne).
    rewrite Hla in Hl. injection Hl as <-.
    exists lb. split; [exact Hlb|]. split.
    + unfold keys_sorted. rewrite (Forall2_alike_keys _ _ _ Hposts). exact Hls.
    + intros ->. apply Forall2_nil_inv_r in Hposts. contradiction.
Qed.

Lemma visible_positions_alike (p p' : PositionalInvertedIndexOnMemory)
    (term doc : string) :
  index_alike p p' -> visible_positions p term doc = visible_positions p' term doc.
Proof.
  intros (ta & tb & Hta & Htb & Hrel). unfold visible_positions.
  rewrite Hta, Htb. cbn [mbind option_bind].
  pose proof (dict_get_Forall2 token_alike ta tb term Hrel) as Htok.
  destruct (dict_get ta term) as [a|], (dict_get tb term) as [b|];
    try contradiction; [|reflexivity].
  cbn [mbind option_bind]. destruct Htok as (_ & la & lb & -> & -> & Hposts).
  cbn [mbind option_bind].
  pose proof (dict_get_Forall2 posting_alike la lb doc Hposts) as Hdd.
  destruct (dict_get la doc) as [x|], (dict_get lb doc) as [y|];
    try contradiction; [|reflexivity].
  cbn [mbind option_bind]. destruct Hdd as [_ ->]. reflexivity.
Qed.

Lemma phrase_score_alike (qualifies : list Z -> bool)
    (p p' : PositionalInvertedIndexOnMemory) (terms : list string) (doc : string) :
  index_alike p p' ->
  phrase_score qualifies p terms doc = phrase_score qualifies p' terms doc.
Proof.
  intros Halike.
  assert (Hrun : forall rest pos,
            following_run p doc rest pos = following_run p' doc rest pos).
  { induction rest as [|term rest IH]; intros pos; cbn [following_run]; [reflexivity|].
    rewrite (visible_positions_alike p p' term doc Halike).
    destruct (visible_positions p' term doc); [|reflexivity].
    rewrite IH. reflexivity. }
  assert (Hstart : starting_term qualifies p doc terms
                   = starting_term qualifies p' doc terms).
  { induction terms as [|term terms IH]; cbn [starting_term]; [reflexivity|].
    rewrite (visible_positions_alike p p' term doc Halike), IH. reflexivity. }
  unfold phrase_score. rewrite Hstart.
  destruct (starting_term qualifies p' doc terms) as [[ps rest]|]; [|reflexivity].
  assert (Hbest : best_run p doc rest ps = best_run p' doc rest ps).
  { unfold best_run. f_equal. apply list_fmap_ext. intros i pos _. rewrite Hrun.
    reflexivity. }
  rewrite Hbest. reflexivity.
Qed.

Lemma phrase_query_alike (p p' query_pii : PositionalInvertedIndexOnMemory)
    (doc_ids : list string) :
  searchable p -> index_alike p p' ->
  phrase_query p query_pii doc_ids = phrase_query p' query_pii doc_ids.
Proof.
  intros Hp Halike. pose proof (index_alike_searchable _ _ Hp Halike) as Hp'.
  unfold phrase_query. destruct (tokens query_pii) as [qt|]; [|reflexivity].
  cbn [not_none mbind result_bind]. apply for_fold_ext. intros acc doc.
  rewrite !phrase_query_doc_spec by assumption.
  rewrite (phrase_score_alike any_entry p p' _ doc Halike). reflexivity.
Qed.

Lemma cosine_postings_alike (elimination : option R) (i wtq : R)
    (la lb : list (string * DocumentTokenData)) (acc : dict R) :
  Forall2 (fun x y => y.1 = x.1 /\ posting_alike x.2 y.2) la lb ->
  cosine_postings elimination i wtq la acc = cosine_postings elimination i wtq lb acc.
Proof.
  intros Hrel. revert acc.
  induction Hrel as [|[d dd] [d' dd'] la lb (Hk & Htf & _) _ IH]; intros acc;
    [reflexivity|].
  cbn [fst snd] in *. subst d'. cbn [cosine_postings]. rewrite Htf.
  destruct elimination as [threshold|]; [|apply IH].
  destruct (Rltb _ threshold); [reflexivity|apply IH].
Qed.

Lemma cosine_score_alike (p p' query_pii : PositionalInvertedIndexOnMemory) :
  searchable p -> index_alike p p' ->
  cosine_score p query_pii = cosine_score p' query_pii.
Proof.
  intros Hp Halike. pose proof (index_alike_searchable _ _ Hp Halike) as Hp'.
  destruct Hp as (toks & Htoks & Hsorted & Hne & _).
  destruct Hp' as (toks' & Htoks' & Hsorted' & Hne' & _).
  destruct Halike as (ta & tb & Hta & Htb & Hrel).
  rewrite Htoks in Hta. injection Hta as <-. rewrite Htoks' in Htb. injection Htb as <-.
  unfold cosine_score. destruct (PII_iter query_pii) as [qtoks|]; [|reflexivity].
  cbn [mbind result_bind]. apply for_fold_ext. intros acc qt.
  destruct (not_none TypeError (list_ qt.2)) as [ql|]; [|reflexivity].
  cbn [mbind result_bind]. destruct (py_index ql 0) as [first|]; [|reflexivity].
  cbn [mbind result_bind]. unfold PII_getitem. rewrite Htoks, Htoks'.
  cbn [not_none mbind result_bind].
  rewrite !binary_search_tuple_sorted by assumption. unfold dict_item.
  pose proof (dict_get_Forall2 token_alike toks toks' qt.1 Hrel) as Htok.
  destruct (dict_get toks qt.1) as [a|], (dict_get toks' qt.1) as [b|];
    try contradiction; [|reflexivity].
  cbn [not_none]. destruct Htok as (Hidf & la & lb & Hla & Hlb & Hposts).
  unfold Token_iter. rewrite Hla, Hlb. cbn [not_none mbind result_bind].
  rewrite Hidf. f_equal. apply cosine_postings_alike, Hposts.
Qed.

Section SearchAlike.
Context `{Externals}.

Lemma search_alike (ir ir' : IRData) (query : string) (k : Z)
    (date_score_ phrase_query_score : bool) :
  searchable (pii ir) -> index_alike (pii ir) (pii ir') ->
  docs ir' = docs ir -> doc_lengths ir' = doc_lengths ir ->
  max_doc_date ir' = max_doc_date ir -> min_doc_date ir' = min_doc_date ir ->
  search ir' query k date_score_ phrase_query_score cosine_score
  = search ir query k date_score_ phrase_query_score cosine_score.
Proof.
  intros Hp Halike Hdocs Hlens Hmx Hmn. unfold search.
  destruct (create_query_pii query) as [qp|]; [|reflexivity].
  cbn [mbind result_bind]. rewrite <- (cosine_score_alike _ _ qp Hp Halike).
  destruct (cosine_score (pii ir) qp) as [dsc|]; [|reflexivity].
  cbn [mbind result_bind].
  rewrite <- (phrase_query_alike _ _ qp (dict_keys dsc) Hp Halike).
  destruct (if phrase_query_score then _ else _) as [ps|]; [|reflexivity].
  cbn [mbind result_bind].
  assert (Hfold : forall heap0,
    for_fold (fun doc_heap ds =>
                sd ← scored_document ir' ps date_score_ ds;
                Ok (heappush SearchedDocument_lt doc_heap sd)) heap0 dsc
    = for_fold (fun doc_heap ds =>
                  sd ← scored_document ir ps date_score_ ds;
                  Ok (heappush SearchedDocument_lt doc_heap sd)) heap0 dsc).
  { intros heap0. apply for_fold_ext. intros heap ds. unfold scored_document.
    rewrite Hdocs, Hlens, Hmx, Hmn. reflexivity. }
  rewrite Hfold. reflexivity.
Qed.

End SearchAlike.

(** ** Champions lists with room for every posting *)

Lemma keys_sorted_Permutation_eq {V} (a b : list (string * V)) :
  keys_sorted a -> keys_sorted b -> a ≡ₚ b -> a = b.
Proof.
  intros Ha Hb Hperm.
  assert (Hkeys : a.*1 = b.*1).
  { apply StronglySorted_str_lt_unique; [exact Ha|exact Hb|].
    intros x. rewrite Hperm. reflexivity. }
  pose proof (keys_sorted_NoDup _ Hb) as Hnd.
  clear Ha Hb. revert b Hperm Hkeys Hnd.
  induction a as [|[k v] a IH]; intros b Hperm Hkeys Hnd.
  - apply Permutation_nil_l in Hperm. auto.
  - destruct b as [|[k' v'] b]; [discriminate|].
    rewrite !fmap_cons in Hkeys. injection Hkeys as Hk Hkeys. cbn [fst] in Hk. subst k'.
    rewrite fmap_cons in Hnd. apply NoDup_cons in Hnd as [Hk Hnd]. cbn [fst] in Hk.
    assert (Hv : v = v').
    { assert (Hin : (k, v) ∈ (k, v') :: b) by (rewrite <- Hperm; left).
      apply elem_of_cons in Hin as [[= ->]|Hin]; [reflexivity|].
      exfalso. apply Hk. apply list_elem_of_fmap. exists (k, v). auto. }
    subst v'. f_equal. apply IH; [|exact Hkeys|exact Hnd].
    eapply Permutation_cons_inv. exact Hperm.
Qed.

Lemma Forall2_impl_elem_of {A B} (P Q : A -> B -> Prop) (l : list A) (k : list B) :
  Forall2 P l k -> (forall x y, x ∈ l -> P x y -> Q x y) -> Forall2 Q l k.
Proof.
  induction 1 as [|x y l k HP _ IH]; intros Himpl; constructor.
  - apply Himpl; [left|exact HP].
  - apply IH. intros x' y' Hx'. apply Himpl. right. exact Hx'.
Qed.

Section Room.
Context `{Externals}.

(** X15. When the champions lists have room for every posting of every
    term, each champions list is the full postings list of its term, and
    every search of the collection returns what it returns without champions
    lists. *)
Theorem champions_with_room (p : PositionalInvertedIndexOnMemory)
    (ds : list Document) (ir0 : IRData) (toks : list (string * Token)) (r : Z) :
  well_formed p -> tokens p = Some toks -> toks <> [] ->
  IRData_init p ds = Ok ir0 ->
  Forall (fun st => forall l, list_ st.2 = Some l -> Z.of_nat (length l) <= r) toks ->
  exists ir toks',
    generate_champions_list ir0 (Some r) = Ok ir
    /\ tokens (pii ir) = Some toks'
    /\ Forall2 (fun st st' => st'.1 = st.1 /\ champions_list st'.2 = list_ st.2)
         toks toks'
    /\ forall query k date_score_ phrase_query_score,
         search ir query k date_score_ phrase_query_score cosine_score
         = search ir0 query k date_score_ phrase_query_score cosine_score.
Proof.
  intros (toks0 & Htoks0 & Hsorted & Hwf) Htoks Hne Hinit Hroom.
  rewrite Htoks in Htoks0. injection Htoks0 as <-.
  destruct (generate_champions_list_Ok _ _ _ r Hinit)
    as (toks1 & toks' & Htoks1 & Hgen & Hrel).
  rewrite Htoks in Htoks1. injection Htoks1 as <-.
  assert (Hpii : pii ir0 = p).
  { apply IRData_init_Ok in Hinit as (? & ? & ? & ? & ? & _ & _ & _ & ->). reflexivity. }
  assert (Hch : Forall2
            (fun st st' =>
               st'.1 = st.1 /\ idf st'.2 = idf st.2
               /\ champions_list st'.2 = list_ st.2
               /\ exists l, list_ st.2 = Some l /\ champions_list st.2 = None)
            toks toks').
  { rewrite Forall_forall in Hwf, Hroom.
    eapply Forall2_impl_elem_of; [exact Hrel|]. cbv beta.
    intros st st' Hst (Hk & Hidf & _ & _ & l & ranked & Hl & Hperm & _ & Hc).
    destruct (Hwf _ Hst) as (l0 & Hl0 & Hls & Hlne & Hnone).
    rewrite Hl in Hl0. injection Hl0 as <-.
    split; [exact Hk|]. split; [exact Hidf|]. split; [|eauto].
    rewrite Hc, Hl. f_equal.
    assert (Hr : 0 <= r) by (specialize (Hroom _ Hst l Hl); lia).
    rewrite py_slice_to_nonneg by exact Hr.
    rewrite take_ge
      by (rewrite (Permutation_length Hperm); specialize (Hroom _ Hst l Hl); lia).
    apply keys_sorted_Permutation_eq; [|exact Hls|].
    - apply sorted_keys_sorted. rewrite Hperm. apply keys_sorted_NoDup, Hls.
    - rewrite sorted_Permutation. exact Hperm. }
  eexists. exists toks'. split; [exact Hgen|]. split; [reflexivity|]. split.
  { eapply Forall2_impl; [exact Hch|]. cbv beta. intros st st' (? & _ & ? & _). auto. }
  intros query k date_score_ phrase_query_score.
  apply search_alike; try reflexivity.
  - rewrite Hpii. exists toks. split; [exact Htoks|]. split; [exact Hsorted|].
    split; [exact Hne|]. eapply Forall_impl; [exact Hwf|]. cbv beta.
    intros st (l & Hl & Hls & Hlne & Hnone). exists l.
    unfold Token_get_search_scope_list. rewrite Hnone. auto.
  - rewrite Hpii. exists toks, toks'. split; [exact Htoks|]. split; [reflexivity|].
    eapply Forall2_impl; [exact Hch|]. cbv beta.
    intros st st' (Hk & Hidf & Hc & l & Hl & Hnone). split; [exact Hk|].
    split; [symmetry; exact Hidf|]. exists l, l.
    unfold Token_get_search_scope_list. rewrite Hnone, Hc, Hl.
    split; [reflexivity|]. split; [reflexivity|].
    clear. induction l as [|x l IH]; constructor; [|exact IH]. repeat split.
Qed.

End Room.

Section PostingsLength.
Context `{Externals}.

(** No term of the index of [create_pii] has more postings than there are
    documents. *)
Lemma create_pii_postings_length (ds : list Document)
    (p : PositionalInvertedIndexOnMemory) (toks : list (string * Token)) :
  create_pii ds = Ok p -> tokens p = Some toks ->
  Forall (fun st => forall l, list_ st.2 = Some l -> (length l <= length ds)%nat) toks.
Proof.
  intros Hp Htoks.
  pose proof (create_pii_documents_cover _ _ _ Hp Htoks) as Hcover.
  destruct (create_pii_well_formed _ _ Hp) as (toks0 & Htoks0 & _ & Hwf).
  rewrite Htoks in Htoks0. injection Htoks0 as <-.
  rewrite Forall_forall in *. intros st Hst l Hl.
  destruct (Hwf _ Hst) as (l0 & Hl0 & Hls & _). rewrite Hl in Hl0. injection Hl0 as <-.
  rewrite <- (length_fmap fst l), <- (length_fmap doc_id ds).
  apply submseteq_length, NoDup_submseteq; [apply keys_sorted_NoDup, Hls|].
  intros id Hid. apply list_elem_of_fmap in Hid as (td & -> & Htd).
  eapply Hcover; eauto.
Qed.

End PostingsLength.

Lemma champions_with_room_witness :
  exists p ir0 ir,
    IRData_init (H := simple_externals) p sample_docs = Ok ir0
    /\ generate_champions_list ir0 (Some 2) = Ok ir
    /\ search ir "a" 2 false true cosine_score
       = search ir0 "a" 2 false true cosine_score.
Proof.
  destruct sample_search
    as (p & ir0 & qp & d1 & d2 & s & c1 & c2 & Hp & Hi & _ & Hc & _).
  pose proof (create_pii_well_formed (H := simple_externals) _ _ Hp) as Hwf.
  pose proof Hwf as (toks & Htoks & _).
  destruct (champions_with_room (H := simple_externals) p sample_docs ir0 toks 2
              Hwf Htoks) as (ir & toks' & Hg & _ & _ & Hs).
  - intros ->.
    assert (Hpii : pii ir0 = p).
    { apply IRData_init_Ok in Hi as (? & ? & ? & ? & ? & _ & _ & _ & ->). reflexivity. }
    rewrite <- Hpii in Htoks.
    destruct (cosine_score_empty_index _ _ _ Htoks Hc) as [_ [=]].
  - exact Hi.
  - eapply Forall_impl;
      [exact (create_pii_postings_length (H := simple_externals) _ _ _ Hp Htoks)|].
    cbv beta. intros st Hlen l Hl. specialize (Hlen l Hl). cbn [length sample_docs] in Hlen.
    lia.
  - exists p, ir0, ir. auto.
Defined.

(** ** A collection made from the cache *)

Lemma sorted_insert_Forall2 {A B K} (ltb : K -> K -> bool) (key : A -> K)
    (key' : B -> K) (Rel : A -> B -> Prop) (reverse : bool)
    (x : A) (y : B) (s : list A) (s' : list B) :
  (forall a b, Rel a b -> key a = key' b) ->
  Rel x y -> Forall2 Rel s s' ->
  Forall2 Rel (sorted_insert ltb key reverse x s) (sorted_insert ltb key' reverse y s').
Proof.
  intros Hkey Hxy Hs. induction Hs as [|a b s s' Hab Hs IH]; cbn [sorted_insert].
  - repeat constructor. exact Hxy.
  - unfold precedes. rewrite (Hkey _ _ Hxy), (Hkey _ _ Hab).
    destruct (if reverse then _ else _); repeat (constructor; try assumption).
Qed.

Lemma sorted_Forall2 {A B K} (ltb : K -> K -> bool) (key : A -> K)
    (key' : B -> K) (Rel : A -> B -> Prop) (reverse : bool)
    (l : list A) (l' : list B) :
  (forall a b, Rel a b -> key a = key' b) ->
  Forall2 Rel l l' ->
  Forall2 Rel (sorted ltb key reverse l) (sorted ltb key' reverse l').
Proof.
  intros Hkey. induction 1 as [|a b l l' Hab _ IH]; [constructor|].
  cbn [sorted foldr]. apply sorted_insert_Forall2; assumption.
Qed.

Lemma for_fold_Forall2 {A B S} (f : S -> A -> result S) (g : S -> B -> result S)
    (Rel : A -> B -> Prop) (s : S) (l : list A) (l' : list B) :
  (forall s x y, Rel x y -> f s x = g s y) ->
  Forall2 Rel l l' -> for_fold f s l = for_fold g s l'.
Proof.
  intros Hfg Hl. revert s. induction Hl as [|x y l l' Hxy _ IH]; intros s; [reflexivity|].
  cbn [for_fold]. rewrite (Hfg s x y Hxy). destruct (g s y); cbn [mbind result_bind];
    [apply IH|reflexivity].
Qed.

Lemma foldl_Forall2 {A B S} (f : S -> A -> S) (g : S -> B -> S)
    (Rel : A -> B -> Prop) (s : S) (l : list A) (l' : list B) :
  (forall s x y, Rel x y -> f s x = g s y) ->
  Forall2 Rel l l' -> foldl f s l = foldl g s l'.
Proof.
  intros Hfg Hl. revert s. induction Hl as [|x y l l' Hxy _ IH]; intros s; [reflexivity|].
  cbn [foldl]. rewrite (Hfg s x y Hxy). apply IH.
Qed.

Lemma IRData_square_sums_same (ta tb : list (string * Token)) :
  Forall2 same_token ta tb -> IRData_square_sums ta = IRData_square_sums tb.
Proof.
  intros Hrel. unfold IRData_square_sums.
  apply (for_fold_Forall2 _ _ same_token); [|exact Hrel].
  intros s a b (_ & Hidf & _ & la & lb & Hla & Hlb & Hposts). rewrite Hla, Hlb.
  cbn [not_none mbind result_bind]. f_equal.
  apply (foldl_Forall2 _ _ same_posting); [|exact Hposts].
  intros s' x y (Hk & Htf & _). rewrite Hk, Htf, Hidf. reflexivity.
Qed.

Lemma champions_same (dl : dict R) (a b : string * Token) (r : Z)
    (c : list (string * DocumentTokenData)) :
  same_token a b -> champions dl a.2 r = Ok c ->
  exists c', champions dl b.2 r = Ok c' /\ Forall2 same_posting c c'.
Proof.
  intros (_ & Hidf & _ & la & lb & Hla & Hlb & Hposts). unfold champions.
  rewrite Hla, Hlb. cbn [not_none mbind result_bind]. intros Hc.
  apply bind_Ok in Hc as (keyed & Hkeyed & [= <-]).
  assert (Hkeyed' : exists keyed',
    for_each (fun td => len ← dict_item dl td.1;
                        k ← py_div (idf b.2 * tf td.2) len; Ok (k, td)) lb = Ok keyed'
    /\ Forall2 (fun x y => x.1 = y.1 /\ same_posting x.2 y.2) keyed keyed').
  { clear -Hidf Hposts Hkeyed. revert keyed Hkeyed.
    induction Hposts as [|x y la lb Hxy _ IH]; intros keyed Hkeyed.
    - injection Hkeyed as <-. exists []. split; [reflexivity|constructor].
    - cbn [for_each] in *. apply bind_Ok in Hkeyed as (kx & Hkx & Hkeyed).
      apply bind_Ok in Hkeyed as (rest & Hrest & [= <-]).
      destruct (IH _ Hrest) as (rest' & -> & Hrel).
      pose proof Hxy as (Hk & Htf & _). rewrite <- Hk, <- Htf, <- Hidf.
      apply bind_Ok in Hkx as (len & Hlen & Hkx). rewrite Hlen.
      apply bind_Ok in Hkx as (k & Hk' & [= <-]). cbn [mbind result_bind].
      rewrite Hk'. cbn [mbind result_bind]. eexists. split; [reflexivity|].
      constructor; [|exact Hrel]. split; [reflexivity|exact Hxy]. }
  destruct Hkeyed' as (keyed' & -> & Hrel). cbn [mbind result_bind].
  eexists. split; [reflexivity|].
  apply (sorted_Forall2 str_ltb fst fst same_posting); [intros ? ? [? _]; assumption|].
  assert (Hsorted : Forall2 same_posting (sorted Rltb fst true keyed).*2
                      (sorted Rltb fst true keyed').*2).
  { apply Forall2_fmap.
    eapply Forall2_impl;
      [apply (sorted_Forall2 Rltb fst fst
                (fun x y => x.1 = y.1 /\ same_posting x.2 y.2));
       [intros ? ? [? _]; assumption|exact Hrel]|].
    cbv beta. intros ? ? [_ ?]. assumption. }
  unfold py_slice_to. rewrite (Forall2_length _ _ _ Hsorted).
  destruct (r <? 0); apply Forall2_take, Hsorted.
Qed.

Lemma cache_name_ne (file : string) : cache_name file <> file.
Proof.
  unfold cache_name. induction file as [|c file IH]; [discriminate|].
  cbn [String.append]. intros [= Heq]. exact (IH Heq).
Qed.

Lemma load_documents_json_dump (fs : file_system) (file : string) (j : json) :
  load_documents (json_dump fs (cache_name file) j) file = load_documents fs file.
Proof.
  unfold load_documents, json_load, json_dump.
  rewrite dict_get_set_ne by apply cache_name_ne. reflexivity.
Qed.

Lemma Forall2_Forall_both {A B} (P : A -> B -> Prop) (Q : A -> Prop) (T : B -> Prop)
    (l : list A) (k : list B) :
  Forall2 P l k -> Forall Q l -> Forall T k ->
  Forall2 (fun x y => P x y /\ Q x /\ T y) l k.
Proof.
  induction 1 as [|x y l k HP _ IH]; intros Hl Hk; [constructor|].
  apply Forall_cons in Hl as [HQ Hl]. apply Forall_cons in Hk as [HT Hk].
  constructor; auto.
Qed.

Section FromCache.
Context `{Externals}.

Lemma for_each_champions_same (dl : dict R) (r : Z) (ta tb tc : list (string * Token)) :
  Forall2 same_token ta tb ->
  for_each
    (fun st =>
       c ← champions dl st.2 r;
       Ok (st.1,
           {| idf := idf st.2; linear_df := linear_df st.2;
              __list__ := __list__ st.2; list_ := list_ st.2;
              champions_list := Some c |}))
    ta = Ok tc ->
  exists tc',
    for_each
      (fun st =>
         c ← champions dl st.2 r;
         Ok (st.1,
             {| idf := idf st.2; linear_df := linear_df st.2;
                __list__ := __list__ st.2; list_ := list_ st.2;
                champions_list := Some c |}))
      tb = Ok tc'
    /\ Forall2 (fun x y => y.1 = x.1 /\ token_alike x.2 y.2) tc tc'.
Proof.
  intros Hrel. revert tc. induction Hrel as [|a b ta tb Hab _ IH]; intros tc Htc.
  - injection Htc as <-. exists []. split; [reflexivity|constructor].
  - cbn [for_each] in *. apply bind_Ok in Htc as (x & Hx & Htc).
    apply bind_Ok in Htc as (rest & Hrest & [= <-]).
    apply bind_Ok in Hx as (c & Hc & [= <-]).
    destruct (IH _ Hrest) as (rest' & -> & Hrel').
    destruct (champions_same dl a b r c Hab Hc) as (c' & -> & Hcc).
    cbn [mbind result_bind]. eexists. split; [reflexivity|].
    constructor; [|exact Hrel']. destruct Hab as (Hk & Hidf & _). cbn [fst snd].
    split; [symmetry; exact Hk|]. split; [exact Hidf|]. exists c, c'.
    split; [reflexivity|]. split; [reflexivity|].
    eapply Forall2_impl; [exact Hcc|]. cbv beta. intros x y (Hxy & Htf & _ & Hpos).
    repeat split; auto.
Qed.

(** X16. When [create] has built a collection from the source and
    written its cache, a second [create] that finds the cache ends normally,
    leaves the files as they are, and makes a collection with the same stored
    documents and document lengths, which answers every search exactly as the
    first one: for an index with a term, and without champions lists or with
    champions lists of a size of at least 1. *)
Theorem create_from_cache (fs fs' : file_system) (file : string) (r : option Z)
    (ir : IRData) :
  dict_get fs (cache_name file) = None ->
  (r = None \/ exists n, r = Some n /\ 1 <= n) ->
  create fs file true r = Ok (ir, fs') ->
  tokens (pii ir) <> Some [] ->
  exists ir',
    create fs' file true r = Ok (ir', fs')
    /\ docs ir' = docs ir /\ doc_lengths ir' = doc_lengths ir
    /\ forall query k date_score_ phrase_query_score,
         search ir' query k date_score_ phrase_query_score cosine_score
         = search ir query k date_score_ phrase_query_score cosine_score.
Proof.
  intros Habsent Hr Hc Hne. unfold create in Hc.
  apply bind_Ok in Hc as (ds & Hds & Hc).
  assert (Hread : read_from_cache fs file = Ok None).
  { unfold read_from_cache, json_load. rewrite Habsent. reflexivity. }
  rewrite Hread in Hc. cbn [mbind result_bind] in Hc.
  apply bind_Ok in Hc as (p & Hp & Hc). apply bind_Ok in Hc as (fs1 & Hw & Hc).
  apply bind_Ok in Hc as (ir0 & Hi & Hc). apply bind_Ok in Hc as (ir1 & Hg & [= -> ->]).
  (* the cache and what it reads back as *)
  pose proof (create_pii_well_formed _ _ Hp) as Hwf.
  destruct (cache_index_cache_json p (create_pii_frozen _ _ Hp))
    as (j & p' & Hj & Hp' & Hsame).
  unfold write_cache in Hw. rewrite Hj in Hw. injection Hw as <-.
  assert (Hread' : read_from_cache (json_dump fs (cache_name file) j) file
                   = Ok (Some p')).
  { unfold read_from_cache. rewrite json_load_dump, Hp'. reflexivity. }
  pose proof (cache_index_no_champions _ _ Hp') as Hnc.
  (* the first collection *)
  pose proof Hi as Hi0.
  apply IRData_init_Ok in Hi0 as (dm & mx & mn & ta & sums & Hdm & Hta & Hsums & Hir0).
  destruct Hsame as (ta0 & tb & Hta0 & Htb & Hrel).
  rewrite Hta in Hta0. injection Hta0 as <-.
  assert (Hpne : tokens p <> Some []).
  { intros Hnil. apply Hne. rewrite Hta in Hnil. injection Hnil as ->.
    destruct Hr as [->|(n & -> & _)].
    - injection Hg as <-. rewrite Hir0. exact Hta.
    - destruct (generate_champions_list_Ok _ _ _ n Hi) as (t1 & t2 & Ht1 & Hg' & Hall).
      rewrite Hta in Ht1. injection Ht1 as <-. rewrite Hg' in Hg. injection Hg as <-.
      apply Forall2_nil_inv_l in Hall. rewrite Hall. reflexivity. }
  pose proof (create_pii_servable ds p ir0 ir r Hp Hi Hg Hr Hpne) as Hserv.
  apply servable_searchable in Hserv as [Hsearchable _].
  (* the second collection *)
  assert (Hi' : IRData_init p' ds
                = Ok {| pii := p'; docs := dm; max_doc_date := mx; min_doc_date := mn;
                        doc_lengths := (fun kv => (kv.1, Rmax 1 (sqrt kv.2))) <$> sums |}).
  { unfold IRData_init. rewrite Hdm. cbn [mbind result_bind]. rewrite Htb.
    cbn [not_none mbind result_bind].
    rewrite <- (IRData_square_sums_same ta tb Hrel), Hsums. reflexivity. }
  unfold create. rewrite load_documents_json_dump, Hds. cbn [mbind result_bind].
  rewrite Hread'. cbn [mbind result_bind]. rewrite Hi'. cbn [mbind result_bind].
  destruct Hwf as (ta0 & Hta0 & _ & Hwf). rewrite Hta in Hta0. injection Hta0 as <-.
  specialize (Hnc tb Htb).
  destruct Hr as [->|(n & -> & Hn)].
  - injection Hg as <-. cbn [generate_champions_list mbind result_bind].
    eexists. split; [reflexivity|]. rewrite Hir0. cbn [docs doc_lengths].
    split; [reflexivity|]. split; [reflexivity|].
    intros query k date_score_ phrase_query_score.
    apply search_alike; try reflexivity; [rewrite Hir0 in Hsearchable; exact Hsearchable|].
    cbn [pii]. exists ta, tb. split; [exact Hta|]. split; [exact Htb|].
    eapply Forall2_impl; [exact (Forall2_Forall_both _ _ _ _ _ Hrel Hwf Hnc)|].
    cbv beta.
    intros a b ((Hk & Hidf & _ & la & lb & Hla & Hlb & Hposts)
                & (l & _ & _ & _ & Hnone) & Hnone').
    split; [symmetry; exact Hk|]. split; [exact Hidf|]. exists la, lb.
    unfold Token_get_search_scope_list. rewrite Hnone, Hnone'.
    split; [exact Hla|]. split; [exact Hlb|].
    eapply Forall2_impl; [exact Hposts|]. cbv beta. intros x y (Hxy & Htf & _ & Hpos).
    repeat split; auto.
  - unfold generate_champions_list in Hg |- *. rewrite Hir0 in Hg.
    cbn [pii doc_lengths docs max_doc_date min_doc_date] in Hg |- *.
    unfold PII_iter in Hg |- *. rewrite Hta in Hg. rewrite Htb.
    cbn [not_none mbind result_bind] in Hg |- *.
    apply bind_Ok in Hg as (tc & Htc & [= <-]).
    destruct (for_each_champions_same _ n ta tb tc Hrel Htc) as (tc' & -> & Halike).
    cbn [mbind result_bind]. eexists. split; [reflexivity|]. cbn [docs doc_lengths].
    split; [reflexivity|]. split; [reflexivity|].
    intros query k date_score_ phrase_query_score.
    apply search_alike; try reflexivity; [exact Hsearchable|].
    cbn [pii]. exists tc, tc'. auto.
Qed.


End FromCache.

(** [create] for the file of [sample_docs], without a cache file. *)
Lemma sample_create :
  exists ir fs',
    create (H := simple_externals) [("news.json", JsonText sample_source)]
      "news.json" true None = Ok (ir, fs')
    /\ tokens (pii ir) <> Some [].
Proof.
  destruct sample_search
    as (p & ir0 & qp & d1 & d2 & s & c1 & c2 & Hp & Hi & _ & Hc & _).
  destruct (cache_index_cache_json p (create_pii_frozen (H := simple_externals) _ _ Hp))
    as (j & _ & Hj & _).
  exists ir0. eexists. unfold create.
  change (load_documents [("news.json", JsonText sample_source)] "news.json")
    with (Ok sample_docs : result (list Document)).
  cbn [mbind result_bind].
  change (read_from_cache [("news.json", JsonText sample_source)] "news.json")
    with (Ok None : result (option PositionalInvertedIndexOnMemory)).
  cbn [mbind result_bind]. rewrite Hp. cbn [mbind result_bind].
  unfold write_cache. rewrite Hj. cbn [mbind result_bind]. rewrite Hi.
  cbn [mbind result_bind generate_champions_list]. split; [reflexivity|].
  intros Htoks. destruct (cosine_score_empty_index _ _ _ Htoks Hc) as [_ [=]].
Qed.

Lemma create_from_cache_witness :
  exists ir fs' ir',
    create (H := simple_externals) [("news.json", JsonText sample_source)]
      "news.json" true None = Ok (ir, fs')
    /\ create (H := simple_externals) fs' "news.json" true None = Ok (ir', fs')
    /\ search ir' "a" 2 true true cosine_score = search ir "a" 2 true true cosine_score.
Proof.
  destruct sample_create as (ir & fs' & Hc & Hne).
  destruct (create_from_cache (H := simple_externals)
              [("news.json", JsonText sample_source)] fs' "news.json" None ir
              eq_refl (or_introl eq_refl) Hc Hne) as (ir' & Hc' & _ & _ & Hs).
  exists ir, fs', ir'. auto.
Defined.

(** ** create and the files *)

Section CreateFiles.
Context `{Externals}.

(** X17. [create] writes at most one file: it leaves every file other
    than the cache as it is, and all files as they are when it runs without
    the cache or finds the cache file. When it runs with the cache and the
    cache file is absent, it writes there the JSON that [write_cache] makes
    of the index that [create_pii] built from the documents of the source,
    and [read_from_cache] then reads the file back as an index with the same
    terms and postings. *)
Theorem create_files (fs fs' : file_system) (file : string) (cache : bool)
    (r : option Z) (ir : IRData) :
  create fs file cache r = Ok (ir, fs') ->
  (forall name, name <> cache_name file -> dict_get fs' name = dict_get fs name)
  /\ (cache = false \/ is_Some (dict_get fs (cache_name file)) -> fs' = fs)
  /\ (cache = true -> dict_get fs (cache_name file) = None ->
      exists ds p j p',
        load_documents fs file = Ok ds /\ create_pii ds = Ok p
        /\ cache_json p = Ok j
        /\ dict_get fs' (cache_name file) = Some (JsonText j)
        /\ read_from_cache fs' file = Ok (Some p')
        /\ same_index p p').
Proof.
  unfold create. intros Hc. apply bind_Ok in Hc as (ds & Hds & Hc).
  apply bind_Ok in Hc as (cache_pii & Hread & Hc).
  destruct cache_pii as [cache_pii|].
  - (* the cache was read *)
    apply bind_Ok in Hc as (ir0 & _ & Hc). apply bind_Ok in Hc as (ir1 & _ & [= _ <-]).
    split; [reflexivity|]. split; [reflexivity|].
    intros -> Habsent. unfold read_from_cache, json_load in Hread.
    rewrite Habsent in Hread. discriminate.
  - apply bind_Ok in Hc as (p & Hp & Hc). apply bind_Ok in Hc as (fs1 & Hw & Hc).
    apply bind_Ok in Hc as (ir0 & _ & Hc). apply bind_Ok in Hc as (ir1 & _ & [= _ <-]).
    destruct cache.
    + unfold write_cache in Hw. apply bind_Ok in Hw as (j & Hj & [= <-]).
      unfold json_dump. split; [|split].
      * intros name Hname. apply dict_get_set_ne. congruence.
      * intros [[=]|[c Hsome]]. exfalso.
        unfold read_from_cache, json_load in Hread. rewrite Hsome in Hread.
        destruct c as [text|j0]; [discriminate|].
        destruct (cache_index j0); discriminate.
      * intros _ _.
        destruct (cache_index_cache_json p (create_pii_frozen _ _ Hp))
          as (j' & p' & Hj' & Hp' & Hsame).
        rewrite Hj in Hj'. injection Hj' as <-.
        exists ds, p, j, p'. split; [exact Hds|]. split; [exact Hp|].
        split; [exact Hj|]. split; [apply dict_get_set_eq|]. split; [|exact Hsame].
        unfold read_from_cache, json_load. rewrite dict_get_set_eq, Hp'. reflexivity.
    + injection Hw as <-. split; [reflexivity|]. split; [reflexivity|]. discriminate.
Qed.

End CreateFiles.

Lemma create_files_witness :
  exists ir fs' j p',
    create (H := simple_externals) [("news.json", JsonText sample_source)]
      "news.json" true None = Ok (ir, fs')
    /\ dict_get fs' "news.json" = Some (JsonText sample_source)
    /\ dict_get fs' "news.json.cache" = Some (JsonText j)
    /\ read_from_cache fs' "news.json" = Ok (Some p').
Proof.
  destruct sample_create as (ir & fs' & Hc & _).
  destruct (create_files (H := simple_externals) _ _ _ _ _ _ Hc) as (Hother & _ & Hcache).
  destruct (Hcache eq_refl eq_refl) as (ds & p & j & p' & _ & _ & _ & Hj & Hread & _).
  exists ir, fs', j, p'. split; [exact Hc|]. split; [|auto].
  rewrite (Hother "news.json"); [reflexivity|discriminate].
Defined.

(** ** Scores are never negative *)

(** The entries of the index that [__finalize__] leaves are the postings of
    the calls. *)
Lemma finalize_entries (occ : list (string * string * Z * R))
    (p0 p : PositionalInvertedIndexOnMemory) (n : Z) (toks : list (string * Token)) :
  building p0 -> recorded occ p0 -> PII_finalize p0 n = Ok p ->
  tokens p = Some toks ->
  forall st l td,
    st ∈ toks -> list_ st.2 = Some l -> td ∈ l ->
    PII_getitem p st.1 = Ok st.2
    /\ occurrences_of occ st.1 td.1 <> []
    /\ td.2 = finalized_posting_of (occurrences_of occ st.1 td.1).
Proof.
  intros Hb Hr Hfin Htoks [t tok] l [doc dd] Hst Hl Htd. cbn [fst snd] in *.
  pose proof (PII_finalize_well_formed _ _ _ Hb Hfin) as (toks0 & Htoks0 & Hsorted & Hwf).
  rewrite Htoks in Htoks0. injection Htoks0 as <-.
  rewrite Forall_forall in Hwf. destruct (Hwf _ Hst) as (l0 & Hl0 & Hls & _ & Hnone).
  cbn [snd] in *. rewrite Hl in Hl0. injection Hl0 as <-.
  assert (Hitem : PII_getitem p t = Ok tok).
  { unfold PII_getitem. rewrite Htoks. cbn [not_none mbind result_bind].
    rewrite binary_search_tuple_sorted;
      [|exact Hsorted|intros ->; apply elem_of_nil in Hst as []].
    unfold dict_item.
    rewrite (dict_get_elem_NoDup _ _ _ (keys_sorted_NoDup _ Hsorted) Hst). reflexivity. }
  split; [exact Hitem|].
  pose proof (finalize_posting_of occ p0 p n t doc Hb Hr Hfin) as Hpost.
  unfold posting_of in Hpost. rewrite Hitem in Hpost. cbn [mbind result_bind] in Hpost.
  unfold Token_getitem, Token_get_search_scope_list in Hpost. rewrite Hnone, Hl in Hpost.
  cbn [not_none mbind result_bind] in Hpost.
  rewrite binary_search_tuple_sorted in Hpost;
    [|exact Hls|intros ->; apply elem_of_nil in Htd as []].
  unfold dict_item in Hpost.
  rewrite (dict_get_elem_NoDup _ _ _ (keys_sorted_NoDup _ Hls) Htd) in Hpost.
  cbn [not_none] in Hpost.
  destruct (occurrences_of occ t doc) as [|o os]; [discriminate|].
  injection Hpost as ->. split; [discriminate|reflexivity].
Qed.

Lemma foldl_Rmult_ge_1 (a : R) (ws : list R) :
  (1 <= a)%R -> Forall (fun w => (1 <= w)%R) ws -> (1 <= foldl Rmult a ws)%R.
Proof.
  intros Ha Hws. revert a Ha. induction Hws as [|w ws Hw _ IH]; intros a Ha; [exact Ha|].
  cbn [foldl]. apply IH. nra.
Qed.

Lemma tf_value_ge_1 (n : Z) (w : R) :
  1 <= n -> (1 <= w)%R -> (1 <= tf_value n w)%R.
Proof.
  intros Hn Hw. unfold tf_value. destruct (Z.eqb_spec n 0) as [->|_]; [lia|].
  assert (Hlog : (0 <= log2_value (IZR n))%R).
  { rewrite <- log2_value_1. apply log2_value_le; [lra|]. apply IZR_le. exact Hn. }
  nra.
Qed.

Lemma idf_value_nonneg (df n : Z) : 1 <= df <= n -> (0 <= idf_value df n)%R.
Proof.
  intros Hdf. unfold idf_value. destruct (Z.eqb_spec df 0) as [->|_]; [lia|].
  rewrite <- log2_value_1. apply log2_value_le; [lra|].
  assert (Hpos : (0 < IZR df)%R) by (apply IZR_lt; lia).
  replace 1%R with (IZR df / IZR df)%R by (field; lra).
  apply Rmult_le_compat_r; [apply Rlt_le, Rinv_0_lt_compat; exact Hpos|].
  apply IZR_le. lia.
Qed.

Section Weights.
Context `{Externals}.

Lemma collection_occurrences_elem_of (ds : list Document) (o : string * string * Z * R) :
  o ∈ collection_occurrences ds ->
  o.1.1.2 ∈ doc_id <$> ds /\ (1 <= o.2)%R.
Proof.
  unfold collection_occurrences. intros Ho. apply list_elem_of_join in Ho as (os & Ho & Hos).
  apply list_elem_of_fmap in Hos as (d & -> & Hd).
  assert (Hid : doc_id d ∈ doc_id <$> ds) by (apply list_elem_of_fmap; eauto).
  unfold document_occurrences in Ho. apply elem_of_app in Ho as [Ho|Ho].
  - apply list_elem_of_fmap in Ho as ([t w] & -> & Hw). cbn [fst snd].
    split; [exact Hid|]. unfold get_weighted_tokens in Hw.
    apply elem_of_app in Hw as [Hw|Hw].
    + apply list_elem_of_fmap in Hw as (x & [= _ ->] & _).
      unfold TITLE_TOKEN_WEIGHT. lra.
    + destruct (tags d) as [ts|]; [|apply elem_of_nil in Hw as []].
      apply list_elem_of_join in Hw as (ws & Hw & Hws).
      apply list_elem_of_fmap in Hws as (tag & -> & _).
      apply list_elem_of_fmap in Hw as (x & [= _ ->] & _).
      unfold TAG_TOKEN_WEIGHT. lra.
  - apply list_elem_of_lookup in Ho as (i & Hi). rewrite list_lookup_imap in Hi.
    destruct (get_tokens d !! i); [|discriminate]. injection Hi as <-. cbn [fst snd].
    split; [exact Hid|lra].
Qed.

(** In the index of [create_pii] no idf is negative and every tf is at
    least 1. *)
Lemma create_pii_weights (ds : list Document) (p : PositionalInvertedIndexOnMemory)
    (toks : list (string * Token)) :
  create_pii ds = Ok p -> tokens p = Some toks ->
  Forall (fun st =>
            (0 <= idf st.2)%R
            /\ forall l, list_ st.2 = Some l -> Forall (fun td => (1 <= tf td.2)%R) l)
    toks.
Proof.
  intros Hp Htoks. rewrite create_pii_build in Hp.
  assert (Hocc : forall o, o ∈ collection_occurrences ds ->
                   o.1.1.2 ∈ doc_id <$> ds /\ (1 <= o.2)%R)
    by apply collection_occurrences_elem_of.
  revert Hp Hocc. generalize (collection_occurrences ds). intros occ Hp Hocc.
  destruct (build_recorded occ) as (p0 & Hp0 & Hb & Hr).
  rewrite Hp0 in Hp. cbn [mbind result_bind] in Hp.
  pose proof (PII_finalize_finalized _ _ _ Hb Hp) as (toks0 & Htoks0 & _ & Hfin).
  rewrite Htoks in Htoks0. injection Htoks0 as <-.
  pose proof (PII_finalize_well_formed _ _ _ Hb Hp) as (toks0 & Htoks0 & _ & Hwf).
  rewrite Htoks in Htoks0. injection Htoks0 as <-.
  rewrite Forall_forall in *. intros st Hst.
  destruct (Hfin _ Hst) as (Hidf & _). destruct (Hwf _ Hst) as (l & Hl & _ & Hlne & _).
  assert (Hentries := finalize_entries _ _ _ _ toks Hb Hr Hp Htoks st l).
  split.
  - rewrite Hidf. apply idf_value_nonneg.
    destruct l as [|td l]; [congruence|].
    destruct (Hentries td Hst Hl ltac:(left)) as (Hitem & _).
    pose proof (finalize_linear_df _ _ _ _ st.1 Hb Hr Hp) as Hdf.
    rewrite Hitem in Hdf. cbn [fmap result_fmap] in Hdf.
    assert (Hsub : forall id, id ∈ occurrence_documents occ st.1 -> id ∈ doc_id <$> ds).
    { intros id Hid. unfold occurrence_documents in Hid.
      apply elem_of_remove_dups, list_elem_of_fmap in Hid as (o' & -> & Ho').
      apply list_elem_of_filter in Ho' as [_ Ho']. apply Hocc in Ho' as [? _].
      assumption. }
    assert (Hnd : NoDup (occurrence_documents occ st.1)) by apply NoDup_remove_dups.
    destruct occ as [|o occ]; [discriminate|].
    destruct (occurrence_documents (o :: occ) st.1) as [|doc docs]; [discriminate|].
    injection Hdf as ->. split; [cbn [length]; lia|].
    apply inj_le. rewrite <- (length_fmap doc_id ds).
    apply (submseteq_length (doc :: docs)), NoDup_submseteq; assumption.
  - intros l0 Hl0. rewrite Hl in Hl0. injection Hl0 as <-.
    rewrite Forall_forall. intros td Htd.
    destruct (Hentries td Hst Hl Htd) as (_ & Hne & ->).
    cbn [finalized_posting_of tf].
    apply tf_value_ge_1.
    + destruct (occurrences_of _ st.1 td.1); [congruence|cbn [length]; lia].
    + apply foldl_Rmult_ge_1; [lra|]. rewrite Forall_fmap, Forall_forall.
      intros o Ho. apply list_elem_of_filter in Ho as [_ Ho].
      apply Hocc in Ho as [_ ?]. assumption.
Qed.

End Weights.

Lemma binary_search_tuple_Ok_elem {V} (a : list (string * V)) (x : string) (v : V) :
  binary_search_tuple a x = Ok v -> (x, v) ∈ a.
Proof.
  intros Hv. destruct a as [|kv a]; [discriminate|].
  destruct (binary_search_tuple_nonempty (kv :: a) x) as [(v' & Hv' & Hin)|Hk];
    [discriminate| |congruence].
  rewrite Hv in Hv'. injection Hv' as <-. exact Hin.
Qed.

Lemma dict_add_nonneg (d : dict R) (k : string) (v : R) :
  Forall (fun kv => (0 <= kv.2)%R) d -> (0 <= v)%R ->
  Forall (fun kv => (0 <= kv.2)%R) (dict_add d k v).
Proof.
  intros Hd Hv. unfold dict_add. destruct (dict_get d k) as [old|] eqn:Hget.
  - apply dict_set_Forall; [exact Hd|]. cbn [snd].
    apply dict_get_Some_elem in Hget. rewrite Forall_forall in Hd.
    specialize (Hd _ Hget). cbn [snd] in Hd. lra.
  - apply dict_set_Forall; [exact Hd|exact Hv].
Qed.

Lemma cosine_postings_nonneg (elimination : option R) (i wtq : R)
    (postings : list (string * DocumentTokenData)) (acc : dict R) :
  (0 <= i)%R -> (0 <= wtq)%R -> Forall (fun td => (0 <= tf td.2)%R) postings ->
  Forall (fun kv => (0 <= kv.2)%R) acc ->
  Forall (fun kv => (0 <= kv.2)%R) (cosine_postings elimination i wtq postings acc).
Proof.
  intros Hi Hw Hposts. revert acc.
  induction Hposts as [|[d dd] postings Hdd _ IH]; intros acc Hacc; [exact Hacc|].
  cbn [cosine_postings]. cbn [snd] in Hdd.
  assert (Hadd : Forall (fun kv => (0 <= kv.2)%R)
                   (dict_add acc d (tf dd * i * wtq))).
  { apply dict_add_nonneg; [exact Hacc|]. apply Rmult_le_pos; [|exact Hw].
    apply Rmult_le_pos; assumption. }
  destruct elimination as [threshold|]; [|apply IH, Hadd].
  destruct (Rltb _ threshold); [exact Hadd|apply IH, Hadd].
Qed.

(** The raw scores are not negative when the idf and the visible tf of the
    index and the tf of the query index are not. *)
Lemma cosine_score_nonneg (p query_pii : PositionalInvertedIndexOnMemory)
    (toks : list (string * Token)) (doc_scores : dict R) :
  tokens p = Some toks ->
  Forall (fun st =>
            (0 <= idf st.2)%R
            /\ forall c, Token_get_search_scope_list st.2 = Some c ->
                 Forall (fun td => (0 <= tf td.2)%R) c) toks ->
  (forall qtoks, tokens query_pii = Some qtoks ->
     Forall (fun qt => forall l, list_ qt.2 = Some l ->
                         Forall (fun td => (0 <= tf td.2)%R) l) qtoks) ->
  cosine_score p query_pii = Ok doc_scores ->
  Forall (fun kv => (0 <= kv.2)%R) doc_scores.
Proof.
  intros Htoks Hall Hq. unfold cosine_score, PII_iter. intros Hc.
  apply bind_Ok in Hc as (qtoks & Hqtoks & Hc). apply not_none_Ok in Hqtoks.
  specialize (Hq qtoks Hqtoks). rewrite Forall_forall in Hq, Hall.
  eapply (for_fold_invariant (fun acc : dict R => Forall (fun kv => (0 <= kv.2)%R) acc));
    [constructor| |exact Hc].
  intros acc qt acc' Hqt Hacc Hstep. cbv beta zeta in Hstep.
  apply bind_Ok in Hstep as (ql & Hql & Hstep). apply not_none_Ok in Hql.
  apply bind_Ok in Hstep as (first & Hfirst & Hstep).
  assert (Hw : (0 <= tf first.2)%R).
  { specialize (Hq _ Hqt ql Hql). rewrite Forall_forall in Hq. apply Hq.
    unfold py_index in Hfirst. destruct (_ || _); [discriminate|].
    apply not_none_Ok in Hfirst. eapply list_elem_of_lookup_2, Hfirst. }
  destruct (PII_getitem p qt.1) as [tok|e] eqn:Hget.
  - apply bind_Ok in Hstep as (c & Hc' & [= <-]).
    unfold PII_getitem in Hget. rewrite Htoks in Hget.
    cbn [not_none mbind result_bind] in Hget.
    apply binary_search_tuple_Ok_elem in Hget. destruct (Hall _ Hget) as [Hidf Htf].
    unfold Token_iter in Hc'. apply not_none_Ok in Hc'.
    apply cosine_postings_nonneg; auto.
  - destruct e; try discriminate. injection Hstep as <-. exact Hacc.
Qed.

Lemma phrase_query_nonneg (p query_pii : PositionalInvertedIndexOnMemory)
    (doc_ids : list string) (phrase_scores : dict R) :
  phrase_query p query_pii doc_ids = Ok phrase_scores ->
  Forall (fun kv => (0 <= kv.2)%R) phrase_scores.
Proof.
  unfold phrase_query. intros Hq. apply bind_Ok in Hq as (qtoks & _ & Hq).
  eapply (for_fold_invariant (fun acc : dict R => Forall (fun kv => (0 <= kv.2)%R) acc));
    [constructor| |exact Hq].
  intros acc doc acc' _ Hacc Hstep. cbv beta in Hstep.
  apply bind_Ok in Hstep as (s & Hs & [= <-]). destruct s as [v|]; [|exact Hacc].
  apply dict_set_Forall; [exact Hacc|]. cbn [snd].
  unfold phrase_query_doc in Hs. cbv zeta in Hs.
  apply bind_Ok in Hs as ([[ps|] tp] & _ & Hs); [|discriminate].
  destruct (bool_decide (length qtoks ≤ tp + 1)%nat) eqn:Hlen; [discriminate|].
  apply bool_decide_eq_false in Hlen.
  apply bind_Ok in Hs as (mc & _ & Hs).
  destruct (Z.ltb_spec 1 mc) as [Hmc|]; [|discriminate]. injection Hs as <-.
  unfold PHRASE_QUERY_WEIGHT.
  assert (0 < INR (length qtoks))%R by (apply lt_0_INR; lia).
  assert (0 < IZR mc)%R by (apply IZR_lt; lia).
  assert (0 < IZR mc / INR (length qtoks))%R by (apply Rdiv_lt_0_compat; assumption).
  lra.
Qed.

Section NonNegative.
Context `{Externals}.

(** X18. In a collection whose index [create_pii] built from its
    documents, with champions lists of any size or without, every score that
    [search] returns is 0 or more: no idf of such an index is negative and no
    tf is below 1. *)
Theorem search_scores_nonneg (ds : list Document) (p : PositionalInvertedIndexOnMemory)
    (ir0 ir : IRData) (r : option Z) (query : string) (k : Z)
    (date_score_ phrase_query_score : bool) (res : list (Document * R)) :
  create_pii ds = Ok p -> IRData_init p ds = Ok ir0 ->
  generate_champions_list ir0 r = Ok ir ->
  search ir query k date_score_ phrase_query_score cosine_score = Ok res ->
  Forall (fun ds' => (0 <= ds'.2)%R) res.
Proof.
  intros Hp Hi Hg Hs.
  destruct (create_pii_well_formed _ _ Hp) as (toks & Htoks & _ & Hwf).
  pose proof (create_pii_weights _ _ _ Hp Htoks) as Hweights.
  (* the visible postings of the collection *)
  assert (Hvisible : exists toks',
    tokens (pii ir) = Some toks'
    /\ Forall (fun st =>
                 (0 <= idf st.2)%R
                 /\ forall c, Token_get_search_scope_list st.2 = Some c ->
                      Forall (fun td => (0 <= tf td.2)%R) c) toks').
  { assert (Hpii : pii ir0 = p).
    { apply IRData_init_Ok in Hi as (? & ? & ? & ? & ? & _ & _ & _ & ->). reflexivity. }
    destruct r as [n|].
    - destruct (generate_champions_list_Ok _ _ _ n Hi) as (t1 & toks' & Ht1 & Hg' & Hrel).
      rewrite Htoks in Ht1. injection Ht1 as <-. rewrite Hg' in Hg. injection Hg as <-.
      exists toks'. split; [reflexivity|]. rewrite Forall_forall in *.
      intros st' Hst'.
      destruct (Forall2_elem_of_r _ _ _ _ Hrel Hst')
        as (st & Hst & _ & Hidf & _ & _ & l & ranked & Hl & Hperm & _ & Hch).
      destruct (Hweights _ Hst) as [Hidf0 Htf]. split; [rewrite Hidf; exact Hidf0|].
      intros c Hc. unfold Token_get_search_scope_list in Hc. rewrite Hch in Hc.
      injection Hc as <-. specialize (Htf l Hl). rewrite Forall_forall in *.
      intros td Htd. apply sorted_elem_of in Htd.
      assert (Hin : td ∈ ranked).
      { unfold py_slice_to in Htd.
        destruct (n <? 0); apply elem_of_take in Htd as (i & Htd & _);
          eapply list_elem_of_lookup_2, Htd. }
      rewrite Hperm in Hin. specialize (Htf _ Hin). lra.
    - injection Hg as <-. rewrite Hpii. exists toks. split; [exact Htoks|].
      rewrite Forall_forall in *. intros st Hst.
      destruct (Hweights _ Hst) as [Hidf0 Htf]. split; [exact Hidf0|].
      destruct (Hwf _ Hst) as (l & Hl & _ & _ & Hnone).
      intros c Hc. unfold Token_get_search_scope_list in Hc. rewrite Hnone, Hl in Hc.
      injection Hc as <-. specialize (Htf l Hl). rewrite Forall_forall in *.
      intros td Htd. specialize (Htf _ Htd). lra. }
  destruct Hvisible as (toks' & Htoks' & Hvisible).
  apply generate_champions_list_fields in Hg as (_ & Hlens & _).
  apply search_Ok in Hs
    as (qp & dsc & ps & finals & ranked & Hqp & Hdsc & Hps & Hfinals & Hperm & _ & ->).
  (* the raw scores *)
  assert (Hraw : Forall (fun kv => (0 <= kv.2)%R) dsc).
  { eapply cosine_score_nonneg; [exact Htoks'|exact Hvisible| |exact Hdsc].
    intros qtoks Hqtoks. pose proof (create_pii_weights _ _ _ Hqp Hqtoks) as Hqw.
    eapply Forall_impl; [exact Hqw|]. cbv beta. intros qt [_ Htf] l Hl.
    eapply Forall_impl; [exact (Htf l Hl)|]. cbv beta. intros td ?. lra. }
  (* the multipliers *)
  assert (Hmult : forall id, (0 <= phrase_multiplier ps id)%R).
  { intros id. unfold phrase_multiplier. destruct ps as [m|]; [|lra].
    destruct phrase_query_score; [|discriminate].
    apply fmap_Ok in Hps as (m' & Hm' & Heq). injection Heq as ->.
    apply phrase_query_nonneg in Hm'. rewrite Forall_forall in Hm'.
    destruct (dict_get m' id) as [v|] eqn:Hv; cbn [default from_option];
      unfold Datatypes.id; [|lra].
    apply dict_get_Some_elem in Hv. apply (Hm' _ Hv). }
  rewrite Forall_fmap, Forall_forall. intros sd Hsd.
  change (0 <= score sd)%R.
  assert (Hin : sd ∈ finals).
  { rewrite <- Hperm, <- (take_drop (Z.to_nat k) ranked). apply elem_of_app. auto. }
  apply for_each_Ok in Hfinals.
  destruct (Forall2_elem_of_r _ _ _ _ Hfinals Hin) as (x & Hx & Hsc).
  apply scored_document_Ok in Hsc as (len & boost & _ & Hlen & Hboost & Hscore).
  rewrite Hscore.
  rewrite Forall_forall in Hraw. specialize (Hraw _ Hx). specialize (Hmult x.1).
  assert (Hlen1 : (1 <= len)%R).
  { rewrite Hlens in Hlen. apply IRData_init_Ok in Hi
      as (? & ? & ? & ? & sums & _ & _ & _ & ->). cbn [doc_lengths] in Hlen.
    apply dict_get_Some_elem in Hlen.
    apply list_elem_of_fmap in Hlen as ([k' v] & [= _ ->] & _). apply Rmax_l. }
  assert (Hb : (0 <= boost)%R).
  { destruct date_score_; [|lra]. unfold date_score in Hboost.
    apply bind_Ok in Hboost as (dobj & _ & Hboost).
    apply bind_Ok in Hboost as (tmin & _ & Hboost).
    apply bind_Ok in Hboost as (tmax & _ & Hboost).
    apply bind_Ok in Hboost as (t & _ & [= <-]).
    apply Rmult_le_pos; [apply Rabs_pos|unfold DATE_WEIGHT; lra]. }
  assert (0 <= x.2 / len)%R.
  { apply Rmult_le_pos; [exact Hraw|]. apply Rlt_le, Rinv_0_lt_compat. lra. }
  assert (0 <= x.2 / len * phrase_multiplier ps x.1)%R by (apply Rmult_le_pos; assumption).
  lra.
Qed.

End NonNegative.

Lemma search_scores_nonneg_witness :
  exists ir0 d1 d2 s,
    search (H := simple_externals) ir0 "a" 2 false true cosine_score
    = Ok [(d1, s); (d2, s)]
    /\ (0 <= s)%R.
Proof.
  destruct sample_search
    as (p & ir0 & qp & d1 & d2 & s & c1 & c2 & Hp & Hi & _ & _ & _ & _ & Hs).
  pose proof (search_scores_nonneg (H := simple_externals) sample_docs p ir0 ir0 None
                "a" 2 false true _ Hp Hi eq_refl Hs) as Hall.
  exists ir0, d1, d2, s. split; [exact Hs|].
  apply Forall_cons in Hall as [Hs1 _]. exact Hs1.
Defined.

(** ** Collections without terms, documents without dates *)

Section EmptyCollection.
Context `{Externals}.

(** X19. In a collection whose index has no term, a search for a query
    with at least one term does not return: the lookup of the first query
    term in the empty sequence of terms raises IndexError, which neither
    [cosine_score] nor [search] catches. *)
Theorem search_empty_index (ir : IRData) (query : string) (k : Z)
    (date_score_ phrase_query_score : bool) :
  tokens (pii ir) = Some [] ->
  (tokenize EmptyString ++ tokenize query)%list <> [] ->
  search ir query k date_score_ phrase_query_score cosine_score = Raise IndexError.
Proof.
  intros Hempty Hterms.
  destruct (create_query_pii_terms query) as (qp & qtoks & Hqp & Hqtoks & _ & Hk).
  destruct (create_query_pii_total query) as (qp' & Hqp' & (qtoks' & Hqtoks' & _ & Hwf)).
  rewrite Hqp in Hqp'. injection Hqp' as <-.
  rewrite Hqtoks in Hqtoks'. injection Hqtoks' as <-.
  unfold search. rewrite Hqp. cbn [mbind result_bind].
  unfold cosine_score, PII_iter. rewrite Hqtoks. cbn [not_none mbind result_bind].
  destruct qtoks as [|qt qtoks].
  { exfalso. destruct (tokenize EmptyString ++ tokenize query)%list as [|t ts] eqn:Hts;
      [congruence|].
    assert (Ht : t ∈ tokenize EmptyString \/ t ∈ tokenize query).
    { apply elem_of_app. rewrite Hts. left. }
    apply Hk in Ht. apply elem_of_nil in Ht as []. }
  apply Forall_cons in Hwf as [(ql & Hql & _ & Hqlne & _) _].
  cbn [for_fold]. rewrite Hql. cbn [not_none mbind result_bind].
  destruct ql as [|[qd first] ql]; [congruence|].
  change (py_index ((qd, first) :: ql) 0)
    with (Ok (qd, first) : result (string * DocumentTokenData)).
  cbn [mbind result_bind]. unfold PII_getitem. rewrite Hempty.
  cbn [not_none mbind result_bind]. rewrite binary_search_tuple_nil. reflexivity.
Qed.

(** X20. [IRData.__init__] needs a date for every document: it raises
    TypeError when a document has none, whatever the index, and when it ends
    normally every document has a date. *)
Theorem IRData_init_dates (p : PositionalInvertedIndexOnMemory) (ds : list Document) :
  (Exists (fun d => date d = None) ds -> IRData_init p ds = Raise TypeError)
  /\ forall ir, IRData_init p ds = Ok ir -> Forall (fun d => is_Some (date d)) ds.
Proof.
  assert (Hgen : forall s,
    match
      for_fold
        (fun '(acc, max_date, min_date) d =>
           d1 ← parse_date (date d) max_date;
           let max_date := datetime_max2 d1 max_date in
           d2 ← parse_date (date d) min_date;
           let min_date := datetime_min2 d2 min_date in
           Ok (dict_set acc (doc_id d)
                 {| doc_id := doc_id d; title := title d; url := url d;
                    content := EmptyString; date := date d; tags := None |},
               max_date, min_date))
        s ds
    with
    | Ok _ => Forall (fun d => is_Some (date d)) ds
    | Raise e => e = TypeError /\ Exists (fun d => date d = None) ds
    end).
  { induction ds as [|d ds IH]; intros s; cbn [for_fold]; [constructor|].
    destruct s as [[acc mx] mn].
    destruct (date d) as [str|] eqn:Hdate.
    - change (parse_date (Some str) mx)
        with (Ok (default mx (strptime str)) : result datetime).
      change (parse_date (Some str) mn)
        with (Ok (default mn (strptime str)) : result datetime).
      cbn [mbind result_bind].
      specialize (IH (dict_set acc (doc_id d)
                        {| doc_id := doc_id d; title := title d; url := url d;
                           content := EmptyString; date := Some str; tags := None |},
                      datetime_max2 (default mx (strptime str)) mx,
                      datetime_min2 (default mn (strptime str)) mn)).
      destruct (for_fold _ _ ds) as [s'|e].
      + constructor; [rewrite Hdate; eauto|exact IH].
      + destruct IH as [-> Hex]. split; [reflexivity|]. right. exact Hex.
    - change (parse_date None mx) with (Raise TypeError : result datetime).
      cbn [mbind result_bind]. split; [reflexivity|]. left. exact Hdate. }
  specialize (Hgen ([], datetime_min, datetime_max)).
  unfold IRData_init, IRData_documents.
  destruct (for_fold _ _ ds) as [[[dm mx] mn]|e]; cbn [mbind result_bind].
  - split.
    + intros Hex. exfalso. rewrite Forall_forall in Hgen.
      apply Exists_exists in Hex as (d & Hd & Hnone). specialize (Hgen d Hd).
      rewrite Hnone in Hgen. exact (is_Some_None Hgen).
    + intros ir _. exact Hgen.
  - destruct Hgen as [-> _]. split; [reflexivity|discriminate].
Qed.

End EmptyCollection.

Lemma search_empty_index_witness :
  search no_documents "a" 10 true true cosine_score = Raise IndexError.
Proof.
  apply (search_empty_index (H := simple_externals) no_documents "a" 10 true true eq_refl).
  discriminate.
Defined.

(** ** finalize and the number of documents *)

(** X21. [__finalize__] needs a positive number of documents as soon as
    the index has a term: for a number that is 0 or negative it raises
    ValueError, the math domain error of log2; for the index of no call it
    ends normally whatever the number. *)
Theorem finalize_document_count (occ : list (string * string * Z * R)) (n : Z) :
  exists p0,
    build occ = Ok p0
    /\ (occ = [] -> PII_finalize p0 n = Ok {| __tokens__ := Some []; tokens := Some [] |})
    /\ (occ <> [] -> n <= 0 -> PII_finalize p0 n = Raise ValueError).
Proof.
  destruct (build_recorded occ) as (p0 & Hp0 & Hb & Hr).
  exists p0. split; [exact Hp0|]. split.
  - intros ->. unfold PII_finalize. rewrite (recorded_nil _ Hb Hr). reflexivity.
  - intros Hne Hn. destruct Hb as (d & Hd & _ & Hall). destruct Hr as (d0 & Hd0 & Hrec).
    rewrite Hd in Hd0. injection Hd0 as <-.
    unfold PII_finalize. rewrite Hd. cbn [not_none mbind result_bind].
    destruct d as [|[t tok] d].
    { exfalso. destruct occ as [|o occ]; [congruence|].
      specialize (Hrec o.1.1.1 o.1.1.2). cbn [dict_get] in Hrec.
      unfold occurrences_of in Hrec. rewrite filter_cons_True in Hrec by auto.
      discriminate. }
    apply Forall_cons in Hall as [[Htok Hpos] _]. cbn [snd] in *.
    cbn [for_each snd]. unfold Token_finalize, calculate_idf.
    destruct (Z.eqb_spec (linear_df tok) 0) as [Hz|_]; [lia|].
    rewrite log2_Raise; [reflexivity|].
    assert (0 < IZR (linear_df tok))%R by (apply IZR_lt; lia).
    assert (IZR n <= 0)%R by (apply IZR_le; lia).
    assert (0 < / IZR (linear_df tok))%R by (apply Rinv_0_lt_compat; assumption).
    unfold Rdiv. nra.
Qed.

(** ** load_documents *)

Lemma for_each_json_str (ts : list string) : for_each json_str (JString <$> ts) = Ok ts.
Proof.
  induction ts as [|t ts IH]; [reflexivity|].
  rewrite fmap_cons. cbn [for_each json_str mbind result_bind]. rewrite IH. reflexivity.
Qed.

(** A loop raises what its body raises at the first element at which it does
    not end normally. *)
Lemma for_each_raise {A B} (f : A -> result B) (l1 l2 : list A) (x : A) (e : exn) :
  Forall (fun y => exists z, f y = Ok z) l1 -> f x = Raise e ->
  for_each f (l1 ++ x :: l2) = Raise e.
Proof.
  intros Hall Hx. induction Hall as [|y l1 (z & Hz) _ IH]; cbn [app for_each].
  - rewrite Hx. reflexivity.
  - rewrite Hz, IH. reflexivity.
Qed.

Lemma document_fields_encodes (item : string * json) (d : Document) :
  item.1 = doc_id d -> encodes item.2 d ->
  exists f, document_fields item = Ok f /\ typed_document f = Ok d.
Proof.
  destruct item as [k j], d as [did t u c dt tg]. cbn [fst snd doc_id].
  intros -> (Ht & Hu & Hc & Hd & Htg). cbn [title url content date tags] in *.
  unfold document_fields. cbn [fst snd]. rewrite Ht, Hu, Hc, Hd, Htg.
  cbn [mbind result_bind]. eexists. split; [reflexivity|].
  unfold typed_document. cbn [json_str mbind result_bind].
  destruct dt as [s|], tg as [ts|];
    cbn [json_optional json_str json_strs fmap result_fmap mbind result_bind];
    rewrite ?for_each_json_str; reflexivity.
Qed.

Lemma document_fields_found (item : string * json) :
  has_document_keys item.2 -> exists f, document_fields item = Ok f.
Proof.
  destruct item as [k j]. cbn [snd]. intros (fields & -> & Hall).
  unfold document_keys in Hall.
  apply Forall_cons in Hall as [[t Ht] Hall]. apply Forall_cons in Hall as [[u Hu] Hall].
  apply Forall_cons in Hall as [[c Hc] Hall]. apply Forall_cons in Hall as [[dt Hd] Hall].
  apply Forall_cons in Hall as [[tg Htg] _].
  unfold document_fields. cbn [snd json_item]. rewrite Ht, Hu, Hc, Hd, Htg.
  cbn [not_none mbind result_bind]. eauto.
Qed.

Lemma document_fields_missing (key : string) (fields : list (string * json))
    (k : string) :
  k ∈ document_keys -> dict_get fields k = None ->
  document_fields (key, JDict fields) = Raise KeyError.
Proof.
  intros Hk Hnone. unfold document_fields. cbn [snd json_item].
  destruct (dict_get fields "title") eqn:Ht; cbn [not_none mbind result_bind];
    [|reflexivity].
  destruct (dict_get fields "url") eqn:Hu; cbn [not_none mbind result_bind];
    [|reflexivity].
  destruct (dict_get fields "content") eqn:Hc; cbn [not_none mbind result_bind];
    [|reflexivity].
  destruct (dict_get fields "date") eqn:Hd; cbn [not_none mbind result_bind];
    [|reflexivity].
  destruct (dict_get fields "tags") eqn:Htg; cbn [not_none mbind result_bind];
    [|reflexivity].
  exfalso. unfold document_keys in Hk. rewrite !elem_of_cons, elem_of_nil in Hk.
  destruct Hk as [->|[->|[->|[->|[->|[]]]]]]; congruence.
Qed.

(** X22. [load_documents] returns one document per entry of the JSON
    object of the file, in the order of the file, with the key as id and the
    fields of the entry, whatever their order and whatever other fields the
    entry has. It raises FileNotFoundError when the file is absent,
    JSONDecodeError when the file is not JSON, AttributeError when the JSON
    value is not an object, and, when the entries before have the five
    fields, whatever their values, KeyError at an entry that lacks one of
    the five fields, url, date and tags included, and TypeError at an entry
    that is not an object. *)
Theorem load_documents_entries (fs : file_system) (file : string)
    (items : list (string * json)) (ds : list Document) :
  (dict_get fs file = None -> load_documents fs file = Raise FileNotFoundError)
  /\ (forall text,
        dict_get fs file = Some (NotJson text) ->
        load_documents fs file = Raise JSONDecodeError)
  /\ (forall j,
        dict_get fs file = Some (JsonText j) -> (forall d, j <> JDict d) ->
        load_documents fs file = Raise AttributeError)
  /\ (dict_get fs file = Some (JsonText (JDict items)) ->
      Forall2 (fun item d => item.1 = doc_id d /\ encodes item.2 d) items ds ->
      load_documents fs file = Ok ds)
  /\ (forall before key entry rest,
        dict_get fs file = Some (JsonText (JDict (before ++ (key, entry) :: rest))) ->
        Forall (fun item => has_document_keys item.2) before ->
        (forall fields k,
           entry = JDict fields -> k ∈ document_keys -> dict_get fields k = None ->
           load_documents fs file = Raise KeyError)
        /\ ((forall fields, entry <> JDict fields) ->
            load_documents fs file = Raise TypeError)).
Proof.
  unfold load_documents, json_load. split; [intros ->; reflexivity|].
  split; [intros text ->; reflexivity|]. split; [|split].
  - intros j -> Hj. cbn [mbind result_bind].
    destruct j; try reflexivity. exfalso. eapply Hj. reflexivity.
  - intros -> Hall. cbn [mbind result_bind].
    assert (Hgen : exists found,
              for_each document_fields items = Ok found
              /\ for_each typed_document found = Ok ds).
    { induction Hall as [|item d items ds [Hk Henc] _ IH].
      - exists []. split; reflexivity.
      - destruct IH as (found & Hfound & Htyped).
        destruct (document_fields_encodes item d Hk Henc) as (f & Hf & Hd).
        exists (f :: found). cbn [for_each]. rewrite Hf, Hfound, Hd, Htyped.
        split; reflexivity. }
    destruct Hgen as (found & -> & Htyped). exact Htyped.
  - intros before key entry rest -> Hbefore. cbn [mbind result_bind].
    assert (Hfound : Forall (fun y => exists z, document_fields y = Ok z) before).
    { eapply Forall_impl; [exact Hbefore|]. intros item. apply document_fields_found. }
    split.
    + intros fields k -> Hk Hnone.
      rewrite (for_each_raise document_fields before rest _ KeyError Hfound);
        [reflexivity|]. eapply document_fields_missing; eassumption.
    + intros Hentry.
      rewrite (for_each_raise document_fields before rest _ TypeError Hfound);
        [reflexivity|].
      unfold document_fields. cbn [snd].
      destruct entry; try reflexivity. exfalso. eapply Hentry. reflexivity.
Qed.

Lemma load_documents_entries_witness :
  load_documents [("news.json", JsonText sample_source)] "news.json" = Ok sample_docs.
Proof.
  apply (load_documents_entries [("news.json", JsonText sample_source)] "news.json"
           [("1", JDict [("title", JString EmptyString); ("content", JString "a");
                         ("url", JString "u1"); ("date", JString "100");
                         ("tags", JNull)]);
            ("2", JDict [("title", JString EmptyString); ("content", JString "a");
                         ("url", JString "u2"); ("date", JString "200");
                         ("tags", JNull)])]
           sample_docs).
  - reflexivity.
  - repeat constructor.
Defined.

(** A title that is not a string does not hide the missing url: the lookups
    come first, and the code checks no type. *)
Example load_documents_missing_url :
  load_documents [("news.json", JsonText (JDict [("1", JDict [("title", JInt 5)])]))]
    "news.json"
  = Raise KeyError.
Proof. reflexivity. Qed.

(** ** Adding to an index that has been finalized *)

Lemma dict_set_Forall2 {A B} (P : A -> B -> Prop) (l : dict A) (l' : dict B)
    (k : string) (a : A) (b : B) :
  Forall2 (fun x y => y.1 = x.1 /\ P x.2 y.2) l l' -> P a b ->
  Forall2 (fun x y => y.1 = x.1 /\ P x.2 y.2) (dict_set l k a) (dict_set l' k b).
Proof.
  intros Hall Hab.
  induction Hall as [|[k1 a1] [k2 b1] l l' [Hk HP] Hall IH]; cbn [dict_set].
  - constructor; [split; [reflexivity|exact Hab]|constructor].
  - cbn [fst snd] in *. subst k2. destruct (String.eqb k1 k).
    + constructor; [split; [reflexivity|exact Hab]|exact Hall].
    + constructor; [split; [reflexivity|exact HP]|exact IH].
Qed.

Lemma for_each_Forall2_eq {A A' B} (f : A -> result B) (g : A' -> result B)
    (l : list A) (l' : list A') :
  Forall2 (fun x y => f x = g y) l l' -> for_each f l = for_each g l'.
Proof.
  induction 1 as [|x y l l' Hxy _ IH]; [reflexivity|].
  cbn [for_each]. rewrite Hxy, IH. reflexivity.
Qed.

Lemma counted_alike_add_position (a b : DocumentTokenData) (position : Z) (w : R) :
  counted_alike a b ->
  counted_alike (DocumentTokenData_add_position a position w)
                (DocumentTokenData_add_position b position w).
Proof.
  intros (Hl & Hp & Hw). unfold counted_alike, DocumentTokenData_add_position.
  cbn. rewrite Hl, Hp, Hw. auto.
Qed.

Lemma Token_add_position_alike (t t' : Token) (doc_id : string) (position : Z) (w : R) :
  gathered_alike t t' ->
  exists t1 t1',
    Token_add_position t doc_id position w = Ok t1
    /\ Token_add_position t' doc_id position w = Ok t1'
    /\ gathered_alike t1 t1'.
Proof.
  intros (Hdf & Hch & la & lb & Hla & Hlb & Hall).
  unfold Token_add_position. rewrite Hla, Hlb. cbn [not_none mbind result_bind].
  pose proof (dict_get_Forall2 counted_alike la lb doc_id Hall) as Hget.
  destruct (dict_get la doc_id) as [a|], (dict_get lb doc_id) as [b|]; try contradiction.
  - eexists. eexists. split; [reflexivity|]. split; [reflexivity|].
    split; [exact Hdf|]. split; [exact Hch|]. eexists. eexists.
    split; [reflexivity|]. split; [reflexivity|].
    apply dict_set_Forall2; [exact Hall|]. apply counted_alike_add_position, Hget.
  - eexists. eexists. split; [reflexivity|]. split; [reflexivity|].
    split; [cbn; rewrite Hdf; reflexivity|]. split; [exact Hch|]. eexists. eexists.
    split; [reflexivity|]. split; [reflexivity|].
    apply dict_set_Forall2; [exact Hall|]. apply counted_alike_add_position.
    repeat split.
Qed.

Lemma Token_new_alike : gathered_alike Token_new Token_new.
Proof.
  split; [reflexivity|]. split; [reflexivity|]. exists [], [].
  split; [reflexivity|]. split; [reflexivity|]. constructor.
Qed.

Lemma PII_add_token_alike (p q : PositionalInvertedIndexOnMemory)
    (token_str doc_id : string) (position : Z) (w : R) :
  gathering_alike p q ->
  exists p' q',
    PII_add_token p token_str doc_id position w = Ok p'
    /\ PII_add_token q token_str doc_id position w = Ok q'
    /\ gathering_alike p' q'.
Proof.
  intros (da & db & Hda & Hdb & Hall). unfold PII_add_token.
  rewrite Hda, Hdb. cbn [not_none mbind result_bind].
  assert (Hsrc : gathered_alike (default Token_new (dict_get da token_str))
                                (default Token_new (dict_get db token_str))).
  { pose proof (dict_get_Forall2 gathered_alike da db token_str Hall) as Hget.
    destruct (dict_get da token_str), (dict_get db token_str); try contradiction;
      [exact Hget|apply Token_new_alike]. }
  destruct (Token_add_position_alike _ _ doc_id position w Hsrc)
    as (t1 & t1' & -> & -> & Halike).
  cbn [mbind result_bind]. eexists. eexists. split; [reflexivity|].
  split; [reflexivity|]. eexists. eexists. split; [reflexivity|].
  split; [reflexivity|]. apply dict_set_Forall2; assumption.
Qed.

Lemma for_fold_add_token_alike (occ : list (string * string * Z * R))
    (p q : PositionalInvertedIndexOnMemory) :
  gathering_alike p q ->
  exists p' q',
    for_fold (fun p o => PII_add_token p o.1.1.1 o.1.1.2 o.1.2 o.2) p occ = Ok p'
    /\ for_fold (fun p o => PII_add_token p o.1.1.1 o.1.1.2 o.1.2 o.2) q occ = Ok q'
    /\ gathering_alike p' q'.
Proof.
  revert p q. induction occ as [|o occ IH]; intros p q Halike; cbn [for_fold].
  - exists p, q. auto.
  - destruct (PII_add_token_alike p q o.1.1.1 o.1.1.2 o.1.2 o.2 Halike)
      as (p' & q' & -> & -> & Halike').
    cbn [mbind result_bind]. apply IH, Halike'.
Qed.

Lemma update_tf_alike (a b : DocumentTokenData) :
  counted_alike a b -> DocumentTokenData_update_tf a = DocumentTokenData_update_tf b.
Proof.
  intros (Hl & Hp & Hw). unfold DocumentTokenData_update_tf. rewrite Hl, Hp, Hw.
  reflexivity.
Qed.

Lemma Token_finalize_alike (t t' : Token) (n : Z) :
  gathered_alike t t' -> Token_finalize t n = Token_finalize t' n.
Proof.
  intros (Hdf & Hch & la & lb & Hla & Hlb & Hall). unfold Token_finalize.
  rewrite Hdf, Hch, Hla, Hlb.
  destruct (calculate_idf (linear_df t') n); [|reflexivity].
  cbn [not_none mbind result_bind].
  rewrite (for_each_Forall2_eq _
             (fun kd => d ← DocumentTokenData_update_tf kd.2; Ok (kd.1, d)) la lb);
    [reflexivity|].
  eapply Forall2_impl; [exact Hall|]. intros x y [Hk Hc]. cbn beta.
  rewrite Hk, (update_tf_alike _ _ Hc). reflexivity.
Qed.

Lemma PII_finalize_alike (p q : PositionalInvertedIndexOnMemory) (n : Z) :
  gathering_alike p q -> PII_finalize p n = PII_finalize q n.
Proof.
  intros (da & db & Hda & Hdb & Hall). unfold PII_finalize. rewrite Hda, Hdb.
  cbn [not_none mbind result_bind].
  rewrite (for_each_Forall2_eq _
             (fun kt => t ← Token_finalize kt.2 n; Ok (kt.1, t)) da db);
    [reflexivity|].
  eapply Forall2_impl; [exact Hall|]. intros x y [Hk Hc]. cbn beta.
  rewrite Hk, (Token_finalize_alike _ _ n Hc). reflexivity.
Qed.

Lemma PII_finalize_gathering (p0 p1 : PositionalInvertedIndexOnMemory) (n : Z) :
  PII_finalize p0 n = Ok p1 -> gathering_alike p1 p0.
Proof.
  intros Hf. apply PII_finalize_Ok in Hf as (d & d' & Hd & Hall & Hd' & _).
  exists d', d. split; [exact Hd'|]. split; [exact Hd|].
  apply Forall2_flip. eapply Forall2_impl; [exact Hall|].
  intros [k t] [k' t'] [Hk Ht]. cbn [fst snd] in *. split; [symmetry; exact Hk|].
  apply Token_finalize_Ok in Ht as (l & l' & Hl & Hl2 & _ & Hdf & Hl' & _ & Hch).
  split; [exact Hdf|]. split; [exact Hch|]. exists l', l.
  split; [exact Hl'|]. split; [exact Hl|].
  apply Forall2_flip. eapply Forall2_impl; [exact Hl2|].
  intros [k1 a] [k2 b] [Hk1 Hu]. cbn [fst snd] in *. split; [symmetry; exact Hk1|].
  unfold DocumentTokenData_update_tf in Hu.
  apply bind_Ok in Hu as (x & _ & [= <-]). repeat split.
Qed.

(** X23. [__finalize__] does not close an index.  After it, occurrences can
    still be added with [__add_token__], and a second [__finalize__] then
    gives exactly what it gives on an index built from all the occurrences at
    once; in particular, repeating [__finalize__] with the same number of
    documents changes nothing. *)
Theorem finalize_then_extend (occ occ' : list (string * string * Z * R)) (n1 n : Z)
    (p0 p1 : PositionalInvertedIndexOnMemory) :
  build occ = Ok p0 -> PII_finalize p0 n1 = Ok p1 ->
  (exists p2,
     for_fold (fun p o => PII_add_token p o.1.1.1 o.1.1.2 o.1.2 o.2) p1 occ' = Ok p2
     /\ PII_finalize p2 n = (q ← build (occ ++ occ'); PII_finalize q n))
  /\ PII_finalize p1 n1 = Ok p1.
Proof.
  intros Hb Hf. pose proof (PII_finalize_gathering _ _ _ Hf) as Halike. split.
  - destruct (for_fold_add_token_alike occ' p1 p0 Halike) as (p2 & q & Hp2 & Hq & Halike2).
    exists p2. split; [exact Hp2|]. unfold build in *. rewrite for_fold_app, Hb.
    cbn [mbind result_bind]. rewrite Hq. cbn [mbind result_bind].
    apply PII_finalize_alike, Halike2.
  - rewrite (PII_finalize_alike _ _ n1 Halike). exact Hf.
Qed.

Lemma finalize_then_extend_witness :
  exists p0 p1,
    build sample_occurrences = Ok p0 /\ PII_finalize p0 2 = Ok p1
    /\ (exists p2,
          for_fold (fun p o => PII_add_token p o.1.1.1 o.1.1.2 o.1.2 o.2) p1
            [("c", "3", 0, 1%R)] = Ok p2
          /\ PII_finalize p2 3
             = (q ← build (sample_occurrences ++ [("c", "3", 0, 1%R)]); PII_finalize q 3))
    /\ PII_finalize p1 2 = Ok p1.
Proof.
  destruct sample_occurrences_finalize as (p0 & p1 & Hb & Hf).
  exists p0, p1. split; [exact Hb|]. split; [exact Hf|].
  exact (finalize_then_extend sample_occurrences [("c", "3", 0, 1%R)] 2 3 p0 p1 Hb Hf).
Defined.

(** ** search: the documents that share a term with the query *)

Lemma foldl_add_opt_is_Some (o : option R) (cs : list (option R)) :
  is_Some (foldl add_opt o cs) <-> is_Some o \/ exists c, c ∈ cs /\ is_Some c.
Proof.
  revert o. induction cs as [|c cs IH]; intros o; cbn [foldl].
  - split; [auto|]. intros [?|(c & []%elem_of_nil & _)]; assumption.
  - rewrite IH. split.
    + intros [Ho|(c' & Hc' & Hs)].
      * destruct o as [a|]; [left; eauto|]. destruct c as [b|]; cbn [add_opt] in Ho.
        -- right. exists (Some b). split; [left|eauto].
        -- destruct Ho as [? [=]].
      * right. exists c'. split; [right; exact Hc'|exact Hs].
    + intros [Ho|(c' & Hc' & Hs)].
      * left. destruct Ho as [a ->]. destruct c; cbn [add_opt]; eauto.
      * apply elem_of_cons in Hc' as [->|Hc'].
        -- left. destruct Hs as [b ->]. destruct o; cbn [add_opt]; eauto.
        -- right. eauto.
Qed.

Lemma contribution_posting_of (p : PositionalInvertedIndexOnMemory)
    (toks : list (string * Token)) (doc : string) (qt : string * Token) :
  well_formed p -> tokens p = Some toks -> toks <> [] ->
  is_Some (contribution p doc qt) <-> exists dd, posting_of p qt.1 doc = Ok dd.
Proof.
  intros (toks0 & Htoks0 & Hsorted & Hall) Htoks Hne.
  rewrite Htoks in Htoks0. injection Htoks0 as <-.
  unfold contribution, posting_of, PII_getitem. rewrite Htoks.
  cbn [mbind option_bind not_none result_bind].
  rewrite binary_search_tuple_sorted by assumption. unfold dict_item.
  destruct (dict_get toks qt.1) as [t|] eqn:Hget;
    cbn [mbind option_bind not_none result_bind].
  - apply dict_get_Some_elem in Hget. rewrite Forall_forall in Hall.
    destruct (Hall _ Hget) as (l & Hl & Hls & Hlne & Hch). cbn [snd] in *.
    unfold Token_getitem, Token_get_search_scope_list. rewrite Hch, Hl.
    cbn [mbind option_bind not_none result_bind].
    rewrite binary_search_tuple_sorted by assumption. unfold dict_item.
    destruct (dict_get l doc); cbn [mbind option_bind not_none]; split; eauto;
      intros [? [=]].
  - split; intros [? [=]].
Qed.

Section Matching.
Context `{Externals}.

Lemma document_occurrences_doc (d : Document) (o : string * string * Z * R) :
  o ∈ document_occurrences d -> o.1.1.2 = doc_id d.
Proof.
  unfold document_occurrences. intros Ho. apply elem_of_app in Ho as [Ho|Ho].
  - apply list_elem_of_fmap in Ho as (tw & -> & _). reflexivity.
  - apply list_elem_of_lookup in Ho as (i & Hi). rewrite list_lookup_imap in Hi.
    destruct (get_tokens d !! i); [|discriminate]. injection Hi as <-. reflexivity.
Qed.

Lemma document_occurrences_terms (d : Document) (t : string) :
  t ∈ document_terms d <-> exists o, o ∈ document_occurrences d /\ o.1.1.1 = t.
Proof.
  unfold document_terms, document_occurrences. rewrite elem_of_app. split.
  - intros [Ht|Ht].
    + apply list_elem_of_fmap in Ht as ([t' w] & -> & Hw).
      exists (t', doc_id d, -1, w). split; [|reflexivity].
      apply elem_of_app. left. apply list_elem_of_fmap. exists (t', w). auto.
    + apply list_elem_of_lookup in Ht as (i & Hi).
      exists (t, doc_id d, Z.of_nat i, 1%R). split; [|reflexivity].
      apply elem_of_app. right. apply list_elem_of_lookup. exists i.
      rewrite list_lookup_imap, Hi. reflexivity.
  - intros (o & Ho & <-). apply elem_of_app in Ho as [Ho|Ho].
    + apply list_elem_of_fmap in Ho as (tw & -> & Hw). left.
      apply list_elem_of_fmap. exists tw. auto.
    + apply list_elem_of_lookup in Ho as (i & Hi). rewrite list_lookup_imap in Hi.
      destruct (get_tokens d !! i) as [t|] eqn:Ht; [|discriminate].
      injection Hi as <-. right. eapply list_elem_of_lookup_2, Ht.
Qed.

(** X24. In a collection without champions lists whose index [create_pii]
    built from its documents, every document that [search] returns shares a
    term with the query (a term of its title, tags or content that is a term
    of the query), and when [k] is at least the number of documents, every
    document that shares a term with the query is returned. *)
Theorem search_finds_matching (ds : list Document) (p : PositionalInvertedIndexOnMemory)
    (ir : IRData) (query : string) (k : Z) (date_score_ phrase_query_score : bool)
    (res : list (Document * R)) :
  create_pii ds = Ok p -> IRData_init p ds = Ok ir ->
  search ir query k date_score_ phrase_query_score cosine_score = Ok res ->
  (forall r, r ∈ res ->
     exists d t,
       d ∈ ds /\ doc_id d = doc_id r.1 /\ t ∈ document_terms d
       /\ (t ∈ tokenize EmptyString \/ t ∈ tokenize query))
  /\ (Z.of_nat (length ds) <= k ->
      forall d t,
        d ∈ ds -> t ∈ document_terms d ->
        t ∈ tokenize EmptyString \/ t ∈ tokenize query ->
        exists r, r ∈ res /\ doc_id r.1 = doc_id d).
Proof.
  intros Hp Hi Hs. pose proof (create_pii_well_formed _ _ Hp) as Hwf.
  rewrite create_pii_build in Hp.
  destruct (build_recorded (collection_occurrences ds)) as (p0 & Hp0 & Hb & Hr).
  rewrite Hp0 in Hp. cbn [mbind result_bind] in Hp.
  apply IRData_init_Ok in Hi as (dm & mx & mn & toks & sums & Hdm & Htoks & _ & ->).
  apply IRData_documents_stored in Hdm as [Hstored _]. rewrite Forall_forall in Hstored.
  destruct (create_query_pii_terms query) as (qp & qtoks & Hqp & Hqtoks & _ & Hqk).
  destruct (create_query_pii_total query) as (qp' & Hqp' & Hqwf).
  rewrite Hqp in Hqp'. injection Hqp' as <-.
  apply search_Ok in Hs
    as (qp1 & dsc & ps & finals & ranked & Hqp1 & Hdsc & _ & Hfinals & Hperm & _ & ->).
  rewrite Hqp in Hqp1. injection Hqp1 as <-. cbn [pii] in Hdsc.
  pose proof (cosine_score_NoDup _ _ _ Hdsc) as Hnd.
  apply for_each_Ok in Hfinals.
  (* the entries of the raw scores, by the calls of create_pii *)
  assert (Hentry : forall id,
    is_Some (dict_get dsc id)
    <-> exists t o,
          o ∈ collection_occurrences ds /\ o.1.1.1 = t /\ o.1.1.2 = id
          /\ t ∈ qtoks.*1).
  { revert Hr Hp. generalize (collection_occurrences ds). intros occ Hr Hp.
    destruct occ as [|o1 occ].
    - pose proof (finalize_nil _ _ _ Hb Hr Hp) as Hempty.
      destruct (cosine_score_empty_index _ _ _ Hempty Hdsc) as [_ ->].
      intros id. cbn [dict_get]. split; [intros [? [=]]|].
      intros (t & o & []%elem_of_nil & _).
    - pose proof (finalize_terms _ _ _ _ _ Hb Hr Hp Htoks) as [_ Hterms].
      assert (Htne : toks <> []).
      { intros ->. apply (elem_of_nil o1.1.1.1). apply (Hterms o1.1.1.1).
        exists o1. split; [left|reflexivity]. }
      assert (Hsearchable : searchable p).
      { destruct Hwf as (toks0 & Htoks0 & Hsorted & Hall).
        rewrite Htoks in Htoks0. injection Htoks0 as <-.
        exists toks. split; [exact Htoks|]. split; [exact Hsorted|].
        split; [exact Htne|]. eapply Forall_impl; [exact Hall|]. cbv beta.
        intros st (l & Hl & Hls & Hlne & Hch). exists l.
        unfold Token_get_search_scope_list. rewrite Hch. auto. }
      destruct (cosine_score_contributions p qp qtoks Hsearchable Hqwf Hqtoks)
        as (dsc' & Hdsc' & Hget).
      rewrite Hdsc in Hdsc'. injection Hdsc' as <-.
      intros id. rewrite Hget, foldl_add_opt_is_Some. split.
      + intros [[? [=]]|(c & Hc & Hsome)].
        apply list_elem_of_fmap in Hc as (qt & -> & Hqt).
        apply (contribution_posting_of p toks) in Hsome as (dd & Hdd); [|assumption..].
        rewrite (finalize_posting_of _ _ _ _ _ _ Hb Hr Hp) in Hdd.
        destruct (occurrences_of (o1 :: occ) qt.1 id) as [|o os] eqn:Hos;
          [discriminate|].
        assert (Ho : o ∈ occurrences_of (o1 :: occ) qt.1 id) by (rewrite Hos; left).
        apply list_elem_of_filter in Ho as [[Ht Hd] Ho].
        exists qt.1, o. repeat split; try assumption.
        apply list_elem_of_fmap. eauto.
      + intros (t & o & Ho & Ht & Hd & Hq). right.
        apply list_elem_of_fmap in Hq as (qt & -> & Hqt).
        exists (contribution p id qt). split; [apply list_elem_of_fmap; eauto|].
        apply (contribution_posting_of p toks); [assumption..|].
        rewrite (finalize_posting_of _ _ _ _ _ _ Hb Hr Hp).
        assert (Hin : o ∈ occurrences_of (o1 :: occ) qt.1 id)
          by (apply list_elem_of_filter; auto).
        destruct (occurrences_of (o1 :: occ) qt.1 id);
          [apply elem_of_nil in Hin as []|eauto]. }
  (* the same, by the documents *)
  assert (Hdoc : forall id,
    is_Some (dict_get dsc id)
    <-> exists d t,
          d ∈ ds /\ doc_id d = id /\ t ∈ document_terms d
          /\ (t ∈ tokenize EmptyString \/ t ∈ tokenize query)).
  { intros id. rewrite Hentry. split.
    - intros (t & o & Ho & Ht & Hd & Hq). unfold collection_occurrences in Ho.
      apply list_elem_of_join in Ho as (os & Ho & Hos).
      apply list_elem_of_fmap in Hos as (d & -> & Hd'). exists d, t.
      split; [exact Hd'|]. split; [rewrite <- Hd; symmetry; apply document_occurrences_doc, Ho|].
      split; [apply document_occurrences_terms; eauto|apply Hqk, Hq].
    - intros (d & t & Hd & Hid & Ht & Hq).
      apply document_occurrences_terms in Ht as (o & Ho & Hot). exists t, o.
      split; [eapply document_occurrences_elem_of; eauto|]. split; [exact Hot|].
      split; [rewrite <- Hid; apply document_occurrences_doc, Ho|apply Hqk, Hq]. }
  assert (Hid : forall x sd,
    scored_document
      {| pii := p; docs := dm; max_doc_date := mx; min_doc_date := mn;
         doc_lengths := (fun kv => (kv.1, Rmax 1 (sqrt kv.2))) <$> sums |}
      ps date_score_ x = Ok sd ->
    doc_id (doc sd) = x.1).
  { intros x sd Hsc. apply scored_document_Ok in Hsc as (len & boost & Hd & _).
    cbn [docs] in Hd. apply dict_get_Some_elem in Hd.
    destruct (Hstored _ Hd) as (d0 & _ & [= Hx Hdoc0]). rewrite Hdoc0. symmetry.
    exact Hx. }
  split.
  - intros r Hr'. apply list_elem_of_fmap in Hr' as (sd & -> & Hsd). cbn [fst].
    assert (Hin : sd ∈ finals).
    { rewrite <- Hperm, <- (take_drop (Z.to_nat k) ranked). apply elem_of_app. auto. }
    destruct (Forall2_elem_of_r _ _ _ _ Hfinals Hin) as (x & Hx & Hsc).
    rewrite (Hid _ _ Hsc). apply Hdoc. destruct x as [id s]. cbn [fst].
    rewrite (dict_get_elem_NoDup _ _ _ Hnd Hx). eauto.
  - intros Hk d t Hd Ht Hq.
    assert (Hsome : is_Some (dict_get dsc (doc_id d))) by (apply Hdoc; eauto 10).
    destruct Hsome as [s Hs]. apply dict_get_Some_elem in Hs.
    destruct (Forall2_elem_of_l _ _ _ _ Hfinals Hs) as (sd & Hsd & Hsc).
    exists (doc sd, score sd). split; [|exact (Hid _ _ Hsc)].
    apply list_elem_of_fmap. exists sd. split; [reflexivity|].
    rewrite take_ge; [rewrite Hperm; exact Hsd|].
    rewrite (Permutation_length Hperm), <- (Forall2_length _ _ _ Hfinals).
    assert (Hlen : (length dsc <= length ds)%nat).
    { rewrite <- (length_fmap fst dsc), <- (length_fmap doc_id ds).
      apply submseteq_length, NoDup_submseteq; [exact Hnd|].
      intros id Hin. apply list_elem_of_fmap in Hin as ([id' s'] & -> & Hin).
      assert (Hsome : is_Some (dict_get dsc id'))
        by (rewrite (dict_get_elem_NoDup _ _ _ Hnd Hin); eauto).
      apply Hdoc in Hsome as (d1 & _ & Hd1 & <- & _). apply list_elem_of_fmap; eauto. }
    lia.
Qed.

End Matching.

Lemma search_finds_matching_witness :
  exists ir0 d1 d2 s,
    search (H := simple_externals) ir0 "a" 2 false true cosine_score
    = Ok [(d1, s); (d2, s)]
    /\ exists d t,
         d ∈ sample_docs /\ doc_id d = doc_id d1
         /\ t ∈ document_terms (H := simple_externals) d
         /\ (t ∈ tokenize (Externals := simple_externals) EmptyString
             \/ t ∈ tokenize (Externals := simple_externals) "a").
Proof.
  destruct sample_search
    as (p & ir0 & qp & d1 & d2 & s & c1 & c2 & Hp & Hi & _ & _ & _ & _ & Hs).
  destruct (search_finds_matching (H := simple_externals) sample_docs p ir0
              "a" 2 false true _ Hp Hi Hs) as [Hall _].
  exists ir0, d1, d2, s. split; [exact Hs|]. apply (Hall (d1, s)). left.
Defined.

(** ** search with date scoring in a collection without a range of dates *)

Section Undated.
Context `{Externals}.

(** X25. In a servable collection of which an end of the range of the
    dates has no timestamp, as the maximum [datetime.min] that
    [IRData.__init__] leaves when no date parses, a search with date scoring
    returns the empty list when [cosine_score] scores no document, and
    otherwise raises what [timestamp] raises, at the first scored document:
    the exception of the minimum if it has none, else the exception of the
    maximum. *)
Theorem search_undated (ir : IRData) (query : string) (k : Z)
    (phrase_query_score : bool) (e : exn) :
  servable ir ->
  timestamp (min_doc_date ir) = Raise e
  \/ (exists t, timestamp (min_doc_date ir) = Ok t)
     /\ timestamp (max_doc_date ir) = Raise e ->
  exists query_pii doc_scores,
    create_query_pii query = Ok query_pii
    /\ cosine_score (pii ir) query_pii = Ok doc_scores
    /\ search ir query k true phrase_query_score cosine_score
       = match doc_scores with
         | [] => Ok []
         | _ :: _ => Raise e
         end.
Proof.
  intros Hir Hrange. apply servable_searchable in Hir as [Hp Hdocs].
  pose proof Hp as (toks & Htoks & _).
  destruct (create_query_pii_total query) as (query_pii & Hq & Hwf).
  destruct (cosine_score_total _ _ _ Hp Htoks Hwf) as (doc_scores & Hc & Hids).
  exists query_pii, doc_scores. split; [exact Hq|]. split; [exact Hc|].
  unfold search. rewrite Hq. cbn [mbind result_bind]. rewrite Hc.
  cbn [mbind result_bind].
  assert (Hphrase : exists phrase_scores,
    (if phrase_query_score
     then Some <$> phrase_query (pii ir) query_pii (dict_keys doc_scores)
     else Ok None) = Ok phrase_scores).
  { destruct phrase_query_score; [|eauto].
    destruct (phrase_query_total (pii ir) query_pii (dict_keys doc_scores) Hp)
      as (m & ->); [|cbn; eauto].
    destruct Hwf as (qt & -> & _). eauto. }
  destruct Hphrase as (phrase_scores & ->). cbn [mbind result_bind].
  destruct doc_scores as [|ds doc_scores].
  { cbn [for_fold mbind result_bind]. rewrite nlargest_nil. reflexivity. }
  destruct (Hids ds.1) as (st & c & td & Hst & Hsc & Htd & Hid); [left|].
  destruct (Hdocs _ _ _ _ Htoks Hst Hsc Htd) as (d & len & Hd & [s Hs] & Hlen & Hne).
  rewrite Hid in Hd, Hlen.
  assert (Hraise : scored_document ir phrase_scores true ds = Raise e).
  { unfold scored_document, dict_item. rewrite Hd, Hlen.
    cbn [not_none mbind result_bind]. rewrite py_div_Ok by exact Hne.
    cbn [mbind result_bind]. unfold date_score, parse_date. rewrite Hs.
    cbn [mbind result_bind].
    destruct Hrange as [Hmin|[(t & Hmin) Hmax]]; rewrite Hmin; [reflexivity|].
    cbn [mbind result_bind]. rewrite Hmax. reflexivity. }
  cbn [for_fold]. rewrite Hraise. reflexivity.
Qed.

End Undated.

(** The collection of [undated_docs]: its index is the index of
    [sample_docs], and its range of dates is empty. *)
Lemma undated_collection :
  exists p ir0,
    create_pii (H := simple_externals) sample_docs = Ok p
    /\ create_pii (H := simple_externals) undated_docs = Ok p
    /\ IRData_init (H := simple_externals) p undated_docs = Ok ir0
    /\ pii ir0 = p
    /\ max_doc_date ir0 = datetime_min /\ min_doc_date ir0 = datetime_max.
Proof.
  destruct sample_collection as (p & ir0 & Hp & Hi).
  assert (Hsame : create_pii (H := simple_externals) undated_docs
                  = create_pii (H := simple_externals) sample_docs) by reflexivity.
  apply IRData_init_Ok in Hi as (dm & mx & mn & toks & sums & _ & Htoks & Hsums & _).
  exists p. eexists. split; [exact Hp|]. split; [rewrite Hsame; exact Hp|].
  split.
  - unfold IRData_init.
    change (IRData_documents (H := simple_externals) undated_docs) with
      (Ok ([("1", {| doc_id := "1"; title := EmptyString; url := "u1";
                     content := EmptyString; date := Some "x"; tags := None |});
            ("2", {| doc_id := "2"; title := EmptyString; url := "u2";
                     content := EmptyString; date := Some "y"; tags := None |})],
           datetime_min (Externals := simple_externals),
           datetime_max (Externals := simple_externals))
       : result (dict Document * Z * Z)).
    cbn [mbind result_bind]. rewrite Htoks. cbn [not_none mbind result_bind].
    rewrite Hsums. reflexivity.
  - split; [reflexivity|]. split; reflexivity.
Qed.

Lemma search_undated_witness :
  exists p ir0,
    create_pii (H := simple_externals) undated_docs = Ok p
    /\ IRData_init (H := simple_externals) p undated_docs = Ok ir0
    /\ search ir0 "a" 10 true true cosine_score = Raise ValueError.
Proof.
  destruct undated_collection as (p & ir0 & Hsample & Hp & Hi & Hpii & Hmax & Hmin).
  destruct sample_search
    as (p' & ir' & qp & d1 & d2 & s & c1 & c2 & Hp' & Hi' & Hq & Hc & _).
  rewrite Hsample in Hp'. injection Hp' as <-.
  assert (Hpii' : pii ir' = p).
  { apply IRData_init_Ok in Hi' as (? & ? & ? & ? & ? & _ & _ & _ & ->). reflexivity. }
  rewrite Hpii' in Hc.
  assert (Hserv : servable ir0).
  { apply (create_pii_servable undated_docs p ir0 ir0 None Hp Hi eq_refl); [auto|].
    intros Htoks. destruct (cosine_score_empty_index _ _ _ Htoks Hc) as [_ Hnil].
    discriminate. }
  destruct (search_undated (H := simple_externals) ir0 "a" 10 true ValueError Hserv)
    as (qp' & dsc & Hq' & Hc' & Hs).
  { right. rewrite Hmin, Hmax. split; [eexists|]; reflexivity. }
  rewrite Hq in Hq'. injection Hq' as <-. rewrite Hpii, Hc in Hc'. injection Hc' as <-.
  exists p, ir0. split; [exact Hp|]. split; [exact Hi|exact Hs].
Defined.

(** ** finalize: the weights and the order of what the calls built *)

(** C2. The calls of [__add_token__] always build an index; [finalize]
    ends normally on it for a positive document count; and whenever it ends
    normally, the index that it leaves has the terms that the calls named and
    no other, each with the documents that the calls named with the term and
    no other, as many as its linear_df, and each posting with the positions,
    the count and the weight factor of its calls; and there every posting has
    tf = 0 if linear_tf == 0 else (1 + log2(linear_tf)) * weight_factor,
    every term has idf = 0 if linear_df == 0 else
    log2(document_count / linear_df), the postings of each term are in
    ascending order of document id and the terms in ascending order. *)
Theorem finalize_weights_and_order
    (occurrences : list (string * string * Z * R)) (document_count : Z) :
  exists p0,
    build occurrences = Ok p0
    /\ (0 < document_count -> exists p, PII_finalize p0 document_count = Ok p)
    /\ (forall p,
          PII_finalize p0 document_count = Ok p ->
          finalized document_count p
          /\ exists toks,
               tokens p = Some toks
               /\ (forall t, t ∈ toks.*1 <-> exists o, o ∈ occurrences /\ o.1.1.1 = t)
               /\ forall st,
                    st ∈ toks ->
                    linear_df st.2
                    = Z.of_nat (length (occurrence_documents occurrences st.1))
                    /\ exists l,
                         list_ st.2 = Some l
                         /\ (forall doc,
                               doc ∈ l.*1
                               <-> occurrences_of occurrences st.1 doc <> [])
                         /\ forall td,
                              td ∈ l ->
                              td.2 = finalized_posting_of
                                       (occurrences_of occurrences st.1 td.1)).
Proof.
  destruct (build_recorded occurrences) as (p0 & Hp0 & Hb & Hr).
  exists p0. split; [exact Hp0|]. split.
  { intros Hn. apply PII_finalize_total; assumption. }
  intros p Hfin. split; [eapply PII_finalize_finalized; eassumption|].
  pose proof (PII_finalize_well_formed _ _ _ Hb Hfin) as (toks & Htoks & Hsorted & Hwf).
  exists toks. split; [exact Htoks|].
  pose proof (finalize_terms _ _ _ _ _ Hb Hr Hfin Htoks) as [_ Hterms].
  split; [exact Hterms|]. intros st Hst.
  rewrite Forall_forall in Hwf. destruct (Hwf _ Hst) as (l & Hl & Hls & Hlne & Hch).
  pose proof (finalize_entries _ _ _ _ _ Hb Hr Hfin Htoks st l) as Hentries.
  assert (Hitem : PII_getitem p st.1 = Ok st.2).
  { destruct l as [|td l]; [congruence|].
    destruct (Hentries td Hst Hl ltac:(left)) as [Hitem _]. exact Hitem. }
  split.
  - pose proof (finalize_linear_df occurrences p0 p document_count st.1 Hb Hr Hfin) as Hdf.
    rewrite Hitem in Hdf. cbn [fmap result_fmap] in Hdf.
    destruct occurrences as [|o occ]; [discriminate|].
    destruct (occurrence_documents (o :: occ) st.1); [discriminate|].
    injection Hdf as ->. reflexivity.
  - exists l. split; [exact Hl|]. split.
    + intros doc. split.
      * intros Hdoc. apply list_elem_of_fmap in Hdoc as (td & -> & Htd).
        destruct (Hentries td Hst Hl Htd) as (_ & Hne & _). exact Hne.
      * intros Hne.
        pose proof (finalize_posting_of occurrences p0 p document_count st.1 doc
                      Hb Hr Hfin) as Hpost.
        destruct (occurrences_of occurrences st.1 doc) as [|o os]; [congruence|].
        unfold posting_of in Hpost. rewrite Hitem in Hpost.
        cbn [mbind result_bind] in Hpost. unfold Token_getitem in Hpost.
        unfold Token_get_search_scope_list in Hpost. rewrite Hch, Hl in Hpost.
        cbn [not_none mbind result_bind] in Hpost.
        apply binary_search_tuple_Ok_elem in Hpost.
        apply list_elem_of_fmap. eexists. split; [|exact Hpost]. reflexivity.
    + intros td Htd. destruct (Hentries td Hst Hl Htd) as (_ & _ & Heq). exact Heq.
Qed.

Lemma finalize_weights_and_order_witness :
  exists p0 p,
    build sample_occurrences = Ok p0
    /\ PII_finalize p0 2 = Ok p
    /\ finalized 2 p
    /\ exists toks, tokens p = Some toks /\ toks.*1 = ["a"; "b"].
Proof.
  destruct (finalize_weights_and_order sample_occurrences 2) as (p0 & Hb & Htot & Hfin).
  destruct Htot as (p & Hp); [lia|].
  destruct (Hfin p Hp) as (Hfinalized & toks & Htoks & Hterms & _).
  exists p0, p. split; [exact Hb|]. split; [exact Hp|]. split; [exact Hfinalized|].
  exists toks. split; [exact Htoks|].
  destruct Hfinalized as (toks0 & Htoks0 & Hsorted & _).
  rewrite Htoks in Htoks0. injection Htoks0 as <-.
  apply (StronglySorted_str_lt_unique toks.*1 ["a"; "b"] Hsorted).
  - repeat constructor.
  - intros t. rewrite Hterms. unfold sample_occurrences. split.
    + intros (o & Ho & <-). rewrite !elem_of_cons, elem_of_nil in Ho.
      destruct Ho as [->|[->|[->|[->|[->|[]]]]]]; cbn [fst];
        rewrite !elem_of_cons; auto.
    + rewrite !elem_of_cons, elem_of_nil. intros [->|[->|[]]].
      * exists ("a", "2", 0, 1%R). split; [|reflexivity]. rewrite !elem_of_cons. auto.
      * exists ("b", "2", 1, 1%R). split; [|reflexivity]. rewrite !elem_of_cons. auto.
Defined.
